(** * The SQL compatibility shim of [src/app/api/execute-sql/route.ts]

    The route rewrites a subset of PostgreSQL syntax by regular-expression
    substitution ([convertPostgreSQLFunctions]), decides by substring probes
    whether it can aggregate the query itself ([executeConvertedQuery]) and
    then re-implements GROUP BY over the fetched rows
    ([processDateTruncQuery], [processGroupByDatePart],
    [processGenericGroupBy]).

    Conventions of the embedding.
    - A JavaScript string is a [string]: a sequence of code units below 256.
    - A regular expression literal is a value of [regex]; [run] is the
      backtracking matcher of the language specification restricted to the
      constructs the route uses (greedy quantifiers over character classes,
      optional groups, alternation, captures, [$]).
    - Integer-valued numbers are [Z]; [NaN] is a separate constructor.
    - A thrown exception is the [Throw] alternative of [completion].
    - The time zone of the host is a parameter: a fixed offset in minutes
      east of UTC. *)

From Stdlib Require Import ZArith String Ascii List Lia Bool Sorted Permutation.
From stdpp Require Import gmap strings list fin_maps.

Local Open Scope string_scope.
Local Open Scope Z_scope.

(* ===================================================================== *)
(** ** Characters and strings                                             *)
(* ===================================================================== *)

Module Js.

Definition code (c : ascii) : N := N_of_ascii c.

Definition in_range (lo hi : N) (c : ascii) : bool :=
  ((lo <=? code c) && (code c <=? hi))%N.

Definition is_upper (c : ascii) : bool := in_range 65 90 c.
Definition is_lower (c : ascii) : bool := in_range 97 122 c.
Definition is_digit (c : ascii) : bool := in_range 48 57 c.

(** [\w] is [A-Za-z0-9_]. *)
Definition is_word (c : ascii) : bool :=
  is_upper c || is_lower c || is_digit c || Ascii.eqb c "_".

(** [\s] below U+0100: TAB, LF, VT, FF, CR, SPACE and NO-BREAK SPACE.
    [String.prototype.trim] strips the same set. *)
Definition is_space (c : ascii) : bool :=
  in_range 9 13 c || (code c =? 32)%N || (code c =? 160)%N.

(** Latin-1 letters with a case pair inside Latin-1: U+00C0..U+00DE except
    the multiplication sign, and U+00E0..U+00FE except the division sign. *)
Definition is_upper_latin1 (c : ascii) : bool :=
  in_range 192 222 c && negb (code c =? 215)%N.
Definition is_lower_latin1 (c : ascii) : bool :=
  in_range 224 254 c && negb (code c =? 247)%N.

Definition lower_char (c : ascii) : ascii :=
  if is_upper c || is_upper_latin1 c then ascii_of_N (code c + 32) else c.

(** [Canonicalize] of a case-insensitive match: simple upper-casing, kept
    inside the code units below 256. *)
Definition upper_char (c : ascii) : ascii :=
  if is_lower c || is_lower_latin1 c then ascii_of_N (code c - 32) else c.

(** [String.prototype.toLowerCase] *)
Fixpoint toLowerCase (s : string) : string :=
  match s with
  | EmptyString => EmptyString
  | String c s' => String (lower_char c) (toLowerCase s')
  end.

(** [String.prototype.startsWith] *)
Fixpoint startsWith (s pat : string) {struct pat} : bool :=
  match pat with
  | EmptyString => true
  | String p pat' =>
      match s with
      | String a s' => Ascii.eqb p a && startsWith s' pat'
      | EmptyString => false
      end
  end.

(** [String.prototype.includes] *)
Fixpoint includes (s pat : string) : bool :=
  startsWith s pat ||
  match s with
  | EmptyString => false
  | String _ s' => includes s' pat
  end.

Fixpoint take (n : nat) (s : string) : string :=
  match n, s with
  | S n', String c s' => String c (take n' s')
  | _, _ => EmptyString
  end.

Fixpoint drop (n : nat) (s : string) : string :=
  match n, s with
  | S n', String _ s' => drop n' s'
  | _, _ => s
  end.

(** [s.substring(i, j)] for [i <= j] *)
Definition slice (i j : nat) (s : string) : string := take (j - i) (drop i s).

Fixpoint trimStart (s : string) : string :=
  match s with
  | String c s' => if is_space c then trimStart s' else s
  | EmptyString => EmptyString
  end.

(** [trimEnd], written as a right fold: a white-space character is dropped
    when everything after it has been dropped. *)
Fixpoint trimEnd (s : string) : string :=
  match s with
  | String c s' =>
      match trimEnd s' with
      | EmptyString => if is_space c then EmptyString else String c EmptyString
      | t => String c t
      end
  | EmptyString => EmptyString
  end.

(** [String.prototype.trim] *)
Definition trim (s : string) : string := trimEnd (trimStart s).

(** [s.split(sep)[0]] for a one-character separator: the text before the
    first separator, all of [s] when there is none. *)
Fixpoint before_first (sep : ascii) (s : string) : string :=
  match s with
  | String c s' => if Ascii.eqb c sep then EmptyString else String c (before_first sep s')
  | EmptyString => EmptyString
  end.

(** [Array.prototype.join] on strings *)
Fixpoint join (sep : string) (l : list string) : string :=
  match l with
  | [] => EmptyString
  | [x] => x
  | x :: l' => x ++ sep ++ join sep l'
  end.

End Js.

(* ===================================================================== *)
(** ** Regular expressions                                                *)
(* ===================================================================== *)

Module Regex.
Import Js.

(** A character class: the listed set and whether the class is negated. *)
Record cclass := { neg : bool; mem : ascii -> bool }.

Definition cls (f : ascii -> bool) : cclass := {| neg := false; mem := f |}.
Definition ncls (f : ascii -> bool) : cclass := {| neg := true; mem := f |}.

Inductive regex : Type :=
| Eps
| Chr (c : ascii)             (* a pattern character *)
| Cls (k : cclass)            (* one character of a class *)
| Star (k : cclass)           (* class*, greedy *)
| Plus (k : cclass)           (* class+, greedy *)
| Seq (r1 r2 : regex)
| Alt (r1 r2 : regex)         (* r1|r2 *)
| Opt (r : regex)             (* (?:r)?, greedy *)
| Cap (n : nat) (r : regex)   (* capture group number n *)
| Eos.                        (* $ without the m flag *)

(** The pattern characters of a literal piece, in sequence. *)
Fixpoint lit (s : string) : regex :=
  match s with
  | EmptyString => Eps
  | String c EmptyString => Chr c
  | String c s' => Seq (Chr c) (lit s')
  end.

Fixpoint seq (l : list regex) : regex :=
  match l with
  | [] => Eps
  | [r] => r
  | r :: l' => Seq r (seq l')
  end.

(** Two code units match under the [i] flag when their canonical forms
    agree. *)
Definition chr_match (ic : bool) (p a : ascii) : bool :=
  if ic then Ascii.eqb (upper_char p) (upper_char a) else Ascii.eqb p a.

(** A code unit is in a set under the [i] flag when the set has a member
    with the same canonical form; a negated class inverts the answer. *)
Definition cls_match (ic : bool) (k : cclass) (a : ascii) : bool :=
  xorb (neg k)
       (mem k a || (ic && (mem k (upper_char a) || mem k (lower_char a)))).

(** Captures: group number, start and end offset from the start of the
    attempt; the latest entry of a group wins. *)
Definition caps := list (nat * (nat * nat)).

Definition outcome := option (nat * caps).

Fixpoint greedy (p : ascii -> bool) (k : string -> nat -> outcome)
    (s : string) (i : nat) : outcome :=
  match s with
  | String a s' =>
      if p a then
        match greedy p k s' (S i) with
        | Some r => Some r
        | None => k s i
        end
      else k s i
  | EmptyString => k s i
  end.

(** [run ic r k s i c]: match [r] at offset [i], where [s] is the rest of
    the input, then continue with [k]; alternatives are tried in the
    order of the specification, the first success is returned. *)
Fixpoint run (ic : bool) (r : regex)
    (k : string -> nat -> caps -> outcome)
    (s : string) (i : nat) (c : caps) : outcome :=
  match r with
  | Eps => k s i c
  | Chr p =>
      match s with
      | String a s' => if chr_match ic p a then k s' (S i) c else None
      | EmptyString => None
      end
  | Cls cl =>
      match s with
      | String a s' => if cls_match ic cl a then k s' (S i) c else None
      | EmptyString => None
      end
  | Star cl => greedy (cls_match ic cl) (fun s' i' => k s' i' c) s i
  | Plus cl =>
      match s with
      | String a s' =>
          if cls_match ic cl a
          then greedy (cls_match ic cl) (fun s' i' => k s' i' c) s' (S i)
          else None
      | EmptyString => None
      end
  | Seq r1 r2 => run ic r1 (run ic r2 k) s i c
  | Alt r1 r2 =>
      match run ic r1 k s i c with
      | Some x => Some x
      | None => run ic r2 k s i c
      end
  | Opt r' =>
      match run ic r' k s i c with
      | Some x => Some x
      | None => k s i c
      end
  | Cap n r' => run ic r' (fun s' i' c' => k s' i' ((n, (i, i')) :: c')) s i c
  | Eos =>
      match s with
      | EmptyString => k s i c
      | String _ _ => None
      end
  end.

(** One attempt at the start of [s]: the length of the match and its
    captures. *)
Definition exec (ic : bool) (r : regex) (s : string) : outcome :=
  run ic r (fun _ i c => Some (i, c)) s 0%nat [].

Fixpoint cap_lookup (n : nat) (c : caps) : option (nat * nat) :=
  match c with
  | [] => None
  | (m, se) :: c' => if Nat.eqb m n then Some se else cap_lookup n c'
  end.

(** The result array of a successful match: [whole] is element 0,
    [group n] element [n] ([None] for undefined). *)
Record match_result := {
  index : nat;
  whole : string;
  group : nat -> option string
}.

Definition mk_result (at_ : nat) (s : string) (len : nat) (c : caps) : match_result :=
  {| index := at_;
     whole := take len s;
     group := fun n =>
       match cap_lookup n c with
       | Some (b, e) => Some (slice b e s)
       | None => None
       end |}.

(** [RegExp.prototype.exec] of a regex without the [g] flag, and
    [String.prototype.match] with such a regex: the leftmost attempt that
    succeeds. *)
Fixpoint search_from (ic : bool) (r : regex) (at_ : nat) (s : string) : option match_result :=
  match exec ic r s with
  | Some (len, c) => Some (mk_result at_ s len c)
  | None =>
      match s with
      | EmptyString => None
      | String _ s' => search_from ic r (S at_) s'
      end
  end.

Definition search (ic : bool) (r : regex) (s : string) : option match_result :=
  search_from ic r 0 s.

(** [String.prototype.replace] with a [g] regex. [go skip s]: [skip] is the
    number of characters of [s] still covered by the previous match. After
    an empty match the scan moves on by one character. *)
Fixpoint replace_go (ic : bool) (r : regex) (tmpl : match_result -> string)
    (skip : nat) (s : string) : string :=
  match skip with
  | S n =>
      match s with
      | String _ s' => replace_go ic r tmpl n s'
      | EmptyString => EmptyString
      end
  | O =>
      match exec ic r s with
      | Some (len, c) =>
          tmpl (mk_result 0 s len c) ++
          match len, s with
          | S n, String _ s' => replace_go ic r tmpl n s'
          | O, String a s' => String a (replace_go ic r tmpl 0 s')
          | _, EmptyString => EmptyString
          end
      | None =>
          match s with
          | String a s' => String a (replace_go ic r tmpl 0 s')
          | EmptyString => EmptyString
          end
      end
  end.

Definition replace_all (ic : bool) (r : regex) (tmpl : match_result -> string)
    (s : string) : string :=
  replace_go ic r tmpl 0 s.

(** [String.prototype.replace] with a regex without the [g] flag: the first
    match only. *)
Definition replace_first (ic : bool) (r : regex) (tmpl : match_result -> string)
    (s : string) : string :=
  match search ic r s with
  | Some m =>
      take (index m) s ++ tmpl m ++ drop (index m + String.length (whole m)) s
  | None => s
  end.

(** [String.prototype.match] with a [g] regex: the matched substrings, in
    order; [None] is [null] (no match at all). *)
Fixpoint match_all_go (ic : bool) (r : regex) (skip : nat) (s : string) : list string :=
  match skip with
  | S n =>
      match s with
      | String _ s' => match_all_go ic r n s'
      | EmptyString => []
      end
  | O =>
      match exec ic r s with
      | Some (len, _) =>
          take len s ::
          match len, s with
          | S n, String _ s' => match_all_go ic r n s'
          | O, String _ s' => match_all_go ic r 0 s'
          | _, EmptyString => []
          end
      | None =>
          match s with
          | String _ s' => match_all_go ic r 0 s'
          | EmptyString => []
          end
      end
  end.

Definition match_all (ic : bool) (r : regex) (s : string) : option (list string) :=
  match match_all_go ic r 0 s with
  | [] => None
  | l => Some l
  end.

(** The classes of the route's patterns. *)
Definition ws : cclass := cls is_space.                          (* \s *)
Definition word : cclass := cls is_word.                         (* \w *)
Definition digit : cclass := cls is_digit.                       (* \d *)
Definition not_chr (x : ascii) : cclass := ncls (Ascii.eqb x).   (* [^x] *)
Definition type_chr : cclass :=                                  (* [\w\[\]] *)
  cls (fun a => is_word a || Ascii.eqb a "[" || Ascii.eqb a "]").
Definition ident_chr : cclass :=                                 (* [a-z0-9_] *)
  cls (fun a => is_lower a || is_digit a || Ascii.eqb a "_").

(** The text of a group, [""] when the group is undefined (as a [$n] of a
    replacement template prints it). *)
Definition group_text (m : match_result) (n : nat) : string :=
  match group m n with Some t => t | None => EmptyString end.

End Regex.

(* ===================================================================== *)
(** ** The syntax normaliser                                              *)
(* ===================================================================== *)

Import Js Regex.

(** [/EXTRACT\s*\(\s*(\w+)\s+FROM\s+([^)]+)\)/gi] *)
Definition re_extract : regex :=
  seq [lit "EXTRACT"; Star ws; Chr "("; Star ws; Cap 1 (Plus word); Plus ws;
       lit "FROM"; Plus ws; Cap 2 (Plus (not_chr ")")); Chr ")"].

(** [/(\w+)::[\w\[\]]+/gi] *)
Definition re_cast : regex :=
  seq [Cap 1 (Plus word); lit "::"; Plus type_chr].

(** [convertPostgreSQLFunctions] (route.ts, lines 82-105) *)
Definition convertPostgreSQLFunctions (query : string) : string :=
  let convertedQuery := query in
  let convertedQuery :=
    replace_all true re_extract
      (fun m => "DATE_PART('" ++ group_text m 1 ++ "', " ++ group_text m 2 ++ ")")
      convertedQuery in
  let convertedQuery :=
    replace_all true re_cast (fun m => group_text m 1) convertedQuery in
  convertedQuery.

(* ===================================================================== *)
(** ** Values, rows and exceptions                                        *)
(* ===================================================================== *)

(** Integer-valued numbers and [NaN]. *)
Inductive number := Num (z : Z) | NaN.

(** What a property read can yield: the scalars of a fetched row, and
    [PObject] for the members every object inherits from
    [Object.prototype] (opaque, truthy, not a date). *)
Inductive prim :=
| PUndefined
| PNull
| PBoolean (b : bool)
| PNumber (n : number)
| PString (s : string)
| PObject.

(** A field of a result row under construction: a primitive or a [Set] of
    primitives (the [_countries] and [_segments] accumulators). *)
Inductive value :=
| VPrim (p : prim)
| VSet (elems : list prim).

#[global] Instance number_eq_dec : EqDecision number.
Proof. solve_decision. Defined.
#[global] Instance prim_eq_dec : EqDecision prim.
Proof. solve_decision. Defined.
#[global] Instance value_eq_dec : EqDecision value.
Proof. solve_decision. Defined.

(** A fetched row and a result row. *)
Abbreviation row := (gmap string prim).
Abbreviation obj := (gmap string value).

Inductive exn :=
| Error (message : string)
| RangeError (message : string)
| TypeError (message : string).

(** [String(e)] of an exception, as a template literal prints it: the name
    alone when the message is empty. *)
Definition exn_to_string (e : exn) : string :=
  let print name m :=
    if String.eqb m EmptyString then name else name ++ ": " ++ m in
  match e with
  | Error m => print "Error" m
  | RangeError m => print "RangeError" m
  | TypeError m => print "TypeError" m
  end.

Inductive completion (A : Type) :=
| Normal (a : A)
| Throw (e : exn).
Arguments Normal {A} a.
Arguments Throw {A} e.

Definition bind {A B : Type} (m : completion A) (f : A -> completion B) : completion B :=
  match m with
  | Normal a => f a
  | Throw e => Throw e
  end.

Notation "'let*' x ':=' m 'in' k" := (bind m (fun x => k))
  (at level 10, x name, m at level 100, k at level 200).

(** What the runtime contributes and the route does not define. *)
Record host := {
  (** offset of local time from UTC, in minutes east *)
  tz_minutes : Z;
  (** [Date.parse] on the strings that are not in the ISO form read by
      [Date.parse_iso] below; [None] is [NaN] *)
  parse_other : string -> option Z;
  (** [ToNumber] on strings *)
  string_to_number : string -> number
}.

Module Val.

(** [ToBoolean] *)
Definition truthy (p : prim) : bool :=
  match p with
  | PUndefined | PNull => false
  | PBoolean b => b
  | PNumber (Num z) => negb (z =? 0)
  | PNumber NaN => false
  | PString s => negb (String.eqb s "")
  | PObject => true
  end.

(** [ToNumber] *)
Definition to_number (h : host) (p : prim) : number :=
  match p with
  | PUndefined => NaN
  | PNull => Num 0
  | PBoolean b => Num (if b then 1 else 0)
  | PNumber n => n
  | PString s => string_to_number h s
  | PObject => NaN
  end.

Definition num_add (a b : number) : number :=
  match a, b with
  | Num x, Num y => Num (x + y)
  | _, _ => NaN
  end.

Definition num_sub (a b : number) : number :=
  match a, b with
  | Num x, Num y => Num (x - y)
  | _, _ => NaN
  end.

(** [a || b] *)
Definition or_else (a b : prim) : prim := if truthy a then a else b.

(** The names every plain object inherits. *)
Definition inherited : list string :=
  ["constructor"; "hasOwnProperty"; "isPrototypeOf"; "propertyIsEnumerable";
   "toLocaleString"; "toString"; "valueOf"; "__proto__";
   "__defineGetter__"; "__defineSetter__"; "__lookupGetter__"; "__lookupSetter__"].

(** [row[name]] on a fetched row: the own property, else the inherited
    member, else [undefined]. *)
Definition get (r : row) (name : string) : prim :=
  match r !! name with
  | Some p => p
  | None => if bool_decide (name ∈ inherited) then PObject else PUndefined
  end.

(** [o[name]] on a result row, where the value read is used as a
    primitive. *)
Definition get_prim (o : obj) (name : string) : prim :=
  match o !! name with
  | Some (VPrim p) => p
  | Some (VSet _) => PObject
  | None => if bool_decide (name ∈ inherited) then PObject else PUndefined
  end.

(** [o[name] = v]: an assignment to [__proto__] with a primitive is the
    inherited setter, which ignores it. *)
Definition set (name : string) (v : value) (o : obj) : obj :=
  if String.eqb name "__proto__" then o else <[name := v]> o.

(** Decimal digits, most significant first. *)
Fixpoint digits (width : nat) (n : Z) : string :=
  match width with
  | O => EmptyString
  | S w => digits w (n / 10) ++ String (ascii_of_N (48 + Z.to_N (n mod 10))) EmptyString
  end.

Fixpoint width_of (fuel : nat) (n : Z) : nat :=
  match fuel with
  | O => 1%nat
  | S f => if n <? 10 then 1%nat else S (width_of f (n / 10))
  end.

(** [Number.prototype.toString] on [NaN] and on the integers that print
    without an exponent (below 10^21 in absolute value). *)
Definition number_to_string (n : number) : string :=
  match n with
  | NaN => "NaN"
  | Num z =>
      let a := Z.abs z in
      (if z <? 0 then "-" else "") ++ digits (width_of (Z.to_nat (Z.log2 a)) a) a
  end.

(** The text an element contributes to [Array.prototype.join]. *)
Definition join_text (p : prim) : string :=
  match p with
  | PUndefined | PNull => ""
  | PBoolean b => if b then "true" else "false"
  | PNumber n => number_to_string n
  | PString s => s
  | PObject => "[object Object]"
  end.

(** The value of a run of decimal digits. *)
Fixpoint parse_digits (acc : N) (s : string) : N :=
  match s with
  | String c s' => parse_digits (10 * acc + (N_of_ascii c - 48))%N s'
  | EmptyString => acc
  end.

(** The Number nearest to a natural number: itself up to 53 bits, beyond
    that the nearest multiple of the spacing of its binade, a tie going to
    the even one. A value beyond the largest Number stands for
    [Infinity]. *)
Definition to_double (n : N) : N :=
  let bits := N.size n in
  if (bits <=? 53)%N then n
  else
    let e := (bits - 53)%N in
    let q := N.shiftr n e in
    let r := (n - N.shiftl q e)%N in
    let half := N.shiftl 1 (e - 1) in
    let q := if (half <? r)%N || ((r =? half)%N && N.odd q) then (q + 1)%N else q in
    N.shiftl q e.

(** [parseInt] on a run of decimal digits. *)
Definition parseInt (s : string) : N := to_double (parse_digits 0 s).

(** [a < b] of two values read from result rows: strings compare by code
    units, anything else as numbers; a comparison with [NaN] is false. *)
Definition lt (h : host) (a b : prim) : bool :=
  match a, b with
  | PString x, PString y => String.ltb x y
  | _, _ =>
      match to_number h a, to_number h b with
      | Num x, Num y => x <? y
      | _, _ => false
      end
  end.

(** [arr.slice(0, n)] *)
Definition slice0 {A : Type} (n : N) (l : list A) : list A :=
  firstn (N.to_nat (N.min n (N.of_nat (length l)))) l.

(** [Array.prototype.sort] with a comparator: stable, [a] stays before [b]
    unless the comparator puts [b] strictly first. [before a b] is
    [comparator(a, b) < 0]. *)
Fixpoint insert_sorted {A : Type} (before : A -> A -> bool) (x : A) (l : list A) : list A :=
  match l with
  | [] => [x]
  | y :: l' => if before y x then y :: insert_sorted before x l' else x :: l
  end.

Fixpoint sort {A : Type} (before : A -> A -> bool) (l : list A) : list A :=
  match l with
  | [] => []
  | x :: l' => insert_sorted before x (sort before l')
  end.

End Val.

(* ===================================================================== *)
(** ** Dates                                                              *)
(* ===================================================================== *)

(** The [Date] object of the language specification, over time values in
    milliseconds since the epoch, with a fixed local offset. A [Date] is its
    time value, [NaN] for an invalid date. *)
Module Date.

Definition msPerDay : Z := 86400000.
Definition msPerHour : Z := 3600000.
Definition msPerMinute : Z := 60000.
Definition msPerSecond : Z := 1000.

Definition Day (t : Z) : Z := t / msPerDay.
Definition TimeWithinDay (t : Z) : Z := t mod msPerDay.

Definition DaysInYear (y : Z) : Z :=
  if negb (y mod 4 =? 0) then 365
  else if negb (y mod 100 =? 0) then 366
  else if negb (y mod 400 =? 0) then 365
  else 366.

Definition DayFromYear (y : Z) : Z :=
  365 * (y - 1970) + (y - 1969) / 4 - (y - 1901) / 100 + (y - 1601) / 400.

(** The largest [y] with [DayFromYear y <= Day t]: an estimate from the
    mean year length, moved by one year where it is off. *)
Definition YearFromDay (d : Z) : Z :=
  let y := 1970 + (d * 400) / 146097 in
  if d <? DayFromYear y then y - 1
  else if DayFromYear (y + 1) <=? d then y + 1
  else y.

Definition YearFromTime (t : Z) : Z := YearFromDay (Day t).
Definition InLeapYear (t : Z) : Z := if DaysInYear (YearFromTime t) =? 366 then 1 else 0.
Definition DayWithinYear (t : Z) : Z := Day t - DayFromYear (YearFromTime t).

Definition MonthFromTime (t : Z) : Z :=
  let d := DayWithinYear t in
  let l := InLeapYear t in
  if d <? 31 then 0
  else if d <? 59 + l then 1
  else if d <? 90 + l then 2
  else if d <? 120 + l then 3
  else if d <? 151 + l then 4
  else if d <? 181 + l then 5
  else if d <? 212 + l then 6
  else if d <? 243 + l then 7
  else if d <? 273 + l then 8
  else if d <? 304 + l then 9
  else if d <? 334 + l then 10
  else 11.

(** Days of the year before month [m] (0 is January). *)
Definition DaysBeforeMonth (m leap : Z) : Z :=
  match m with
  | 0 => 0
  | 1 => 31
  | 2 => 59 + leap
  | 3 => 90 + leap
  | 4 => 120 + leap
  | 5 => 151 + leap
  | 6 => 181 + leap
  | 7 => 212 + leap
  | 8 => 243 + leap
  | 9 => 273 + leap
  | 10 => 304 + leap
  | _ => 334 + leap
  end.

Definition DateFromTime (t : Z) : Z :=
  DayWithinYear t - DaysBeforeMonth (MonthFromTime t) (InLeapYear t) + 1.

Definition WeekDay (t : Z) : Z := (Day t + 4) mod 7.
Definition HourFromTime (t : Z) : Z := (t / msPerHour) mod 24.
Definition MinFromTime (t : Z) : Z := (t / msPerMinute) mod 60.
Definition SecFromTime (t : Z) : Z := (t / msPerSecond) mod 60.
Definition msFromTime (t : Z) : Z := t mod msPerSecond.

Definition MakeTime (hour min sec ms : Z) : Z :=
  hour * msPerHour + min * msPerMinute + sec * msPerSecond + ms.

Definition MakeDay (year month date : Z) : Z :=
  let ym := year + month / 12 in
  let mn := month mod 12 in
  DayFromYear ym + DaysBeforeMonth mn (if DaysInYear ym =? 366 then 1 else 0) + date - 1.

Definition MakeDate (day time : Z) : Z := day * msPerDay + time.

Definition TimeClip (t : Z) : number :=
  if Z.abs t <=? 8640000000000000 then Num t else NaN.

Section Local.
Variable h : host.

Definition LocalTZA : Z := tz_minutes h * msPerMinute.
Definition LocalTime (t : Z) : Z := t + LocalTZA.
Definition UTC (t : Z) : Z := t - LocalTZA.

Definition local_field (f : Z -> Z) (d : number) : number :=
  match d with
  | Num t => Num (f (LocalTime t))
  | NaN => NaN
  end.

Definition getFullYear := local_field YearFromTime.
Definition getMonth := local_field MonthFromTime.
Definition getDate := local_field DateFromTime.
Definition getDay := local_field WeekDay.
Definition getHours := local_field HourFromTime.
Definition getMinutes := local_field MinFromTime.

(** [d.setDate(dt)]: the new time value *)
Definition setDate (d : number) (dt : number) : number :=
  match d, dt with
  | Num t, Num n =>
      let lt := LocalTime t in
      TimeClip (UTC (MakeDate (MakeDay (YearFromTime lt) (MonthFromTime lt) n)
                              (TimeWithinDay lt)))
  | _, _ => NaN
  end.

(** [d.setHours(hour, min, sec, ms)]: the new time value *)
Definition setHours (d : number) (hour min sec ms : Z) : number :=
  match d with
  | Num t => TimeClip (UTC (MakeDate (Day (LocalTime t)) (MakeTime hour min sec ms)))
  | NaN => NaN
  end.

(** [new Date(year, month, date, hours)], the remaining fields 0 *)
Definition of_fields (year month date hours : number) : number :=
  match year, month, date, hours with
  | Num y, Num m, Num dt, Num hr =>
      let yr := if (0 <=? y) && (y <=? 99) then 1900 + y else y in
      TimeClip (UTC (MakeDate (MakeDay yr m dt) (MakeTime hr 0 0 0)))
  | _, _, _, _ => NaN
  end.

(** The ISO strings read here: [YYYY-MM-DD], optionally followed by
    [THH:mm:ss], a fraction and [Z] or a [+HH:mm] / [-HH:mm] offset, with
    every field in range. A string without a time is UTC, a time without an
    offset is local time. *)
Definition dd : regex := Seq (Cls digit) (Cls digit).

Definition re_iso : regex :=
  seq [Cap 1 (Seq dd dd); Chr "-"; Cap 2 dd; Chr "-"; Cap 3 dd;
       Opt (seq [Chr "T"; Cap 4 dd; Chr ":"; Cap 5 dd; Chr ":"; Cap 6 dd;
                 Opt (Seq (Chr ".") (Cap 7 (Plus digit)));
                 Opt (Alt (Cap 8 (Chr "Z"))
                          (seq [Cap 9 (Alt (Chr "+") (Chr "-")); Cap 10 dd;
                                Chr ":"; Cap 11 dd]))]);
       Eos].

Definition field (m : match_result) (n : nat) : option Z :=
  match group m n with
  | Some t => Some (Z.of_N (Val.parseInt t))
  | None => None
  end.

Definition in_bounds (lo hi v : Z) : bool := (lo <=? v) && (v <=? hi).

Definition days_in_month (y m : Z) : Z :=
  let leap := if DaysInYear y =? 366 then 1 else 0 in
  if m =? 12 then 31 else DaysBeforeMonth m leap - DaysBeforeMonth (m - 1) leap.

Definition parse_iso (s : string) : option Z :=
  match option_map (fun '(len, c) => mk_result 0 s len c) (exec false re_iso s) with
  | None => None
  | Some m =>
      match field m 1, field m 2, field m 3 with
      | Some y, Some mo, Some d =>
          if in_bounds 1 12 mo && in_bounds 1 (days_in_month y mo) d then
            let day := MakeDay y (mo - 1) d in
            match field m 4, field m 5, field m 6 with
            | Some hr, Some mi, Some sc =>
                if in_bounds 0 23 hr && in_bounds 0 59 mi && in_bounds 0 59 sc then
                  let ms := match group m 7 with
                            | Some f => Z.of_N (Val.parseInt (take 3 (f ++ "00")))
                            | None => 0
                            end in
                  let t := MakeDate day (MakeTime hr mi sc ms) in
                  match group m 8, group m 9, field m 10, field m 11 with
                  | Some _, _, _, _ => Some t
                  | None, Some sign, Some oh, Some om =>
                      if in_bounds 0 23 oh && in_bounds 0 59 om then
                        let off := oh * msPerHour + om * msPerMinute in
                        Some (if String.eqb sign "-" then t + off else t - off)
                      else None
                  | _, _, _, _ => Some (UTC t)
                  end
                else None
            | _, _, _ => Some (MakeDate day 0)
            end
          else None
      | _, _, _ => None
      end
  end.

(** [Date.parse] *)
Definition parse (s : string) : number :=
  match parse_iso s with
  | Some t => TimeClip t
  | None =>
      match parse_other h s with
      | Some t => TimeClip t
      | None => NaN
      end
  end.

(** [new Date(value)] *)
Definition of_value (p : prim) : number :=
  match p with
  | PString s => parse s
  | _ =>
      match Val.to_number h p with
      | Num t => TimeClip t
      | NaN => NaN
      end
  end.

End Local.

(** [d.toISOString()]: a [RangeError] on an invalid date. *)
Definition toISOString (d : number) : completion string :=
  match d with
  | NaN => Throw (RangeError "Invalid time value")
  | Num t =>
      let y := YearFromTime t in
      let year :=
        if (0 <=? y) && (y <=? 9999) then Val.digits 4 y
        else (if y <? 0 then "-" else "+") ++ Val.digits 6 (Z.abs y) in
      Normal (year ++ "-" ++ Val.digits 2 (MonthFromTime t + 1) ++ "-" ++
              Val.digits 2 (DateFromTime t) ++ "T" ++
              Val.digits 2 (HourFromTime t) ++ ":" ++
              Val.digits 2 (MinFromTime t) ++ ":" ++
              Val.digits 2 (SecFromTime t) ++ "." ++
              Val.digits 3 (msFromTime t) ++ "Z")
  end.

End Date.

(* ===================================================================== *)
(** ** The in-memory aggregator                                           *)
(* ===================================================================== *)

(** A [Map] with string keys: the entries in insertion order. *)
Module SMap.

Fixpoint has {A : Type} (k : string) (m : list (string * A)) : bool :=
  match m with
  | [] => false
  | (k', _) :: m' => String.eqb k' k || has k m'
  end.

Fixpoint get {A : Type} (k : string) (m : list (string * A)) : option A :=
  match m with
  | [] => None
  | (k', a) :: m' => if String.eqb k' k then Some a else get k m'
  end.

(** [m.set(k, a)] for a key that [m] does not have yet *)
Definition add {A : Type} (k : string) (a : A) (m : list (string * A)) : list (string * A) :=
  app m [(k, a)].

(** The entry of [k] replaced in place: a mutation of the object that
    [m.get(k)] returned. *)
Fixpoint put {A : Type} (k : string) (a : A) (m : list (string * A)) : list (string * A) :=
  match m with
  | [] => []
  | (k', a') :: m' => if String.eqb k' k then (k', a) :: m' else (k', a') :: put k a m'
  end.

(** [Array.from(m.values())] *)
Definition values {A : Type} (m : list (string * A)) : list A := map snd m.

End SMap.

(** [for (const x of l) { acc = step(acc, x) }], where [step] can throw. *)
Fixpoint for_of {A S : Type} (step : S -> A -> completion S) (acc : S) (l : list A) : completion S :=
  match l with
  | [] => Normal acc
  | x :: l' => let* acc' := step acc x in for_of step acc' l'
  end.

Fixpoint map_throwing {A B : Type} (f : A -> completion B) (l : list A) : completion (list B) :=
  match l with
  | [] => Normal []
  | x :: l' => let* y := f x in let* ys := map_throwing f l' in Normal (y :: ys)
  end.

(** [/DATE_PART\s*\(\s*'(\w+)'\s*,\s*(\w+)\s*\)/] (flags [gi] at line 163,
    [i] at line 177) *)
Definition re_date_part : regex :=
  seq [lit "DATE_PART"; Star ws; Chr "("; Star ws; Chr "'"; Cap 1 (Plus word);
       Chr "'"; Star ws; Chr ","; Star ws; Cap 2 (Plus word); Star ws; Chr ")"].

(** [/DATE_TRUNC\s*\(\s*'(\w+)'\s*,\s*([^:]+)(?:::[\w\[\]]+)?\s*\)/i] *)
Definition re_date_trunc : regex :=
  seq [lit "DATE_TRUNC"; Star ws; Chr "("; Star ws; Chr "'"; Cap 1 (Plus word);
       Chr "'"; Star ws; Chr ","; Star ws; Cap 2 (Plus (not_chr ":"));
       Opt (Seq (lit "::") (Plus type_chr)); Star ws; Chr ")"].

(** [/::[\w\[\]]+$/] *)
Definition re_trailing_cast : regex := seq [lit "::"; Plus type_chr; Eos].

(** [/DATE_TRUNC[^)]*\)\s+AS\s+(\w+)/i] *)
Definition re_alias : regex :=
  seq [lit "DATE_TRUNC"; Star (not_chr ")"); Chr ")"; Plus ws; lit "AS"; Plus ws;
       Cap 1 (Plus word)].

(** [/ORDER\s+BY\s+(\w+)(?:\s+(ASC|DESC))?/i] *)
Definition re_order : regex :=
  seq [lit "ORDER"; Plus ws; lit "BY"; Plus ws; Cap 1 (Plus word);
       Opt (Seq (Plus ws) (Cap 2 (Alt (lit "ASC") (lit "DESC"))))].

(** [/LIMIT\s+(\d+)/i] *)
Definition re_limit : regex := seq [lit "LIMIT"; Plus ws; Cap 1 (Plus digit)].

(** [/from\s+([a-z0-9_]+)/i] *)
Definition re_from : regex := seq [lit "from"; Plus ws; Cap 1 (Plus ident_chr)].

(** The name a property access [o[x]] uses when [x] is [undefined]. *)
Definition property_key (x : option string) : string :=
  match x with Some k => k | None => "undefined" end.

(** [o.name++] as a statement *)
Definition increment (h : host) (name : string) (o : obj) : obj :=
  Val.set name
    (VPrim (PNumber (Val.num_add (Val.to_number h (Val.get_prim o name)) (Num 1)))) o.

(** [o.hasOwnProperty(name)]: the call fails when an own property shadows
    the inherited method with something that is not a function. *)
Definition hasOwnProperty (o : obj) (name : string) : completion bool :=
  match o !! "hasOwnProperty" with
  | Some _ => Throw (TypeError "resultRow.hasOwnProperty is not a function")
  | None => Normal (bool_decide (is_Some (o !! name)))
  end.

Section Aggregator.
Variable h : host.

(** *** Path B: [processGroupByDatePart] (lines 159-240) *)

(** The [switch] of lines 183-204. *)
Definition date_part_value (part : string) (date : number) : number :=
  let p := toLowerCase part in
  if String.eqb p "hour" then Date.getHours h date
  else if String.eqb p "dow" then Date.getDay h date
  else if String.eqb p "day" then Date.getDate h date
  else if String.eqb p "month" then Val.num_add (Date.getMonth h date) (Num 1)
  else if String.eqb p "year" then Date.getFullYear h date
  else if String.eqb p "minute" then Date.getMinutes h date
  else Num 0.

(** One turn of the inner loop (lines 176-210): the key that one matched
    call contributes for one row. *)
Definition date_part_key (r : row) (matched : string) : completion prim :=
  let m := search true re_date_part matched in
  let part := m ≫= (fun m => group m 1) in
  let column := m ≫= (fun m => group m 2) in
  if Val.truthy (Val.get r (property_key column)) then
    let date := Date.of_value h (Val.get r (property_key column)) in
    match part with
    | Some p => Normal (PNumber (date_part_value p date))
    | None => Throw (TypeError "Cannot read properties of undefined (reading 'toLowerCase')")
    end
  else Normal PNull.

Definition key_string (keys : list prim) : string :=
  join "|" (map Val.join_text keys).

(** The row a new bucket starts with (lines 215-226). *)
Definition new_date_part_row (originalQuery : string) (keys : list prim) : obj :=
  let resultRow : obj := ∅ in
  let resultRow :=
    if includes originalQuery "signup_hour"
    then Val.set "signup_hour" (VPrim (nth 0 keys PUndefined)) resultRow
    else resultRow in
  let resultRow :=
    if includes originalQuery "signup_day_of_week"
    then Val.set "signup_day_of_week"
           (VPrim (Val.or_else (nth 1 keys PUndefined) (nth 0 keys PUndefined))) resultRow
    else resultRow in
  Val.set "user_count" (VPrim (PNumber (Num 0))) resultRow.

(** The body of the outer loop (lines 172-230). *)
Definition date_part_step (originalQuery : string) (datePartMatches : list string)
    (results : list (string * obj)) (r : row) : completion (list (string * obj)) :=
  let* keys := map_throwing (date_part_key r) datePartMatches in
  let keyStr := key_string keys in
  let results :=
    if SMap.has keyStr results then results
    else SMap.add keyStr (new_date_part_row originalQuery keys) results in
  match SMap.get keyStr results with
  | Some resultRow => Normal (SMap.put keyStr (increment h "user_count" resultRow) results)
  | None => Throw (TypeError "Cannot read properties of undefined (reading 'user_count')")
  end.

(** [(a, b) => (b.user_count || 0) - (a.user_count || 0)] is negative *)
Definition count_before (a b : obj) : bool :=
  let count o := Val.to_number h (Val.or_else (Val.get_prim o "user_count") (PNumber (Num 0))) in
  match Val.num_sub (count b) (count a) with
  | Num z => z <? 0
  | NaN => false
  end.

(** The buckets after the loop, in insertion order. *)
Definition date_part_buckets (originalQuery : string) (datePartMatches : list string)
    (data : list row) : completion (list (string * obj)) :=
  for_of (date_part_step originalQuery datePartMatches) [] data.

Definition processGroupByDatePart (data : option (list row)) (originalQuery : string)
    : completion (list obj) :=
  let datePartMatches := match_all true re_date_part originalQuery in
  match datePartMatches, data with
  | None, _ | _, None | _, Some [] => Normal []
  | Some matches, Some rows =>
      let* results := date_part_buckets originalQuery matches rows in
      let processedData :=
        firstn 100 (Val.sort count_before (SMap.values results)) in
      Normal processedData
  end.

(** *** Path A: [processDateTruncQuery] (lines 243-371) *)

Definition num_rem (a b : number) : number :=
  match a, b with
  | Num x, Num y => if y =? 0 then NaN else Num (Z.rem x y)
  | _, _ => NaN
  end.

(** [iso.split('T')[0]] *)
Definition date_part_of_iso (iso : string) : string := before_first "T" iso.

(** The [switch] of lines 272-295. *)
Definition truncate (precision : string) (date : number) : completion string :=
  let p := toLowerCase precision in
  if String.eqb p "week" then
    let monday := date in
    let monday :=
      Date.setDate h monday
        (Val.num_sub (Date.getDate h date)
                     (num_rem (Val.num_add (Date.getDay h date) (Num 6)) (Num 7))) in
    let monday := Date.setHours h monday 0 0 0 0 in
    let* iso := Date.toISOString monday in
    Normal (date_part_of_iso iso)
  else if String.eqb p "day" then
    let* iso := Date.toISOString
        (Date.of_fields h (Date.getFullYear h date) (Date.getMonth h date)
                        (Date.getDate h date) (Num 0)) in
    Normal (date_part_of_iso iso)
  else if String.eqb p "month" then
    let* iso := Date.toISOString
        (Date.of_fields h (Date.getFullYear h date) (Date.getMonth h date) (Num 1) (Num 0)) in
    Normal (date_part_of_iso iso)
  else if String.eqb p "year" then
    let* iso := Date.toISOString
        (Date.of_fields h (Date.getFullYear h date) (Num 0) (Num 1) (Num 0)) in
    Normal (date_part_of_iso iso)
  else if String.eqb p "hour" then
    Date.toISOString
      (Date.of_fields h (Date.getFullYear h date) (Date.getMonth h date)
                      (Date.getDate h date) (Date.getHours h date))
  else
    let* iso := Date.toISOString date in
    Normal (date_part_of_iso iso).

(** The output field of the bucket label (lines 302-303). *)
Definition alias_of (originalQuery : string) : string :=
  match search true re_alias originalQuery with
  | Some aliasMatch => group_text aliasMatch 1
  | None => "week"
  end.

(** The row a new bucket starts with (lines 299-317). *)
Definition new_date_trunc_row (originalQuery truncatedDate : string) : obj :=
  let resultRow : obj := ∅ in
  let resultRow := Val.set (alias_of originalQuery) (VPrim (PString truncatedDate)) resultRow in
  let resultRow :=
    if includes originalQuery "COUNT(user_id)" || includes originalQuery "COUNT(*)"
    then Val.set "user_count" (VPrim (PNumber (Num 0))) resultRow
    else resultRow in
  let resultRow :=
    if includes originalQuery "COUNT(DISTINCT country)"
    then Val.set "_countries" (VSet [])
           (Val.set "country_count" (VPrim (PNumber (Num 0))) resultRow)
    else resultRow in
  let resultRow :=
    if includes originalQuery "COUNT(DISTINCT user_segment)"
    then Val.set "_segments" (VSet [])
           (Val.set "segment_count" (VPrim (PNumber (Num 0))) resultRow)
    else resultRow in
  resultRow.

(** [o[set].add(x); o[count] = o[set].size] (lines 329-330, 333-334) *)
Definition add_distinct (set count : string) (x : prim) (o : obj) : completion obj :=
  match o !! set with
  | Some (VSet elems) =>
      let elems' := if bool_decide (x ∈ elems) then elems else app elems [x] in
      let o := <[set := VSet elems']> o in
      Normal (Val.set count (VPrim (PNumber (Num (Z.of_nat (length elems'))))) o)
  | Some (VPrim _) => Throw (TypeError "add is not a function")
  | None => Throw (TypeError "Cannot read properties of undefined (reading 'add')")
  end.

(** The updates of lines 325-335 on the row of the bucket. *)
Definition update_counts (r : row) (resultRow : obj) : completion obj :=
  let* own := hasOwnProperty resultRow "user_count" in
  let resultRow := if own then increment h "user_count" resultRow else resultRow in
  let* own := hasOwnProperty resultRow "country_count" in
  let* resultRow :=
    if own && Val.truthy (Val.get r "country")
    then add_distinct "_countries" "country_count" (Val.get r "country") resultRow
    else Normal resultRow in
  let* own := hasOwnProperty resultRow "segment_count" in
  if own && Val.truthy (Val.get r "user_segment")
  then add_distinct "_segments" "segment_count" (Val.get r "user_segment") resultRow
  else Normal resultRow.

(** The body of the loop (lines 264-336). *)
Definition date_trunc_step (originalQuery precision column : string)
    (results : list (string * obj)) (r : row) : completion (list (string * obj)) :=
  if negb (Val.truthy (Val.get r column)) then Normal results
  else
    let date := Date.of_value h (Val.get r column) in
    let* truncatedDate := truncate precision date in
    let results :=
      if SMap.has truncatedDate results then results
      else SMap.add truncatedDate (new_date_trunc_row originalQuery truncatedDate) results in
    match SMap.get truncatedDate results with
    | Some resultRow =>
        let* resultRow := update_counts r resultRow in
        Normal (SMap.put truncatedDate resultRow results)
    | None => Throw (TypeError "Cannot read properties of undefined (reading 'hasOwnProperty')")
    end.

(** Lines 339-344 *)
Definition clean_row (o : obj) : obj := delete "_segments" (delete "_countries" o).

(** [direction.toUpperCase()], on the letters whose upper-case form is
    again below U+0100 *)
Fixpoint toUpperCase (s : string) : string :=
  match s with
  | EmptyString => EmptyString
  | String c s' => String (upper_char c) (toUpperCase s')
  end.

(** The comparator of lines 352-359 is negative. *)
Definition order_before (orderColumn : string) (ascending : bool) (a b : obj) : bool :=
  let aVal := Val.get_prim a orderColumn in
  let bVal := Val.get_prim b orderColumn in
  if Val.lt h aVal bVal then ascending
  else if Val.lt h bVal aVal then negb ascending
  else false.

(** Lines 347-360 *)
Definition apply_order_by (originalQuery : string) (processedData : list obj) : list obj :=
  match search true re_order originalQuery with
  | Some orderMatch =>
      let orderColumn := property_key (group orderMatch 1) in
      let ascending :=
        match group orderMatch 2 with
        | None => true
        | Some direction =>
            String.eqb direction "" || String.eqb (toUpperCase direction) "ASC"
        end in
      Val.sort (order_before orderColumn ascending) processedData
  | None => processedData
  end.

(** Lines 363-366 *)
Definition apply_limit (originalQuery : string) (processedData : list obj) : list obj :=
  let limit :=
    match search true re_limit originalQuery with
    | Some limitMatch => Val.parseInt (group_text limitMatch 1)
    | None => N.of_nat (length processedData)
    end in
  Val.slice0 limit processedData.

(** The column that line 260 extracts from a match of line 253. *)
Definition column_of (dateTruncMatch : match_result) : string :=
  replace_first false re_trailing_cast (fun _ => "") (trim (group_text dateTruncMatch 2)).

(** The buckets after the loop, in insertion order. *)
Definition date_trunc_buckets (originalQuery precision column : string)
    (data : list row) : completion (list (string * obj)) :=
  for_of (date_trunc_step originalQuery precision column) [] data.

Definition processDateTruncQuery (data : option (list row)) (originalQuery : string)
    : completion (list obj) :=
  match data with
  | None | Some [] => Normal []
  | Some rows =>
      match search true re_date_trunc originalQuery with
      | None => Normal []
      | Some dateTruncMatch =>
          let precision := group_text dateTruncMatch 1 in
          let column := column_of dateTruncMatch in
          let* results := date_trunc_buckets originalQuery precision column rows in
          let processedData := map clean_row (SMap.values results) in
          let processedData := apply_order_by originalQuery processedData in
          let finalData := apply_limit originalQuery processedData in
          Normal finalData
      end
  end.

(** *** [processGenericGroupBy] (lines 374-384) *)
Definition processGenericGroupBy (data : option (list row)) (originalQuery : string)
    : completion (list obj) :=
  let limit :=
    match search true re_limit originalQuery with
    | Some limitMatch => Val.parseInt (group_text limitMatch 1)
    | None => 100%N
    end in
  match data with
  | Some rows => Normal (Val.slice0 limit (map (fmap VPrim) rows))
  | None => Throw (TypeError "Cannot read properties of null (reading 'slice')")
  end.

(** *** [executeConvertedQuery] (lines 108-156) *)

(** What [await supabase.from(t).select('*').limit(n)] resolves to. *)
Record fetch_result := {
  data : option (list row);
  error : option string      (* [error.message] *)
}.

(** The database client: table and row cap to the awaited result, which
    can also be a rejection. *)
Definition client := string -> N -> completion fetch_result.

(** The test of lines 112-117. *)
Definition canProcess (query : string) : bool :=
  let lowerQuery := toLowerCase query in
  (includes lowerQuery "date_part" ||
   includes lowerQuery "date_trunc" ||
   includes lowerQuery "extract" ||
   includes lowerQuery "group by") && includes lowerQuery "from".

(** [tableName] of lines 121-122 *)
Definition table_name (query : string) : option string :=
  search true re_from (toLowerCase query) ≫= (fun fromMatch => group fromMatch 1).

(** The [try] block of lines 129-152. *)
Definition fetch_and_process (supabase : client) (query tableName : string)
    : completion (list obj) :=
  let lowerQuery := toLowerCase query in
  let attempt :=
    let* r := supabase tableName 10000%N in
    match error r with
    | Some message => Throw (Error ("Query execution failed: " ++ message))
    | None =>
        if includes lowerQuery "date_trunc" then processDateTruncQuery (data r) query
        else if includes lowerQuery "date_part" || includes lowerQuery "extract"
        then processGroupByDatePart (data r) query
        else processGenericGroupBy (data r) query
    end in
  match attempt with
  | Normal result => Normal result
  | Throw e => Throw (Error ("Converted query execution failed: " ++ exn_to_string e))
  end.

(** The result, and the tables whose rows were requested on the way. *)
Definition executeConvertedQuery (supabase : client) (query : string)
    : list string * completion (list obj) :=
  if canProcess query then
    match table_name query with
    | None | Some EmptyString =>
        ([], Throw (Error "Cannot parse table name from converted query"))
    | Some tableName => ([tableName], fetch_and_process supabase query tableName)
    end
  else ([], Throw (Error "Query conversion not supported for this type of query")).

End Aggregator.

(** *** [analyzeQueryError] (lines 5-79) *)

(** [arr.push(x)] *)
Definition push {A : Type} (arr : list A) (x : A) : list A := app arr [x].

Record analysis := {
  type : string;
  suggestions : list string
}.

Definition analyzeQueryError (errorMessage query : string) : analysis :=
  let suggestions : list string := [] in
  let type := "unknown" in
  let '(type, suggestions) :=
    if includes errorMessage "failed to parse select parameter" then
      let type := "syntax_error" in
      let suggestions := push suggestions "Check your SELECT clause syntax" in
      let suggestions :=
        if includes query "extract(" then
          let suggestions := push suggestions
            "EXTRACT() functions are automatically converted to work with Supabase" in
          let suggestions := push suggestions
            "Your query will be processed server-side for compatibility" in
          push suggestions
            "Example: EXTRACT(dow FROM signup_date) gets converted and executed"
        else suggestions in
      let suggestions :=
        if includes query "date_trunc(" then
          let suggestions := push suggestions
            "PostgreSQL date_trunc() syntax: date_trunc(precision, source)" in
          push suggestions "Example: date_trunc('day', created_at)"
        else suggestions in
      (type, suggestions)
    else (type, suggestions) in
  let '(type, suggestions) :=
    if includes errorMessage "Could not find the function" then
      let type := "function_not_found" in
      let suggestions := push suggestions
        "Complex PostgreSQL functions are automatically converted" in
      let suggestions := push suggestions
        "Your query will be processed using JavaScript aggregation" in
      let suggestions := push suggestions
        "EXTRACT(), DATE_PART(), DATE_TRUNC(), and similar functions are supported" in
      (type, suggestions)
    else (type, suggestions) in
  let '(type, suggestions) :=
    if includes errorMessage "column" && includes errorMessage "does not exist"
       && includes query "::" then
      let type := "type_casting_error" in
      let suggestions := push suggestions
        "PostgreSQL type casting (::) is automatically handled" in
      let suggestions := push suggestions
        "Your query will be converted to remove type casting for compatibility" in
      let suggestions := push suggestions
        "Example: signup_date::date becomes signup_date" in
      (type, suggestions)
    else (type, suggestions) in
  let '(type, suggestions) :=
    if includes errorMessage "relation" && includes errorMessage "does not exist" then
      let type := "table_not_found" in
      let suggestions := push suggestions
        "Check that the table name is spelled correctly" in
      let suggestions := push suggestions
        "Available tables: users, engagement, posts" in
      (type, suggestions)
    else (type, suggestions) in
  let '(type, suggestions) :=
    if includes errorMessage "column" && includes errorMessage "does not exist" then
      let type := "column_not_found" in
      let suggestions :=
        if includes query "DATE_TRUNC" || includes query "EXTRACT" || includes query "AS "
        then
          let suggestions := push suggestions
            "This appears to be a SQL function alias issue" in
          let suggestions := push suggestions
            "Your query will be processed with JavaScript aggregation for full compatibility" in
          push suggestions
            "Complex PostgreSQL functions are automatically handled server-side"
        else
          let suggestions := push suggestions
            "Check that the column name exists in the table" in
          push suggestions "Use the schema viewer to see available columns" in
      (type, suggestions)
    else (type, suggestions) in
  let '(type, suggestions) :=
    if includes errorMessage "syntax error" || includes errorMessage "invalid" then
      let type := "syntax_error" in
      let suggestions := push suggestions "Check your SQL syntax" in
      let suggestions := push suggestions "Make sure to use proper PostgreSQL syntax" in
      (type, suggestions)
    else (type, suggestions) in
  let '(type, suggestions) :=
    if includes errorMessage "permission denied" then
      let type := "permission_error" in
      let suggestions := push suggestions
        "You may not have permission to access this table" in
      let suggestions := push suggestions
        "Check your RLS (Row Level Security) policies" in
      (type, suggestions)
    else (type, suggestions) in
  let suggestions :=
    if (length suggestions =? 0)%nat then
      let suggestions := push suggestions
        "Try simplifying your query to identify the issue" in
      push suggestions "Check the PostgreSQL documentation for correct syntax"
    else suggestions in
  {| type := type; suggestions := suggestions |}.

Definition general_suggestions : list string :=
  ["Try simplifying your query to identify the issue";
   "Check the PostgreSQL documentation for correct syntax"].

(** *** [POST] (lines 386-640) *)

(** A pattern with a lazy part: a [regex], a class under [*?] as a capture
    group, or two patterns in sequence. *)
Inductive pattern :=
| Re (r : regex)
| LazyCap (n : nat) (k : cclass)
| Then (p q : pattern).

(** [class*?]: the continuation first, one more character when it fails. *)
Fixpoint lazy (p : ascii -> bool) (k : string -> nat -> outcome)
    (s : string) (i : nat) : outcome :=
  match k s i with
  | Some r => Some r
  | None =>
      match s with
      | String a s' => if p a then lazy p k s' (S i) else None
      | EmptyString => None
      end
  end.

Fixpoint run_pattern (ic : bool) (p : pattern)
    (k : string -> nat -> caps -> outcome)
    (s : string) (i : nat) (c : caps) : outcome :=
  match p with
  | Re r => run ic r k s i c
  | LazyCap n cl =>
      lazy (cls_match ic cl) (fun s' i' => k s' i' ((n, (i, i')) :: c)) s i
  | Then p1 p2 => run_pattern ic p1 (run_pattern ic p2 k) s i c
  end.

Definition exec_pattern (ic : bool) (p : pattern) (s : string) : outcome :=
  run_pattern ic p (fun _ i c => Some (i, c)) s 0%nat [].

(** [String.prototype.match] with such a pattern, without the [g] flag. *)
Fixpoint search_pattern_from (ic : bool) (p : pattern) (at_ : nat) (s : string)
    : option match_result :=
  match exec_pattern ic p s with
  | Some (len, c) => Some (mk_result at_ s len c)
  | None =>
      match s with
      | EmptyString => None
      | String _ s' => search_pattern_from ic p (S at_) s'
      end
  end.

Definition search_pattern (ic : bool) (p : pattern) (s : string) : option match_result :=
  search_pattern_from ic p 0 s.

(** [.] below U+0100: any character but LF and CR. *)
Definition dot : cclass := ncls (fun a => Ascii.eqb a "010" || Ascii.eqb a "013").

(** [/;$/] *)
Definition re_final_semicolon : regex := seq [Chr ";"; Eos].

(** The patterns of lines 432-448, all with the [i] flag. *)
Definition complexPatterns : list regex :=
  [ seq [lit "extract"; Star ws; Chr "("];
    seq [lit "date_trunc"; Star ws; Chr "("];
    seq [lit "case"; Plus ws; lit "when"];
    seq [lit "with"; Plus ws; Plus word; Plus ws; lit "as"];
    seq [lit "window"; Plus ws; lit "functions"];
    seq [lit "::"; Plus type_chr];
    seq [lit "interval"; Plus ws; Chr "'"];
    seq [lit "generate_series"; Star ws; Chr "("];
    seq [lit "array_agg"; Star ws; Chr "("];
    seq [lit "string_agg"; Star ws; Chr "("];
    seq [lit "coalesce"; Star ws; Chr "("];
    seq [lit "nullif"; Star ws; Chr "("];
    seq [lit "greatest"; Star ws; Chr "("];
    seq [lit "least"; Star ws; Chr "("];
    seq [lit "count"; Star ws; Chr "("; Star ws; lit "distinct"] ].

(** [/select\s+(.*?)\s+from/i] *)
Definition pat_select : pattern :=
  Then (Re (seq [lit "select"; Plus ws]))
       (Then (LazyCap 1 dot) (Re (seq [Plus ws; lit "from"]))).

(** [/where\s+(.*?)(?:\s+order\s+by|\s+group\s+by|\s+limit|$)/i] *)
Definition pat_where : pattern :=
  Then (Re (seq [lit "where"; Plus ws]))
       (Then (LazyCap 1 dot)
             (Re (Alt (seq [Plus ws; lit "order"; Plus ws; lit "by"])
                 (Alt (seq [Plus ws; lit "group"; Plus ws; lit "by"])
                 (Alt (seq [Plus ws; lit "limit"]) Eos))))).

(** [/order\s+by\s+([^\s]+)(?:\s+(asc|desc))?/i] *)
Definition re_order_by : regex :=
  seq [lit "order"; Plus ws; lit "by"; Plus ws; Cap 1 (Plus (ncls is_space));
       Opt (Seq (Plus ws) (Cap 2 (Alt (lit "asc") (lit "desc"))))].

(** [/limit\s+(\d+)/i] *)
Definition re_limit_clause : regex := seq [lit "limit"; Plus ws; Cap 1 (Plus digit)].

(** [/(\w+)\s*=\s*'([^']+)'/i] *)
Definition re_equals : regex :=
  seq [Cap 1 (Plus word); Star ws; Chr "="; Star ws; Chr "'";
       Cap 2 (Plus (not_chr "'")); Chr "'"].

(** [/(\w+)\s+like\s+'([^']+)'/i] *)
Definition re_like : regex :=
  seq [Cap 1 (Plus word); Plus ws; lit "like"; Plus ws; Chr "'";
       Cap 2 (Plus (not_chr "'")); Chr "'"].

(** The values that the handler puts into a response. *)
Inductive json :=
| JUndefined
| JNull
| JString (s : string)
| JNumber (n : Z)
| JStrings (l : list string)
| JRows (l : list row)
| JObjects (l : list obj).

(** [NextResponse.json(body, { status })]; the fields in the order of the
    object literal. *)
Record response := {
  status : Z;
  body : list (string * json)
}.

(** What [await req.json()] gives: a rejection, [null], or another JSON
    value, of which the handler reads the property [query] ([undefined]
    where the value has none). *)
Inductive request_body :=
| Unparsable
| JsonNull
| JsonValue (query : prim).

(** The [error] of a database result. *)
Record db_error := {
  message : string;
  details : json;
  hint : json
}.

(** A query as the builder has it when it is awaited: [from], [select],
    then [eq], [like] and [order] where they were called, then [limit]. *)
Record built_query := {
  q_from : string;
  q_select : string;
  q_eq : option (string * string);
  q_like : option (string * string);
  q_order : option (string * bool);     (* column, ascending *)
  q_limit : N
}.

(** What an awaited query and an awaited [rpc] resolve to; [None] is
    [null]. *)
Record query_result := {
  rows_of : option (list row);
  error_of : option db_error
}.

(** The database client: awaiting a built query, and awaiting
    [rpc(name, { query })]. Either can be a rejection. *)
Record supabase_client := {
  select : built_query -> completion query_result;
  rpc : string -> string -> completion query_result
}.

(** The server around the handler: the environment variable
    [NEXT_PUBLIC_SUPABASE_URL] and [createServerClient], which the route
    imports. *)
Record server := {
  env_url : option string;
  createServerClient : completion supabase_client
}.

(** The calls that reach the database. *)
Inductive db_call :=
| Select (q : built_query)
| Rpc (name query : string).

(** [supabase.from(t).select('*').limit(n)] *)
Definition all_rows (tableName : string) (n : N) : built_query :=
  {| q_from := tableName; q_select := "*"; q_eq := None; q_like := None;
     q_order := None; q_limit := n |}.

(** The client as [executeConvertedQuery] uses it. *)
Definition fetch_client (supabase : supabase_client) : client :=
  fun tableName n =>
    let* r := select supabase (all_rows tableName n) in
    Normal {| data := rows_of r; error := option_map message (error_of r) |}.

Definition json_of_rows (d : option (list row)) : json :=
  match d with Some l => JRows l | None => JNull end.

(** [data?.length || 0] *)
Definition row_count (d : option (list row)) : Z :=
  match d with Some l => Z.of_nat (length l) | None => 0 end.

Definition exn_message (e : exn) : string :=
  match e with Error m | RangeError m | TypeError m => m end.

(** The [catch] of lines 594-639. *)
Definition failure_response (e : exn) : response :=
  let m := exn_message e in
  if includes m "relation" && includes m "does not exist" then
    {| status := 400;
       body := [("error", JString "Table does not exist");
                ("details", JString m);
                ("hint", JString "Check your table name and ensure it exists in the database")] |}
  else if includes m "column" && includes m "does not exist" then
    {| status := 400;
       body := [("error", JString "Column does not exist");
                ("details", JString m);
                ("hint", JString "Check your column names and ensure they exist in the table")] |}
  else if includes m "syntax error" || includes m "invalid" then
    {| status := 400;
       body := [("error", JString "SQL syntax error");
                ("details", JString m);
                ("hint", JString "Check your SQL syntax and try again")] |}
  else
    {| status := 500;
       body := [("error", JString "Failed to execute SQL query");
                ("details", JString m);
                ("hint", JString "Check your query syntax and ensure the table exists")] |}.

Section Handler.
Variable h : host.

(** [needsRawSQL] (line 450) *)
Definition needsRawSQL (cleanedQuery : string) : bool :=
  existsb (fun pattern => bool_decide (is_Some (search true pattern cleanedQuery)))
          complexPatterns.

(** Strategy 1 (lines 452-502): the calls made, and the response where
    the handler returns from here. *)
Definition raw_sql_strategy (supabase : supabase_client) (cleanedQuery : string)
    : list db_call * option response :=
  if needsRawSQL cleanedQuery then
    let convertedQuery := convertPostgreSQLFunctions cleanedQuery in
    let '(calls, returned) :=
      if negb (String.eqb convertedQuery cleanedQuery) then
        let '(tables, result) :=
          executeConvertedQuery h (fetch_client supabase) convertedQuery in
        let calls := map (fun t => Select (all_rows t 10000)) tables in
        match result with
        | Normal rows =>
            (calls,
             Some {| status := 200;
                     body := [("data", JObjects rows);
                              ("execution_method", JString "converted_postgresql");
                              ("query", JString cleanedQuery);
                              ("converted_query", JString convertedQuery);
                              ("row_count", JNumber (Z.of_nat (length rows)));
                              ("note", JString
                                 "Query was automatically converted from PostgreSQL syntax")] |})
        | Throw conversionError => (calls, None)
        end
      else ([], None) in
    match returned with
    | Some r => (calls, Some r)
    | None =>
        let calls := app calls [Rpc "execute_raw_sql" cleanedQuery] in
        match rpc supabase "execute_raw_sql" cleanedQuery with
        | Normal r =>
            match error_of r, rows_of r with
            | None, Some rawData =>
                (calls,
                 Some {| status := 200;
                         body := [("data", JRows rawData);
                                  ("execution_method", JString "raw_sql");
                                  ("query", JString cleanedQuery);
                                  ("row_count", JNumber (Z.of_nat (length rawData)))] |})
            | _, _ => (calls, None)
            end
        | Throw rawSqlError => (calls, None)
        end
    end
  else ([], None).

(** The query that Strategy 2 builds for a table (lines 518-562). *)
Definition build_query (lowerQuery tableName : string) : built_query :=
  let selectMatch := search_pattern true pat_select lowerQuery in
  let selectColumns :=
    match selectMatch with
    | Some m =>
        if negb (String.eqb (group_text m 1) "") then
          (if String.eqb (trim (group_text m 1)) "*" then "*" else trim (group_text m 1))
        else "*"
    | None => "*"
    end in
  let whereMatch := search_pattern true pat_where lowerQuery in
  let orderMatch := search true re_order_by lowerQuery in
  let limitMatch := search true re_limit_clause lowerQuery in
  let limit :=
    match limitMatch with
    | Some m => Val.parseInt (group_text m 1)
    | None => 1000%N
    end in
  let '(eq_, like_) :=
    match whereMatch with
    | Some m =>
        if negb (String.eqb (group_text m 1) "") then
          let whereClause := trim (group_text m 1) in
          (match search true re_equals whereClause with
           | Some eqMatch => Some (group_text eqMatch 1, group_text eqMatch 2)
           | None => None
           end,
           match search true re_like whereClause with
           | Some likeMatch => Some (group_text likeMatch 1, group_text likeMatch 2)
           | None => None
           end)
        else (None, None)
    | None => (None, None)
    end in
  let order_ :=
    match orderMatch with
    | Some m =>
        if negb (String.eqb (group_text m 1) "") then
          let ascending :=
            match group m 2 with
            | None => true
            | Some d => String.eqb d "" || String.eqb (toLowerCase d) "asc"
            end in
          Some (group_text m 1, ascending)
        else None
    | None => None
    end in
  {| q_from := tableName; q_select := selectColumns; q_eq := eq_; q_like := like_;
     q_order := order_; q_limit := limit |}.

(** Strategy 2 (lines 504-592). *)
Definition query_builder_strategy (supabase : supabase_client) (cleanedQuery : string)
    : list db_call * completion response :=
  let lowerQuery := toLowerCase cleanedQuery in
  match search true re_from lowerQuery ≫= (fun fromMatch => group fromMatch 1) with
  | None | Some EmptyString =>
      ([], Normal
         {| status := 400;
            body := [("error", JString "Could not parse table name from query");
                     ("hint", JString "Query must include a valid table name after FROM")] |})
  | Some tableName =>
      let supabaseQuery := build_query lowerQuery tableName in
      ([Select supabaseQuery],
       let* r := select supabase supabaseQuery in
       match error_of r with
       | Some error =>
           let errorAnalysis := analyzeQueryError (message error) cleanedQuery in
           Normal
             {| status := 400;
                body := [("error", JString ("Database query failed: " ++ message error));
                         ("details", details error);
                         ("hint", hint error);
                         ("query", JString cleanedQuery);
                         ("suggestions", JStrings (suggestions errorAnalysis));
                         ("error_type", JString (type errorAnalysis));
                         ("execution_method", JString "query_builder")] |}
       | None =>
           Normal
             {| status := 200;
                body := [("data", json_of_rows (rows_of r));
                         ("execution_method", JString "query_builder");
                         ("query", JString cleanedQuery);
                         ("parsed_table", JString tableName);
                         ("row_count", JNumber (row_count (rows_of r)))] |}
       end)
  end.

(** [cleanedQuery] (line 402) *)
Definition cleanedQuery_of (sqlQuery : string) : string :=
  replace_first false re_final_semicolon (fun _ => "") (trim sqlQuery).

(** The handler: the calls that reach the database, and the response. *)
Definition POST (srv : server) (req : request_body) : list db_call * response :=
  match req with
  | Unparsable =>
      ([], {| status := 400;
              body := [("error", JString "Invalid JSON in request body")] |})
  | JsonNull =>
      ([], failure_response
             (TypeError "Cannot destructure property 'query' of 'body' as it is null."))
  | JsonValue (PString sqlQuery) =>
      if String.eqb sqlQuery "" || String.eqb (trim sqlQuery) "" then
        ([], {| status := 400;
                body := [("error", JString "Valid SQL query is required")] |})
      else
        let cleanedQuery := cleanedQuery_of sqlQuery in
        let lowerQuery := toLowerCase cleanedQuery in
        if negb (startsWith lowerQuery "select") then
          ([], {| status := 400;
                  body := [("error", JString "Only SELECT statements are allowed");
                           ("hint", JString
                              "For security reasons, only read operations are permitted")] |})
        else
          match env_url srv with
          | None | Some EmptyString =>
              ([], {| status := 500;
                      body := [("error", JString "Database connection not configured");
                               ("hint", JString
                                  "Please configure NEXT_PUBLIC_SUPABASE_URL and NEXT_PUBLIC_SUPABASE_ANON_KEY environment variables")] |})
          | Some _ =>
              match createServerClient srv with
              | Throw e => ([], failure_response e)
              | Normal supabase =>
                  match raw_sql_strategy supabase cleanedQuery with
                  | (calls, Some r) => (calls, r)
                  | (calls, None) =>
                      let '(calls2, r) := query_builder_strategy supabase cleanedQuery in
                      (app calls calls2,
                       match r with
                       | Normal r => r
                       | Throw e => failure_response e
                       end)
                  end
              end
          end
  | JsonValue _ =>
      ([], {| status := 400;
              body := [("error", JString "Valid SQL query is required")] |})
  end.

End Handler.

(* ===================================================================== *)
(** ** Notions used to state the properties                               *)
(* ===================================================================== *)

(** The [canProcess] test as the specification words it: a time function
    and [group by] and [from]. *)
Definition canProcess_as_specified (query : string) : bool :=
  let lowerQuery := toLowerCase query in
  (includes lowerQuery "date_part" ||
   includes lowerQuery "date_trunc" ||
   includes lowerQuery "extract") &&
  includes lowerQuery "group by" && includes lowerQuery "from".

Definition unsupported_error : exn :=
  Error "Query conversion not supported for this type of query".

Definition table_name_error : exn :=
  Error "Cannot parse table name from converted query".

(** A host in UTC and one an hour east of it. Their [Date.parse] reads the
    ISO strings only; the examples below convert no string to a number. *)
Definition utc : host :=
  {| tz_minutes := 0; parse_other := fun _ => None; string_to_number := fun _ => NaN |}.

Definition utc_plus_1 : host :=
  {| tz_minutes := 60; parse_other := fun _ => None; string_to_number := fun _ => NaN |}.

(** A client with one table. *)
Definition one_table (name : string) (rows : list row) : client :=
  fun t _ =>
    if String.eqb t name then Normal {| data := Some rows; error := None |}
    else Normal {| data := None; error := Some "relation does not exist" |}.

(** [P] holds at no start position of [s], the end included. *)
Fixpoint nowhere (P : string -> bool) (s : string) : bool :=
  negb (P s) &&
  match s with
  | EmptyString => true
  | String _ s' => nowhere P s'
  end.

(** [P] holds at no start position of [a ++ b] that lies inside [a]. *)
Fixpoint nowhere_before (P : string -> bool) (a b : string) : bool :=
  match a with
  | EmptyString => true
  | String _ a' => negb (P (a ++ b)) && nowhere_before P a' b
  end.

(** An attempt of the regex at the start of [s] succeeds. *)
Definition matches_at (ic : bool) (r : regex) (s : string) : bool :=
  match exec ic r s with Some _ => true | None => false end.

(** [b] begins with a non-empty proper suffix of [pat]: appending [b] can
    complete an occurrence of [pat] that the text before it left open. *)
Fixpoint completes (b pat : string) : bool :=
  match pat with
  | EmptyString => false
  | String _ EmptyString => false
  | String _ pat' => startsWith b pat' || completes b pat'
  end.

(** The regex has no [$]: a match does not depend on what follows it. *)
Fixpoint eos_free (r : regex) : bool :=
  match r with
  | Eps | Chr _ | Cls _ | Star _ | Plus _ => true
  | Seq r1 r2 | Alt r1 r2 => eos_free r1 && eos_free r2
  | Opt r' | Cap _ r' => eos_free r'
  | Eos => false
  end.

(** The [user_count] of a result row, 0 when the row has none. *)
Definition user_count (o : obj) : Z :=
  match o !! "user_count" with
  | Some (VPrim (PNumber (Num z))) => z
  | _ => 0
  end.

Definition total_user_count (l : list obj) : Z :=
  foldr (fun o acc => user_count o + acc) 0 l.

(** The row carries a numeric [user_count]. *)
Definition counted (o : obj) : Prop :=
  exists z, o !! "user_count" = Some (VPrim (PNumber (Num z))).

(** The row has no field other than [name]. *)
Definition only_field (name : string) (o : obj) : Prop :=
  forall k, is_Some (o !! k) -> k = name.

(** The names that the date-trunc path itself reads or writes on a result
    row: a label under one of them is taken for a counter, an accumulator
    or the inherited method. *)
Definition reserved_names : list string :=
  ["user_count"; "country_count"; "segment_count"; "_countries"; "_segments";
   "hasOwnProperty"; "__proto__"].

(** The row is the label field alone, holding a label. *)
Definition label_row (name : string) (o : obj) : Prop :=
  exists label, o = {[ name := VPrim (PString label) ]}.

(** The length of the longest prefix of [s] whose characters satisfy [p]. *)
Fixpoint span_len (p : ascii -> bool) (s : string) : nat :=
  match s with
  | String a s' => if p a then S (span_len p s') else O
  | EmptyString => O
  end.

(** The two classes of the cast pattern, as it reads them. *)
Definition word_chr (a : ascii) : bool := cls_match true word a.
Definition cast_chr (a : ascii) : bool := cls_match true type_chr a.

(** The cast pattern read without backtracking: the longest run of word
    characters, [::], the longest run of type characters. The length of the
    match, if there is one. *)
Definition cast_length (s : string) : option nat :=
  match span_len word_chr s with
  | O => None
  | S n =>
      match drop (S n) s with
      | String c1 (String c2 (String b s3)) =>
          if Ascii.eqb c1 ":" && Ascii.eqb c2 ":" && cast_chr b
          then Some (S n + 3 + span_len cast_chr s3)%nat
          else None
      | _ => None
      end
  end.

(** The text does not end with a character that a cast can contain: a
    letter, a digit, an underscore, a bracket or a colon. *)
Fixpoint ends_clean (s : string) : bool :=
  match s with
  | EmptyString => true
  | String a EmptyString => negb (cast_chr a || Ascii.eqb a ":")
  | String _ s' => ends_clean s'
  end.

(** The word [extract], in any letter case, begins the text. *)
Definition extract_at (t : string) : bool := startsWith (toLowerCase t) "extract".

(** The second pass of the normaliser on its own. *)
Definition strip_casts (s : string) : string :=
  replace_all true re_cast (fun m => group_text m 1) s.

(** The text begins with a word character. *)
Definition starts_with_word (s : string) : bool :=
  match s with
  | String a _ => word_chr a
  | EmptyString => false
  end.

(** The completion is the normal one with this label. *)
Definition label_is (c : completion string) (expected : string) : bool :=
  match c with
  | Normal label => String.eqb label expected
  | Throw _ => false
  end.

(** Every character of the text satisfies [p]. *)
Fixpoint all_chars (p : ascii -> bool) (s : string) : bool :=
  match s with
  | String a s' => p a && all_chars p s'
  | EmptyString => true
  end.

(** The text begins with a character that satisfies [p]. *)
Definition first_char (p : ascii -> bool) (s : string) : bool :=
  match s with
  | String a _ => p a
  | EmptyString => false
  end.

(** A character other than the closing parenthesis. *)
Definition not_paren (a : ascii) : bool := negb (Ascii.eqb a ")").

(** A character of the class of a cast's type, [[\w\[\]]]. *)
Definition is_type_chr (a : ascii) : bool := mem type_chr a.

(** A character of the class of a table name, [[a-z0-9_]]. *)
Definition is_ident_chr (a : ascii) : bool := mem ident_chr a.

(** The fields of a result row of the date-part path for a query. *)
Definition date_part_fields (originalQuery : string) : gset string :=
  {[ "user_count" ]}
  ∪ (if includes originalQuery "signup_hour" then {[ "signup_hour" ]} else ∅)
  ∪ (if includes originalQuery "signup_day_of_week" then {[ "signup_day_of_week" ]} else ∅).

(** The key under which the date-part path files a row: the key tuple of
    lines 173-210, joined (line 212). *)
Definition row_key (h : host) (matches : list string) (r : row) : completion string :=
  let* keys := map_throwing (date_part_key h r) matches in
  Normal (key_string keys).

Definition has_key (h : host) (matches : list string) (k : string) (r : row) : bool :=
  match row_key h matches r with
  | Normal k' => String.eqb k' k
  | Throw _ => false
  end.

(** The number of rows with a given key. *)
Definition rows_with_key (h : host) (matches : list string) (k : string)
    (rows : list row) : Z :=
  Z.of_nat (length (List.filter (has_key h matches k) rows)).

(** The label under which the date-trunc path files a row that passes the
    test of line 265. *)
Definition row_label (h : host) (precision column : string) (r : row) : completion string :=
  truncate h precision (Date.of_value h (Val.get r column)).

Definition has_label (h : host) (precision column label : string) (r : row) : bool :=
  Val.truthy (Val.get r column) &&
  match row_label h precision column r with
  | Normal l => String.eqb l label
  | Throw _ => false
  end.

(** The number of rows with a given label. *)
Definition rows_with_label (h : host) (precision column label : string)
    (rows : list row) : Z :=
  Z.of_nat (length (List.filter (has_label h precision column label) rows)).

(** The response has one of the two shapes of the handler: the rows under
    [data] with status 200, or a message under [error] with status 400 or
    500. *)
Definition data_response (r : response) : Prop :=
  status r = 200 /\ exists d rest, body r = ("data", d) :: rest.

Definition error_response (r : response) : Prop :=
  (status r = 400 \/ status r = 500) /\
  exists m rest, body r = ("error", JString m) :: rest.

(** The text is in lower case. *)
Definition lower_case (s : string) : Prop := toLowerCase s = s.

(** Every name and every literal of a built query is in lower case. *)
Definition lower_case_query (q : built_query) : Prop :=
  lower_case (q_from q) /\ lower_case (q_select q) /\
  (forall c v, q_eq q = Some (c, v) -> lower_case c /\ lower_case v) /\
  (forall c v, q_like q = Some (c, v) -> lower_case c /\ lower_case v) /\
  (forall c a, q_order q = Some (c, a) -> lower_case c).

(** A database with the one table [users]: a query on another table gets
    an error, and there is no function to call. *)
Definition users_only (rows : list row) : supabase_client :=
  {| select := fun q =>
       if String.eqb (q_from q) "users"
       then Normal {| rows_of := Some rows; error_of := None |}
       else Normal {| rows_of := None;
                      error_of := Some {| message := "relation does not exist";
                                          details := JNull; hint := JNull |} |};
     rpc := fun _ _ =>
       Normal {| rows_of := None;
                 error_of := Some {| message := "Could not find the function";
                                     details := JNull; hint := JNull |} |} |}.

Definition users_server (rows : list row) : server :=
  {| env_url := Some "https://project.supabase.co";
     createServerClient := Normal (users_only rows) |}.

(** The types that an analysis can have. *)
Definition error_types : list string :=
  ["unknown"; "syntax_error"; "function_not_found"; "table_not_found";
   "column_not_found"; "permission_error"].

(** The answer of the handler where it finds no table name (lines
    506-514). *)
Definition table_name_response : response :=
  {| status := 400;
     body := [("error", JString "Could not parse table name from query");
              ("hint", JString "Query must include a valid table name after FROM")] |}.

(** The answer of the handler with the rows of the function for raw SQL
    (lines 488-493). *)
Definition raw_sql_response (cleanedQuery : string) (rawData : list row) : response :=
  {| status := 200;
     body := [("data", JRows rawData);
              ("execution_method", JString "raw_sql");
              ("query", JString cleanedQuery);
              ("row_count", JNumber (Z.of_nat (length rawData)))] |}.

(** The rows that the function for raw SQL gives for a query, where the
    call is not rejected and resolves to rows and no error (the test of
    line 486). *)
Definition raw_sql_rows (supabase : supabase_client) (cleanedQuery : string)
    : option (list row) :=
  match rpc supabase "execute_raw_sql" cleanedQuery with
  | Normal r => match error_of r with None => rows_of r | Some _ => None end
  | Throw _ => None
  end.

(** The request passes the checks of lines 398-426: the query is a string
    that is not blank and begins with [select], the environment variable
    is set, and the client is created. *)
Definition reaches_strategies (srv : server) (sqlQuery : string)
    (supabase : supabase_client) : Prop :=
  String.eqb sqlQuery "" || String.eqb (trim sqlQuery) "" = false /\
  startsWith (toLowerCase (cleanedQuery_of sqlQuery)) "select" = true /\
  (exists url, env_url srv = Some url /\ url <> "") /\
  createServerClient srv = Normal supabase.

(** A database that has the function for raw SQL, which answers with the
    given rows. *)
Definition raw_sql_only (rows : list row) : supabase_client :=
  {| select := fun _ =>
       Normal {| rows_of := None;
                 error_of := Some {| message := "relation does not exist";
                                     details := JNull; hint := JNull |} |};
     rpc := fun _ _ => Normal {| rows_of := Some rows; error_of := None |} |}.

Definition raw_sql_server (rows : list row) : server :=
  {| env_url := Some "https://project.supabase.co";
     createServerClient := Normal (raw_sql_only rows) |}.

(** The first pass of the normaliser on its own. *)
Definition rewrite_extracts (s : string) : string :=
  replace_all true re_extract
    (fun m => "DATE_PART('" ++ group_text m 1 ++ "', " ++ group_text m 2 ++ ")") s.

(** A match of the call pattern begins the text, and [P] holds at a start
    position inside the match other than its first. *)
Definition inside_call (P : string -> bool) (t : string) : bool :=
  match exec true re_extract t with
  | Some (len, _) => negb (nowhere_before P (drop 1 (take len t)) (drop len t))
  | None => false
  end.

(** [EXTRACT(] begins the text; [EXTRACT::] begins the text. *)
Definition call_at (t : string) : bool := startsWith t "EXTRACT(".
Definition keyword_cast_at (t : string) : bool := startsWith t "EXTRACT::".

(** After white space, if any, the text goes on with an opening
    parenthesis or a colon. *)
Definition opens_call (t : string) : bool :=
  first_char (fun c => Ascii.eqb c "(" || Ascii.eqb c ":")
    (drop (span_len (cls_match true ws) t) t).

(** The word [extract], in any letter case, begins the text and is
    followed, after white space if any, by an opening parenthesis or a
    colon: the beginning of a call, or of one whose keyword has a cast. *)
Definition call_open_at (t : string) : bool := extract_at t && opens_call (drop 7 t).

(** A cast with another behind it begins the text: a word character,
    [::], a run of type characters and [::] again. *)
Definition chained_cast_at (t : string) : bool :=
  first_char word_chr t && startsWith (drop 1 t) "::" &&
  negb (Nat.eqb (span_len cast_chr (drop 3 t)) 0) &&
  startsWith (drop (span_len cast_chr (drop 3 t)) (drop 3 t)) "::".

(** The text ends in an unfinished cast: a word character, [::] and type
    characters up to the end. *)
Fixpoint cast_pending (s : string) : bool :=
  match s with
  | String a s' =>
      (word_chr a && startsWith s' "::" && all_chars cast_chr (drop 2 s'))
      || cast_pending s'
  | EmptyString => false
  end.

(* ===================================================================== *)
(** ** The capability test                                                *)
(* ===================================================================== *)

Lemma canProcess_spec (query : string) :
  canProcess query = true <->
  (includes (toLowerCase query) "date_part" = true \/
   includes (toLowerCase query) "date_trunc" = true \/
   includes (toLowerCase query) "extract" = true \/
   includes (toLowerCase query) "group by" = true) /\
  includes (toLowerCase query) "from" = true.
Proof.
  unfold canProcess. cbv zeta.
  rewrite andb_true_iff, !orb_true_iff. tauto.
Qed.

Lemma executeConvertedQuery_rejects (h : host) (supabase : client) (query : string) :
  canProcess query = false ->
  executeConvertedQuery h supabase query = ([], Throw unsupported_error).
Proof. intros H. unfold executeConvertedQuery. now rewrite H. Qed.

(** C1, as stated, fails: a query with a time function and [from] but no
    [group by] passes the test of the code, and the conjunction of the
    specification rejects it. The query is not rejected: its rows are
    fetched and grouped. *)
Lemma C1_counterexample :
  canProcess "SELECT DATE_PART('hour', created_at) FROM users" = true /\
  canProcess_as_specified "SELECT DATE_PART('hour', created_at) FROM users" = false /\
  executeConvertedQuery utc
    (one_table "users" [ {[ "created_at" := PString "2024-03-10T05:00:00+00:00" ]} ])
    "SELECT DATE_PART('hour', created_at) FROM users"
  = (["users"], Normal [ {[ "user_count" := VPrim (PNumber (Num 1)) ]} ]).
Proof. repeat split; vm_compute; reflexivity. Qed.

(** C1, amended: [canProcess] holds exactly when the lower-cased query
    contains [date_part], [date_trunc], [extract] or [group by], and contains
    [from]; a query that fails the test is rejected with the
    unsupported-operation error, and no rows are requested for it. *)
Theorem C1_canProcess_gate (h : host) (supabase : client) (query : string) :
  (canProcess query = true <->
   (includes (toLowerCase query) "date_part" = true \/
    includes (toLowerCase query) "date_trunc" = true \/
    includes (toLowerCase query) "extract" = true \/
    includes (toLowerCase query) "group by" = true) /\
   includes (toLowerCase query) "from" = true) /\
  (canProcess query = false ->
   executeConvertedQuery h supabase query = ([], Throw unsupported_error)).
Proof.
  split.
  - apply canProcess_spec.
  - apply executeConvertedQuery_rejects.
Qed.

Lemma C1_witness :
  canProcess "WITH t AS (SELECT 1) SELECT * FROM t" = false /\
  executeConvertedQuery utc (one_table "t" [])
    "WITH t AS (SELECT 1) SELECT * FROM t" = ([], Throw unsupported_error).
Proof.
  split.
  - vm_compute; reflexivity.
  - apply (proj2 (C1_canProcess_gate utc (one_table "t" [])
                    "WITH t AS (SELECT 1) SELECT * FROM t")).
    vm_compute; reflexivity.
Defined.

(* ===================================================================== *)
(** ** Queries without a table name                                       *)
(* ===================================================================== *)

(** C7, as stated, fails, in [executeConvertedQuery] and in the handler: a
    query without [from] does not reach the table-name check of
    [executeConvertedQuery], it is rejected by the capability test with
    the unsupported-operation error; and the handler, which catches that
    error, then hands the query to the function for raw SQL and answers
    with its rows. *)
Lemma C7_counterexample :
  table_name "SELECT DATE_TRUNC('week', NOW())" = None /\
  executeConvertedQuery utc (one_table "users" []) "SELECT DATE_TRUNC('week', NOW())"
    <> ([], Throw table_name_error) /\
  table_name (cleanedQuery_of "SELECT DATE_TRUNC('week', ts::date)") = None /\
  POST utc (raw_sql_server [ {[ "week" := PString "2024-03-11" ]} ])
    (JsonValue (PString "SELECT DATE_TRUNC('week', ts::date)"))
  = ([Rpc "execute_raw_sql" "SELECT DATE_TRUNC('week', ts::date)"],
     {| status := 200;
        body := [("data", JRows [ {[ "week" := PString "2024-03-11" ]} ]);
                 ("execution_method", JString "raw_sql");
                 ("query", JString "SELECT DATE_TRUNC('week', ts::date)");
                 ("row_count", JNumber 1)] |}).
Proof.
  split; [vm_compute; reflexivity|].
  split; [vm_compute; discriminate|].
  split; vm_compute; reflexivity.
Qed.

(** The normaliser can bring a table name about: the cast behind [from] is
    stripped, and the converted query is fetched and aggregated although
    the query of the request has no table name to parse. *)
Example table_name_after_conversion :
  table_name (cleanedQuery_of "select date_trunc('day', d) as day from::text users group by day")
    = None /\
  table_name (convertPostgreSQLFunctions
    (cleanedQuery_of "select date_trunc('day', d) as day from::text users group by day"))
    = Some "users" /\
  POST utc (users_server [])
    (JsonValue (PString "select date_trunc('day', d) as day from::text users group by day"))
  = ([Select (all_rows "users" 10000)],
     {| status := 200;
        body := [("data", JObjects []);
                 ("execution_method", JString "converted_postgresql");
                 ("query", JString
                    "select date_trunc('day', d) as day from::text users group by day");
                 ("converted_query", JString
                    "select date_trunc('day', d) as day from users group by day");
                 ("row_count", JNumber 0);
                 ("note", JString "Query was automatically converted from PostgreSQL syntax")] |}).
Proof. repeat split; vm_compute; reflexivity. Qed.

Lemma raw_sql_strategy_no_table (h : host) (supabase : supabase_client)
    (cleanedQuery : string) :
  table_name (convertPostgreSQLFunctions cleanedQuery) = None ->
  raw_sql_strategy h supabase cleanedQuery =
  if needsRawSQL cleanedQuery then
    ([Rpc "execute_raw_sql" cleanedQuery],
     option_map (raw_sql_response cleanedQuery) (raw_sql_rows supabase cleanedQuery))
  else ([], None).
Proof.
  intros Ht. unfold raw_sql_strategy, raw_sql_rows.
  destruct (needsRawSQL cleanedQuery); [|reflexivity]. cbv zeta.
  unfold executeConvertedQuery. rewrite Ht.
  destruct (negb (String.eqb (convertPostgreSQLFunctions cleanedQuery) cleanedQuery));
    [destruct (canProcess (convertPostgreSQLFunctions cleanedQuery))|];
    cbn [map app];
    (destruct (rpc supabase "execute_raw_sql" cleanedQuery) as [r|e];
       [destruct (error_of r), (rows_of r)|]; reflexivity).
Qed.

Lemma query_builder_no_table (supabase : supabase_client) (cleanedQuery : string) :
  table_name cleanedQuery = None ->
  query_builder_strategy supabase cleanedQuery = ([], Normal table_name_response).
Proof.
  unfold table_name, query_builder_strategy. cbv zeta. now intros ->.
Qed.

(** C7, amended. A query in which no [FROM <identifier>] can be parsed
    makes [executeConvertedQuery] throw and request no rows, whatever the
    client would answer: the cannot-parse-table-name error when the
    capability test passes, the unsupported-operation error when it does
    not. In the handler, where that holds of the cleaned query and of its
    normalised form, no rows are fetched; a request that passes the checks
    before the strategies is answered with status 400 and the message that
    the table name could not be parsed, without a call when the query
    matches no pattern of lines 432-448, and after one call of the
    function for raw SQL when it matches one, unless that call gives rows
    and no error: then the answer is these rows, with status 200. *)
Theorem C7_no_table_name_fails (h : host) :
  (forall (supabase : client) (query : string),
     table_name query = None ->
     executeConvertedQuery h supabase query =
       ([], Throw (if canProcess query then table_name_error else unsupported_error))) /\
  (forall (srv : server) (sqlQuery : string),
     table_name (cleanedQuery_of sqlQuery) = None ->
     table_name (convertPostgreSQLFunctions (cleanedQuery_of sqlQuery)) = None ->
     (forall q, ~ In (Select q) (fst (POST h srv (JsonValue (PString sqlQuery))))) /\
     (forall supabase, reaches_strategies srv sqlQuery supabase ->
        POST h srv (JsonValue (PString sqlQuery)) =
        if needsRawSQL (cleanedQuery_of sqlQuery) then
          ([Rpc "execute_raw_sql" (cleanedQuery_of sqlQuery)],
           match raw_sql_rows supabase (cleanedQuery_of sqlQuery) with
           | Some rawData => raw_sql_response (cleanedQuery_of sqlQuery) rawData
           | None => table_name_response
           end)
        else ([], table_name_response))).
Proof.
  split.
  { intros supabase query H. unfold executeConvertedQuery. rewrite H.
    destruct (canProcess query); reflexivity. }
  intros srv sqlQuery Hq Hc.
  assert (Hpost : forall supabase,
    createServerClient srv = Normal supabase ->
    (let '(calls, returned) := raw_sql_strategy h supabase (cleanedQuery_of sqlQuery) in
     match returned with
     | Some r => (calls, r)
     | None =>
         let '(calls2, r) := query_builder_strategy supabase (cleanedQuery_of sqlQuery) in
         (app calls calls2,
          match r with Normal r => r | Throw e => failure_response e end)
     end) =
    if needsRawSQL (cleanedQuery_of sqlQuery) then
      ([Rpc "execute_raw_sql" (cleanedQuery_of sqlQuery)],
       match raw_sql_rows supabase (cleanedQuery_of sqlQuery) with
       | Some rawData => raw_sql_response (cleanedQuery_of sqlQuery) rawData
       | None => table_name_response
       end)
    else ([], table_name_response)).
  { intros supabase _. rewrite (raw_sql_strategy_no_table _ _ _ Hc).
    rewrite (query_builder_no_table _ _ Hq).
    destruct (needsRawSQL (cleanedQuery_of sqlQuery)); [|reflexivity].
    now destruct (raw_sql_rows supabase (cleanedQuery_of sqlQuery)). }
  split.
  - intros q. unfold POST.
    destruct (String.eqb sqlQuery "" || String.eqb (trim sqlQuery) ""); [intros []|].
    cbv zeta.
    destruct (negb (startsWith (toLowerCase (cleanedQuery_of sqlQuery)) "select"));
      [intros []|].
    destruct (env_url srv) as [[|u url]|]; [intros []| |intros []].
    destruct (createServerClient srv) as [supabase|e] eqn:Es; [|intros []].
    specialize (Hpost supabase eq_refl).
    destruct (raw_sql_strategy h supabase (cleanedQuery_of sqlQuery)) as [calls [r|]].
    + rewrite Hpost. destruct (needsRawSQL (cleanedQuery_of sqlQuery)); cbn [fst In].
      * intros [H|[]]; discriminate H.
      * intros [].
    + destruct (query_builder_strategy supabase (cleanedQuery_of sqlQuery)) as [calls2 r2].
      rewrite Hpost. destruct (needsRawSQL (cleanedQuery_of sqlQuery)); cbn [fst In].
      * intros [H|[]]; discriminate H.
      * intros [].
  - intros supabase (Hv & Hs & (url & Hu & Hne) & Hcl). unfold POST.
    rewrite Hv. cbv zeta. rewrite Hs. cbn [negb]. rewrite Hu.
    destruct url as [|u url]; [congruence|]. rewrite Hcl.
    specialize (Hpost supabase Hcl).
    destruct (raw_sql_strategy h supabase (cleanedQuery_of sqlQuery)) as [calls [r|]];
      [exact Hpost|].
    destruct (query_builder_strategy supabase (cleanedQuery_of sqlQuery)) as [calls2 r2].
    exact Hpost.
Qed.

Lemma C7_witness :
  table_name "SELECT DATE_PART('hour', ts) FROM (SELECT 1)" = None /\
  executeConvertedQuery utc (one_table "users" [])
    "SELECT DATE_PART('hour', ts) FROM (SELECT 1)" = ([], Throw table_name_error) /\
  POST utc (users_server []) (JsonValue (PString "select count(*) from (select 1)"))
    = ([], table_name_response) /\
  POST utc (users_server [])
    (JsonValue (PString "select date_trunc('week', ts) from (select 1)"))
    = ([Rpc "execute_raw_sql" "select date_trunc('week', ts) from (select 1)"],
       table_name_response).
Proof.
  split; [vm_compute; reflexivity|].
  split.
  - exact (proj1 (C7_no_table_name_fails utc) (one_table "users" [])
             "SELECT DATE_PART('hour', ts) FROM (SELECT 1)" eq_refl).
  - split.
    + exact (proj2 (proj2 (C7_no_table_name_fails utc) (users_server [])
               "select count(*) from (select 1)"
               ltac:(vm_compute; reflexivity) ltac:(vm_compute; reflexivity))
               (users_only [])
               ltac:(repeat split; try (vm_compute; reflexivity);
                     exists "https://project.supabase.co"; split;
                       [reflexivity|discriminate])).
    + exact (proj2 (proj2 (C7_no_table_name_fails utc) (users_server [])
               "select date_trunc('week', ts) from (select 1)"
               ltac:(vm_compute; reflexivity) ltac:(vm_compute; reflexivity))
               (users_only [])
               ltac:(repeat split; try (vm_compute; reflexivity);
                     exists "https://project.supabase.co"; split;
                       [reflexivity|discriminate])).
Defined.

(* ===================================================================== *)
(** ** The date-trunc path without a parseable call                       *)
(* ===================================================================== *)

(** C6: when the query has no parseable [DATE_TRUNC('<precision>', <column>)]
    call, [processDateTruncQuery] returns the empty result set for every
    input (also for [null]) and throws nothing. *)
Theorem C6_unparsed_date_trunc_is_empty (h : host) (data : option (list row))
    (originalQuery : string) :
  search true re_date_trunc originalQuery = None ->
  processDateTruncQuery h data originalQuery = Normal [].
Proof.
  intros H. unfold processDateTruncQuery. rewrite H.
  destruct data as [[|r rows]|]; reflexivity.
Qed.

Lemma C6_witness :
  search true re_date_trunc "SELECT DATE_TRUNC(week, signup_date) AS week FROM users" = None /\
  processDateTruncQuery utc
    (Some [ {[ "signup_date" := PString "2024-03-14" ]} ])
    "SELECT DATE_TRUNC(week, signup_date) AS week FROM users" = Normal [].
Proof.
  split.
  - vm_compute; reflexivity.
  - apply C6_unparsed_date_trunc_is_empty. vm_compute; reflexivity.
Defined.

(* ===================================================================== *)
(** ** Strings: start positions and concatenation                         *)
(* ===================================================================== *)

Lemma append_cons (c : ascii) (a b : string) : String c a ++ b = String c (a ++ b).
Proof. reflexivity. Qed.

Lemma append_empty_l (b : string) : "" ++ b = b.
Proof. reflexivity. Qed.

Lemma append_assoc (a b c : string) : (a ++ b) ++ c = a ++ b ++ c.
Proof. induction a as [|x a IH]; [reflexivity|]. rewrite !append_cons. now rewrite IH. Qed.

Lemma append_empty_r (a : string) : a ++ "" = a.
Proof. induction a as [|x a IH]; [reflexivity|]. rewrite append_cons. now rewrite IH. Qed.

Lemma length_append (a b : string) :
  String.length (a ++ b) = (String.length a + String.length b)%nat.
Proof. induction a as [|x a IH]; [reflexivity|]. rewrite append_cons. simpl. now rewrite IH. Qed.

Lemma toLowerCase_append (a b : string) :
  toLowerCase (a ++ b) = toLowerCase a ++ toLowerCase b.
Proof. induction a as [|x a IH]; [reflexivity|]. rewrite append_cons. simpl. now rewrite IH. Qed.

Lemma includes_cons (c : ascii) (s pat : string) :
  includes (String c s) pat = startsWith (String c s) pat || includes s pat.
Proof. reflexivity. Qed.

Lemma includes_empty (pat : string) : includes "" pat = startsWith "" pat || false.
Proof. reflexivity. Qed.

Lemma nowhere_cons (P : string -> bool) (c : ascii) (s : string) :
  nowhere P (String c s) = negb (P (String c s)) && nowhere P s.
Proof. reflexivity. Qed.

Lemma includes_nowhere (s pat : string) :
  includes s pat = negb (nowhere (fun t => startsWith t pat) s).
Proof.
  induction s as [|c s IH].
  - unfold includes, nowhere. now destruct (startsWith "" pat).
  - rewrite includes_cons, nowhere_cons, IH.
    now destruct (startsWith (String c s) pat), (nowhere (fun t => startsWith t pat) s).
Qed.

Lemma nowhere_append (P : string -> bool) (a b : string) :
  nowhere P (a ++ b) = nowhere_before P a b && nowhere P b.
Proof.
  induction a as [|c a IH]; [reflexivity|].
  rewrite append_cons. simpl. rewrite IH, append_cons. now rewrite andb_assoc.
Qed.

Lemma nowhere_impl (P Q : string -> bool) (s : string) :
  (forall t, Q t = true -> P t = true) -> nowhere P s = true -> nowhere Q s = true.
Proof.
  intros HPQ. induction s as [|c s IH]; simpl; rewrite !andb_true_iff, !negb_true_iff.
  - intros [H _]. split; [|reflexivity].
    destruct (Q "") eqn:E; [|reflexivity]. apply HPQ in E. congruence.
  - intros [H1 H2]. split; [|now apply IH].
    destruct (Q (String c s)) eqn:E; [|reflexivity]. apply HPQ in E. congruence.
Qed.

Lemma nowhere_before_impl (P Q : string -> bool) (a b : string) :
  (forall t, Q t = true -> P t = true) ->
  nowhere_before P a b = true -> nowhere_before Q a b = true.
Proof.
  intros HPQ. induction a as [|c a IH]; simpl; [reflexivity|].
  rewrite !andb_true_iff, !negb_true_iff. intros [H1 H2]. split; [|now apply IH].
  destruct (Q (String c a ++ b)) eqn:E; [|reflexivity]. apply HPQ in E. congruence.
Qed.

(** A property of prefixes that no start inside [a] satisfies on [a] alone
    is not satisfied on [a ++ b] either, provided [b] cannot complete a
    start that [a] left open. *)
Lemma nowhere_before_intro (P : string -> bool) (a b : string) :
  nowhere P a = true ->
  (forall t, t <> "" -> P t = false -> P (t ++ b) = false) ->
  nowhere_before P a b = true.
Proof.
  intros Ha Hb. induction a as [|c a IH]; [reflexivity|].
  simpl in Ha |- *. apply andb_true_iff in Ha as [H1 H2].
  apply negb_true_iff in H1.
  rewrite (Hb (String c a)); [|discriminate|assumption].
  simpl. now apply IH.
Qed.

Lemma includes_false_nowhere (s pat : string) :
  includes s pat = false <-> nowhere (fun t => startsWith t pat) s = true.
Proof. rewrite includes_nowhere. now destruct (nowhere _ s). Qed.

Lemma includes_append_false (a b pat : string) :
  includes a pat = false -> includes b pat = false ->
  (forall t, t <> "" -> startsWith t pat = false -> startsWith (t ++ b) pat = false) ->
  includes (a ++ b) pat = false.
Proof.
  rewrite !includes_false_nowhere, nowhere_append. intros Ha Hb Hs.
  rewrite Hb, andb_true_r. now apply nowhere_before_intro.
Qed.

Lemma startsWith_append (pat b : string) : startsWith (pat ++ b) pat = true.
Proof.
  induction pat as [|c pat IH]; [reflexivity|].
  rewrite append_cons. simpl. now rewrite Ascii.eqb_refl.
Qed.

Lemma includes_startsWith (s pat : string) : startsWith s pat = true -> includes s pat = true.
Proof.
  intros H. destruct s; [rewrite includes_empty | rewrite includes_cons]; now rewrite H.
Qed.

Lemma includes_append_r (a b pat : string) :
  includes b pat = true -> includes (a ++ b) pat = true.
Proof.
  intros H. induction a as [|c a IH]; [assumption|].
  rewrite append_cons, includes_cons, IH. apply orb_true_r.
Qed.

Lemma includes_middle (a b pat : string) : includes (a ++ pat ++ b) pat = true.
Proof. apply includes_append_r, includes_startsWith, startsWith_append. Qed.

Lemma includes_suffixes (s pat : string) :
  includes s pat = false -> nowhere (fun t => includes t pat) s = true.
Proof.
  induction s as [|c s IH]; intros H.
  - unfold nowhere. now rewrite H.
  - rewrite nowhere_cons, H. rewrite includes_cons in H.
    apply orb_false_iff in H as [_ H]. now apply IH.
Qed.

(* ===================================================================== *)
(** ** The matcher                                                        *)
(* ===================================================================== *)

(** A success of [greedy] is a success of its continuation on a suffix. *)
Lemma greedy_inv (p : ascii -> bool) (k : string -> nat -> outcome)
    (s : string) (i : nat) (x : nat * caps) :
  greedy p k s i = Some x ->
  exists t s', s = t ++ s' /\ k s' (i + String.length t)%nat = Some x.
Proof.
  revert i. induction s as [|a s IH]; intros i H; simpl in H.
  - exists "", "". split; [reflexivity|]. simpl. now rewrite Nat.add_0_r.
  - destruct (p a).
    + destruct (greedy p k s (S i)) eqn:E.
      * injection H as ->.
        destruct (IH _ E) as (t & s' & -> & Hk).
        exists (String a t), s'. split; [reflexivity|].
        simpl. rewrite Nat.add_succ_r. exact Hk.
      * exists "", (String a s). split; [reflexivity|]. simpl. now rewrite Nat.add_0_r.
    + exists "", (String a s). split; [reflexivity|]. simpl. now rewrite Nat.add_0_r.
Qed.

Ltac each_ascii a := destruct a as [[] [] [] [] [] [] [] []].

(** Under the [i] flag a pattern letter matches its two case forms only. *)
Lemma chr_match_letter (p a : ascii) :
  In p ["E"; "X"; "T"; "R"; "A"; "C"]%char ->
  chr_match true p a = true -> lower_char a = lower_char p.
Proof.
  intros Hp H. simpl in Hp.
  destruct Hp as [<-|[<-|[<-|[<-|[<-|[<-|[]]]]]]];
    each_ascii a; vm_compute in H; try discriminate H; reflexivity.
Qed.

Lemma chr_match_colon (a : ascii) : chr_match true ":" a = true -> a = ":"%char.
Proof. intros H. each_ascii a; vm_compute in H; try discriminate H; reflexivity. Qed.

Lemma matches_at_extract (s : string) :
  matches_at true re_extract s = true -> startsWith (toLowerCase s) "extract" = true.
Proof.
  unfold matches_at, exec, re_extract.
  destruct s as [|a1 [|a2 [|a3 [|a4 [|a5 [|a6 [|a7 s]]]]]]];
    cbn [run seq lit toLowerCase];
    try discriminate;
    repeat match goal with
    | |- context [chr_match true ?p ?a] =>
        let E := fresh "E" in
        destruct (chr_match true p a) eqn:E; [|discriminate];
        apply chr_match_letter in E; [|simpl; tauto]
    end; try discriminate.
  intros _.
  repeat match goal with E : lower_char _ = _ |- _ => rewrite E; clear E end.
  reflexivity.
Qed.

Lemma matches_at_cast (s : string) :
  matches_at true re_cast s = true -> includes s "::" = true.
Proof.
  unfold matches_at, exec, re_cast. cbn [run seq lit].
  destruct s as [|a s]; [discriminate|].
  destruct (cls_match true word a); [|discriminate].
  match goal with
  | |- context [greedy ?p ?k s 1%nat] => destruct (greedy p k s 1%nat) as [x|] eqn:E
  end; [intros _|discriminate].
  apply greedy_inv in E as (t & s' & -> & Hk).
  destruct s' as [|b1 [|b2 s']]; cbn [run] in Hk; try discriminate.
  - destruct (chr_match true ":" b1); discriminate.
  - destruct (chr_match true ":" b1) eqn:E1; [|discriminate].
    destruct (chr_match true ":" b2) eqn:E2; [|discriminate].
    apply chr_match_colon in E1 as ->. apply chr_match_colon in E2 as ->.
    change (String a (t ++ String ":" (String ":" s')))
      with (String a t ++ "::" ++ s').
    apply includes_middle.
Qed.

(* ===================================================================== *)
(** ** Global replacement                                                 *)
(* ===================================================================== *)

Lemma replace_go_nowhere (ic : bool) (r : regex) (tmpl : match_result -> string)
    (s : string) :
  nowhere (matches_at ic r) s = true -> replace_go ic r tmpl 0 s = s.
Proof.
  induction s as [|a s IH]; unfold matches_at; simpl;
    rewrite andb_true_iff, negb_true_iff.
  - intros [H _]. now destruct (exec ic r "").
  - intros [H1 H2]. destruct (exec ic r (String a s)); [discriminate|].
    f_equal. now apply IH.
Qed.

Lemma replace_go_before (ic : bool) (r : regex) (tmpl : match_result -> string)
    (a b : string) :
  nowhere_before (matches_at ic r) a b = true ->
  replace_go ic r tmpl 0 (a ++ b) = a ++ replace_go ic r tmpl 0 b.
Proof.
  induction a as [|x a IH]; [reflexivity|].
  unfold matches_at. simpl. rewrite andb_true_iff, negb_true_iff.
  intros [H1 H2]. rewrite !append_cons in *.
  cbn [replace_go]. destruct (exec ic r (String x (a ++ b))); [discriminate|].
  f_equal. now apply IH.
Qed.

Lemma replace_go_match (ic : bool) (r : regex) (tmpl : match_result -> string)
    (a : ascii) (s : string) (n : nat) (c : caps) :
  exec ic r (String a s) = Some (S n, c) ->
  replace_go ic r tmpl 0 (String a s) =
  tmpl (mk_result 0 (String a s) (S n) c) ++ replace_go ic r tmpl n s.
Proof. intros H. cbn [replace_go]. now rewrite H. Qed.

Lemma replace_go_skip (ic : bool) (r : regex) (tmpl : match_result -> string)
    (a b : string) :
  replace_go ic r tmpl (String.length a) (a ++ b) = replace_go ic r tmpl 0 b.
Proof. induction a as [|x a IH]; [reflexivity|]. rewrite append_cons. simpl. exact IH. Qed.

(** A text without [::] and without the word [extract], in any letter
    case, has nothing to rewrite. *)
Lemma convert_fixed_point (s : string) :
  includes s "::" = false ->
  includes (toLowerCase s) "extract" = false ->
  convertPostgreSQLFunctions s = s.
Proof.
  intros Hc He. unfold convertPostgreSQLFunctions, replace_all. cbv zeta.
  assert (H1 : nowhere (matches_at true re_extract) s = true).
  { apply includes_false_nowhere in He.
    clear Hc. induction s as [|a s IH].
    - reflexivity.
    - rewrite nowhere_cons. simpl toLowerCase in He. rewrite nowhere_cons in He.
      apply andb_true_iff in He as [He1 He2]. rewrite (IH He2), andb_true_r.
      apply negb_true_iff in He1. apply negb_true_iff.
      destruct (matches_at true re_extract (String a s)) eqn:E; [|reflexivity].
      apply matches_at_extract in E. simpl toLowerCase in E. congruence. }
  rewrite (replace_go_nowhere _ _ _ _ H1).
  apply replace_go_nowhere.
  apply (nowhere_impl (fun t => includes t "::")).
  - apply matches_at_cast.
  - now apply includes_suffixes.
Qed.

Lemma startsWith_straddle (pat b : string) :
  completes b pat = false ->
  forall t, t <> "" -> startsWith t pat = false -> startsWith (t ++ b) pat = false.
Proof.
  induction pat as [|p pat IH]; intros Hb t Ht H; [discriminate H|].
  destruct t as [|c t]; [congruence|].
  rewrite append_cons. simpl in H |- *.
  destruct (Ascii.eqb p c); [|reflexivity]. simpl in H |- *.
  destruct pat as [|p' pat]; [discriminate H|].
  cbn [completes] in Hb. apply orb_false_iff in Hb as [Hb1 Hb2].
  destruct t as [|c' t].
  - exact Hb1.
  - apply IH; [assumption|discriminate|assumption].
Qed.

Lemma includes_append_straddle (a b pat : string) :
  includes a pat = false -> includes b pat = false -> completes b pat = false ->
  includes (a ++ b) pat = false.
Proof.
  intros Ha Hb Hc. apply includes_append_false; try assumption.
  now apply startsWith_straddle.
Qed.

(** The text before [b] is copied when no attempt that starts in it can
    succeed: none starts with the word of the pattern. *)
Lemma extract_nowhere_before (a b : string) :
  includes (toLowerCase a) "extract" = false ->
  completes (toLowerCase b) "extract" = false ->
  nowhere_before (matches_at true re_extract) a b = true.
Proof.
  intros Ha Hb.
  apply (nowhere_before_impl (fun t => startsWith (toLowerCase t) "extract")).
  { apply matches_at_extract. }
  apply nowhere_before_intro.
  - apply includes_false_nowhere in Ha. clear Hb.
    induction a as [|c a IH]; [exact Ha|].
    simpl toLowerCase in Ha. rewrite nowhere_cons in Ha |- *.
    apply andb_true_iff in Ha as [H1 H2]. rewrite (IH H2), andb_true_r. exact H1.
  - intros t Ht H. rewrite toLowerCase_append.
    apply startsWith_straddle; [assumption| |assumption].
    destruct t; [congruence|discriminate].
Qed.

Lemma extract_nowhere (s : string) :
  includes (toLowerCase s) "extract" = false ->
  nowhere (matches_at true re_extract) s = true.
Proof.
  intros H. rewrite <- (append_empty_r s), nowhere_append.
  rewrite extract_nowhere_before; [reflexivity|assumption|reflexivity].
Qed.

Lemma cast_nowhere (s : string) :
  includes s "::" = false -> nowhere (matches_at true re_cast) s = true.
Proof.
  intros H. apply (nowhere_impl (fun t => includes t "::")).
  - apply matches_at_cast.
  - now apply includes_suffixes.
Qed.

Lemma exec_extract_hour (post : string) :
  exec true re_extract ("EXTRACT(HOUR FROM ts)" ++ post) =
  Some (21%nat, [(2, (18, 20)); (1, (8, 12))]%nat).
Proof. vm_compute. reflexivity. Qed.

Lemma extract_pass (tmpl : match_result -> string) (pre post : string) :
  includes (toLowerCase pre) "extract" = false ->
  includes (toLowerCase post) "extract" = false ->
  replace_all true re_extract tmpl (pre ++ "EXTRACT(HOUR FROM ts)" ++ post) =
  pre ++ tmpl (mk_result 0 ("EXTRACT(HOUR FROM ts)" ++ post) 21
                 [(2, (18, 20)); (1, (8, 12))]%nat) ++ post.
Proof.
  intros Hpre Hpost. unfold replace_all.
  rewrite replace_go_before.
  2:{ apply extract_nowhere_before; [assumption|].
      rewrite toLowerCase_append. reflexivity. }
  f_equal.
  etransitivity.
  { exact (replace_go_match true re_extract tmpl "E" ("XTRACT(HOUR FROM ts)" ++ post)
             20 [(2, (18, 20)); (1, (8, 12))]%nat (exec_extract_hour post)). }
  f_equal.
  etransitivity.
  { exact (replace_go_skip true re_extract tmpl "XTRACT(HOUR FROM ts)" post). }
  apply replace_go_nowhere, extract_nowhere, Hpost.
Qed.

Lemma startsWith_append_l (s p1 p2 : string) :
  startsWith s (p1 ++ p2) = true -> startsWith s p1 = true.
Proof.
  revert s. induction p1 as [|p p1 IH]; intros s H; [reflexivity|].
  rewrite append_cons in H. destruct s as [|a s]; [discriminate H|].
  simpl in H |- *. apply andb_true_iff in H as [H1 H2].
  rewrite H1. simpl. now apply IH.
Qed.

Lemma startsWith_toLowerCase (s p : string) :
  startsWith s p = true -> startsWith (toLowerCase s) (toLowerCase p) = true.
Proof.
  revert s. induction p as [|x p IH]; intros s H; [reflexivity|].
  destruct s as [|a s]; [discriminate H|].
  simpl in H |- *. apply andb_true_iff in H as [H1 H2].
  apply Ascii.eqb_eq in H1 as ->. rewrite Ascii.eqb_refl. simpl. now apply IH.
Qed.

Lemma includes_toLowerCase (s p : string) :
  includes s p = true -> includes (toLowerCase s) (toLowerCase p) = true.
Proof.
  induction s as [|a s IH]; intros H.
  - rewrite includes_empty, orb_false_r in H.
    apply startsWith_toLowerCase in H. now apply includes_startsWith.
  - rewrite includes_cons in H. apply orb_true_iff in H as [H|H].
    + apply startsWith_toLowerCase in H. now apply includes_startsWith.
    + simpl toLowerCase. rewrite includes_cons, (IH H). apply orb_true_r.
Qed.

Lemma includes_append_pattern (s p1 p2 : string) :
  includes s (p1 ++ p2) = true -> includes s p1 = true.
Proof.
  induction s as [|a s IH]; intros H.
  - rewrite includes_empty, orb_false_r in H.
    apply startsWith_append_l in H. now apply includes_startsWith.
  - rewrite includes_cons in H |- *. apply orb_true_iff in H as [H|H].
    + apply startsWith_append_l in H. now rewrite H.
    + rewrite (IH H). apply orb_true_r.
Qed.

Lemma no_extract_call (s : string) :
  includes (toLowerCase s) "extract" = false -> includes s "EXTRACT(" = false.
Proof.
  intros H. destruct (includes s "EXTRACT(") eqn:E; [|reflexivity].
  apply (includes_append_pattern s "EXTRACT" "(") in E.
  apply includes_toLowerCase in E. change (toLowerCase "EXTRACT") with "extract" in E.
  congruence.
Qed.

(* ===================================================================== *)
(** ** The normaliser                                                     *)
(* ===================================================================== *)

(** C2, as stated, fails: a pass strips one cast of a chain and leaves the
    next one, which a second pass strips. *)
Lemma C2_counterexample :
  convertPostgreSQLFunctions "SELECT created_at::timestamp::date FROM users"
    = "SELECT created_at::date FROM users" /\
  convertPostgreSQLFunctions
    (convertPostgreSQLFunctions "SELECT created_at::timestamp::date FROM users")
    = "SELECT created_at FROM users" /\
  convertPostgreSQLFunctions
    (convertPostgreSQLFunctions "SELECT created_at::timestamp::date FROM users")
    <> convertPostgreSQLFunctions "SELECT created_at::timestamp::date FROM users".
Proof.
  split; [vm_compute; reflexivity|].
  split; [vm_compute; reflexivity|].
  vm_compute. discriminate.
Qed.

(* ===================================================================== *)
(** ** A match does not depend on the text after it                       *)
(* ===================================================================== *)

Lemma greedy_none (p : ascii -> bool) (k : string -> nat -> outcome) (s : string) (i : nat) :
  greedy p k s i = None -> k s i = None.
Proof.
  destruct s as [|a s]; simpl; [trivial|].
  destruct (p a); [|trivial]. now destruct (greedy p k s (S i)).
Qed.

(** A success of [run] is a success of its continuation, later in the
    input and with more captures. *)
Lemma run_inv (ic : bool) (r : regex) :
  forall k s i c x,
  run ic r k s i c = Some x ->
  exists s' i' l,
    k s' i' (l ++ c)%list = Some x /\
    (i' + String.length s' = i + String.length s)%nat /\ (i <= i')%nat.
Proof.
  induction r as [|p|cl|cl|cl|r1 IH1 r2 IH2|r1 IH1 r2 IH2|r IH|n r IH|];
    intros k s i c x H; cbn [run] in H.
  - exists s, i, []. auto.
  - destruct s as [|a s]; [discriminate|]. destruct (chr_match ic p a); [|discriminate].
    exists s, (S i), []. simpl. repeat split; auto; lia.
  - destruct s as [|a s]; [discriminate|]. destruct (cls_match ic cl a); [|discriminate].
    exists s, (S i), []. simpl. repeat split; auto; lia.
  - apply greedy_inv in H as (t & s' & -> & Hk).
    exists s', (i + String.length t)%nat, []. rewrite length_append.
    repeat split; auto; lia.
  - destruct s as [|a s]; [discriminate|]. destruct (cls_match ic cl a); [|discriminate].
    apply greedy_inv in H as (t & s' & -> & Hk).
    exists s', (S i + String.length t)%nat, []. simpl. rewrite length_append.
    repeat split; auto; lia.
  - apply IH1 in H as (s1 & i1 & l1 & H & E1 & L1).
    apply IH2 in H as (s2 & i2 & l2 & H & E2 & L2).
    exists s2, i2, (l2 ++ l1)%list. rewrite <- app_assoc. repeat split; auto; lia.
  - destruct (run ic r1 k s i c) eqn:E.
    + injection H as ->. now apply IH1 in E.
    + now apply IH2 in H.
  - destruct (run ic r k s i c) eqn:E.
    + injection H as ->. now apply IH in E.
    + exists s, i, []. auto.
  - apply IH in H as (s1 & i1 & l1 & H & E1 & L1).
    exists s1, i1, (((n, (i, i1)) :: l1))%list. repeat split; auto.
  - destruct s; [|discriminate]. exists "", i, []. auto.
Qed.

Lemma exec_length (ic : bool) (r : regex) (s : string) (len : nat) (c : caps) :
  exec ic r s = Some (len, c) -> (len <= String.length s)%nat.
Proof.
  unfold exec. intros H. apply run_inv in H as (s' & i' & l & H & E & _).
  injection H as <- _. lia.
Qed.

Section Truncation.
Variable v : string.         (* the text after the match *)
Variable len : nat.          (* the offset at which the match ends *)
Variable res : nat * caps.   (* the match *)
Hypothesis res_len : fst res = len.

(** A continuation on the whole input and the same continuation on the
    input cut at [len]. *)
Record agree (k k' : string -> nat -> caps -> outcome) : Prop := {
  agree_some : forall x j c, (j + String.length x = len)%nat ->
    k (x ++ v) j c = Some res -> k' x j c = Some res;
  agree_none : forall x j c, (j + String.length x = len)%nat ->
    k (x ++ v) j c = None -> k' x j c = None;
  agree_past : forall y j c r, (len < j)%nat -> k y j c = Some r -> fst r <> len
}.

Lemma greedy_past (p : ascii -> bool) (k : string -> nat -> outcome) :
  (forall y j r, (len < j)%nat -> k y j = Some r -> fst r <> len) ->
  forall y j r, (len <= j)%nat -> greedy p k y j = Some r ->
  k y j = Some r \/ fst r <> len.
Proof.
  intros Hk y. induction y as [|a y IH]; intros j r Hj H; simpl in H; [now left|].
  destruct (p a); [|now left].
  destruct (greedy p k y (S j)) eqn:E; [|now left].
  injection H as ->. right.
  destruct (IH (S j) r ltac:(lia) E) as [H|H]; [|assumption].
  apply (Hk y (S j)); [lia|assumption].
Qed.

Lemma greedy_agree (p : ascii -> bool) (k k' : string -> nat -> outcome) :
  (forall x j, (j + String.length x = len)%nat -> k (x ++ v) j = Some res -> k' x j = Some res) ->
  (forall x j, (j + String.length x = len)%nat -> k (x ++ v) j = None -> k' x j = None) ->
  (forall y j r, (len < j)%nat -> k y j = Some r -> fst r <> len) ->
  forall x j, (j + String.length x = len)%nat ->
  (greedy p k (x ++ v) j = Some res -> greedy p k' x j = Some res) /\
  (greedy p k (x ++ v) j = None -> greedy p k' x j = None).
Proof.
  intros HS HF HP x. induction x as [|a x IH]; intros j Hj.
  - simpl in Hj. split; intros H.
    + simpl. apply HS; [simpl; lia|]. rewrite append_empty_l in H |- *.
      destruct (greedy_past p k HP v j res ltac:(lia) H) as [H'|H']; [assumption|].
      congruence.
    + simpl. apply HF; [simpl; lia|]. apply greedy_none in H. exact H.
  - simpl in Hj. rewrite append_cons. simpl.
    destruct (IH (S j) ltac:(lia)) as [IHs IHn].
    destruct (p a).
    + destruct (greedy p k (x ++ v) (S j)) eqn:E.
      * split; intros H; [|discriminate]. injection H as ->. now rewrite (IHs eq_refl).
      * rewrite (IHn eq_refl). split; intros H.
        -- apply (HS (String a x)); [simpl; lia|exact H].
        -- apply (HF (String a x)); [simpl; lia|exact H].
    + split; intros H.
      * apply (HS (String a x)); [simpl; lia|exact H].
      * apply (HF (String a x)); [simpl; lia|exact H].
Qed.

Lemma run_agree (ic : bool) (r : regex) :
  eos_free r = true ->
  forall k k', agree k k' -> agree (run ic r k) (run ic r k').
Proof.
  induction r as [|p|cl|cl|cl|r1 IH1 r2 IH2|r1 IH1 r2 IH2|r IH|n r IH|];
    intros Hr k k' [HS HF HP]; cbn [eos_free] in Hr;
    try (apply andb_true_iff in Hr as [Hr1 Hr2]); try discriminate.
  - split; cbn [run]; eauto.
  - split; cbn [run].
    + intros [|a x] j c Hj H; simpl in Hj.
      * rewrite append_empty_l in H. destruct v as [|a y]; [discriminate|].
        destruct (chr_match ic p a); [|discriminate].
        apply HP in H; [congruence|lia].
      * rewrite append_cons in H. destruct (chr_match ic p a); [|discriminate].
        apply HS; [lia|exact H].
    + intros [|a x] j c Hj H; simpl in Hj; [reflexivity|].
      rewrite append_cons in H. destruct (chr_match ic p a); [|reflexivity].
      apply HF; [lia|exact H].
    + intros [|a y] j c r0 Hj H; [discriminate|].
      destruct (chr_match ic p a); [|discriminate].
      apply HP in H; [assumption|lia].
  - split; cbn [run].
    + intros [|a x] j c Hj H; simpl in Hj.
      * rewrite append_empty_l in H. destruct v as [|a y]; [discriminate|].
        destruct (cls_match ic cl a); [|discriminate].
        apply HP in H; [congruence|lia].
      * rewrite append_cons in H. destruct (cls_match ic cl a); [|discriminate].
        apply HS; [lia|exact H].
    + intros [|a x] j c Hj H; simpl in Hj; [reflexivity|].
      rewrite append_cons in H. destruct (cls_match ic cl a); [|reflexivity].
      apply HF; [lia|exact H].
    + intros [|a y] j c r0 Hj H; [discriminate|].
      destruct (cls_match ic cl a); [|discriminate].
      apply HP in H; [assumption|lia].
  - split; cbn [run].
    + intros x j c Hj. apply (greedy_agree _ (fun s i => k s i c) (fun s i => k' s i c)); eauto.
    + intros x j c Hj. apply (greedy_agree _ (fun s i => k s i c) (fun s i => k' s i c)); eauto.
    + intros y j c r0 Hj H. apply greedy_inv in H as (t & s' & _ & H).
      apply HP in H; [assumption|lia].
  - split; cbn [run].
    + intros [|a x] j c Hj H; simpl in Hj.
      * rewrite append_empty_l in H. destruct v as [|a y]; [discriminate|].
        destruct (cls_match ic cl a); [|discriminate].
        apply greedy_inv in H as (t & s' & _ & H).
        apply HP in H; [congruence|lia].
      * rewrite append_cons in H. destruct (cls_match ic cl a); [|discriminate].
        revert H. apply (greedy_agree _ (fun s i => k s i c) (fun s i => k' s i c)); eauto.
        lia.
    + intros [|a x] j c Hj H; simpl in Hj; [reflexivity|].
      rewrite append_cons in H. destruct (cls_match ic cl a); [|reflexivity].
      revert H. apply (greedy_agree _ (fun s i => k s i c) (fun s i => k' s i c)); eauto.
      lia.
    + intros [|a y] j c r0 Hj H; [discriminate|].
      destruct (cls_match ic cl a); [|discriminate].
      apply greedy_inv in H as (t & s' & _ & H).
      apply HP in H; [assumption|lia].
  - cbn [run]. apply IH1; [assumption|]. apply IH2; [assumption|]. now split.
  - destruct (IH1 Hr1 k k' (Build_agree _ _ HS HF HP)) as [S1 F1 P1].
    destruct (IH2 Hr2 k k' (Build_agree _ _ HS HF HP)) as [S2 F2 P2].
    split; cbn [run].
    + intros x j c Hj H. destruct (run ic r1 k (x ++ v) j c) eqn:E.
      * injection H as ->. now rewrite (S1 _ _ _ Hj E).
      * rewrite (F1 _ _ _ Hj E). now apply S2.
    + intros x j c Hj H. destruct (run ic r1 k (x ++ v) j c) eqn:E; [discriminate|].
      rewrite (F1 _ _ _ Hj E). now apply F2.
    + intros y j c r0 Hj H. destruct (run ic r1 k y j c) eqn:E.
      * injection H as ->. now apply P1 in E.
      * now apply P2 in H.
  - destruct (IH Hr k k' (Build_agree _ _ HS HF HP)) as [S1 F1 P1].
    split; cbn [run].
    + intros x j c Hj H. destruct (run ic r k (x ++ v) j c) eqn:E.
      * injection H as ->. now rewrite (S1 _ _ _ Hj E).
      * rewrite (F1 _ _ _ Hj E). now apply HS.
    + intros x j c Hj H. destruct (run ic r k (x ++ v) j c) eqn:E; [discriminate|].
      rewrite (F1 _ _ _ Hj E). now apply HF.
    + intros y j c r0 Hj H. destruct (run ic r k y j c) eqn:E.
      * injection H as ->. now apply P1 in E.
      * now apply HP in H.
  - split; cbn [run].
    + intros x j c Hj.
      apply (IH Hr (fun s' i' c' => k s' i' ((n, (j, i')) :: c'))
                   (fun s' i' c' => k' s' i' ((n, (j, i')) :: c'))); [|assumption].
      split; eauto.
    + intros x j c Hj.
      apply (IH Hr (fun s' i' c' => k s' i' ((n, (j, i')) :: c'))
                   (fun s' i' c' => k' s' i' ((n, (j, i')) :: c'))); [|assumption].
      split; eauto.
    + intros y j c r0 Hj H. apply run_inv in H as (s' & i' & l & H & _ & L).
      apply HP in H; [assumption|lia].
Qed.

End Truncation.

Lemma take_drop (n : nat) (s : string) : take n s ++ drop n s = s.
Proof.
  revert s. induction n as [|n IH]; intros [|a s]; try reflexivity.
  simpl. rewrite append_cons. now rewrite IH.
Qed.

Lemma length_take (n : nat) (s : string) :
  (n <= String.length s)%nat -> String.length (take n s) = n.
Proof.
  revert s. induction n as [|n IH]; intros [|a s] H; simpl in *; try reflexivity; try lia.
  rewrite IH; [reflexivity|lia].
Qed.

(** The text of a match, matched again from its start, gives the same
    match. *)
Lemma exec_truncate (ic : bool) (r : regex) (s : string) (len : nat) (c : caps) :
  eos_free r = true ->
  exec ic r s = Some (len, c) -> exec ic r (take len s) = Some (len, c).
Proof.
  intros Hr H. pose proof (exec_length _ _ _ _ _ H) as Hlen.
  unfold exec in *.
  assert (A : agree (drop len s) len (len, c)
                (fun _ i c0 => Some (i, c0)) (fun _ i c0 => Some (i, c0))).
  { split.
    - intros x j c0 _ E. exact E.
    - discriminate.
    - intros y j c0 r0 Hj E. injection E as <-. simpl. lia. }
  apply (run_agree (drop len s) len (len, c) eq_refl ic r Hr _ _ A).
  - simpl. now rewrite length_take.
  - now rewrite take_drop.
Qed.

(* ===================================================================== *)
(** ** The cast pass                                                      *)
(* ===================================================================== *)

(* ===================================================================== *)
(** ** The cast pattern without backtracking                              *)
(* ===================================================================== *)

Lemma greedy_span (p : ascii -> bool) (k : string -> nat -> outcome) (s : string) (i : nat) :
  (forall a s' i', p a = true -> k (String a s') i' = None) ->
  greedy p k s i = k (drop (span_len p s) s) (i + span_len p s)%nat.
Proof.
  intros Hk. revert i. induction s as [|a s IH]; intros i; simpl.
  - now rewrite Nat.add_0_r.
  - destruct (p a) eqn:E; simpl.
    + rewrite IH. replace (i + S (span_len p s))%nat with (S i + span_len p s)%nat by lia.
      destruct (k (drop (span_len p s) s) (S i + span_len p s)%nat) eqn:E'; [reflexivity|].
      now apply Hk.
    + now rewrite Nat.add_0_r.
Qed.

Lemma greedy_span_end (p : ascii -> bool) (c : caps) (s : string) (i : nat) :
  greedy p (fun _ i' => Some (i', c)) s i = Some ((i + span_len p s)%nat, c).
Proof.
  revert i. induction s as [|a s IH]; intros i; simpl.
  - now rewrite Nat.add_0_r.
  - destruct (p a); simpl.
    + rewrite IH. do 2 f_equal. lia.
    + now rewrite Nat.add_0_r.
Qed.

Lemma word_chr_not_colon (a : ascii) : word_chr a = true -> chr_match true ":" a = false.
Proof. unfold word_chr. each_ascii a; vm_compute; congruence. Qed.

Lemma word_chr_cast_chr (a : ascii) : word_chr a = true -> cast_chr a = true.
Proof. unfold word_chr, cast_chr. each_ascii a; vm_compute; congruence. Qed.

Lemma chr_match_colon_eqb (a : ascii) : chr_match true ":" a = Ascii.eqb a ":".
Proof. each_ascii a; vm_compute; reflexivity. Qed.

(** The matcher on the cast pattern: where it succeeds and how far. *)
Lemma exec_cast (s : string) :
  exec true re_cast s =
  match cast_length s with
  | Some len => Some (len, [(1%nat, (0%nat, span_len word_chr s))])
  | None => None
  end.
Proof.
  unfold exec, re_cast, cast_length.
  destruct s as [|a s]; [reflexivity|].
  cbn [seq lit run span_len].
  change (cls_match true word) with word_chr.
  change (cls_match true type_chr) with cast_chr. destruct (word_chr a) eqn:Ea; [|reflexivity].
  rewrite greedy_span.
  2:{ intros b s' i' Hb. now rewrite (word_chr_not_colon b Hb). }
  cbn [drop].
  destruct (drop (span_len word_chr s) s) as [|c1 [|c2 [|b s3]]];
    rewrite ?chr_match_colon_eqb; try reflexivity.
  - now destruct (Ascii.eqb c1 ":").
  - destruct (Ascii.eqb c1 ":"); [|reflexivity]. now destruct (Ascii.eqb c2 ":").
  - destruct (Ascii.eqb c1 ":"); [|reflexivity].
    destruct (Ascii.eqb c2 ":"); [|reflexivity]. cbn [andb].
    destruct (cast_chr b); [|reflexivity].
    rewrite greedy_span_end. do 2 f_equal. lia.
Qed.

Lemma length_drop (n : nat) (s : string) :
  String.length (drop n s) = (String.length s - n)%nat.
Proof.
  revert s. induction n as [|n IH]; intros [|a s]; simpl; try reflexivity. apply IH.
Qed.

Lemma drop_drop (n m : nat) (s : string) : drop n (drop m s) = drop (m + n) s.
Proof.
  revert s. induction m as [|m IH]; intros s; [reflexivity|].
  destruct s as [|a s]; [now destruct n|]. simpl. apply IH.
Qed.

Lemma drop_append (n : nat) (a b : string) :
  (n <= String.length a)%nat -> drop n (a ++ b) = drop n a ++ b.
Proof.
  revert a. induction n as [|n IH]; intros a H; [reflexivity|].
  destruct a as [|x a]; simpl in H; [lia|]. rewrite append_cons. simpl.
  apply IH. lia.
Qed.

Lemma take_append (n : nat) (a b : string) :
  (n <= String.length a)%nat -> take n (a ++ b) = take n a.
Proof.
  revert a. induction n as [|n IH]; intros a H; [reflexivity|].
  destruct a as [|x a]; simpl in H; [lia|]. rewrite append_cons. simpl.
  f_equal. apply IH. lia.
Qed.

Lemma span_len_le (p : ascii -> bool) (s : string) : (span_len p s <= String.length s)%nat.
Proof. induction s as [|a s IH]; simpl; [lia|]. destruct (p a); simpl; lia. Qed.

(** After the longest run comes a character outside the class, or
    nothing. *)
Lemma span_len_stop (p : ascii -> bool) (s : string) :
  match drop (span_len p s) s with
  | String a _ => p a = false
  | EmptyString => True
  end.
Proof.
  induction s as [|a s IH]; simpl; [exact I|].
  destruct (p a) eqn:E; simpl; [exact IH|exact E].
Qed.

Lemma span_len_append (p : ascii -> bool) (a b : string) :
  (span_len p a < String.length a)%nat -> span_len p (a ++ b) = span_len p a.
Proof.
  induction a as [|x a IH]; [simpl; lia|]. intros H. rewrite append_cons.
  cbn [span_len String.length] in *.
  destruct (p x); [|reflexivity]. f_equal. apply IH. lia.
Qed.

Lemma replace_go_drop (ic : bool) (r : regex) (tmpl : match_result -> string)
    (k : nat) (s : string) :
  (k <= String.length s)%nat ->
  replace_go ic r tmpl k s = replace_go ic r tmpl 0 (drop k s).
Proof.
  revert s. induction k as [|k IH]; intros s H; [reflexivity|].
  destruct s as [|a s]; simpl in H; [lia|]. cbn [replace_go drop]. apply IH. lia.
Qed.

Lemma strip_casts_empty : strip_casts "" = "".
Proof. reflexivity. Qed.

Lemma strip_casts_match (s : string) (len : nat) :
  cast_length s = Some len ->
  strip_casts s = take (span_len word_chr s) s ++ strip_casts (drop len s).
Proof.
  intros H. pose proof (exec_cast s) as E. rewrite H in E.
  pose proof (exec_length _ _ _ _ _ E) as Hlen.
  unfold strip_casts, replace_all.
  destruct s as [|a s]; [discriminate H|].
  destruct len as [|n].
  { unfold cast_length in H. destruct (span_len word_chr (String a s)); [discriminate|].
    destruct (drop _ _) as [|c1 [|c2 [|b s3]]]; try discriminate.
    destruct (_ && _); discriminate. }
  rewrite (replace_go_match _ _ _ _ _ _ _ E). f_equal.
  - unfold group_text, mk_result, group, slice. cbn [cap_lookup Nat.eqb drop].
    now rewrite Nat.sub_0_r.
  - simpl in Hlen. rewrite replace_go_drop by lia. reflexivity.
Qed.

Lemma strip_casts_no_match (a : ascii) (s : string) :
  cast_length (String a s) = None ->
  strip_casts (String a s) = String a (strip_casts s).
Proof.
  intros H. pose proof (exec_cast (String a s)) as E. rewrite H in E.
  unfold strip_casts, replace_all. cbn [replace_go]. now rewrite E.
Qed.

Lemma cast_length_no_word (s : string) : starts_with_word s = false -> cast_length s = None.
Proof.
  unfold cast_length. destruct s as [|a s]; [reflexivity|]. simpl. now intros ->.
Qed.

Lemma cast_length_tail (a : ascii) (s : string) :
  word_chr a = true -> cast_length (String a s) = None -> cast_length s = None.
Proof.
  unfold cast_length. cbn [span_len]. intros ->.
  change (drop (S (span_len word_chr s)) (String a s))
    with (drop (span_len word_chr s) s).
  destruct (span_len word_chr s) as [|n]; [reflexivity|].
  destruct (drop (S n) s) as [|c1 [|c2 [|b s3]]]; try reflexivity.
  now destruct (Ascii.eqb c1 ":" && Ascii.eqb c2 ":" && cast_chr b).
Qed.

(** Where the pattern does not match, the pass copies the leading run of
    word characters. *)
Lemma strip_casts_run (s : string) :
  cast_length s = None ->
  strip_casts s =
  take (span_len word_chr s) s ++ strip_casts (drop (span_len word_chr s) s).
Proof.
  induction s as [|a s IH]; intros H; [reflexivity|].
  cbn [span_len]. destruct (word_chr a) eqn:Ea; [|reflexivity].
  rewrite (strip_casts_no_match _ _ H). cbn [take drop]. rewrite append_cons.
  f_equal. apply IH. exact (cast_length_tail _ _ Ea H).
Qed.

Lemma cast_length_bounds (s : string) (len : nat) :
  cast_length s = Some len ->
  (0 < span_len word_chr s)%nat /\ (span_len word_chr s < len)%nat /\
  (len <= String.length s)%nat /\
  starts_with_word (drop len s) = false.
Proof.
  unfold cast_length. destruct (span_len word_chr s) as [|n] eqn:En; [discriminate|].
  destruct (drop (S n) s) as [|c1 [|c2 [|b s3]]] eqn:Ed; try discriminate.
  destruct (Ascii.eqb c1 ":" && Ascii.eqb c2 ":" && cast_chr b); [|discriminate].
  intros [= <-].
  assert (Hl : String.length (drop (S n) s) = (3 + String.length s3)%nat)
    by now rewrite Ed.
  rewrite length_drop in Hl. pose proof (span_len_le cast_chr s3) as Hs.
  split; [lia|]. split; [lia|]. split; [lia|].
  assert (Hd : forall k, drop (S n + 3 + k) s = drop k s3).
  { intros k. replace (S n + 3 + k)%nat with (S n + (3 + k))%nat by lia.
    rewrite <- (drop_drop (3 + k) (S n) s), Ed. reflexivity. }
  change (S (n + 3 + span_len cast_chr s3)) with (S n + 3 + span_len cast_chr s3)%nat.
  rewrite Hd.
  pose proof (span_len_stop cast_chr s3) as Hstop.
  destruct (drop (span_len cast_chr s3) s3) as [|x r]; [reflexivity|].
  cbn [starts_with_word]. destruct (word_chr x) eqn:Ex; [|reflexivity].
  apply word_chr_cast_chr in Ex. congruence.
Qed.

(** One step of the pass, in both cases: the leading run of word
    characters is kept, and the pass goes on behind the run or behind the
    cast, at a character that is not a word character. *)
Lemma strip_casts_step (s : string) :
  exists m : nat,
    strip_casts s = take (span_len word_chr s) s ++ strip_casts (drop m s) /\
    (span_len word_chr s <= m)%nat /\ (m <= String.length s)%nat /\
    starts_with_word (drop m s) = false.
Proof.
  destruct (cast_length s) as [len|] eqn:E.
  - exists len. destruct (cast_length_bounds _ _ E) as (H0 & H1 & H2 & H3).
    split; [exact (strip_casts_match _ _ E)|]. split; [lia|]. split; [lia|exact H3].
  - exists (span_len word_chr s). split; [exact (strip_casts_run _ E)|].
    split; [lia|]. split; [apply span_len_le|].
    pose proof (span_len_stop word_chr s) as Hstop.
    destruct (drop _ s) as [|x r]; [reflexivity|exact Hstop].
Qed.

Lemma nowhere_toLowerCase (P : string -> bool) (s : string) :
  nowhere P (toLowerCase s) = nowhere (fun t => P (toLowerCase t)) s.
Proof.
  induction s as [|a s IH]; [reflexivity|].
  cbn [toLowerCase nowhere]. cbn [toLowerCase nowhere] in IH. now rewrite IH.
Qed.

Lemma includes_extract_at (s : string) :
  includes (toLowerCase s) "extract" = false <-> nowhere extract_at s = true.
Proof.
  rewrite includes_false_nowhere, nowhere_toLowerCase. reflexivity.
Qed.

Lemma nowhere_drop (P : string -> bool) (m : nat) (s : string) :
  nowhere P s = true -> nowhere P (drop m s) = true.
Proof.
  revert s. induction m as [|m IH]; intros s H; [exact H|].
  destruct s as [|a s]; [exact H|]. cbn [drop]. apply IH.
  cbn [nowhere] in H. now apply andb_true_iff in H as [_ H].
Qed.

Lemma nowhere_before_tail (P : string -> bool) (a b b' : string) :
  (forall u, u <> "" -> P (u ++ b) = false -> P (u ++ b') = false) ->
  nowhere_before P a b = true -> nowhere_before P a b' = true.
Proof.
  intros HP. induction a as [|x a IH]; [reflexivity|].
  cbn [nowhere_before]. intros H. apply andb_true_iff in H as [H1 H2].
  apply andb_true_iff. split; [|now apply IH].
  apply negb_true_iff. apply HP; [discriminate|]. now apply negb_true_iff.
Qed.

Lemma startsWith_prefix (u b pat : string) :
  startsWith u pat = true -> startsWith (u ++ b) pat = true.
Proof.
  revert u. induction pat as [|p pat IH]; intros u H; [reflexivity|].
  destruct u as [|x u]; [discriminate H|]. rewrite append_cons.
  cbn [startsWith] in *. apply andb_true_iff in H as [H1 H2].
  rewrite H1. cbn [andb]. now apply IH.
Qed.

(** The word begins with a letter. *)
Lemma extract_at_word (a : ascii) (s : string) :
  word_chr a = false -> extract_at (String a s) = false.
Proof.
  intros H. unfold extract_at. cbn [toLowerCase].
  each_ascii a; vm_compute in H; try discriminate H; reflexivity.
Qed.

Lemma completes_no_word (b : string) :
  starts_with_word b = false -> completes (toLowerCase b) "extract" = false.
Proof.
  destruct b as [|a b]; [reflexivity|]. cbn [starts_with_word toLowerCase]. intros H.
  each_ascii a; vm_compute in H; try discriminate H; reflexivity.
Qed.

(** What follows a text cannot complete the word when it does not begin
    with a word character. *)
Lemma extract_at_tail (u b b' : string) :
  starts_with_word b' = false ->
  u <> "" -> extract_at (u ++ b) = false -> extract_at (u ++ b') = false.
Proof.
  unfold extract_at. intros Hb Hu H. rewrite toLowerCase_append in *.
  apply startsWith_straddle.
  - now apply completes_no_word.
  - destruct u; [congruence|discriminate].
  - destruct (startsWith (toLowerCase u) "extract") eqn:E; [|reflexivity].
    now rewrite (startsWith_prefix _ (toLowerCase b) _ E) in H.
Qed.

Lemma strip_casts_no_word (s : string) :
  starts_with_word s = false -> starts_with_word (strip_casts s) = false.
Proof.
  destruct s as [|a s]; [reflexivity|]. intros H.
  rewrite (strip_casts_no_match _ _ (cast_length_no_word _ H)). exact H.
Qed.

(** The cast pass creates no occurrence of the word [extract]. *)
Lemma strip_casts_extract_at (s : string) :
  nowhere extract_at s = true -> nowhere extract_at (strip_casts s) = true.
Proof.
  remember (String.length s) as n eqn:En.
  assert (Hn : (String.length s <= n)%nat) by lia. clear En.
  revert s Hn. induction n as [|n IH]; intros s Hn H.
  { destruct s; [reflexivity|simpl in Hn; lia]. }
  destruct s as [|a s']; [reflexivity|].
  destruct (word_chr a) eqn:Ea.
  - destruct (strip_casts_step (String a s')) as (m & Hs & H1 & H2 & H3).
    rewrite Hs. cbn [span_len] in *. rewrite Ea in *.
    rewrite nowhere_append. apply andb_true_iff. split.
    + apply (nowhere_before_tail _ _ (drop (S (span_len word_chr s')) (String a s'))).
      * intros u. apply extract_at_tail. now apply strip_casts_no_word.
      * rewrite <- (take_drop (S (span_len word_chr s')) (String a s')) in H at 1.
        rewrite nowhere_append in H. now apply andb_true_iff in H as [H _].
    + apply IH; [|now apply nowhere_drop].
      rewrite length_drop. simpl in Hn. simpl. lia.
  - rewrite (strip_casts_no_match a s') by (apply cast_length_no_word; exact Ea).
    cbn [nowhere] in *. apply andb_true_iff in H as [_ H].
    rewrite (extract_at_word _ _ Ea). cbn [negb andb].
    apply IH; [simpl in Hn; lia|exact H].
Qed.

Lemma ends_clean_tail (x : ascii) (a : string) :
  ends_clean (String x a) = true -> ends_clean a = true.
Proof. destruct a; [reflexivity|trivial]. Qed.

Lemma ends_clean_drop (m : nat) (a : string) :
  ends_clean a = true -> ends_clean (drop m a) = true.
Proof.
  revert a. induction m as [|m IH]; intros a H; [exact H|].
  destruct a as [|x a]; [exact H|]. cbn [drop]. apply IH.
  exact (ends_clean_tail _ _ H).
Qed.

Lemma ends_clean_span (p : ascii -> bool) (a : string) :
  (forall x, p x = true -> cast_chr x = true) ->
  ends_clean a = true -> a <> "" -> (span_len p a < String.length a)%nat.
Proof.
  intros Hp. induction a as [|x a IH]; [congruence|]. intros H _.
  cbn [span_len String.length]. destruct (p x) eqn:Ex; [|lia].
  destruct a as [|y a].
  - cbn [ends_clean] in H. rewrite (Hp _ Ex) in H. discriminate H.
  - assert (span_len p (String y a) < String.length (String y a))%nat
      by (apply IH; [exact H|discriminate]).
    lia.
Qed.

Lemma ends_clean_one (x : ascii) :
  ends_clean (String x "") = true -> cast_chr x = false /\ Ascii.eqb x ":" = false.
Proof.
  cbn [ends_clean]. intros H. apply negb_true_iff, orb_false_iff in H. exact H.
Qed.

(** Behind a text that ends clean, what follows does not change the
    attempt at its start. *)
Lemma cast_length_append (a b : string) :
  ends_clean a = true -> a <> "" -> cast_length (a ++ b) = cast_length a.
Proof.
  intros Ha Hne. unfold cast_length.
  pose proof (ends_clean_span word_chr a word_chr_cast_chr Ha Hne) as Hw.
  rewrite (span_len_append _ _ b Hw).
  destruct (span_len word_chr a) as [|n] eqn:En; [reflexivity|].
  rewrite drop_append by lia.
  pose proof (ends_clean_drop (S n) a Ha) as Hd.
  pose proof (length_drop (S n) a) as Hl.
  destruct (drop (S n) a) as [|c1 [|c2 [|c3 [|c4 s4]]]].
  - simpl in Hl. lia.
  - apply ends_clean_one in Hd as [_ Hd]. rewrite append_cons.
    change ("" ++ b) with b. destruct b as [|? [|? ?]]; try reflexivity.
    now rewrite Hd.
  - apply ends_clean_tail, ends_clean_one in Hd as [_ Hd]. rewrite !append_cons.
    change ("" ++ b) with b. destruct b as [|? ?]; [reflexivity|].
    rewrite Hd. now rewrite andb_false_r.
  - do 2 apply ends_clean_tail in Hd. apply ends_clean_one in Hd as [Hd _].
    rewrite !append_cons. rewrite Hd. now rewrite andb_false_r.
  - do 3 apply ends_clean_tail in Hd. rewrite !append_cons.
    destruct (Ascii.eqb c1 ":" && Ascii.eqb c2 ":" && cast_chr c3); [|reflexivity].
    rewrite <- append_cons. rewrite span_len_append; [reflexivity|].
    apply ends_clean_span; [trivial|exact Hd|discriminate].
Qed.

(** The cast pass works on the two sides of a clean end separately. *)
Lemma strip_casts_append (a b : string) :
  ends_clean a = true -> strip_casts (a ++ b) = strip_casts a ++ strip_casts b.
Proof.
  remember (String.length a) as n eqn:En.
  assert (Hn : (String.length a <= n)%nat) by lia. clear En.
  revert a Hn. induction n as [|n IH]; intros a Hn Ha.
  { destruct a; [reflexivity|simpl in Hn; lia]. }
  destruct a as [|x a]; [reflexivity|].
  pose proof (cast_length_append (String x a) b Ha ltac:(discriminate)) as Hc.
  destruct (cast_length (String x a)) as [len|] eqn:E.
  - destruct (cast_length_bounds _ _ E) as (H0 & H1 & H2 & _).
    rewrite (strip_casts_match _ _ Hc), (strip_casts_match _ _ E).
    rewrite span_len_append
      by (apply ends_clean_span; [exact word_chr_cast_chr|exact Ha|discriminate]).
    rewrite take_append by lia. rewrite drop_append by exact H2.
    rewrite IH; [now rewrite append_assoc| |now apply ends_clean_drop].
    rewrite length_drop. simpl in Hn. simpl. lia.
  - rewrite append_cons in Hc |- *.
    rewrite (strip_casts_no_match _ _ Hc), (strip_casts_no_match _ _ E).
    rewrite append_cons. f_equal. apply IH; [simpl in Hn; lia|].
    exact (ends_clean_tail _ _ Ha).
Qed.

(* ===================================================================== *)
(** ** The rewriting of an EXTRACT call                                   *)
(* ===================================================================== *)

Lemma strip_casts_id (s : string) : includes s "::" = false -> strip_casts s = s.
Proof. intros H. apply replace_go_nowhere, cast_nowhere, H. Qed.

(** The two passes on a query around an occurrence of
    [EXTRACT(HOUR FROM ts)]: the first rewrites the occurrence, the second
    strips the casts before it and after it. *)
Lemma normalize_extract_hour (pre post : string) :
  includes (toLowerCase pre) "extract" = false ->
  includes (toLowerCase post) "extract" = false ->
  ends_clean pre = true ->
  convertPostgreSQLFunctions (pre ++ "EXTRACT(HOUR FROM ts)" ++ post)
    = strip_casts pre ++ "DATE_PART('HOUR', ts)" ++ strip_casts post.
Proof.
  intros He1 He2 Hc.
  unfold convertPostgreSQLFunctions. cbv zeta.
  rewrite extract_pass by assumption.
  change (_ ++ group_text _ 1 ++ _ ++ group_text _ 2 ++ ")")
    with "DATE_PART('HOUR', ts)".
  change (strip_casts (pre ++ "DATE_PART('HOUR', ts)" ++ post)
          = strip_casts pre ++ "DATE_PART('HOUR', ts)" ++ strip_casts post).
  rewrite (strip_casts_append pre _ Hc).
  now rewrite (strip_casts_append "DATE_PART('HOUR', ts)" post eq_refl).
Qed.

(** C8, as stated, fails: an [EXTRACT] call that encloses the occurrence is
    the one that is rewritten, up to the first closing parenthesis, and the
    occurrence stays as it is. *)
Lemma C8_counterexample :
  includes "SELECT EXTRACT(EPOCH FROM (EXTRACT(HOUR FROM ts) * 3600)) FROM t"
    "EXTRACT(HOUR FROM ts)" = true /\
  convertPostgreSQLFunctions
    "SELECT EXTRACT(EPOCH FROM (EXTRACT(HOUR FROM ts) * 3600)) FROM t"
    = "SELECT DATE_PART('EPOCH', (EXTRACT(HOUR FROM ts) * 3600)) FROM t" /\
  includes (convertPostgreSQLFunctions
    "SELECT EXTRACT(EPOCH FROM (EXTRACT(HOUR FROM ts) * 3600)) FROM t")
    "DATE_PART('HOUR', ts)" = false /\
  includes (convertPostgreSQLFunctions
    "SELECT EXTRACT(EPOCH FROM (EXTRACT(HOUR FROM ts) * 3600)) FROM t")
    "EXTRACT(" = true.
Proof. repeat split; vm_compute; reflexivity. Qed.

(** Two more ways for the property to fail: a cast that ends where the
    occurrence begins takes the rewritten function name for its type, and a
    second call that the pattern does not match keeps its [EXTRACT(]. *)
Example extract_hour_other_failures :
  convertPostgreSQLFunctions "SELECT day::EXTRACT(HOUR FROM ts) FROM t"
    = "SELECT day('HOUR', ts) FROM t" /\
  convertPostgreSQLFunctions "SELECT EXTRACT(HOUR FROM ts), EXTRACT('dow' FROM ts) FROM t"
    = "SELECT DATE_PART('HOUR', ts), EXTRACT('dow' FROM ts) FROM t".
Proof. split; vm_compute; reflexivity. Qed.

(** Without casts around it, the occurrence is all that changes. A cast
    directly behind the call stays: the pattern asks for a word before the
    colons. *)
Corollary extract_hour_rewritten_plain (pre post : string) :
  includes (toLowerCase pre) "extract" = false ->
  includes (toLowerCase post) "extract" = false ->
  ends_clean pre = true ->
  includes pre "::" = false ->
  includes post "::" = false ->
  convertPostgreSQLFunctions (pre ++ "EXTRACT(HOUR FROM ts)" ++ post)
    = pre ++ "DATE_PART('HOUR', ts)" ++ post.
Proof.
  intros He1 He2 Hc H1 H2. rewrite normalize_extract_hour by assumption.
  now rewrite !strip_casts_id by assumption.
Qed.

Example extract_hour_cast_behind :
  convertPostgreSQLFunctions "SELECT EXTRACT(HOUR FROM ts)::int AS h FROM t"
    = "SELECT DATE_PART('HOUR', ts)::int AS h FROM t".
Proof. vm_compute; reflexivity. Qed.

(* ===================================================================== *)
(** ** Maps in insertion order, loops and sorting                         *)
(* ===================================================================== *)

Section SMapFacts.
Context {A : Type}.
Implicit Types (m : list (string * A)) (k : string) (a : A).

Lemma smap_has_get m k : SMap.has k m = true -> exists a, SMap.get k m = Some a.
Proof.
  induction m as [|[k' a'] m IH]; simpl; [discriminate|].
  destruct (String.eqb k' k); [eauto|]. exact IH.
Qed.

Lemma smap_get_add_new m k a : SMap.has k m = false -> SMap.get k (SMap.add k a m) = Some a.
Proof.
  unfold SMap.add. induction m as [|[k' a'] m IH]; simpl.
  - now rewrite String.eqb_refl.
  - destruct (String.eqb k' k); [discriminate|]. exact IH.
Qed.

Lemma smap_get_in m k a : SMap.get k m = Some a -> In (k, a) m.
Proof.
  induction m as [|[k' a'] m IH]; simpl; [discriminate|].
  destruct (String.eqb k' k) eqn:E.
  - intros [= ->]. apply String.eqb_eq in E as ->. now left.
  - intros H. right. now apply IH.
Qed.

Lemma smap_has_put m k k' a : SMap.has k' (SMap.put k a m) = SMap.has k' m.
Proof.
  induction m as [|[k0 a0] m IH]; simpl; [reflexivity|].
  destruct (String.eqb k0 k); simpl; [reflexivity|]. now rewrite IH.
Qed.

Lemma smap_has_add m k k' a :
  SMap.has k' (SMap.add k a m) = SMap.has k' m || String.eqb k k'.
Proof.
  unfold SMap.add. induction m as [|[k0 a0] m IH]; simpl.
  - now rewrite orb_false_r.
  - rewrite IH. now rewrite orb_assoc.
Qed.

Lemma smap_forall_put (P : A -> Prop) m k a :
  P a -> Forall (fun e => P (snd e)) m -> Forall (fun e => P (snd e)) (SMap.put k a m).
Proof.
  intros Ha. induction 1 as [|[k0 a0] m H0 Hm IH]; simpl; [constructor|].
  destruct (String.eqb k0 k); constructor; auto.
Qed.

Lemma smap_forall_add (P : A -> Prop) m k a :
  P a -> Forall (fun e => P (snd e)) m -> Forall (fun e => P (snd e)) (SMap.add k a m).
Proof.
  intros Ha Hm. unfold SMap.add. apply Forall_app. split; [assumption|].
  constructor; [assumption|constructor].
Qed.

End SMapFacts.

Lemma total_user_count_app (l1 l2 : list obj) :
  total_user_count (l1 ++ l2)%list = total_user_count l1 + total_user_count l2.
Proof.
  induction l1 as [|o l1 IH]; simpl; [reflexivity|].
  unfold total_user_count in *. simpl. rewrite IH. lia.
Qed.

Lemma total_user_count_add (m : list (string * obj)) (k : string) (o : obj) :
  total_user_count (SMap.values (SMap.add k o m)) =
  total_user_count (SMap.values m) + user_count o.
Proof.
  unfold SMap.values, SMap.add. rewrite map_app, total_user_count_app.
  unfold total_user_count. simpl. lia.
Qed.

Lemma total_user_count_put (m : list (string * obj)) (k : string) (o o' : obj) :
  SMap.get k m = Some o ->
  total_user_count (SMap.values (SMap.put k o' m)) =
  total_user_count (SMap.values m) - user_count o + user_count o'.
Proof.
  unfold SMap.values, total_user_count.
  induction m as [|[k0 o0] m IH]; simpl; [discriminate|].
  destruct (String.eqb k0 k).
  - intros [= ->]. simpl. lia.
  - intros H. simpl. rewrite (IH H). lia.
Qed.

Lemma total_user_count_perm (l1 l2 : list obj) :
  Permutation l1 l2 -> total_user_count l1 = total_user_count l2.
Proof.
  unfold total_user_count. induction 1; simpl; lia.
Qed.

Lemma for_of_app {A S : Type} (step : S -> A -> completion S) (acc : S) (l1 l2 : list A) :
  for_of step acc (l1 ++ l2)%list =
  let* acc' := for_of step acc l1 in for_of step acc' l2.
Proof.
  revert acc. induction l1 as [|x l1 IH]; intros acc; simpl; [reflexivity|].
  destruct (step acc x); simpl; [apply IH|reflexivity].
Qed.

Lemma map_throwing_normal {A B : Type} (f : A -> completion B) (l : list A) :
  (forall x, In x l -> exists y, f x = Normal y) ->
  exists ys, map_throwing f l = Normal ys.
Proof.
  induction l as [|x l IH]; intros H; simpl; [eauto|].
  destruct (H x) as [y ->]; [now left|].
  destruct IH as [ys ->]; [intros; apply H; now right|].
  simpl. eauto.
Qed.

Section SortFacts.
Context {A : Type} (before : A -> A -> bool).

Lemma insert_sorted_perm (x : A) (l : list A) :
  Permutation (Val.insert_sorted before x l) (x :: l).
Proof.
  induction l as [|y l IH]; simpl; [reflexivity|].
  destruct (before y x); [|reflexivity].
  rewrite IH. apply perm_swap.
Qed.

Lemma sort_perm (l : list A) : Permutation (Val.sort before l) l.
Proof.
  induction l as [|x l IH]; simpl; [reflexivity|].
  rewrite insert_sorted_perm. now constructor.
Qed.

(** Where the comparator orders by a numeric key, larger keys first, the
    sorted array is in descending key order. *)
Lemma sort_descending (f : A -> Z) (l : list A) :
  (forall a b, In a l -> In b l -> before a b = (f b <? f a)) ->
  StronglySorted (fun a b => f b <= f a) (Val.sort before l).
Proof.
  induction l as [|x l IH]; intros H; simpl; [constructor|].
  assert (IHl : StronglySorted (fun a b => f b <= f a) (Val.sort before l)).
  { apply IH. intros a b Ha Hb. apply H; now right. }
  assert (Hx : forall y, In y (Val.sort before l) -> before y x = (f x <? f y)).
  { intros y Hy. apply H; [right|now left].
    eapply Permutation_in; [apply sort_perm|exact Hy]. }
  clear IH H. induction IHl as [|y s Hs IHs Hy]; simpl.
  - repeat constructor.
  - rewrite (Hx y) by now left.
    destruct (f x <? f y) eqn:E.
    + constructor.
      * apply IHs. intros z Hz. apply Hx. now right.
      * apply List.Forall_forall. intros z Hz.
        eapply Permutation_in in Hz; [|apply insert_sorted_perm].
        destruct Hz as [<-|Hz]; [lia|].
        rewrite List.Forall_forall in Hy. now apply Hy.
    + constructor; [now constructor|].
      constructor; [lia|].
      apply List.Forall_forall. intros z Hz.
      rewrite List.Forall_forall in Hy. specialize (Hy z Hz). lia.
Qed.

End SortFacts.

Lemma in_firstn {A : Type} (n : nat) (l : list A) (x : A) : In x (firstn n l) -> In x l.
Proof.
  revert l. induction n as [|n IH]; intros [|y l]; simpl; try tauto.
  intros [H|H]; [now left|right; now apply IH].
Qed.

Lemma StronglySorted_firstn {A : Type} (R : A -> A -> Prop) (n : nat) (l : list A) :
  StronglySorted R l -> StronglySorted R (firstn n l).
Proof.
  intros H. revert n. induction H as [|x l Hl IH Hx]; intros [|n]; simpl; try constructor.
  - apply IH.
  - apply List.Forall_forall. intros y Hy. rewrite List.Forall_forall in Hx.
    apply Hx. eapply in_firstn; eauto.
Qed.

(* ===================================================================== *)
(** ** Path B: the date-part grouping                                     *)
(* ===================================================================== *)

Lemma match_all_go_elem (ic : bool) (r : regex) (skip : nat) (s x : string) :
  In x (match_all_go ic r skip s) ->
  exists s' len c, exec ic r s' = Some (len, c) /\ x = take len s'.
Proof.
  revert skip. induction s as [|a s IH]; intros skip.
  - destruct skip; simpl; [|tauto].
    destruct (exec ic r "") as [[len c]|] eqn:E; [|simpl; tauto].
    intros [<-|H].
    + eauto.
    + destruct len; destruct H.
  - destruct skip as [|n]; cbn [match_all_go]; [|apply IH].
    destruct (exec ic r (String a s)) as [[len c]|] eqn:E; [|apply IH].
    intros [<-|H]; [eauto|].
    destruct len; eapply IH; exact H.
Qed.

Lemma cap_lookup_app (n : nat) (l c : caps) :
  is_Some (cap_lookup n c) -> is_Some (cap_lookup n (l ++ c)%list).
Proof.
  intros H. induction l as [|[m se] l IH]; simpl; [assumption|].
  destruct (Nat.eqb m n); [eauto|assumption].
Qed.

Lemma run_seq_inv (ic : bool) (r1 r2 : regex) k s i c x :
  run ic (Seq r1 r2) k s i c = Some x ->
  exists s' i' c', run ic r2 k s' i' c' = Some x.
Proof.
  intros H. change (run ic r1 (run ic r2 k) s i c = Some x) in H.
  apply run_inv in H as (s' & i' & l & H & _). eauto.
Qed.

Lemma run_cap_inv (ic : bool) (n : nat) (r : regex) k s i c x :
  run ic (Cap n r) k s i c = Some x ->
  exists s' i' c', is_Some (cap_lookup n c') /\ k s' i' c' = Some x.
Proof.
  intros H.
  change (run ic r (fun s' i' c' => k s' i' ((n, (i, i')) :: c')) s i c = Some x) in H.
  apply run_inv in H as (s' & i' & l & H & _).
  exists s', i', ((n, (i, i')) :: l ++ c)%list. split; [|assumption].
  simpl. rewrite Nat.eqb_refl. eauto.
Qed.

Lemma run_keeps_cap (ic : bool) (n : nat) (r : regex) s i c len c' :
  is_Some (cap_lookup n c) ->
  run ic r (fun _ i c => Some (i, c)) s i c = Some (len, c') ->
  is_Some (cap_lookup n c').
Proof.
  intros Hc H. apply run_inv in H as (s' & i' & l & H & _).
  injection H as _ <-. now apply cap_lookup_app.
Qed.

(** Every match of the [DATE_PART] pattern has its first group. *)
Lemma exec_date_part_group (s : string) (len : nat) (c : caps) :
  exec true re_date_part s = Some (len, c) -> is_Some (cap_lookup 1 c).
Proof.
  unfold exec, re_date_part. cbn [seq]. intros H.
  do 5 (apply run_seq_inv in H as (? & ? & ? & H)).
  change (run true (Seq ?a ?b) ?k) with (run true a (run true b k)) in H.
  apply run_cap_inv in H as (s' & i' & c' & Hc & H).
  exact (run_keeps_cap true 1 _ _ _ _ _ _ Hc H).
Qed.

Lemma date_part_key_normal (h : host) (originalQuery : string) (matches : list string)
    (r : row) (matched : string) :
  match_all true re_date_part originalQuery = Some matches ->
  In matched matches ->
  exists p, date_part_key h r matched = Normal p.
Proof.
  unfold match_all. intros Hm Hin.
  assert (Hin' : In matched (match_all_go true re_date_part 0 originalQuery)).
  { destruct (match_all_go true re_date_part 0 originalQuery); [discriminate|].
    now injection Hm as <-. }
  apply match_all_go_elem in Hin' as (s' & len & c & E & ->).
  pose proof (exec_date_part_group _ _ _ E) as [[b e] Hc].
  apply exec_truncate in E; [|reflexivity].
  unfold date_part_key, search.
  destruct (take len s') as [|a t] eqn:Et; cbn [search_from]; rewrite E; simpl;
    rewrite Hc; simpl;
    match goal with |- context [if ?b then _ else _] => destruct b end; eauto.
Qed.

Lemma user_count_counted (o : obj) (z : Z) :
  o !! "user_count" = Some (VPrim (PNumber (Num z))) -> user_count o = z.
Proof. unfold user_count. now intros ->. Qed.

Lemma increment_user_count (h : host) (o : obj) (z : Z) :
  o !! "user_count" = Some (VPrim (PNumber (Num z))) ->
  increment h "user_count" o !! "user_count" = Some (VPrim (PNumber (Num (z + 1)))).
Proof.
  intros H. unfold increment, Val.set, Val.get_prim. rewrite H. simpl.
  now rewrite lookup_insert_eq.
Qed.

Lemma new_date_part_row_count (originalQuery : string) (keys : list prim) :
  new_date_part_row originalQuery keys !! "user_count" = Some (VPrim (PNumber (Num 0))).
Proof. unfold new_date_part_row, Val.set. simpl. now rewrite lookup_insert_eq. Qed.

Section DatePartLoop.
Variables (h : host) (originalQuery : string) (matches : list string).
Hypothesis matches_ok : match_all true re_date_part originalQuery = Some matches.

Lemma date_part_step_counts (results : list (string * obj)) (r : row) :
  Forall (fun e => counted (snd e)) results ->
  exists results',
    date_part_step h originalQuery matches results r = Normal results' /\
    Forall (fun e => counted (snd e)) results' /\
    total_user_count (SMap.values results') = total_user_count (SMap.values results) + 1.
Proof.
  intros Hinv. unfold date_part_step.
  destruct (map_throwing_normal (date_part_key h r) matches) as [keys ->].
  { intros x Hx. eapply date_part_key_normal; eauto. }
  cbn [bind].
  set (keyStr := key_string keys).
  set (results0 := if SMap.has keyStr results then results
                   else SMap.add keyStr (new_date_part_row originalQuery keys) results).
  assert (H0 : Forall (fun e => counted (snd e)) results0 /\
               total_user_count (SMap.values results0) = total_user_count (SMap.values results) /\
               exists o, SMap.get keyStr results0 = Some o).
  { subst results0. destruct (SMap.has keyStr results) eqn:E.
    - split; [assumption|]. split; [reflexivity|]. now apply smap_has_get.
    - split; [|split].
      + apply smap_forall_add; [|assumption].
        eexists. apply new_date_part_row_count.
      + rewrite total_user_count_add.
        rewrite (user_count_counted _ 0 (new_date_part_row_count _ _)). lia.
      + eexists. now apply smap_get_add_new. }
  destruct H0 as (Hinv0 & Htot0 & o & Hget). rewrite Hget.
  assert (Ho : counted o).
  { apply smap_get_in in Hget. rewrite List.Forall_forall in Hinv0.
    exact (Hinv0 _ Hget). }
  destruct Ho as [z Hz].
  eexists. split; [reflexivity|]. split.
  - apply smap_forall_put; [|assumption].
    exact (ex_intro _ _ (increment_user_count h _ _ Hz)).
  - rewrite (total_user_count_put _ _ o _ Hget), Htot0.
    rewrite (user_count_counted _ _ Hz).
    rewrite (user_count_counted _ _ (increment_user_count h _ _ Hz)). lia.
Qed.

Lemma date_part_loop_counts (rows : list row) (results : list (string * obj)) :
  Forall (fun e => counted (snd e)) results ->
  exists results',
    for_of (date_part_step h originalQuery matches) results rows = Normal results' /\
    Forall (fun e => counted (snd e)) results' /\
    total_user_count (SMap.values results') =
      total_user_count (SMap.values results) + Z.of_nat (length rows).
Proof.
  revert results. induction rows as [|r rows IH]; intros results Hinv.
  - exists results. simpl. repeat split; [assumption|lia].
  - destruct (date_part_step_counts results r Hinv) as (results1 & E1 & Hinv1 & Htot1).
    destruct (IH results1 Hinv1) as (results' & E & Hinv' & Htot').
    exists results'. cbn [for_of]. rewrite E1. cbn [bind].
    repeat split; [assumption|assumption|]. rewrite Htot', Htot1.
    cbn [length]. lia.
Qed.

End DatePartLoop.

Lemma count_before_counted (h : host) (a b : obj) :
  counted a -> counted b -> count_before h a b = (user_count b <? user_count a).
Proof.
  intros [x Hx] [y Hy]. unfold count_before, Val.get_prim, Val.or_else.
  rewrite (user_count_counted _ _ Hx), (user_count_counted _ _ Hy), Hx, Hy.
  simpl. destruct (Z.eqb_spec x 0) as [->|]; destruct (Z.eqb_spec y 0) as [->|];
    simpl; apply eq_true_iff_eq; rewrite !Z.ltb_lt; lia.
Qed.

(** C5, as stated, fails: a query that reaches the date-part path with no
    call that the pattern of line 163 parses (here the column is qualified)
    gets the empty result, whatever the rows; the counts then add up to
    zero, not to the number of rows. *)
Lemma C5_counterexample :
  executeConvertedQuery utc
    (one_table "users"
       [ {[ "created_at" := PString "2024-03-10T05:00:00+00:00" ]};
         {[ "created_at" := PString "2024-03-11T07:30:00+00:00" ]};
         {[ "created_at" := PString "2024-03-12T07:45:00+00:00" ]} ])
    "SELECT DATE_PART('hour', u.created_at) AS signup_hour, COUNT(*) AS user_count FROM users u GROUP BY 1"
  = (["users"], Normal []) /\
  processGroupByDatePart utc
    (Some [ {[ "created_at" := PString "2024-03-10T05:00:00+00:00" ]};
            {[ "created_at" := PString "2024-03-11T07:30:00+00:00" ]};
            {[ "created_at" := PString "2024-03-12T07:45:00+00:00" ]} ])
    "SELECT DATE_PART('hour', u.created_at) AS signup_hour, COUNT(*) AS user_count FROM users u GROUP BY 1"
  = Normal [] /\
  total_user_count [] <> Z.of_nat 3.
Proof.
  split; [vm_compute; reflexivity|].
  split; [vm_compute; reflexivity|].
  vm_compute. discriminate.
Qed.

(** C5, amended: for every query and every row set the date-part path
    returns the first 100 of a list in descending order of [user_count]
    (the cap is a constant, no [LIMIT] of the query is read). On a query
    with at least one [DATE_PART] call that the pattern parses the list is
    the buckets, and their [user_count] add up to the number of input rows;
    on a query without one the list is empty. *)
Theorem C5_date_part_sorted_and_capped (h : host) (originalQuery : string)
    (rows : list row) :
  exists sorted : list obj,
    processGroupByDatePart h (Some rows) originalQuery = Normal (firstn 100 sorted) /\
    StronglySorted (fun a b => user_count b <= user_count a) sorted /\
    StronglySorted (fun a b => user_count b <= user_count a) (firstn 100 sorted) /\
    (length (firstn 100 sorted) <= 100)%nat /\
    Forall counted sorted /\
    (forall matches : list string,
       match_all true re_date_part originalQuery = Some matches ->
       exists buckets : list (string * obj),
         date_part_buckets h originalQuery matches rows = Normal buckets /\
         Permutation sorted (SMap.values buckets) /\
         total_user_count sorted = Z.of_nat (length rows) /\
         ((length sorted <= 100)%nat ->
          total_user_count (firstn 100 sorted) = Z.of_nat (length rows))) /\
    (match_all true re_date_part originalQuery = None -> sorted = []).
Proof.
  destruct (match_all true re_date_part originalQuery) as [matches|] eqn:Hm.
  - destruct (date_part_loop_counts h originalQuery matches Hm rows [])
      as (buckets & E & Hinv & Htot); [constructor|].
    change (date_part_buckets h originalQuery matches rows = Normal buckets) in E.
    exists (Val.sort (count_before h) (SMap.values buckets)).
    assert (Hc : Forall counted (SMap.values buckets)).
    { unfold SMap.values. apply Forall_map. exact Hinv. }
    assert (Hs : StronglySorted (fun a b => user_count b <= user_count a)
                   (Val.sort (count_before h) (SMap.values buckets))).
    { apply sort_descending. intros a b Ha Hb.
      rewrite List.Forall_forall in Hc. apply count_before_counted; auto. }
    assert (Ht : total_user_count (Val.sort (count_before h) (SMap.values buckets))
                 = Z.of_nat (length rows)).
    { rewrite (total_user_count_perm _ _ (sort_perm _ _)). rewrite Htot.
      unfold total_user_count. simpl. lia. }
    split.
    { unfold processGroupByDatePart. rewrite Hm.
      destruct rows as [|r rows].
      - injection E as <-. reflexivity.
      - rewrite E. reflexivity. }
    split; [exact Hs|].
    split; [now apply StronglySorted_firstn|].
    split; [apply firstn_le_length|].
    split; [eapply Permutation_Forall; [symmetry; apply sort_perm|exact Hc]|].
    split; [|discriminate].
    intros matches' [= <-]. exists buckets.
    split; [exact E|]. split; [apply sort_perm|]. split; [exact Ht|].
    intros Hle. rewrite firstn_all2 by exact Hle. exact Ht.
  - exists []. split.
    { unfold processGroupByDatePart. rewrite Hm. reflexivity. }
    split; [constructor|]. split; [constructor|]. split; [cbn; lia|].
    split; [constructor|]. split; [discriminate|reflexivity].
Qed.

(* ===================================================================== *)
(** ** Path A: the date-trunc grouping                                    *)
(* ===================================================================== *)

(** What a turn of the loop does with a row that passes the test of
    line 265. *)
Lemma date_trunc_step_inv (h : host) (originalQuery precision column : string)
    (results results' : list (string * obj)) (r : row) :
  Val.truthy (Val.get r column) = true ->
  date_trunc_step h originalQuery precision column results r = Normal results' ->
  exists label o o',
    truncate h precision (Date.of_value h (Val.get r column)) = Normal label /\
    SMap.get label
      (if SMap.has label results then results
       else SMap.add label (new_date_trunc_row originalQuery label) results) = Some o /\
    update_counts h r o = Normal o' /\
    results' = SMap.put label o'
      (if SMap.has label results then results
       else SMap.add label (new_date_trunc_row originalQuery label) results).
Proof.
  intros Ht. unfold date_trunc_step. rewrite Ht. cbn [negb].
  destruct (truncate h precision (Date.of_value h (Val.get r column))) as [label|e];
    [|discriminate].
  cbn [bind].
  destruct (SMap.get label _) as [o|] eqn:Eg; [|discriminate].
  destruct (update_counts h r o) as [o'|e] eqn:Eu; [|discriminate].
  cbn [bind]. intros [= <-]. exists label, o, o'. auto.
Qed.

Lemma date_trunc_step_skip (h : host) (originalQuery precision column : string)
    (results : list (string * obj)) (r : row) :
  Val.truthy (Val.get r column) = false ->
  date_trunc_step h originalQuery precision column results r = Normal results.
Proof. intros Hf. unfold date_trunc_step. now rewrite Hf. Qed.

Lemma only_field_set (name : string) (v : value) (o : obj) :
  only_field name o -> only_field name (Val.set name v o).
Proof.
  intros H k. unfold Val.set. destruct (String.eqb name "__proto__"); [apply H|].
  destruct (decide (name = k)) as [->|Hne]; [reflexivity|].
  rewrite lookup_insert_ne by assumption. apply H.
Qed.

Lemma only_field_increment (h : host) (name : string) (o : obj) :
  is_Some (o !! "user_count") -> only_field name o ->
  only_field name (increment h "user_count" o).
Proof.
  intros Hs H. rewrite <- (H _ Hs). unfold increment. apply only_field_set.
  now rewrite (H _ Hs).
Qed.

Lemma only_field_delete (name k : string) (o : obj) :
  only_field name o -> only_field name (delete k o).
Proof.
  intros H k' [v Hv]. apply lookup_delete_Some in Hv as [_ Hv]. apply H. eauto.
Qed.

Lemma new_date_trunc_row_only (originalQuery label : string) :
  includes originalQuery "COUNT(user_id)" = false ->
  includes originalQuery "COUNT(*)" = false ->
  includes originalQuery "COUNT(DISTINCT country)" = false ->
  includes originalQuery "COUNT(DISTINCT user_segment)" = false ->
  only_field (alias_of originalQuery) (new_date_trunc_row originalQuery label).
Proof.
  intros H1 H2 H3 H4. unfold new_date_trunc_row. rewrite H1, H2, H3, H4. cbn [orb].
  apply only_field_set. intros k [v Hv]. now rewrite lookup_empty in Hv.
Qed.

Lemma hasOwnProperty_inv (o : obj) (name : string) (b : bool) :
  hasOwnProperty o name = Normal b -> b = bool_decide (is_Some (o !! name)).
Proof. unfold hasOwnProperty. destruct (o !! "hasOwnProperty"); congruence. Qed.

(** A row that has nothing but its label keeps that shape through the
    updates of a turn: the only counter it can have is the label itself. *)
Lemma update_counts_only (h : host) (name : string) (r : row) (o o' : obj) :
  only_field name o -> update_counts h r o = Normal o' -> only_field name o'.
Proof.
  intros H. unfold update_counts.
  destruct (hasOwnProperty o "user_count") as [own1|] eqn:E1; [|discriminate].
  cbn [bind]. apply hasOwnProperty_inv in E1.
  set (o1 := if own1 then increment h "user_count" o else o).
  assert (H1 : only_field name o1).
  { subst o1. destruct own1; [|assumption].
    apply only_field_increment; [|assumption].
    symmetry in E1. now apply bool_decide_eq_true in E1. }
  clearbody o1. clear H E1 o own1.
  destruct (hasOwnProperty o1 "country_count") as [own2|] eqn:E2; [|discriminate].
  cbn [bind]. apply hasOwnProperty_inv in E2.
  destruct (own2 && Val.truthy (Val.get r "country")) eqn:C2.
  { apply andb_true_iff in C2 as [-> _]. symmetry in E2.
    apply bool_decide_eq_true in E2. apply H1 in E2 as <-.
    unfold add_distinct. destruct (o1 !! "_countries") as [[p|elems]|] eqn:Es;
      try discriminate.
    assert ("_countries" = "country_count") by (apply H1; eauto). discriminate. }
  cbn [bind]. clear E2 C2 own2.
  destruct (hasOwnProperty o1 "segment_count") as [own3|] eqn:E3; [|discriminate].
  cbn [bind]. apply hasOwnProperty_inv in E3.
  destruct (own3 && Val.truthy (Val.get r "user_segment")) eqn:C3.
  { apply andb_true_iff in C3 as [-> _]. symmetry in E3.
    apply bool_decide_eq_true in E3. apply H1 in E3 as <-.
    unfold add_distinct. destruct (o1 !! "_segments") as [[p|elems]|] eqn:Es;
      try discriminate.
    assert ("_segments" = "segment_count") by (apply H1; eauto). discriminate. }
  now intros [= <-].
Qed.

Lemma date_trunc_step_only (h : host) (originalQuery precision column : string)
    (results results' : list (string * obj)) (r : row) :
  includes originalQuery "COUNT(user_id)" = false ->
  includes originalQuery "COUNT(*)" = false ->
  includes originalQuery "COUNT(DISTINCT country)" = false ->
  includes originalQuery "COUNT(DISTINCT user_segment)" = false ->
  Forall (fun e => only_field (alias_of originalQuery) (snd e)) results ->
  date_trunc_step h originalQuery precision column results r = Normal results' ->
  Forall (fun e => only_field (alias_of originalQuery) (snd e)) results'.
Proof.
  intros H1 H2 H3 H4 Hinv Hstep.
  destruct (Val.truthy (Val.get r column)) eqn:Ht.
  - apply date_trunc_step_inv in Hstep as (label & o & o' & _ & Hg & Hu & ->);
      [|assumption].
    assert (Hinv0 : Forall (fun e => only_field (alias_of originalQuery) (snd e))
              (if SMap.has label results then results
               else SMap.add label (new_date_trunc_row originalQuery label) results)).
    { destruct (SMap.has label results); [assumption|].
      apply smap_forall_add; [|assumption]. now apply new_date_trunc_row_only. }
    apply smap_forall_put; [|assumption].
    apply (update_counts_only h _ r o); [|assumption].
    apply smap_get_in in Hg. rewrite List.Forall_forall in Hinv0. exact (Hinv0 _ Hg).
  - rewrite date_trunc_step_skip in Hstep by assumption. now injection Hstep as <-.
Qed.

Lemma for_of_preserves {A S : Type} (step : S -> A -> completion S) (P : S -> Prop) :
  (forall acc x acc', P acc -> step acc x = Normal acc' -> P acc') ->
  forall l acc acc', P acc -> for_of step acc l = Normal acc' -> P acc'.
Proof.
  intros Hstep l. induction l as [|x l IH]; intros acc acc' Hacc H; simpl in H.
  - now injection H as <-.
  - destruct (step acc x) as [acc1|] eqn:E; [|discriminate]. cbn [bind] in H.
    eapply IH; [|exact H]. eapply Hstep; eauto.
Qed.

Lemma not_reserved (name : string) :
  ~ In name reserved_names ->
  name <> "user_count" /\ name <> "country_count" /\ name <> "segment_count" /\
  name <> "_countries" /\ name <> "_segments" /\ name <> "hasOwnProperty" /\
  name <> "__proto__".
Proof. unfold reserved_names. simpl. intuition congruence. Qed.

Lemma update_counts_label_row (h : host) (name : string) (r : row) (o : obj) :
  ~ In name reserved_names -> label_row name o -> update_counts h r o = Normal o.
Proof.
  intros Hn [label ->]. apply not_reserved in Hn as (H1 & H2 & H3 & _ & _ & H6 & _).
  unfold update_counts, hasOwnProperty.
  do 3 (rewrite !lookup_singleton_ne by assumption;
        rewrite (bool_decide_eq_false_2 (is_Some (@None value))) by (apply is_Some_None);
        cbn [bind andb]).
  reflexivity.
Qed.

Lemma new_date_trunc_row_label (originalQuery label : string) :
  includes originalQuery "COUNT(user_id)" = false ->
  includes originalQuery "COUNT(*)" = false ->
  includes originalQuery "COUNT(DISTINCT country)" = false ->
  includes originalQuery "COUNT(DISTINCT user_segment)" = false ->
  ~ In (alias_of originalQuery) reserved_names ->
  label_row (alias_of originalQuery) (new_date_trunc_row originalQuery label).
Proof.
  intros H1 H2 H3 H4 Hn. apply not_reserved in Hn as (_ & _ & _ & _ & _ & _ & H7).
  unfold new_date_trunc_row. rewrite H1, H2, H3, H4. cbn [orb].
  unfold Val.set. apply String.eqb_neq in H7. rewrite H7.
  exists label. apply insert_empty.
Qed.

Lemma clean_row_label_row (name : string) (o : obj) :
  ~ In name reserved_names -> label_row name o -> label_row name (clean_row o).
Proof.
  intros Hn [label ->]. apply not_reserved in Hn as (_ & _ & _ & H4 & H5 & _).
  exists label. unfold clean_row.
  rewrite !delete_id; [reflexivity| |]; now rewrite ?delete_id, lookup_singleton_ne
    by (now rewrite ?lookup_singleton_ne).
Qed.

Lemma date_trunc_step_label_rows (h : host) (originalQuery precision column : string)
    (results results' : list (string * obj)) (r : row) :
  includes originalQuery "COUNT(user_id)" = false ->
  includes originalQuery "COUNT(*)" = false ->
  includes originalQuery "COUNT(DISTINCT country)" = false ->
  includes originalQuery "COUNT(DISTINCT user_segment)" = false ->
  ~ In (alias_of originalQuery) reserved_names ->
  Forall (fun e => label_row (alias_of originalQuery) (snd e)) results ->
  date_trunc_step h originalQuery precision column results r = Normal results' ->
  Forall (fun e => label_row (alias_of originalQuery) (snd e)) results'.
Proof.
  intros H1 H2 H3 H4 Hn Hinv Hstep.
  destruct (Val.truthy (Val.get r column)) eqn:Ht.
  - apply date_trunc_step_inv in Hstep as (label & o & o' & _ & Hg & Hu & ->);
      [|assumption].
    assert (Hinv0 : Forall (fun e => label_row (alias_of originalQuery) (snd e))
              (if SMap.has label results then results
               else SMap.add label (new_date_trunc_row originalQuery label) results)).
    { destruct (SMap.has label results); [assumption|].
      apply smap_forall_add; [|assumption]. now apply new_date_trunc_row_label. }
    apply smap_forall_put; [|assumption].
    assert (Ho : label_row (alias_of originalQuery) o).
    { apply smap_get_in in Hg. rewrite List.Forall_forall in Hinv0. exact (Hinv0 _ Hg). }
    rewrite (update_counts_label_row h _ r o Hn Ho) in Hu. now injection Hu as <-.
  - rewrite date_trunc_step_skip in Hstep by assumption. now injection Hstep as <-.
Qed.

(** What [processDateTruncQuery] returns, when it returns: a part of the
    cleaned rows of the buckets. *)
Lemma processDateTruncQuery_rows (h : host) (data : option (list row))
    (originalQuery : string) (result : list obj) (P : obj -> Prop) :
  processDateTruncQuery h data originalQuery = Normal result ->
  (forall precision column rows results,
     date_trunc_buckets h originalQuery precision column rows = Normal results ->
     Forall (fun e => P (clean_row (snd e))) results) ->
  Forall P result.
Proof.
  unfold processDateTruncQuery. intros Hres Hb.
  destruct data as [[|r rows]|]; try (injection Hres as <-; constructor).
  destruct (search true re_date_trunc originalQuery) as [m|];
    [|injection Hres as <-; constructor].
  destruct (date_trunc_buckets h originalQuery _ _ (r :: rows)) as [results|] eqn:E;
    [|discriminate].
  cbn [bind] in Hres. injection Hres as <-.
  apply Hb in E.
  assert (Hclean : Forall P (map clean_row (SMap.values results))).
  { unfold SMap.values. rewrite map_map. apply Forall_map. exact E. }
  unfold apply_limit, Val.slice0.
  apply List.Forall_forall. intros o Ho. apply in_firstn in Ho.
  rewrite List.Forall_forall in Hclean. apply Hclean.
  unfold apply_order_by in Ho.
  destruct (search true re_order originalQuery); [|assumption].
  eapply Permutation_in; [apply sort_perm|exact Ho].
Qed.

(** C9: when the query text contains none of the exact substrings
    "COUNT(user_id)", "COUNT(*)", "COUNT(DISTINCT country)" and
    "COUNT(DISTINCT user_segment)", every row that the date-trunc path
    returns has no field other than the bucket label: no counter is
    tracked. Unless the label is named like a counter or another name the
    path uses itself, the row is exactly the label field holding a
    label. *)
Theorem C9_no_counters_without_exact_spelling (h : host) (data : option (list row))
    (originalQuery : string) (result : list obj) :
  includes originalQuery "COUNT(user_id)" = false ->
  includes originalQuery "COUNT(*)" = false ->
  includes originalQuery "COUNT(DISTINCT country)" = false ->
  includes originalQuery "COUNT(DISTINCT user_segment)" = false ->
  processDateTruncQuery h data originalQuery = Normal result ->
  Forall (only_field (alias_of originalQuery)) result /\
  (~ In (alias_of originalQuery) reserved_names ->
   Forall (label_row (alias_of originalQuery)) result).
Proof.
  intros H1 H2 H3 H4 Hres. split.
  - apply (processDateTruncQuery_rows h data originalQuery result _ Hres).
    intros precision column rows results E.
    assert (Hinv : Forall (fun e => only_field (alias_of originalQuery) (snd e)) results).
    { eapply (for_of_preserves _
                (Forall (fun e => only_field (alias_of originalQuery) (snd e))));
        [|constructor|exact E].
      intros acc x acc' Hacc Hstep. eapply date_trunc_step_only; eauto. }
    eapply List.Forall_impl; [|exact Hinv].
    intros e He. unfold clean_row. now do 2 apply only_field_delete.
  - intros Hn.
    apply (processDateTruncQuery_rows h data originalQuery result _ Hres).
    intros precision column rows results E.
    assert (Hinv : Forall (fun e => label_row (alias_of originalQuery) (snd e)) results).
    { eapply (for_of_preserves _
                (Forall (fun e => label_row (alias_of originalQuery) (snd e))));
        [|constructor|exact E].
      intros acc x acc' Hacc Hstep. eapply date_trunc_step_label_rows; eauto. }
    eapply List.Forall_impl; [|exact Hinv].
    intros e He. now apply clean_row_label_row.
Qed.


Lemma add_distinct_other (set count k : string) (x : prim) (o o' : obj) :
  add_distinct set count x o = Normal o' ->
  k <> set -> k <> count -> o' !! k = o !! k.
Proof.
  unfold add_distinct. destruct (o !! set) as [[p|elems]|]; try discriminate.
  intros [= <-] Hs Hc. unfold Val.set.
  destruct (String.eqb count "__proto__");
    rewrite ?lookup_insert_ne by congruence; reflexivity.
Qed.

Lemma update_counts_user_count (h : host) (r : row) (o o' : obj) (z : Z) :
  o !! "user_count" = Some (VPrim (PNumber (Num z))) ->
  update_counts h r o = Normal o' ->
  o' !! "user_count" = Some (VPrim (PNumber (Num (z + 1)))).
Proof.
  intros Hz. unfold update_counts.
  destruct (hasOwnProperty o "user_count") as [own1|] eqn:E1; [|discriminate].
  cbn [bind]. apply hasOwnProperty_inv in E1.
  rewrite Hz in E1. rewrite bool_decide_eq_true_2 in E1 by eauto. subst own1.
  pose proof (increment_user_count h o z Hz) as H1.
  set (o1 := increment h "user_count" o) in *. clearbody o1.
  destruct (hasOwnProperty o1 "country_count") as [own2|]; [|discriminate].
  cbn [bind].
  destruct (own2 && Val.truthy (Val.get r "country")).
  - destruct (add_distinct "_countries" "country_count" _ o1) as [o2|] eqn:E2;
      [|discriminate].
    cbn [bind].
    assert (H2 : o2 !! "user_count" = Some (VPrim (PNumber (Num (z + 1))))).
    { rewrite (add_distinct_other _ _ "user_count" _ _ _ E2); [assumption| |];
        discriminate. }
    destruct (hasOwnProperty o2 "segment_count") as [own3|]; [|discriminate].
    cbn [bind].
    destruct (own3 && Val.truthy (Val.get r "user_segment")).
    + intros E3.
      rewrite (add_distinct_other _ _ "user_count" _ _ _ E3); [assumption| |];
        discriminate.
    + now intros [= <-].
  - cbn [bind].
    destruct (hasOwnProperty o1 "segment_count") as [own3|]; [|discriminate].
    cbn [bind].
    destruct (own3 && Val.truthy (Val.get r "user_segment")).
    + intros E3.
      rewrite (add_distinct_other _ _ "user_count" _ _ _ E3); [assumption| |];
        discriminate.
    + now intros [= <-].
Qed.

Lemma new_date_trunc_row_counted (originalQuery label : string) :
  includes originalQuery "COUNT(user_id)" || includes originalQuery "COUNT(*)" = true ->
  new_date_trunc_row originalQuery label !! "user_count" = Some (VPrim (PNumber (Num 0))).
Proof.
  intros H. unfold new_date_trunc_row. rewrite H.
  destruct (includes originalQuery "COUNT(DISTINCT country)");
    destruct (includes originalQuery "COUNT(DISTINCT user_segment)");
    unfold Val.set; cbn [String.eqb Ascii.eqb Bool.eqb];
    rewrite ?lookup_insert_ne by discriminate; apply lookup_insert_eq.
Qed.

Section DateTruncLoop.
Variables (h : host) (originalQuery precision column : string).

Let step := date_trunc_step h originalQuery precision column.


End DateTruncLoop.


Lemma apply_order_by_nil (h : host) (originalQuery : string) :
  apply_order_by h originalQuery [] = [].
Proof. unfold apply_order_by. now destruct (search true re_order originalQuery). Qed.

Lemma apply_limit_nil (originalQuery : string) : apply_limit originalQuery [] = [].
Proof. unfold apply_limit, Val.slice0. now rewrite firstn_nil. Qed.


Lemma C5_witness :
  exists sorted : list obj,
    processGroupByDatePart utc
      (Some [ {[ "created_at" := PString "2024-03-10T05:00:00+00:00" ]};
              {[ "created_at" := PString "2024-03-11T07:30:00+00:00" ]};
              {[ "created_at" := PString "2024-03-12T07:45:00+00:00" ]} ])
      "SELECT DATE_PART('HOUR', created_at) AS signup_hour, COUNT(*) AS user_count FROM users GROUP BY 1 LIMIT 1"
      = Normal (firstn 100 sorted) /\
    StronglySorted (fun a b => user_count b <= user_count a) (firstn 100 sorted) /\
    total_user_count sorted = Z.of_nat 3.
Proof.
  destruct (C5_date_part_sorted_and_capped utc
    "SELECT DATE_PART('HOUR', created_at) AS signup_hour, COUNT(*) AS user_count FROM users GROUP BY 1 LIMIT 1"
    [ {[ "created_at" := PString "2024-03-10T05:00:00+00:00" ]};
      {[ "created_at" := PString "2024-03-11T07:30:00+00:00" ]};
      {[ "created_at" := PString "2024-03-12T07:45:00+00:00" ]} ])
    as (sorted & H1 & _ & H3 & _ & _ & H6 & _).
  destruct (H6 ["DATE_PART('HOUR', created_at)"] ltac:(vm_compute; reflexivity))
    as (buckets & _ & _ & H7 & _).
  exists sorted. split; [exact H1|]. split; [exact H3|exact H7].
Defined.

(** The [LIMIT 1] of the query is not read: both buckets are returned, the
    larger first. *)
Example date_part_ignores_limit :
  processGroupByDatePart utc
    (Some [ {[ "created_at" := PString "2024-03-10T05:00:00+00:00" ]};
            {[ "created_at" := PString "2024-03-11T07:30:00+00:00" ]};
            {[ "created_at" := PString "2024-03-12T07:45:00+00:00" ]} ])
    "SELECT DATE_PART('HOUR', created_at) AS signup_hour, COUNT(*) AS user_count FROM users GROUP BY 1 LIMIT 1"
  = Normal [ {[ "signup_hour" := VPrim (PNumber (Num 7));
                "user_count" := VPrim (PNumber (Num 2)) ]};
             {[ "signup_hour" := VPrim (PNumber (Num 5));
                "user_count" := VPrim (PNumber (Num 1)) ]} ].
Proof. vm_compute. reflexivity. Qed.

Lemma C9_witness :
  includes "select count(*) as user_count, date_trunc('week', signup_date) as week from users group by week"
    "COUNT(*)" = false /\
  processDateTruncQuery utc
    (Some [ {[ "signup_date" := PString "2024-03-14"; "user_id" := PNumber (Num 1) ]};
            {[ "signup_date" := PString "2024-03-12"; "user_id" := PNumber (Num 2) ]} ])
    "select count(*) as user_count, date_trunc('week', signup_date) as week from users group by week"
    = Normal [ {[ "week" := VPrim (PString "2024-03-11") ]} ] /\
  (Forall (only_field "week") [ ({[ "week" := VPrim (PString "2024-03-11") ]} : obj) ] /\
   (~ In "week" reserved_names ->
    Forall (label_row "week") [ ({[ "week" := VPrim (PString "2024-03-11") ]} : obj) ])).
Proof.
  split; [vm_compute; reflexivity|].
  split; [vm_compute; reflexivity|].
  apply (C9_no_counters_without_exact_spelling utc
    (Some [ {[ "signup_date" := PString "2024-03-14"; "user_id" := PNumber (Num 1) ]};
            {[ "signup_date" := PString "2024-03-12"; "user_id" := PNumber (Num 2) ]} ])
    "select count(*) as user_count, date_trunc('week', signup_date) as week from users group by week");
    vm_compute; reflexivity.
Defined.

(** A label named like a counter is incremented like one: the label is
    converted to a number, which it is not. *)
Example label_named_like_a_counter :
  processDateTruncQuery utc
    (Some [ {[ "signup_date" := PString "2024-03-14" ]} ])
    "SELECT DATE_TRUNC('week', signup_date) AS user_count FROM users"
  = Normal [ {[ "user_count" := VPrim (PNumber NaN) ]} ].
Proof. vm_compute. reflexivity. Qed.


(** The result of that query: the one row with a date is counted. *)
Example date_trunc_counts_truthy_rows :
  processDateTruncQuery utc
    (Some [ {[ "signup_date" := PString "2024-03-14" ]};
            {[ "signup_date" := PNumber (Num 0) ]};
            {[ "signup_date" := PString "" ]};
            {[ "signup_date" := PBoolean false ]};
            {[ "signup_date" := PNull ]};
            {[ "country" := PString "US" ]} ])
    "SELECT COUNT(*) AS user_count, DATE_TRUNC('week', signup_date) AS week FROM users GROUP BY week"
  = Normal [ {[ "week" := VPrim (PString "2024-03-11");
                "user_count" := VPrim (PNumber (Num 1)) ]} ].
Proof. vm_compute. reflexivity. Qed.

(* ===================================================================== *)
(** ** Two defects                                                        *)
(* ===================================================================== *)

Lemma forallb_offsets (P : Z -> bool) (lo : Z) (n : nat) :
  forallb P (map (fun k => lo + Z.of_nat k) (List.seq 0%nat n)) = true ->
  forall z, lo <= z < lo + Z.of_nat n -> P z = true.
Proof.
  intros H z Hz. rewrite forallb_forall in H. apply H.
  apply in_map_iff. exists (Z.to_nat (z - lo)). split; [lia|].
  apply in_seq. lia.
Qed.

Lemma label_is_true (c : completion string) (expected : string) :
  label_is c expected = true -> c = Normal expected.
Proof.
  destruct c as [label|e]; [|discriminate]. simpl. now intros ->%String.eqb_eq.
Qed.

(** The label of the row of C3 in every zone from UTC-12:00 to UTC+14:00,
    by evaluation at each offset: 2024-03-11 in UTC and west of it,
    2024-03-10 east of it. *)
Lemma week_label_by_zone (h : host) :
  (-720 <= tz_minutes h <= 0 ->
   truncate h "week" (Date.of_value h (PString "2024-03-14")) = Normal "2024-03-11") /\
  (0 < tz_minutes h <= 840 ->
   truncate h "week" (Date.of_value h (PString "2024-03-14")) = Normal "2024-03-10").
Proof.
  destruct h as [tz p f]. cbn [tz_minutes].
  assert (E : Date.of_value (Build_host tz p f) (PString "2024-03-14")
              = Num 1710374400000) by (vm_compute; reflexivity).
  rewrite E. split; intros Hz; apply label_is_true.
  - apply (forallb_offsets
      (fun z => label_is (truncate (Build_host z p f) "week" (Num 1710374400000))
                  "2024-03-11") (-720) 721); [vm_compute; reflexivity|lia].
  - apply (forallb_offsets
      (fun z => label_is (truncate (Build_host z p f) "week" (Num 1710374400000))
                  "2024-03-10") 1 840); [vm_compute; reflexivity|lia].
Qed.

(** C3: the week label of a row dated 2024-03-14. The Monday is computed in
    local time and printed in UTC: on a host in UTC the label is
    2024-03-11, on a host one hour east of UTC local midnight of that Monday
    is 23:00 of the Sunday in UTC and the label is 2024-03-10. *)
Theorem C3_week_label_east_of_utc :
  processDateTruncQuery utc
    (Some [ {[ "signup_date" := PString "2024-03-14" ]} ])
    "SELECT DATE_TRUNC('week', signup_date) AS week FROM users GROUP BY week"
    = Normal [ {[ "week" := VPrim (PString "2024-03-11") ]} ] /\
  processDateTruncQuery utc_plus_1
    (Some [ {[ "signup_date" := PString "2024-03-14" ]} ])
    "SELECT DATE_TRUNC('week', signup_date) AS week FROM users GROUP BY week"
    = Normal [ {[ "week" := VPrim (PString "2024-03-10") ]} ] /\
  Date.toISOString
    (Date.setHours utc_plus_1
       (Date.setDate utc_plus_1 (Date.parse utc_plus_1 "2024-03-14") (Num 11)) 0 0 0 0)
    = Normal "2024-03-10T23:00:00.000Z".
Proof.
  split; [vm_compute; reflexivity|].
  split; vm_compute; reflexivity.
Qed.

(** C4: a row of Sunday 2024-03-10, 05:00 UTC. Its key tuple is (5, 0); the
    bucket gets [signup_hour] 5 and, the second component being falsy,
    [signup_day_of_week] 5 too. *)
Theorem C4_sunday_takes_the_hour :
  map_throwing
    (date_part_key utc {[ "created_at" := PString "2024-03-10T05:00:00+00:00" ]})
    ["DATE_PART('HOUR', created_at)"; "DATE_PART('DOW', created_at)"]
    = Normal [PNumber (Num 5); PNumber (Num 0)] /\
  processGroupByDatePart utc
    (Some [ {[ "created_at" := PString "2024-03-10T05:00:00+00:00" ]} ])
    "SELECT DATE_PART('HOUR', created_at) AS signup_hour, DATE_PART('DOW', created_at) AS signup_day_of_week, COUNT(*) AS user_count FROM users GROUP BY 1, 2"
    = Normal [ {[ "signup_hour" := VPrim (PNumber (Num 5));
                  "signup_day_of_week" := VPrim (PNumber (Num 5));
                  "user_count" := VPrim (PNumber (Num 1)) ]} ].
Proof. split; vm_compute; reflexivity. Qed.

(** A property of a Boolean holds for both Booleans. *)
Definition both (f : bool -> bool) : bool := f true && f false.

Lemma both_spec (f : bool -> bool) : both f = true -> forall b, f b = true.
Proof. unfold both. intros H b. apply andb_true_iff in H. destruct b; tauto. Qed.

(** The substring probes of a goal [f = true] become variables, and the
    goal a computation over their values. *)
Ltac abstract_probes :=
  repeat match goal with
  | |- context [includes ?a ?b] =>
      let p := fresh "p" in generalize (includes a b); intro p
  end.

Ltac over_probes :=
  repeat match goal with
  | p : bool |- _ =>
      revert p;
      match goal with |- forall b, @?f b = true => apply (both_spec f) end
  end.

Ltac by_probes :=
  match goal with |- ?P => apply (@bool_decide_eq_true_1 P _) end;
  unfold analyzeQueryError;
  abstract_probes; over_probes; vm_compute; reflexivity.

(** The analysis always suggests something, and the two general
    suggestions are given exactly when no rule recognised the message. *)
Theorem analyzeQueryError_fallback (errorMessage query : string) :
  suggestions (analyzeQueryError errorMessage query) <> [] /\
  (type (analyzeQueryError errorMessage query) = "unknown" <->
   suggestions (analyzeQueryError errorMessage query) = general_suggestions).
Proof. by_probes. Qed.

(** The type of the analysis is that of the last rule that recognises the
    message; it does not depend on the query. *)
Theorem analyzeQueryError_type (errorMessage query : string) :
  type (analyzeQueryError errorMessage query) =
  if includes errorMessage "permission denied" then "permission_error"
  else if includes errorMessage "syntax error" || includes errorMessage "invalid"
  then "syntax_error"
  else if includes errorMessage "column" && includes errorMessage "does not exist"
  then "column_not_found"
  else if includes errorMessage "relation" && includes errorMessage "does not exist"
  then "table_not_found"
  else if includes errorMessage "Could not find the function" then "function_not_found"
  else if includes errorMessage "failed to parse select parameter" then "syntax_error"
  else "unknown".
Proof. by_probes. Qed.

(** The rule for casts never decides the type: the rule for missing columns
    recognises every message that it recognises, and comes later. The cast
    suggestions are given all the same. *)
Theorem analyzeQueryError_never_type_casting (errorMessage query : string) :
  type (analyzeQueryError errorMessage query) <> "type_casting_error" /\
  (In "PostgreSQL type casting (::) is automatically handled"
      (suggestions (analyzeQueryError errorMessage query)) <->
   includes errorMessage "column" && includes errorMessage "does not exist"
     && includes query "::" = true).
Proof.
  split; [by_probes|]. rewrite <- list_elem_of_In. by_probes.
Qed.

(** The classes of the patterns under the [i] flag are the classes
    themselves: no letter outside a class has a case form inside it. *)
Lemma word_chr_is_word (a : ascii) : word_chr a = is_word a.
Proof. each_ascii a; reflexivity. Qed.

Lemma cast_chr_mem (a : ascii) : cast_chr a = mem type_chr a.
Proof. each_ascii a; reflexivity. Qed.

Lemma ws_is_space (a : ascii) : cls_match true ws a = is_space a.
Proof. each_ascii a; reflexivity. Qed.

Lemma not_chr_paren (a : ascii) : cls_match true (not_chr ")") a = not_paren a.
Proof. each_ascii a; reflexivity. Qed.

Lemma is_word_not_space (a : ascii) : is_word a = true -> is_space a = false.
Proof. intros H. each_ascii a; vm_compute in H; try discriminate H; reflexivity. Qed.

(** A letter of a keyword matches its two case forms. *)
Lemma chr_match_lower (p a : ascii) :
  In p ["E"; "X"; "T"; "R"; "A"; "C"; "F"; "O"; "M"]%char ->
  lower_char a = lower_char p -> chr_match true p a = true /\ is_space a = false.
Proof.
  intros Hp H. simpl in Hp.
  destruct Hp as [<-|[<-|[<-|[<-|[<-|[<-|[<-|[<-|[<-|[]]]]]]]]]];
    each_ascii a; vm_compute in H; try discriminate H; split; reflexivity.
Qed.

Lemma span_len_all (p : ascii -> bool) (a b : string) :
  all_chars p a = true -> first_char p b = false ->
  span_len p (a ++ b) = String.length a.
Proof.
  intros Ha Hb. induction a as [|x a IH].
  - destruct b as [|y b]; [reflexivity|]. cbn [first_char] in Hb.
    change ("" ++ String y b) with (String y b). cbn [span_len]. now rewrite Hb.
  - rewrite append_cons. cbn [all_chars span_len String.length] in *.
    apply andb_true_iff in Ha as [-> Ha]. now rewrite IH.
Qed.

Lemma drop_length_append (a b : string) (n : nat) :
  drop (String.length a + n) (a ++ b) = drop n b.
Proof. induction a as [|x a IH]; [reflexivity|]. rewrite append_cons. exact IH. Qed.

Lemma drop_length (a b : string) : drop (String.length a) (a ++ b) = b.
Proof.
  rewrite <- (Nat.add_0_r (String.length a)). now rewrite drop_length_append.
Qed.

Lemma take_length (a b : string) : take (String.length a) (a ++ b) = a.
Proof.
  induction a as [|x a IH]; [now destruct b|]. rewrite append_cons.
  cbn [String.length take]. now rewrite IH.
Qed.

Lemma all_chars_impl (p q : ascii -> bool) (s : string) :
  (forall a, p a = true -> q a = true) -> all_chars p s = true -> all_chars q s = true.
Proof.
  intros H. induction s as [|a s IH]; [reflexivity|]. cbn [all_chars].
  rewrite !andb_true_iff. intros [H1 H2]. split; [now apply H|now apply IH].
Qed.

(** An attempt of the pattern at a call in the plain form: keyword, field,
    one blank on each side of the second keyword, source expression. *)
Lemma exec_extract_call (kw field fr source post : string) :
  toLowerCase kw = "extract" -> toLowerCase fr = "from" ->
  field <> "" -> all_chars is_word field = true ->
  source <> "" -> all_chars not_paren source = true ->
  first_char is_space source = false ->
  exec true re_extract (kw ++ "(" ++ field ++ " " ++ fr ++ " " ++ source ++ ")" ++ post) =
  Some ((15 + String.length field + String.length source)%nat,
        [(2, (14 + String.length field, 14 + String.length field + String.length source));
         (1, (8, 8 + String.length field))]%nat).
Proof.
  intros Hkw Hfr Hf1 Hf2 Hs1 Hs2 Hs3.
  destruct kw as [|k1 [|k2 [|k3 [|k4 [|k5 [|k6 [|k7 [|? ?]]]]]]]]; try discriminate Hkw.
  destruct fr as [|r1 [|r2 [|r3 [|r4 [|? ?]]]]]; try discriminate Hfr.
  cbn [toLowerCase] in Hkw, Hfr.
  injection Hkw as K1 K2 K3 K4 K5 K6 K7. injection Hfr as R1 R2 R3 R4.
  destruct field as [|f1 field]; [congruence|].
  destruct source as [|s1 source]; [congruence|].
  cbn [all_chars first_char] in *.
  apply andb_true_iff in Hf2 as [Hf2 Hf3]. apply andb_true_iff in Hs2 as [Hs2 Hs4].
  destruct (chr_match_lower "E" k1 ltac:(simpl; tauto) K1) as [C1 _].
  destruct (chr_match_lower "X" k2 ltac:(simpl; tauto) K2) as [C2 _].
  destruct (chr_match_lower "T" k3 ltac:(simpl; tauto) K3) as [C3 _].
  destruct (chr_match_lower "R" k4 ltac:(simpl; tauto) K4) as [C4 _].
  destruct (chr_match_lower "A" k5 ltac:(simpl; tauto) K5) as [C5 _].
  destruct (chr_match_lower "C" k6 ltac:(simpl; tauto) K6) as [C6 _].
  destruct (chr_match_lower "T" k7 ltac:(simpl; tauto) K7) as [C7 _].
  destruct (chr_match_lower "F" r1 ltac:(simpl; tauto) R1) as [D1 D0].
  destruct (chr_match_lower "R" r2 ltac:(simpl; tauto) R2) as [D2 _].
  destruct (chr_match_lower "O" r3 ltac:(simpl; tauto) R3) as [D3 _].
  destruct (chr_match_lower "M" r4 ltac:(simpl; tauto) R4) as [D4 _].
  unfold exec, re_extract. rewrite !append_cons, !append_empty_l.
  cbn [run seq lit]. rewrite C1, C2, C3, C4, C5, C6, C7.
  cbn [greedy]. rewrite !ws_is_space.
  change (is_space "(") with false. cbv iota.
  change (chr_match true "(" "(") with true. cbv iota.
  rewrite (is_word_not_space _ Hf2).
  change (cls_match true word f1) with (word_chr f1). rewrite word_chr_is_word, Hf2.
  rewrite greedy_span.
  2:{ intros a s' i' Ha. change (cls_match true word a) with (word_chr a) in Ha.
      rewrite word_chr_is_word in Ha. now rewrite ws_is_space, (is_word_not_space _ Ha). }
  rewrite span_len_all; [|exact (all_chars_impl _ _ _ (fun a H => eq_trans (word_chr_is_word a) H) Hf3)|reflexivity].
  rewrite drop_length.
  change (cls_match true ws " ") with true. cbv iota.
  cbn [greedy]. rewrite ws_is_space, D0, D1, D2, D3, D4.
  change (cls_match true ws " ") with true. cbv iota.
  cbn [greedy]. rewrite ws_is_space, Hs3, not_chr_paren, Hs2.
  rewrite greedy_span.
  2:{ intros a s' i' Ha. rewrite not_chr_paren in Ha.
      each_ascii a; vm_compute in Ha; try discriminate Ha; reflexivity. }
  rewrite span_len_all; [|exact (all_chars_impl _ _ _ (fun a H => eq_trans (not_chr_paren a) H) Hs4)|reflexivity].
  rewrite drop_length.
  change (chr_match true ")" ")") with true. cbv iota.
  cbn [String.length].
  apply f_equal. apply (f_equal2 pair); [lia|].
  apply (f_equal2 cons); [apply f_equal; apply (f_equal2 pair); lia|].
  apply (f_equal2 cons); [|reflexivity]. do 2 apply f_equal. lia.
Qed.
(** A global replacement around one match: the text before it has no
    match, the match is replaced, the scan goes on behind it. *)
Lemma replace_all_at (ic : bool) (r : regex) (tmpl : match_result -> string)
    (pre call post : string) (c : caps) :
  nowhere_before (matches_at ic r) pre (call ++ post) = true ->
  exec ic r (call ++ post) = Some (String.length call, c) ->
  call <> "" ->
  replace_all ic r tmpl (pre ++ call ++ post) =
  pre ++ tmpl (mk_result 0 (call ++ post) (String.length call) c)
      ++ replace_all ic r tmpl post.
Proof.
  intros Hpre Hexec Hne. unfold replace_all. rewrite replace_go_before by exact Hpre.
  f_equal. destruct call as [|a call]; [congruence|].
  rewrite append_cons in *. cbn [String.length] in *.
  rewrite (replace_go_match _ _ _ _ _ _ _ Hexec). f_equal.
  apply replace_go_skip.
Qed.

Lemma includes_all_chars (p : ascii -> bool) (s : string) :
  p ":"%char = false -> all_chars p s = true -> includes s "::" = false.
Proof.
  intros Hp. induction s as [|a s IH]; [reflexivity|]. cbn [all_chars].
  intros H. apply andb_true_iff in H as [Ha Hs].
  rewrite includes_cons, (IH Hs), orb_false_r. cbn [startsWith].
  destruct (Ascii.eqb_spec ":"%char a) as [<-|]; [congruence|reflexivity].
Qed.

(** The first pass on a query around a call in the plain form. *)
Lemma extract_call_pass (pre kw field fr source post : string) :
  toLowerCase kw = "extract" -> toLowerCase fr = "from" ->
  field <> "" -> all_chars is_word field = true ->
  source <> "" -> all_chars not_paren source = true ->
  first_char is_space source = false ->
  includes (toLowerCase pre) "extract" = false ->
  includes (toLowerCase post) "extract" = false ->
  replace_all true re_extract
    (fun m => "DATE_PART('" ++ group_text m 1 ++ "', " ++ group_text m 2 ++ ")")
    (pre ++ kw ++ "(" ++ field ++ " " ++ fr ++ " " ++ source ++ ")" ++ post)
  = pre ++ "DATE_PART('" ++ field ++ "', " ++ source ++ ")" ++ post.
Proof.
  intros Hkw Hfr Hf1 Hf2 Hs1 Hs2 Hs3 Hpre Hpost.
  pose proof (exec_extract_call kw field fr source post Hkw Hfr Hf1 Hf2 Hs1 Hs2 Hs3) as E.
  set (call := kw ++ "(" ++ field ++ " " ++ fr ++ " " ++ source ++ ")").
  assert (Hcall : kw ++ "(" ++ field ++ " " ++ fr ++ " " ++ source ++ ")" ++ post
                  = call ++ post).
  { unfold call. now rewrite !append_assoc. }
  assert (Hlen : String.length call = (15 + String.length field + String.length source)%nat).
  { unfold call. rewrite !length_append.
    apply (f_equal String.length) in Hkw, Hfr.
    assert (Hl : forall s, String.length (toLowerCase s) = String.length s)
      by (induction s as [|? ? IH]; [reflexivity|simpl; now rewrite IH]).
    rewrite Hl in Hkw, Hfr. rewrite Hkw, Hfr. simpl. lia. }
  rewrite Hcall in E |- *. rewrite <- Hlen in E.
  assert (Hbefore : nowhere_before (matches_at true re_extract) pre (call ++ post) = true).
  { apply extract_nowhere_before; [exact Hpre|].
    unfold call. rewrite !toLowerCase_append, Hkw. reflexivity. }
  assert (Hne : call <> "").
  { unfold call. destruct kw; [discriminate Hkw|discriminate]. }
  rewrite (replace_all_at true re_extract _ pre call post _ Hbefore E Hne).
  f_equal. rewrite Hlen.
    assert (G1 : group_text (mk_result 0 (call ++ post)
                   (15 + String.length field + String.length source)
                   [(2, (14 + String.length field,
                         14 + String.length field + String.length source));
                    (1, (8, 8 + String.length field))]%nat) 1 = field).
    { unfold group_text, mk_result, group, slice. cbn [cap_lookup Nat.eqb].
      rewrite <- Hcall.
      destruct kw as [|k1 [|k2 [|k3 [|k4 [|k5 [|k6 [|k7 [|? ?]]]]]]]]; try discriminate Hkw.
      rewrite !append_cons, !append_empty_l. cbn [drop].
      replace (8 + String.length field - 8)%nat with (String.length field) by lia.
      apply take_length. }
    assert (G2 : group_text (mk_result 0 (call ++ post)
                   (15 + String.length field + String.length source)
                   [(2, (14 + String.length field,
                         14 + String.length field + String.length source));
                    (1, (8, 8 + String.length field))]%nat) 2 = source).
    { unfold group_text, mk_result, group, slice. cbn [cap_lookup Nat.eqb].
      rewrite <- Hcall.
      destruct kw as [|k1 [|k2 [|k3 [|k4 [|k5 [|k6 [|k7 [|? ?]]]]]]]]; try discriminate Hkw.
      destruct fr as [|r1 [|r2 [|r3 [|r4 [|? ?]]]]]; try discriminate Hfr.
      rewrite !append_cons, !append_empty_l.
      replace (14 + String.length field)%nat with (8 + (String.length field + 6))%nat by lia.
      cbn [drop Nat.add]. rewrite drop_length_append. cbn [drop].
      replace (S (S (S (S (S (S (S (S (String.length field + 6 + String.length source))))))))
               - S (S (S (S (S (S (S (S (String.length field + 6)))))))))%nat
        with (String.length source) by lia.
      apply take_length. }
  rewrite G1, G2. unfold replace_all.
  rewrite (replace_go_nowhere true re_extract _ post (extract_nowhere _ Hpost)).
  now rewrite !append_assoc.
Qed.
(** The two passes on a query around a call in the plain form. *)
Lemma normalize_extract_call (pre kw field fr source post : string) :
  toLowerCase kw = "extract" -> toLowerCase fr = "from" ->
  field <> "" -> all_chars is_word field = true ->
  source <> "" -> all_chars not_paren source = true ->
  first_char is_space source = false ->
  includes (toLowerCase pre) "extract" = false ->
  includes (toLowerCase post) "extract" = false ->
  convertPostgreSQLFunctions
    (pre ++ kw ++ "(" ++ field ++ " " ++ fr ++ " " ++ source ++ ")" ++ post)
  = strip_casts (pre ++ "DATE_PART('" ++ field ++ "', " ++ source ++ ")" ++ post).
Proof.
  intros. unfold convertPostgreSQLFunctions. cbv zeta.
  now rewrite extract_call_pass by assumption.
Qed.

(** A call [EXTRACT(field FROM source)], the two keywords in any letter
    case, becomes [DATE_PART('field', source)], and nothing else changes,
    in a query that has no cast and no other [extract]. The field is a
    word; the source has no closing parenthesis and does not begin with
    white space. *)
Theorem extract_call_rewritten (pre kw field fr source post : string) :
  toLowerCase kw = "extract" -> toLowerCase fr = "from" ->
  field <> "" -> all_chars is_word field = true ->
  source <> "" -> all_chars not_paren source = true ->
  first_char is_space source = false ->
  includes (toLowerCase pre) "extract" = false ->
  includes (toLowerCase post) "extract" = false ->
  includes pre "::" = false -> includes source "::" = false ->
  includes post "::" = false ->
  convertPostgreSQLFunctions
    (pre ++ kw ++ "(" ++ field ++ " " ++ fr ++ " " ++ source ++ ")" ++ post)
  = pre ++ "DATE_PART('" ++ field ++ "', " ++ source ++ ")" ++ post.
Proof.
  intros Hkw Hfr Hf1 Hf2 Hs1 Hs2 Hs3 Hpre Hpost Cpre Csource Cpost.
  rewrite normalize_extract_call by assumption.
  apply strip_casts_id.
  apply includes_append_straddle; [exact Cpre| |reflexivity].
  change (includes (field ++ "', " ++ source ++ ")" ++ post) "::" = false).
  apply includes_append_straddle; [|
    |reflexivity].
  - exact (includes_all_chars is_word field eq_refl Hf2).
  - change (includes (source ++ ")" ++ post) "::" = false).
    apply includes_append_straddle; [exact Csource|exact Cpost|reflexivity].
Qed.

Lemma extract_call_rewritten_witness :
  (toLowerCase "Extract" = "extract" /\ toLowerCase "from" = "from" /\
   "dow" <> "" /\ all_chars is_word "dow" = true /\
   "signup_date" <> "" /\ all_chars not_paren "signup_date" = true /\
   first_char is_space "signup_date" = false /\
   includes (toLowerCase "SELECT ") "extract" = false /\
   includes (toLowerCase " AS d FROM users") "extract" = false /\
   includes "SELECT " "::" = false /\ includes "signup_date" "::" = false /\
   includes " AS d FROM users" "::" = false) /\
  convertPostgreSQLFunctions
    ("SELECT " ++ "Extract" ++ "(" ++ "dow" ++ " " ++ "from" ++ " " ++ "signup_date"
       ++ ")" ++ " AS d FROM users")
  = "SELECT " ++ "DATE_PART('" ++ "dow" ++ "', " ++ "signup_date" ++ ")"
      ++ " AS d FROM users".
Proof.
  split; [repeat split; try discriminate; vm_compute; reflexivity|].
  apply (extract_call_rewritten "SELECT " "Extract" "dow" "from" "signup_date"
           " AS d FROM users"); try (vm_compute; reflexivity); discriminate.
Defined.

(** A cast [word::type] is replaced by the word: the text before it does
    not end with a character that a cast can contain, the text after it
    does not begin with a character of a type, and the query has no
    [extract]. The two sides are stripped of their casts separately. *)
Theorem cast_stripped (pre w t post : string) :
  w <> "" -> all_chars is_word w = true ->
  t <> "" -> all_chars is_type_chr t = true ->
  first_char is_type_chr post = false ->
  ends_clean pre = true ->
  includes (toLowerCase (pre ++ w ++ "::" ++ t ++ post)) "extract" = false ->
  convertPostgreSQLFunctions (pre ++ w ++ "::" ++ t ++ post)
  = strip_casts pre ++ w ++ strip_casts post.
Proof.
  intros Hw1 Hw2 Ht1 Ht2 Hpost Hpre Hex.
  unfold convertPostgreSQLFunctions. cbv zeta. unfold replace_all at 2.
  rewrite (replace_go_nowhere true re_extract _ _ (extract_nowhere _ Hex)).
  change (strip_casts (pre ++ w ++ "::" ++ t ++ post) = strip_casts pre ++ w ++ strip_casts post).
  rewrite (strip_casts_append pre _ Hpre). f_equal.
  assert (Hspan : span_len word_chr (w ++ "::" ++ t ++ post) = String.length w).
  { apply span_len_all; [|reflexivity].
    exact (all_chars_impl _ _ _ (fun a H => eq_trans (word_chr_is_word a) H) Hw2). }
  assert (Hlen : cast_length (w ++ "::" ++ t ++ post)
                 = Some (String.length w + 2 + String.length t)%nat).
  { unfold cast_length. rewrite Hspan.
    destruct w as [|a w]; [congruence|]. cbn [String.length].
    change (S (String.length w)) with (String.length (String a w)).
    rewrite drop_length. destruct t as [|b t]; [congruence|].
    cbn [all_chars] in Ht2. apply andb_true_iff in Ht2 as [Hb Ht2].
    rewrite !append_cons, !append_empty_l.
    change (Ascii.eqb ":" ":") with true. rewrite cast_chr_mem.
    unfold is_type_chr in Hb. rewrite Hb. cbn [andb].
    rewrite span_len_all.
    - f_equal. cbn [String.length]. lia.
    - exact (all_chars_impl _ _ _ (fun a H => eq_trans (cast_chr_mem a) H) Ht2).
    - destruct post as [|c post]; [reflexivity|]. cbn [first_char] in *.
      now rewrite cast_chr_mem. }
  rewrite (strip_casts_match _ _ Hlen), Hspan, take_length. f_equal.
  replace (String.length w + 2 + String.length t)%nat
    with (String.length (w ++ "::" ++ t))
    by (rewrite !length_append; simpl; lia).
  replace (w ++ "::" ++ t ++ post) with ((w ++ "::" ++ t) ++ post)
    by (now rewrite !append_assoc).
  now rewrite drop_length.
Qed.

Lemma cast_stripped_witness :
  ("signup_date" <> "" /\ all_chars is_word "signup_date" = true /\
   "date" <> "" /\ all_chars is_type_chr "date" = true /\
   first_char is_type_chr ") AS week FROM users" = false /\
   ends_clean "SELECT DATE_TRUNC('week', " = true /\
   includes (toLowerCase ("SELECT DATE_TRUNC('week', " ++ "signup_date" ++ "::" ++ "date"
                          ++ ") AS week FROM users")) "extract" = false) /\
  convertPostgreSQLFunctions
    ("SELECT DATE_TRUNC('week', " ++ "signup_date" ++ "::" ++ "date" ++ ") AS week FROM users")
  = strip_casts "SELECT DATE_TRUNC('week', " ++ "signup_date"
      ++ strip_casts ") AS week FROM users".
Proof.
  split; [repeat split; try discriminate; vm_compute; reflexivity|].
  apply (cast_stripped "SELECT DATE_TRUNC('week', " "signup_date" "date"
           ") AS week FROM users"); try (vm_compute; reflexivity); discriminate.
Defined.

(** A query without [::] and without the word [extract], in any letter
    case, passes through the normaliser unchanged. *)
Theorem normalize_leaves_plain_queries (query : string) :
  includes query "::" = false ->
  includes (toLowerCase query) "extract" = false ->
  convertPostgreSQLFunctions query = query.
Proof. apply convert_fixed_point. Qed.

Lemma normalize_leaves_plain_queries_witness :
  (includes "SELECT DATE_PART('hour', created_at) AS signup_hour FROM users GROUP BY 1"
     "::" = false /\
   includes
     (toLowerCase "SELECT DATE_PART('hour', created_at) AS signup_hour FROM users GROUP BY 1")
     "extract" = false) /\
  convertPostgreSQLFunctions
    "SELECT DATE_PART('hour', created_at) AS signup_hour FROM users GROUP BY 1"
  = "SELECT DATE_PART('hour', created_at) AS signup_hour FROM users GROUP BY 1".
Proof.
  split; [split; vm_compute; reflexivity|].
  apply normalize_leaves_plain_queries; vm_compute; reflexivity.
Defined.

(** The leftmost match: no attempt succeeds inside [pre], the attempt at
    the end of [pre] does. *)
Lemma search_from_at (ic : bool) (r : regex) (at_ : nat) (pre rest : string)
    (len : nat) (c : caps) :
  nowhere_before (matches_at ic r) pre rest = true ->
  exec ic r rest = Some (len, c) ->
  search_from ic r at_ (pre ++ rest) = Some (mk_result (at_ + String.length pre) rest len c).
Proof.
  revert at_. induction pre as [|x pre IH]; intros at_ Hpre Hexec.
  - rewrite append_empty_l. destruct rest; cbn [search_from]; rewrite Hexec;
      cbn [String.length]; now rewrite Nat.add_0_r.
  - cbn [nowhere_before] in Hpre. apply andb_true_iff in Hpre as [H1 H2].
    unfold matches_at in H1. rewrite append_cons in *. cbn [search_from].
    destruct (exec ic r (String x (pre ++ rest))); [discriminate H1|].
    rewrite (IH (S at_) H2 Hexec). cbn [String.length]. do 2 f_equal. lia.
Qed.

(** A match found by the search is an attempt that succeeds on a suffix of
    the text. *)
Lemma search_from_inv (ic : bool) (r : regex) (at_ : nat) (s : string) (m : match_result) :
  search_from ic r at_ s = Some m ->
  exists pre rest len c,
    s = pre ++ rest /\ exec ic r rest = Some (len, c) /\
    m = mk_result (at_ + String.length pre) rest len c.
Proof.
  revert at_. induction s as [|x s IH]; intros at_ H; cbn [search_from] in H.
  - destruct (exec ic r "") as [[len c]|] eqn:E; [|discriminate].
    injection H as <-. exists "", "", len, c. cbn [String.length].
    now rewrite Nat.add_0_r.
  - destruct (exec ic r (String x s)) as [[len c]|] eqn:E.
    + injection H as <-. exists "", (String x s), len, c. cbn [String.length].
      now rewrite Nat.add_0_r.
    + apply IH in H as (pre & rest & len & c & -> & Hexec & ->).
      exists (String x pre), rest, len, c. rewrite append_cons. cbn [String.length].
      repeat split; [exact Hexec|]. f_equal. lia.
Qed.

Lemma search_none (ic : bool) (r : regex) (at_ : nat) (s : string) :
  nowhere (matches_at ic r) s = true -> search_from ic r at_ s = None.
Proof.
  revert at_. induction s as [|x s IH]; intros at_ H; cbn [nowhere search_from] in *;
    apply andb_true_iff in H as [H1 H2]; unfold matches_at in H1.
  - now destruct (exec ic r "").
  - destruct (exec ic r (String x s)); [discriminate H1|]. now apply IH.
Qed.

Lemma all_chars_take_span (p : ascii -> bool) (s : string) :
  all_chars p (take (span_len p s) s) = true.
Proof.
  induction s as [|a s IH]; [reflexivity|]. cbn [span_len].
  destruct (p a) eqn:E; [|reflexivity]. cbn [take all_chars]. now rewrite E, IH.
Qed.

Lemma all_chars_append (p : ascii -> bool) (a b : string) :
  all_chars p (a ++ b) = all_chars p a && all_chars p b.
Proof.
  induction a as [|x a IH]; [reflexivity|]. rewrite append_cons. cbn [all_chars].
  now rewrite IH, andb_assoc.
Qed.

Lemma first_char_drop_span (p : ascii -> bool) (s : string) :
  first_char p (drop (span_len p s) s) = false.
Proof.
  pose proof (span_len_stop p s) as H.
  destruct (drop (span_len p s) s); [reflexivity|exact H].
Qed.

(** Where the continuation accepts any rest of the input, the quantifier
    takes the longest run. *)
Lemma greedy_span_any (p : ascii -> bool) (g : nat -> nat * caps) (s : string) (i : nat) :
  greedy p (fun _ i' => Some (g i')) s i = Some (g (i + span_len p s)%nat).
Proof.
  revert i. induction s as [|a s IH]; intros i; cbn [greedy span_len].
  - now rewrite Nat.add_0_r.
  - destruct (p a); [|now rewrite Nat.add_0_r].
    rewrite IH. do 2 f_equal. lia.
Qed.

Lemma space_not_ident (a : ascii) :
  cls_match true ws a = true -> cls_match true ident_chr a = false.
Proof. intros H. each_ascii a; vm_compute in H; try discriminate H; reflexivity. Qed.

(** A successful attempt of the table-name pattern, read off the text:
    the keyword, white space, the longest run of identifier characters. *)
Lemma exec_from_inv (s : string) (len : nat) (c : caps) :
  exec true re_from s = Some (len, c) ->
  exists kw sp t post,
    s = kw ++ sp ++ t ++ post /\
    String.length kw = 4%nat /\ toLowerCase kw = "from" /\
    sp <> "" /\ all_chars (cls_match true ws) sp = true /\
    t <> "" /\ all_chars (cls_match true ident_chr) t = true /\
    first_char (cls_match true ident_chr) post = false /\
    len = (4 + String.length sp + String.length t)%nat /\
    c = [(1, (4 + String.length sp, 4 + String.length sp + String.length t))]%nat.
Proof.
  unfold exec, re_from. cbn [run seq lit].
  destruct s as [|c1 [|c2 [|c3 [|c4 [|b s]]]]]; try discriminate;
    try (repeat match goal with
         | |- context [chr_match true ?p ?a] => destruct (chr_match true p a)
         end; discriminate).
  destruct (chr_match true "f" c1) eqn:F1; [|discriminate].
  destruct (chr_match true "r" c2) eqn:F2; [|discriminate].
  destruct (chr_match true "o" c3) eqn:F3; [|discriminate].
  destruct (chr_match true "m" c4) eqn:F4; [|discriminate].
  destruct (cls_match true ws b) eqn:Eb; [|discriminate].
  rewrite greedy_span.
  2:{ intros a s' i' Ha. cbn [run]. now rewrite (space_not_ident _ Ha). }
  cbn [run].
  destruct (drop (span_len (cls_match true ws) s) s) as [|a s''] eqn:Ed; [discriminate|].
  destruct (cls_match true ident_chr a) eqn:Ea; [|discriminate].
  rewrite (greedy_span_any _ (fun i' => (i', [(1%nat, (_, i'))]))). intros [= <- <-].
  set (n := span_len (cls_match true ws) s) in *.
  set (k := span_len (cls_match true ident_chr) s'').
  exists (String c1 (String c2 (String c3 (String c4 "")))),
         (String b (take n s)), (String a (take k s'')), (drop k s'').
  assert (Hs : s = take n s ++ String a (take k s'' ++ drop k s'')).
  { rewrite take_drop, <- Ed. now rewrite take_drop. }
  repeat split.
  - rewrite !append_cons, !append_empty_l. now rewrite <- Hs.
  - cbn [toLowerCase]. 
    assert (L : forall p x, In p ["f"; "r"; "o"; "m"]%char ->
                chr_match true p x = true -> lower_char x = p).
    { intros p x Hp Hx. simpl in Hp. destruct Hp as [<-|[<-|[<-|[<-|[]]]]];
        each_ascii x; vm_compute in Hx; try discriminate Hx; reflexivity. }
    rewrite (L "f"%char c1), (L "r"%char c2), (L "o"%char c3), (L "m"%char c4);
      simpl; tauto.
  - discriminate.
  - cbn [all_chars]. rewrite Eb. apply all_chars_take_span.
  - discriminate.
  - cbn [all_chars]. rewrite Ea. apply all_chars_take_span.
  - apply first_char_drop_span.
  - cbn [String.length]. rewrite !length_take by apply span_len_le. lia.
  - cbn [String.length]. rewrite !length_take by apply span_len_le.
    do 3 f_equal; lia.
Qed.

Lemma lower_char_idem (a : ascii) : lower_char (lower_char a) = lower_char a.
Proof. each_ascii a; reflexivity. Qed.

Lemma ident_lowered (a : ascii) :
  lower_char a = a -> cls_match true ident_chr a = is_ident_chr a.
Proof. intros H. each_ascii a; vm_compute in H; try discriminate H; reflexivity. Qed.

Lemma toLowerCase_idem (s : string) : toLowerCase (toLowerCase s) = toLowerCase s.
Proof.
  induction s as [|a s IH]; [reflexivity|]. cbn [toLowerCase].
  now rewrite lower_char_idem, IH.
Qed.

Lemma toLowerCase_length (s : string) : String.length (toLowerCase s) = String.length s.
Proof. induction s as [|a s IH]; [reflexivity|]. cbn [toLowerCase String.length]. now rewrite IH. Qed.

Lemma append_inj_length (a a' b b' : string) :
  a ++ b = a' ++ b' -> String.length a = String.length a' -> a = a' /\ b = b'.
Proof.
  revert a'. induction a as [|x a IH]; intros [|x' a'] H Hl; try discriminate Hl.
  - now rewrite !append_empty_l in H.
  - rewrite !append_cons in H. injection H as -> H. injection Hl as Hl.
    destruct (IH _ H Hl) as [-> ->]. now split.
Qed.

(** A piece of a lower-case text is lower-case. *)
Lemma toLowerCase_split (q a b : string) :
  toLowerCase q = a ++ b -> toLowerCase a = a /\ toLowerCase b = b.
Proof.
  intros H. pose proof (f_equal toLowerCase H) as H'.
  rewrite toLowerCase_idem, toLowerCase_append, H in H'.
  symmetry in H'. apply append_inj_length in H' as [Ha Hb]; [now split|].
  apply toLowerCase_length.
Qed.

Lemma all_chars_ident_lowered (t : string) :
  toLowerCase t = t -> all_chars (cls_match true ident_chr) t = all_chars is_ident_chr t.
Proof.
  induction t as [|a t IH]; [reflexivity|]. cbn [toLowerCase all_chars].
  intros [= Ha Ht]. now rewrite (ident_lowered _ Ha), (IH Ht).
Qed.

(** The match found by the search is the leftmost: no attempt succeeds at
    a start position before it. *)
Lemma search_from_first (ic : bool) (r : regex) (at_ : nat) (s : string) (m : match_result) :
  search_from ic r at_ s = Some m ->
  exists pre rest len c,
    s = pre ++ rest /\ exec ic r rest = Some (len, c) /\
    m = mk_result (at_ + String.length pre) rest len c /\
    nowhere_before (matches_at ic r) pre rest = true.
Proof.
  revert at_. induction s as [|x s IH]; intros at_ H; cbn [search_from] in H.
  - destruct (exec ic r "") as [[len c]|] eqn:E; [|discriminate].
    injection H as <-. exists "", "", len, c. cbn [String.length].
    now rewrite Nat.add_0_r.
  - destruct (exec ic r (String x s)) as [[len c]|] eqn:E.
    + injection H as <-. exists "", (String x s), len, c. cbn [String.length].
      now rewrite Nat.add_0_r.
    + apply IH in H as (pre & rest & len & c & -> & Hexec & -> & Hpre).
      exists (String x pre), rest, len, c. rewrite append_cons. cbn [String.length].
      split; [reflexivity|]. split; [exact Hexec|]. split; [f_equal; lia|].
      cbn [nowhere_before]. rewrite append_cons. unfold matches_at at 1. now rewrite E.
Qed.

Lemma nowhere_before_suffix (P : string -> bool) (a u b : string) :
  nowhere_before P (a ++ u) b = true -> u <> "" -> P (u ++ b) = false.
Proof.
  induction a as [|y a IH]; intros H Hu.
  - rewrite append_empty_l in H. destruct u as [|x u]; [congruence|].
    cbn [nowhere_before] in H. apply andb_true_iff in H as [H _].
    now apply negb_true_iff in H.
  - rewrite append_cons in H. cbn [nowhere_before] in H.
    apply andb_true_iff in H as [_ H]. now apply IH.
Qed.

(** Two ways to cut the same text: the longer first part is the shorter
    one and a piece of the other's second part. *)
Lemma append_split (a b a' b' : string) :
  a ++ b = a' ++ b' -> (String.length a' < String.length a)%nat ->
  exists u, u <> "" /\ a = a' ++ u /\ b' = u ++ b.
Proof.
  revert a. induction a' as [|x a' IH]; intros a H Hl.
  - rewrite append_empty_l in H. exists a. rewrite append_empty_l.
    split; [destruct a; [simpl in Hl; lia|discriminate]|]. now split.
  - destruct a as [|y a]; [simpl in Hl; lia|]. rewrite !append_cons in H.
    injection H as -> H. cbn [String.length] in Hl.
    destruct (IH a H ltac:(lia)) as (u & Hu & -> & ->).
    exists u. now rewrite append_cons.
Qed.

(** The table-name pattern matches where the keyword is followed by white
    space and an identifier character. *)
Lemma matches_at_from (sp t post : string) :
  sp <> "" -> all_chars is_space sp = true ->
  t <> "" -> all_chars is_ident_chr t = true ->
  matches_at true re_from ("from" ++ sp ++ t ++ post) = true.
Proof.
  intros Hsp1 Hsp2 Ht1 Ht2.
  destruct sp as [|b sp]; [congruence|]. destruct t as [|d t]; [congruence|].
  cbn [all_chars] in *.
  apply andb_true_iff in Hsp2 as [Hb Hsp2]. apply andb_true_iff in Ht2 as [Hd Ht2].
  assert (Hd' : cls_match true ident_chr d = true).
  { unfold cls_match. unfold is_ident_chr in Hd. now rewrite Hd. }
  unfold matches_at, exec, re_from. rewrite !append_cons, !append_empty_l. cbn [run seq lit].
  change (chr_match true "f" "f") with true.
  change (chr_match true "r" "r") with true.
  change (chr_match true "o" "o") with true.
  change (chr_match true "m" "m") with true. cbv iota.
  rewrite ws_is_space, Hb.
  rewrite greedy_span.
  2:{ intros a s' i' Ha. cbn [run]. now rewrite (space_not_ident _ Ha). }
  rewrite span_len_all;
    [|exact (all_chars_impl _ _ _ (fun a H => eq_trans (ws_is_space a) H) Hsp2)|].
  2:{ cbn [first_char]. destruct (cls_match true ws d) eqn:E; [|reflexivity].
      apply space_not_ident in E. congruence. }
  rewrite drop_length. cbn [run]. rewrite Hd'.
  now rewrite (greedy_span_any _ (fun i' => (i', [(1%nat, (_, i'))]))).
Qed.

(** The table name of a query, as the pattern reads it: in the lower-cased
    query, the first keyword that is followed by white space and a
    table-name character, the white space, and the longest run of
    table-name characters. *)
Lemma table_name_first (query t : string) :
  table_name query = Some t ->
  t <> "" /\ all_chars is_ident_chr t = true /\
  exists pre sp post,
    toLowerCase query = pre ++ "from" ++ sp ++ t ++ post /\
    sp <> "" /\ all_chars is_space sp = true /\
    first_char is_ident_chr post = false /\
    forall pre' sp' t' post',
      toLowerCase query = pre' ++ "from" ++ sp' ++ t' ++ post' ->
      sp' <> "" -> all_chars is_space sp' = true ->
      t' <> "" -> all_chars is_ident_chr t' = true ->
      (String.length pre <= String.length pre')%nat.
Proof.
  unfold table_name, search. intros H.
  destruct (search_from true re_from 0 (toLowerCase query)) as [m|] eqn:E; [|discriminate H].
  cbn in H.
  apply search_from_first in E as (pre & rest & len & c & Hq & Hexec & -> & Hfirst).
  apply exec_from_inv in Hexec
    as (kw & sp & t' & post & -> & Hk1 & Hk2 & Hsp1 & Hsp2 & Ht1 & Ht2 & Hpost & -> & ->).
  cbn [group mk_result cap_lookup Nat.eqb] in H. injection H as <-.
  assert (Hslice : slice (4 + String.length sp) (4 + String.length sp + String.length t')
                     (kw ++ sp ++ t' ++ post) = t').
  { unfold slice.
    replace (4 + String.length sp + String.length t' - (4 + String.length sp))%nat
      with (String.length t') by lia.
    replace (kw ++ sp ++ t' ++ post) with ((kw ++ sp) ++ t' ++ post)
      by (now rewrite append_assoc).
    replace (4 + String.length sp)%nat with (String.length (kw ++ sp))
      by (rewrite length_append; lia).
    now rewrite drop_length, take_length. }
  change (slice (S (S (S (S (String.length sp)))))
            (S (S (S (S (String.length sp + String.length t')))))
            (kw ++ sp ++ t' ++ post))
    with (slice (4 + String.length sp) (4 + String.length sp + String.length t')
            (kw ++ sp ++ t' ++ post)).
  rewrite Hslice.
  destruct (toLowerCase_split _ _ _ Hq) as [_ L1].
  destruct (toLowerCase_split (kw ++ sp ++ t' ++ post) kw (sp ++ t' ++ post) L1) as [L2 L3].
  destruct (toLowerCase_split (sp ++ t' ++ post) sp (t' ++ post) L3) as [_ L4].
  destruct (toLowerCase_split (t' ++ post) t' post L4) as [L5 L6].
  assert (Hkw : kw = "from") by (rewrite <- Hk2, L2; reflexivity). subst kw.
  split; [exact Ht1|]. split; [now rewrite <- all_chars_ident_lowered|].
  exists pre, sp, post. split; [exact Hq|]. split; [exact Hsp1|]. split; [|split].
  - rewrite <- Hsp2. clear. induction sp as [|a sp IH]; [reflexivity|].
    cbn [all_chars]. now rewrite ws_is_space, IH.
  - destruct post as [|a post]; [reflexivity|]. cbn [first_char toLowerCase] in *.
    injection L6 as La _. now rewrite <- (ident_lowered _ La).
  - intros pre' sp' t'' post' Hq' S1 S2 T1 T2.
    destruct (Nat.le_gt_cases (String.length pre) (String.length pre')) as [|Hlt];
      [assumption|exfalso].
    rewrite Hq in Hq'. destruct (append_split _ _ _ _ Hq' Hlt) as (u & Hu & -> & Hrest).
    pose proof (nowhere_before_suffix _ _ _ _ Hfirst Hu) as Hno.
    rewrite <- Hrest in Hno. rewrite (matches_at_from sp' t'' post' S1 S2 T1 T2) in Hno.
    discriminate Hno.
Qed.

Lemma table_name_inv (query t : string) :
  table_name query = Some t ->
  t <> "" /\ all_chars is_ident_chr t = true /\
  exists pre sp post,
    toLowerCase query = pre ++ "from" ++ sp ++ t ++ post /\
    sp <> "" /\ all_chars is_space sp = true /\
    first_char is_ident_chr post = false.
Proof.
  intros H.
  destruct (table_name_first _ _ H) as (H1 & H2 & pre & sp & post & H3 & H4 & H5 & H6 & _).
  split; [exact H1|]. split; [exact H2|]. exists pre, sp, post. auto.
Qed.

(** [executeConvertedQuery] asks for the rows of one table at most, and
    under a lower-case name: the longest run of letters, digits and
    underscores behind the first [from] and white space of the lower-cased
    query that has such a run behind it. No [from] with white space and
    such a run behind it begins earlier in the query. *)
Theorem fetched_table_is_lower_case (h : host) (supabase : client) (query t : string) :
  In t (fst (executeConvertedQuery h supabase query)) ->
  fst (executeConvertedQuery h supabase query) = [t] /\
  t <> "" /\ all_chars is_ident_chr t = true /\
  exists pre sp post,
    toLowerCase query = pre ++ "from" ++ sp ++ t ++ post /\
    sp <> "" /\ all_chars is_space sp = true /\
    first_char is_ident_chr post = false /\
    forall pre' sp' t' post',
      toLowerCase query = pre' ++ "from" ++ sp' ++ t' ++ post' ->
      sp' <> "" -> all_chars is_space sp' = true ->
      t' <> "" -> all_chars is_ident_chr t' = true ->
      (String.length pre <= String.length pre')%nat.
Proof.
  unfold executeConvertedQuery. destruct (canProcess query); [|intros []].
  destruct (table_name query) as [[|a t']|] eqn:E; cbn [fst In]; [intros []| |intros []].
  intros [<-|[]]. split; [reflexivity|]. exact (table_name_first _ _ E).
Qed.

Lemma fetched_table_is_lower_case_witness :
  In "orders" (fst (executeConvertedQuery utc (one_table "orders" [])
    "SELECT DATE_PART('hour', created_at) FROM Orders o JOIN (SELECT id FROM users) u GROUP BY 1")) /\
  fst (executeConvertedQuery utc (one_table "orders" [])
    "SELECT DATE_PART('hour', created_at) FROM Orders o JOIN (SELECT id FROM users) u GROUP BY 1")
  = ["orders"].
Proof.
  split; [vm_compute; tauto|].
  apply (fetched_table_is_lower_case utc (one_table "orders" [])
    "SELECT DATE_PART('hour', created_at) FROM Orders o JOIN (SELECT id FROM users) u GROUP BY 1"
    "orders").
  vm_compute. tauto.
Defined.

(** What [executeConvertedQuery] throws is an [Error] with one of three
    messages: the query is of no supported kind, it names no table, or
    the fetch or the aggregation failed, and the message quotes the
    cause. *)
Theorem executeConvertedQuery_throws (h : host) (supabase : client) (query : string)
    (e : exn) :
  snd (executeConvertedQuery h supabase query) = Throw e ->
  e = unsupported_error \/
  e = table_name_error \/
  exists cause, e = Error ("Converted query execution failed: " ++ exn_to_string cause).
Proof.
  unfold executeConvertedQuery. destruct (canProcess query).
  - destruct (table_name query) as [[|a t]|]; cbn [snd].
    + intros [= <-]. right. now left.
    + unfold fetch_and_process.
      match goal with |- match ?x with _ => _ end = _ -> _ => destruct x as [r|cause] end;
        [discriminate|].
      intros [= <-]. right. right. now exists cause.
    + intros [= <-]. right. now left.
  - cbn [snd]. intros [= <-]. now left.
Qed.

Lemma executeConvertedQuery_throws_witness :
  snd (executeConvertedQuery utc (one_table "users" [])
         "SELECT DATE_PART('hour', created_at) FROM orders GROUP BY 1")
  = Throw (Error ("Converted query execution failed: "
                  ++ exn_to_string (Error "Query execution failed: relation does not exist"))) /\
  (Error ("Converted query execution failed: "
          ++ exn_to_string (Error "Query execution failed: relation does not exist"))
     = unsupported_error \/
   Error ("Converted query execution failed: "
          ++ exn_to_string (Error "Query execution failed: relation does not exist"))
     = table_name_error \/
   exists cause,
     Error ("Converted query execution failed: "
            ++ exn_to_string (Error "Query execution failed: relation does not exist"))
     = Error ("Converted query execution failed: " ++ exn_to_string cause)).
Proof.
  split; [vm_compute; reflexivity|].
  apply (executeConvertedQuery_throws utc (one_table "users" [])
           "SELECT DATE_PART('hour', created_at) FROM orders GROUP BY 1").
  vm_compute. reflexivity.
Defined.

Lemma digit_is_digit (a : ascii) : cls_match true digit a = is_digit a.
Proof. each_ascii a; reflexivity. Qed.

Lemma chr_match_limit (p a : ascii) :
  In p ["L"; "I"; "M"; "T"]%char ->
  (chr_match true p a = true <-> lower_char a = lower_char p).
Proof.
  intros Hp. simpl in Hp.
  destruct Hp as [<-|[<-|[<-|[<-|[]]]]];
    each_ascii a; vm_compute; split; intros H; try discriminate H; reflexivity.
Qed.

Lemma matches_at_limit (s : string) :
  matches_at true re_limit s = true -> startsWith (toLowerCase s) "limit" = true.
Proof.
  unfold matches_at, exec, re_limit.
  destruct s as [|a1 [|a2 [|a3 [|a4 [|a5 s]]]]];
    cbn [run seq lit toLowerCase];
    try discriminate;
    repeat match goal with
    | |- context [chr_match true ?p ?a] =>
        let E := fresh "E" in
        destruct (chr_match true p a) eqn:E; [|discriminate];
        apply chr_match_limit in E; [|simpl; tauto]
    end; try discriminate.
  intros _.
  repeat match goal with E : lower_char _ = _ |- _ => rewrite E; clear E end.
  reflexivity.
Qed.

Lemma limit_nowhere (s : string) :
  includes (toLowerCase s) "limit" = false -> nowhere (matches_at true re_limit) s = true.
Proof.
  intros H. apply (nowhere_impl (fun t => startsWith (toLowerCase t) "limit")).
  { apply matches_at_limit. }
  rewrite <- (nowhere_toLowerCase (fun t => startsWith t "limit")).
    now apply includes_false_nowhere.
Qed.

Lemma limit_nowhere_before (a b : string) :
  includes (toLowerCase a) "limit" = false ->
  completes (toLowerCase b) "limit" = false ->
  nowhere_before (matches_at true re_limit) a b = true.
Proof.
  intros Ha Hb.
  apply (nowhere_before_impl (fun t => startsWith (toLowerCase t) "limit")).
  { apply matches_at_limit. }
  apply nowhere_before_intro.
  - rewrite <- (nowhere_toLowerCase (fun t => startsWith t "limit")).
    now apply includes_false_nowhere.
  - intros t Ht H. rewrite toLowerCase_append.
    apply startsWith_straddle; [assumption| |assumption].
    destruct t; [congruence|discriminate].
Qed.

(** An attempt of the pattern at a clause: the keyword in any letter case,
    white space, digits. *)
Lemma exec_limit_clause (kw sp ds post : string) :
  toLowerCase kw = "limit" ->
  sp <> "" -> all_chars is_space sp = true ->
  ds <> "" -> all_chars is_digit ds = true ->
  first_char is_digit post = false ->
  exec true re_limit (kw ++ sp ++ ds ++ post) =
  Some ((5 + String.length sp + String.length ds)%nat,
        [(1, (5 + String.length sp, 5 + String.length sp + String.length ds))]%nat).
Proof.
  intros Hkw Hsp1 Hsp2 Hd1 Hd2 Hpost.
  destruct kw as [|k1 [|k2 [|k3 [|k4 [|k5 [|? ?]]]]]]; try discriminate Hkw.
  cbn [toLowerCase] in Hkw. injection Hkw as K1 K2 K3 K4 K5.
  destruct sp as [|b sp]; [congruence|]. destruct ds as [|d ds]; [congruence|].
  cbn [all_chars] in *.
  apply andb_true_iff in Hsp2 as [Hb Hsp2]. apply andb_true_iff in Hd2 as [Hd Hd2].
  unfold exec, re_limit. rewrite !append_cons, !append_empty_l. cbn [run seq lit].
  rewrite (proj2 (chr_match_limit "L" k1 ltac:(simpl; tauto)) K1).
  rewrite (proj2 (chr_match_limit "I" k2 ltac:(simpl; tauto)) K2).
  rewrite (proj2 (chr_match_limit "M" k3 ltac:(simpl; tauto)) K3).
  rewrite (proj2 (chr_match_limit "I" k4 ltac:(simpl; tauto)) K4).
  rewrite (proj2 (chr_match_limit "T" k5 ltac:(simpl; tauto)) K5).
  rewrite ws_is_space, Hb.
  rewrite greedy_span.
  2:{ intros a s' i' Ha. rewrite ws_is_space in Ha. rewrite digit_is_digit.
      each_ascii a; vm_compute in Ha; try discriminate Ha; reflexivity. }
  rewrite span_len_all;
    [|exact (all_chars_impl _ _ _ (fun a H => eq_trans (ws_is_space a) H) Hsp2)|].
  2:{ cbn [first_char]. rewrite ws_is_space.
      each_ascii d; vm_compute in Hd; try discriminate Hd; reflexivity. }
  rewrite drop_length. rewrite digit_is_digit, Hd.
  rewrite (greedy_span_any _ (fun i' => (i', [(1%nat, (_, i'))]))).
  rewrite span_len_all;
    [|exact (all_chars_impl _ _ _ (fun a H => eq_trans (digit_is_digit a) H) Hd2)|].
  2:{ destruct post as [|c post]; [reflexivity|]. cbn [first_char] in *.
      now rewrite digit_is_digit. }
  cbn [String.length].
  apply f_equal. apply (f_equal2 pair); [lia|].
  apply (f_equal2 cons); [|reflexivity]. apply f_equal. apply (f_equal2 pair); lia.
Qed.

(** The limit that the date-trunc path and the generic path read from a
    query with one such clause. *)
Lemma search_limit_clause (pre kw sp ds post : string) :
  toLowerCase kw = "limit" ->
  sp <> "" -> all_chars is_space sp = true ->
  ds <> "" -> all_chars is_digit ds = true ->
  first_char is_digit post = false ->
  includes (toLowerCase pre) "limit" = false ->
  exists m, search true re_limit (pre ++ kw ++ sp ++ ds ++ post) = Some m /\
            group_text m 1 = ds.
Proof.
  intros Hkw Hsp1 Hsp2 Hd1 Hd2 Hpost Hpre.
  pose proof (exec_limit_clause kw sp ds post Hkw Hsp1 Hsp2 Hd1 Hd2 Hpost) as E.
  eexists. split.
  - unfold search. apply search_from_at; [|exact E].
    apply limit_nowhere_before; [exact Hpre|].
    rewrite toLowerCase_append, Hkw. reflexivity.
  - unfold group_text, mk_result, group, slice. cbn [cap_lookup Nat.eqb].
    replace (5 + String.length sp + String.length ds - (5 + String.length sp))%nat
      with (String.length ds) by lia.
    replace (kw ++ sp ++ ds ++ post) with ((kw ++ sp) ++ ds ++ post)
      by (now rewrite append_assoc).
    replace (5 + String.length sp)%nat with (String.length (kw ++ sp)).
    + now rewrite drop_length, take_length.
    + rewrite length_append. apply (f_equal String.length) in Hkw.
      rewrite toLowerCase_length in Hkw. rewrite Hkw. reflexivity.
Qed.

Lemma slice0_firstn {A : Type} (n : N) (l : list A) :
  Val.slice0 n l = firstn (N.to_nat n) l.
Proof.
  unfold Val.slice0. destruct (N.le_ge_cases n (N.of_nat (length l))) as [H|H].
  - now rewrite N.min_l.
  - rewrite N.min_r by exact H. rewrite Nat2N.id.
    rewrite firstn_all. symmetry. apply firstn_all2. lia.
Qed.

(** The generic path returns the rows it is given, unchanged and in their
    order, up to the number of a [LIMIT] clause. *)
Theorem generic_limit_honoured (rows : list row) (pre kw sp ds post : string) :
  toLowerCase kw = "limit" ->
  sp <> "" -> all_chars is_space sp = true ->
  ds <> "" -> all_chars is_digit ds = true ->
  first_char is_digit post = false ->
  includes (toLowerCase pre) "limit" = false ->
  processGenericGroupBy (Some rows) (pre ++ kw ++ sp ++ ds ++ post)
  = Normal (map (fmap VPrim) (firstn (N.to_nat (Val.parseInt ds)) rows)).
Proof.
  intros Hkw Hsp1 Hsp2 Hd1 Hd2 Hpost Hpre. unfold processGenericGroupBy.
  destruct (search_limit_clause pre kw sp ds post Hkw Hsp1 Hsp2 Hd1 Hd2 Hpost Hpre)
    as (m & -> & ->).
  now rewrite slice0_firstn, firstn_map.
Qed.

Lemma generic_limit_honoured_witness :
  (toLowerCase "limit" = "limit" /\ " " <> "" /\ all_chars is_space " " = true /\
   "2" <> "" /\ all_chars is_digit "2" = true /\ first_char is_digit "" = false /\
   includes (toLowerCase "SELECT country FROM users GROUP BY country ") "limit" = false) /\
  processGenericGroupBy
    (Some [{[ "country" := PString "FR" ]}; {[ "country" := PString "DE" ]};
           {[ "country" := PString "IT" ]}])
    ("SELECT country FROM users GROUP BY country " ++ "limit" ++ " " ++ "2" ++ "")
  = Normal (map (fmap VPrim)
      (firstn (N.to_nat (Val.parseInt "2"))
         [{[ "country" := PString "FR" ]}; {[ "country" := PString "DE" ]};
          {[ "country" := PString "IT" ]}])).
Proof.
  split; [repeat split; try discriminate; vm_compute; reflexivity|].
  apply (generic_limit_honoured _ "SELECT country FROM users GROUP BY country "
           "limit" " " "2" ""); try (vm_compute; reflexivity); discriminate.
Defined.

(** Without the word [limit] in the query, the generic path returns the
    first hundred rows. *)
Theorem generic_default_limit (rows : list row) (query : string) :
  includes (toLowerCase query) "limit" = false ->
  processGenericGroupBy (Some rows) query = Normal (map (fmap VPrim) (firstn 100 rows)).
Proof.
  intros H. unfold processGenericGroupBy, search.
  rewrite (search_none true re_limit 0 query (limit_nowhere _ H)).
  now rewrite slice0_firstn, firstn_map.
Qed.

Lemma generic_default_limit_witness :
  includes (toLowerCase "SELECT country FROM users GROUP BY country") "limit" = false /\
  processGenericGroupBy (Some [{[ "country" := PString "FR" ]}])
    "SELECT country FROM users GROUP BY country"
  = Normal (map (fmap VPrim) (firstn 100 [{[ "country" := PString "FR" ]}])).
Proof.
  split; [vm_compute; reflexivity|].
  apply generic_default_limit. vm_compute. reflexivity.
Defined.
(** The date-trunc path returns no more rows than the number of a [LIMIT]
    clause. *)
Theorem date_trunc_limit_honoured (h : host) (data : option (list row))
    (pre kw sp ds post : string) (result : list obj) :
  toLowerCase kw = "limit" ->
  sp <> "" -> all_chars is_space sp = true ->
  ds <> "" -> all_chars is_digit ds = true ->
  first_char is_digit post = false ->
  includes (toLowerCase pre) "limit" = false ->
  processDateTruncQuery h data (pre ++ kw ++ sp ++ ds ++ post) = Normal result ->
  (length result <= N.to_nat (Val.parseInt ds))%nat.
Proof.
  intros Hkw Hsp1 Hsp2 Hd1 Hd2 Hpost Hpre.
  destruct (search_limit_clause pre kw sp ds post Hkw Hsp1 Hsp2 Hd1 Hd2 Hpost Hpre)
    as (m & Hm & Hg).
  unfold processDateTruncQuery.
  destruct data as [[|r rows]|]; try (intros [= <-]; simpl; lia).
  destruct (search true re_date_trunc _) as [dm|]; [|intros [= <-]; simpl; lia].
  cbv zeta.
  destruct (date_trunc_buckets h _ _ _ _) as [results|e]; cbn [bind]; [|discriminate].
  intros [= <-]. unfold apply_limit. rewrite Hm, Hg, slice0_firstn.
  apply firstn_le_length.
Qed.

Lemma date_trunc_limit_honoured_witness :
  (toLowerCase "LIMIT" = "limit" /\ " " <> "" /\ all_chars is_space " " = true /\
   "1" <> "" /\ all_chars is_digit "1" = true /\ first_char is_digit "" = false /\
   includes (toLowerCase "SELECT DATE_TRUNC('day', d) AS day FROM t GROUP BY day ")
     "limit" = false) /\
  processDateTruncQuery utc
    (Some [{[ "d" := PString "2024-03-14" ]}; {[ "d" := PString "2024-03-15" ]}])
    ("SELECT DATE_TRUNC('day', d) AS day FROM t GROUP BY day " ++ "LIMIT" ++ " " ++ "1" ++ "")
  = Normal [{[ "day" := VPrim (PString "2024-03-14") ]}] /\
  (length [({[ "day" := VPrim (PString "2024-03-14") ]} : obj)]
     <= N.to_nat (Val.parseInt "1"))%nat.
Proof.
  split; [repeat split; try discriminate; vm_compute; reflexivity|].
  split; [vm_compute; reflexivity|].
  apply (date_trunc_limit_honoured utc
           (Some [{[ "d" := PString "2024-03-14" ]}; {[ "d" := PString "2024-03-15" ]}])
           "SELECT DATE_TRUNC('day', d) AS day FROM t GROUP BY day " "LIMIT" " " "1" "");
    try (vm_compute; reflexivity); discriminate.
Defined.

Lemma new_date_part_row_fields (originalQuery : string) (keys : list prim) :
  dom (new_date_part_row originalQuery keys) = date_part_fields originalQuery.
Proof.
  unfold new_date_part_row, date_part_fields, Val.set. cbv zeta.
  change (String.eqb "signup_hour" "__proto__") with false.
  change (String.eqb "signup_day_of_week" "__proto__") with false.
  change (String.eqb "user_count" "__proto__") with false. cbv iota.
  destruct (includes originalQuery "signup_hour"),
           (includes originalQuery "signup_day_of_week");
    rewrite ?dom_insert_L, dom_empty_L; set_solver.
Qed.

Lemma increment_user_count_fields (h : host) (o : obj) :
  "user_count" ∈ dom o -> dom (increment h "user_count" o) = dom o.
Proof.
  intros H. unfold increment, Val.set.
  change (String.eqb "user_count" "__proto__") with false. cbv iota.
  rewrite dom_insert_L. set_solver.
Qed.

Lemma date_part_step_fields (h : host) (originalQuery : string) (matches : list string)
    (results results' : list (string * obj)) (r : row) :
  Forall (fun e => dom (snd e) = date_part_fields originalQuery) results ->
  date_part_step h originalQuery matches results r = Normal results' ->
  Forall (fun e => dom (snd e) = date_part_fields originalQuery) results'.
Proof.
  intros Hall. unfold date_part_step.
  destruct (map_throwing (date_part_key h r) matches) as [keys|e]; cbn [bind]; [|discriminate].
  set (results2 := if SMap.has (key_string keys) results then results
                   else SMap.add (key_string keys) (new_date_part_row originalQuery keys) results).
  assert (Hall2 : Forall (fun e => dom (snd e) = date_part_fields originalQuery) results2).
  { unfold results2. destruct (SMap.has (key_string keys) results); [exact Hall|].
    apply (smap_forall_add (fun o : obj => dom o = date_part_fields originalQuery));
      [apply new_date_part_row_fields|exact Hall]. }
  destruct (SMap.get (key_string keys) results2) as [resultRow|] eqn:Eg; [|discriminate].
  intros [= <-].
  apply (smap_forall_put (fun o : obj => dom o = date_part_fields originalQuery)); [|exact Hall2].
  apply smap_get_in in Eg. rewrite List.Forall_forall in Hall2.
  specialize (Hall2 _ Eg). cbn [snd] in Hall2.
  rewrite increment_user_count_fields; [exact Hall2|].
  rewrite Hall2. unfold date_part_fields. set_solver.
Qed.

(** A result row of the date-part path has the field [user_count], the
    field [signup_hour] when the query contains that name, the field
    [signup_day_of_week] when the query contains that name, and no other
    field: no other alias of the query names a field. *)
Theorem date_part_rows_fields (h : host) (data : option (list row))
    (originalQuery : string) (result : list obj) :
  processGroupByDatePart h data originalQuery = Normal result ->
  Forall (fun o => dom o = date_part_fields originalQuery) result.
Proof.
  unfold processGroupByDatePart.
  destruct (match_all true re_date_part originalQuery) as [matches|];
    [|intros [= <-]; constructor].
  destruct data as [[|r rows]|]; try (intros [= <-]; constructor).
  destruct (date_part_buckets h originalQuery matches (r :: rows)) as [results|e] eqn:E;
    cbn [bind]; [|discriminate].
  intros [= <-].
  assert (Hall : Forall (fun e => dom (snd e) = date_part_fields originalQuery) results).
  { apply (for_of_preserves (date_part_step h originalQuery matches)
             (Forall (fun e => dom (snd e) = date_part_fields originalQuery)))
      with (l := r :: rows) (acc := []); [|constructor|exact E].
    intros acc x acc' Hacc Hstep. exact (date_part_step_fields _ _ _ _ _ _ Hacc Hstep). }
  apply List.Forall_forall. intros o Ho. apply in_firstn in Ho.
  apply (Permutation_in _ (sort_perm _ _)) in Ho.
  unfold SMap.values in Ho. apply in_map_iff in Ho as (e & <- & He).
  rewrite List.Forall_forall in Hall. exact (Hall _ He).
Qed.

Lemma date_part_rows_fields_witness :
  processGroupByDatePart utc (Some [{[ "created_at" := PString "2024-03-10T05:00:00Z" ]}])
    "SELECT DATE_PART('hour', created_at) AS h, COUNT(id) AS n FROM users GROUP BY 1"
  = Normal [{[ "user_count" := VPrim (PNumber (Num 1)) ]}] /\
  Forall (fun o => dom o = date_part_fields
            "SELECT DATE_PART('hour', created_at) AS h, COUNT(id) AS n FROM users GROUP BY 1")
    [({[ "user_count" := VPrim (PNumber (Num 1)) ]} : obj)].
Proof.
  split; [vm_compute; reflexivity|].
  apply (date_part_rows_fields utc
           (Some [{[ "created_at" := PString "2024-03-10T05:00:00Z" ]}])).
  vm_compute. reflexivity.
Defined.

Lemma nodup_snoc {A : Type} (l : list A) (x : A) :
  List.NoDup l -> ~ In x l -> List.NoDup (l ++ [x])%list.
Proof.
  induction l as [|y l IH]; intros Hnd Hx; simpl.
  - constructor; [intros []|constructor].
  - apply List.NoDup_cons_iff in Hnd as [Hy Hnd]. constructor.
    + rewrite in_app_iff. intros [H|[->|[]]]; [exact (Hy H)|]. apply Hx. now left.
    + apply IH; [exact Hnd|]. intros H. apply Hx. now right.
Qed.

Section SMapKeys.
Context {A : Type}.
Implicit Types (m : list (string * A)) (k : string) (a : A).

Lemma smap_has_in m k : SMap.has k m = true <-> In k (map fst m).
Proof.
  induction m as [|[k' a'] m IH]; simpl; [split; [discriminate|tauto]|].
  rewrite orb_true_iff, IH, String.eqb_eq. reflexivity.
Qed.

Lemma smap_keys_put m k a : map fst (SMap.put k a m) = map fst m.
Proof.
  induction m as [|[k' a'] m IH]; [reflexivity|]. simpl.
  destruct (String.eqb k' k); simpl; [reflexivity|now rewrite IH].
Qed.

Lemma smap_keys_add m k a : map fst (SMap.add k a m) = (map fst m ++ [k])%list.
Proof. unfold SMap.add. now rewrite map_app. Qed.

Lemma smap_put_add_new m k a a' :
  SMap.has k m = false -> SMap.put k a' (SMap.add k a m) = SMap.add k a' m.
Proof.
  unfold SMap.add. induction m as [|[k' b] m IH]; simpl.
  - now rewrite String.eqb_refl.
  - intros H. apply orb_false_iff in H as [H1 H2]. rewrite H1. now rewrite IH.
Qed.

Lemma smap_in_get m k a : List.NoDup (map fst m) -> In (k, a) m -> SMap.get k m = Some a.
Proof.
  induction m as [|[k' b] m IH]; simpl; [tauto|].
  intros Hnd [E|Hin].
  - injection E as -> ->. now rewrite String.eqb_refl.
  - apply List.NoDup_cons_iff in Hnd as [Hk Hnd].
    destruct (String.eqb_spec k' k) as [<-|_]; [|now apply IH].
    exfalso. apply Hk. apply in_map_iff. now exists (k', a).
Qed.

Lemma smap_in_put m k a k' a' :
  List.NoDup (map fst m) -> In (k', a') (SMap.put k a m) ->
  (k' = k /\ a' = a) \/ (k' <> k /\ In (k', a') m).
Proof.
  induction m as [|[k0 b] m IH]; simpl; [tauto|].
  intros Hnd. apply List.NoDup_cons_iff in Hnd as [Hk Hnd].
  destruct (String.eqb_spec k0 k) as [->|Hne].
  - intros [E|Hin]; [injection E as <- <-; now left|].
    right. split; [|now right]. intros ->. apply Hk. apply in_map_iff. now exists (k, a').
  - intros [E|Hin]; [injection E as <- <-; right; split; [exact Hne|now left]|].
    destruct (IH Hnd Hin) as [?|[? ?]]; [now left|right; split; [assumption|now right]].
Qed.

End SMapKeys.

Lemma rows_with_key_cons (h : host) (matches : list string) (k : string) (r : row)
    (rows : list row) :
  rows_with_key h matches k (r :: rows) =
  (if has_key h matches k r then 1 else 0) + rows_with_key h matches k rows.
Proof.
  unfold rows_with_key. cbn [List.filter]. destruct (has_key h matches k r); [|lia].
  cbn [length]. lia.
Qed.

Lemma rows_with_key_nonneg (h : host) (matches : list string) (k : string) (rows : list row) :
  0 <= rows_with_key h matches k rows.
Proof. unfold rows_with_key. lia. Qed.

Section DatePartBuckets.
Variables (h : host) (originalQuery : string) (matches : list string).

(** What the loop keeps: the keys of the buckets are distinct, a bucket
    counts the rows of its key, and a key without a bucket has no row. *)
Definition buckets_count (results : list (string * obj)) (cnt : string -> Z) : Prop :=
  List.NoDup (map fst results) /\
  (forall k, SMap.has k results = false -> cnt k = 0) /\
  (forall k o, In (k, o) results ->
     o !! "user_count" = Some (VPrim (PNumber (Num (cnt k)))) /\ 0 < cnt k).

Lemma date_part_step_buckets (results results' : list (string * obj)) (cnt : string -> Z)
    (r : row) :
  buckets_count results cnt ->
  date_part_step h originalQuery matches results r = Normal results' ->
  buckets_count results' (fun k => cnt k + (if has_key h matches k r then 1 else 0)).
Proof.
  intros (Hnd & Hzero & Hin). unfold date_part_step, has_key, row_key.
  destruct (map_throwing (date_part_key h r) matches) as [keys|e]; cbn [bind]; [|discriminate].
  set (ks := key_string keys).
  destruct (SMap.has ks results) eqn:Ehas.
  - destruct (SMap.get ks results) as [o|] eqn:Eg; [|discriminate]. intros [= <-].
    pose proof (smap_get_in _ _ _ Eg) as Ho. destruct (Hin _ _ Ho) as [Hc Hpos].
    split; [now rewrite smap_keys_put|]. split.
    + intros k Hk. rewrite smap_has_put in Hk.
      destruct (String.eqb_spec ks k) as [<-|_]; [congruence|]. rewrite (Hzero _ Hk). lia.
    + intros k o' Hk. apply smap_in_put in Hk as [[-> ->]|[Hne Hk]]; [| |exact Hnd].
      * rewrite String.eqb_refl. split; [|lia]. now apply increment_user_count.
      * destruct (String.eqb_spec ks k) as [<-|_]; [congruence|].
        rewrite Z.add_0_r. now apply Hin.
  - rewrite smap_get_add_new by exact Ehas. intros [= <-].
    rewrite smap_put_add_new by exact Ehas.
    assert (Hks : ~ In ks (map fst results)).
    { rewrite <- smap_has_in. congruence. }
    split.
    { rewrite smap_keys_add. now apply nodup_snoc. }
    split.
    + intros k Hk. rewrite smap_has_add in Hk. apply orb_false_iff in Hk as [Hk1 Hk2].
      rewrite Hk2, (Hzero _ Hk1). lia.
    + intros k o' Hk. unfold SMap.add in Hk. apply in_app_iff in Hk as [Hk|[E|[]]].
      * destruct (String.eqb_spec ks k) as [<-|_].
        { exfalso. apply Hks. apply in_map_iff. now exists (ks, o'). }
        rewrite Z.add_0_r. now apply Hin.
      * injection E as <- <-. rewrite String.eqb_refl, (Hzero _ Ehas). split; [|lia].
        apply increment_user_count. apply new_date_part_row_count.
Qed.

Lemma date_part_loop_buckets (rows : list row) :
  forall (results results' : list (string * obj)) (cnt : string -> Z),
  buckets_count results cnt ->
  for_of (date_part_step h originalQuery matches) results rows = Normal results' ->
  buckets_count results' (fun k => cnt k + rows_with_key h matches k rows).
Proof.
  induction rows as [|r rows IH]; intros results results' cnt Hinv.
  - cbn [for_of]. intros [= <-]. destruct Hinv as (H1 & H2 & H3).
    unfold rows_with_key. cbn. split; [exact H1|]. split.
    + intros k Hk. rewrite (H2 _ Hk). reflexivity.
    + intros k o Hk. rewrite Z.add_0_r. now apply H3.
  - cbn [for_of].
    destruct (date_part_step h originalQuery matches results r) as [results1|e] eqn:E;
      cbn [bind]; [|discriminate].
    intros Hloop. pose proof (date_part_step_buckets _ _ _ _ Hinv E) as Hinv1.
    pose proof (IH _ _ _ Hinv1 Hloop) as (H1 & H2 & H3).
    split; [exact H1|]. split.
    + intros k Hk. rewrite rows_with_key_cons. specialize (H2 _ Hk). lia.
    + intros k o Hk. rewrite rows_with_key_cons. specialize (H3 _ _ Hk).
      replace (cnt k + ((if has_key h matches k r then 1 else 0)
                        + rows_with_key h matches k rows))
        with (cnt k + (if has_key h matches k r then 1 else 0)
              + rows_with_key h matches k rows) by lia.
      exact H3.
Qed.

End DatePartBuckets.

(** The grouping of the date-part path: the keys of the buckets are
    distinct, every row is in the bucket of its key, and the [user_count]
    of a bucket is the number of rows with the key of the bucket. The
    result is the first hundred buckets by descending count. *)
Theorem date_part_bucket_counts (h : host) (originalQuery : string)
    (matches : list string) (rows : list row) :
  match_all true re_date_part originalQuery = Some matches ->
  rows <> [] ->
  exists buckets : list (string * obj),
    date_part_buckets h originalQuery matches rows = Normal buckets /\
    processGroupByDatePart h (Some rows) originalQuery
      = Normal (firstn 100 (Val.sort (count_before h) (SMap.values buckets))) /\
    List.NoDup (map fst buckets) /\
    (forall k o, In (k, o) buckets ->
       o !! "user_count"
         = Some (VPrim (PNumber (Num (rows_with_key h matches k rows)))) /\
       0 < rows_with_key h matches k rows) /\
    (forall r, In r rows ->
       exists k o, row_key h matches r = Normal k /\ In (k, o) buckets).
Proof.
  intros Hm Hrows.
  destruct (date_part_loop_counts h originalQuery matches Hm rows [] ltac:(constructor))
    as (buckets & Hloop & _ & _).
  exists buckets. split; [exact Hloop|].
  assert (Hinv : buckets_count [] (fun _ => 0)).
  { split; [constructor|]. split; [reflexivity|intros ? ? []]. }
  pose proof (date_part_loop_buckets h originalQuery matches rows [] buckets _ Hinv Hloop)
    as (H1 & H2 & H3).
  split.
  { unfold processGroupByDatePart. rewrite Hm. destruct rows as [|r rows]; [congruence|].
    change (for_of (date_part_step h originalQuery matches) [] (r :: rows))
      with (date_part_buckets h originalQuery matches (r :: rows)) in Hloop.
    now rewrite Hloop. }
  split; [exact H1|]. split; [exact H3|].
  intros r Hr.
  destruct (row_key h matches r) as [k|e] eqn:Ek.
  - assert (Hpos : 0 < rows_with_key h matches k rows).
    { unfold rows_with_key.
      assert (In r (List.filter (has_key h matches k) rows)).
      { apply filter_In. split; [exact Hr|]. unfold has_key. rewrite Ek.
        apply String.eqb_refl. }
      destruct (List.filter (has_key h matches k) rows); [contradiction|].
      cbn [length]. lia. }
    destruct (SMap.has k buckets) eqn:Ehas.
    + apply smap_has_get in Ehas as [o Ho]. exists k, o. split; [reflexivity|].
      now apply smap_get_in.
    + specialize (H2 _ Ehas). cbn in H2. lia.
  - exfalso. unfold row_key in Ek.
    destruct (map_throwing_normal (date_part_key h r) matches) as [ys Hys].
    { intros x Hx. exact (date_part_key_normal h originalQuery matches r x Hm Hx). }
    rewrite Hys in Ek. discriminate Ek.
Qed.
Lemma date_part_bucket_counts_witness :
  match_all true re_date_part
    "SELECT DATE_PART('hour', created_at) AS signup_hour, COUNT(id) FROM users GROUP BY 1"
    = Some ["DATE_PART('hour', created_at)"] /\
  [ ({[ "created_at" := PString "2024-03-10T05:00:00Z" ]} : row);
    {[ "created_at" := PString "2024-03-11T05:30:00Z" ]};
    {[ "created_at" := PString "2024-03-11T07:30:00Z" ]} ] <> [] /\
  exists buckets : list (string * obj),
    date_part_buckets utc
      "SELECT DATE_PART('hour', created_at) AS signup_hour, COUNT(id) FROM users GROUP BY 1"
      ["DATE_PART('hour', created_at)"]
      [ {[ "created_at" := PString "2024-03-10T05:00:00Z" ]};
        {[ "created_at" := PString "2024-03-11T05:30:00Z" ]};
        {[ "created_at" := PString "2024-03-11T07:30:00Z" ]} ] = Normal buckets /\
    map fst buckets = ["5"; "7"] /\
    forall k o, In (k, o) buckets ->
      o !! "user_count"
        = Some (VPrim (PNumber (Num (rows_with_key utc ["DATE_PART('hour', created_at)"] k
            [ {[ "created_at" := PString "2024-03-10T05:00:00Z" ]};
              {[ "created_at" := PString "2024-03-11T05:30:00Z" ]};
              {[ "created_at" := PString "2024-03-11T07:30:00Z" ]} ])))).
Proof.
  split; [vm_compute; reflexivity|]. split; [discriminate|].
  destruct (date_part_bucket_counts utc
    "SELECT DATE_PART('hour', created_at) AS signup_hour, COUNT(id) FROM users GROUP BY 1"
    ["DATE_PART('hour', created_at)"]
    [ {[ "created_at" := PString "2024-03-10T05:00:00Z" ]};
      {[ "created_at" := PString "2024-03-11T05:30:00Z" ]};
      {[ "created_at" := PString "2024-03-11T07:30:00Z" ]} ])
    as (buckets & Hb & _ & _ & Hc & _); [vm_compute; reflexivity|discriminate|].
  exists buckets. split; [exact Hb|]. split.
  - vm_compute in Hb. injection Hb as <-. reflexivity.
  - intros k o Hk. exact (proj1 (Hc k o Hk)).
Defined.

Lemma update_counts_other (h : host) (r : row) (o o' : obj) (k : string) :
  ~ In k ["user_count"; "_countries"; "country_count"; "_segments"; "segment_count"] ->
  update_counts h r o = Normal o' -> o' !! k = o !! k.
Proof.
  intros Hk. unfold update_counts.
  assert (K1 : k <> "user_count") by (intros ->; apply Hk; simpl; tauto).
  assert (K2 : k <> "_countries") by (intros ->; apply Hk; simpl; tauto).
  assert (K3 : k <> "country_count") by (intros ->; apply Hk; simpl; tauto).
  assert (K4 : k <> "_segments") by (intros ->; apply Hk; simpl; tauto).
  assert (K5 : k <> "segment_count") by (intros ->; apply Hk; simpl; tauto).
  destruct (hasOwnProperty o "user_count") as [own1|]; [|discriminate]. cbn [bind].
  set (o1 := if own1 then increment h "user_count" o else o).
  assert (H1 : o1 !! k = o !! k).
  { unfold o1. destruct own1; [|reflexivity]. unfold increment, Val.set.
    change (String.eqb "user_count" "__proto__") with false. cbv iota.
    now rewrite lookup_insert_ne by congruence. }
  clearbody o1.
  destruct (hasOwnProperty o1 "country_count") as [own2|]; [|discriminate]. cbn [bind].
  destruct (own2 && Val.truthy (Val.get r "country")).
  - destruct (add_distinct "_countries" "country_count" _ o1) as [o2|] eqn:E2; [|discriminate].
    cbn [bind]. pose proof (add_distinct_other _ _ k _ _ _ E2 K2 K3) as H2.
    destruct (hasOwnProperty o2 "segment_count") as [own3|]; [|discriminate]. cbn [bind].
    destruct (own3 && Val.truthy (Val.get r "user_segment")).
    + intros E3. rewrite (add_distinct_other _ _ k _ _ _ E3 K4 K5). congruence.
    + intros [= <-]. congruence.
  - cbn [bind].
    destruct (hasOwnProperty o1 "segment_count") as [own3|]; [|discriminate]. cbn [bind].
    destruct (own3 && Val.truthy (Val.get r "user_segment")).
    + intros E3. rewrite (add_distinct_other _ _ k _ _ _ E3 K4 K5). congruence.
    + intros [= <-]. congruence.
Qed.

Lemma rows_with_label_snoc (h : host) (precision column label : string) (P : list row) (r : row) :
  rows_with_label h precision column label (P ++ [r])%list =
  rows_with_label h precision column label P
  + (if has_label h precision column label r then 1 else 0).
Proof.
  unfold rows_with_label. rewrite List.filter_app, length_app. cbn [List.filter].
  destruct (has_label h precision column label r); cbn [length]; lia.
Qed.

Section DateTruncBuckets.
Variables (h : host) (originalQuery precision column : string).

(** What a bucket satisfies with respect to the rows processed so far. *)
Variable B : string -> obj -> list row -> Prop.

Hypothesis B_other : forall k o P r,
  has_label h precision column k r = false -> B k o P -> B k o (P ++ [r])%list.
Hypothesis B_update : forall k o o' P r,
  has_label h precision column k r = true -> B k o P ->
  update_counts h r o = Normal o' -> B k o' (P ++ [r])%list.
Hypothesis B_new : forall k P,
  rows_with_label h precision column k P = 0 ->
  B k (new_date_trunc_row originalQuery k) P.

(** The keys of the buckets are distinct, a label has a bucket exactly
    when it has a row, and every bucket satisfies [B]. *)
Definition buckets_ok (results : list (string * obj)) (P : list row) : Prop :=
  List.NoDup (map fst results) /\
  (forall k, SMap.has k results = false -> rows_with_label h precision column k P = 0) /\
  (forall k o, In (k, o) results ->
     B k o P /\ 0 < rows_with_label h precision column k P).

Lemma date_trunc_step_buckets (results results' : list (string * obj)) (P : list row)
    (r : row) :
  buckets_ok results P ->
  date_trunc_step h originalQuery precision column results r = Normal results' ->
  buckets_ok results' (P ++ [r])%list.
Proof.
  intros (Hnd & Hzero & Hin) Hstep.
  destruct (Val.truthy (Val.get r column)) eqn:Et.
  2:{ rewrite date_trunc_step_skip in Hstep by exact Et. injection Hstep as <-.
      assert (Hno : forall k, has_label h precision column k r = false).
      { intros k. unfold has_label. now rewrite Et. }
      split; [exact Hnd|]. split.
      - intros k Hk. rewrite rows_with_label_snoc, Hno, (Hzero _ Hk). reflexivity.
      - intros k o Hk. destruct (Hin _ _ Hk) as [HB Hpos].
        rewrite rows_with_label_snoc, Hno. split; [now apply B_other|lia]. }
  apply date_trunc_step_inv in Hstep as (label & o & o' & Hlab & Hg & Hu & ->); [|exact Et].
  assert (Hyes : forall k, has_label h precision column k r = String.eqb label k).
  { intros k. unfold has_label, row_label. now rewrite Et, Hlab. }
  destruct (SMap.has label results) eqn:Ehas.
  - pose proof (smap_get_in _ _ _ Hg) as Ho. destruct (Hin _ _ Ho) as [HB Hpos].
    split; [now rewrite smap_keys_put|]. split.
    + intros k Hk. rewrite smap_has_put in Hk. rewrite rows_with_label_snoc, Hyes.
      destruct (String.eqb_spec label k) as [<-|_]; [congruence|]. rewrite (Hzero _ Hk). lia.
    + intros k o1 Hk. apply smap_in_put in Hk as [[-> ->]|[Hne Hk]]; [| |exact Hnd].
      * rewrite rows_with_label_snoc, Hyes, String.eqb_refl. split; [|lia].
        apply (B_update label o o' P r); [|exact HB|exact Hu].
        now rewrite Hyes, String.eqb_refl.
      * destruct (Hin _ _ Hk) as [HB1 Hpos1].
        assert (Hk' : String.eqb label k = false) by (apply String.eqb_neq; congruence).
        rewrite rows_with_label_snoc, Hyes, Hk'. split; [|lia].
        apply B_other; [now rewrite Hyes|exact HB1].
  - rewrite smap_get_add_new in Hg by exact Ehas. injection Hg as <-.
    rewrite smap_put_add_new by exact Ehas.
    assert (Hks : ~ In label (map fst results)).
    { rewrite <- smap_has_in. congruence. }
    split; [rewrite smap_keys_add; now apply nodup_snoc|]. split.
    + intros k Hk. rewrite smap_has_add in Hk. apply orb_false_iff in Hk as [Hk1 Hk2].
      rewrite rows_with_label_snoc, Hyes, Hk2, (Hzero _ Hk1). reflexivity.
    + intros k o1 Hk. unfold SMap.add in Hk. apply in_app_iff in Hk as [Hk|[E|[]]].
      * destruct (Hin _ _ Hk) as [HB1 Hpos1].
        assert (Hk' : String.eqb label k = false).
        { apply String.eqb_neq. intros <-. apply Hks. apply in_map_iff. now exists (label, o1). }
        rewrite rows_with_label_snoc, Hyes, Hk'. split; [|lia].
        apply B_other; [now rewrite Hyes|exact HB1].
      * injection E as <- <-. rewrite rows_with_label_snoc, Hyes, String.eqb_refl.
        rewrite (Hzero _ Ehas). split; [|lia].
        apply (B_update label (new_date_trunc_row originalQuery label) o' P r);
          [now rewrite Hyes, String.eqb_refl| |exact Hu].
        apply B_new. exact (Hzero _ Ehas).
Qed.

Lemma date_trunc_loop_buckets (rows : list row) :
  forall (results results' : list (string * obj)) (P : list row),
  buckets_ok results P ->
  for_of (date_trunc_step h originalQuery precision column) results rows = Normal results' ->
  buckets_ok results' (P ++ rows)%list.
Proof.
  induction rows as [|r rows IH]; intros results results' P Hinv.
  - cbn [for_of]. intros [= <-]. now rewrite app_nil_r.
  - cbn [for_of].
    destruct (date_trunc_step h originalQuery precision column results r)
      as [results1|e] eqn:E; cbn [bind]; [|discriminate].
    intros Hloop. pose proof (date_trunc_step_buckets _ _ _ _ Hinv E) as Hinv1.
    pose proof (IH _ _ _ Hinv1 Hloop) as H.
    now rewrite <- app_assoc in H.
Qed.

Lemma date_trunc_buckets_ok (rows : list row) (results : list (string * obj)) :
  date_trunc_buckets h originalQuery precision column rows = Normal results ->
  buckets_ok results rows.
Proof.
  intros H. apply (date_trunc_loop_buckets rows [] results []); [|exact H].
  split; [constructor|]. split; [reflexivity|intros ? ? []].
Qed.

End DateTruncBuckets.
Lemma new_date_trunc_row_alias (originalQuery label : string) :
  ~ In (alias_of originalQuery) reserved_names ->
  new_date_trunc_row originalQuery label !! alias_of originalQuery
  = Some (VPrim (PString label)).
Proof.
  intros Hn. apply not_reserved in Hn as (H1 & H2 & H3 & H4 & H5 & _ & H7).
  unfold new_date_trunc_row, Val.set. cbv zeta. apply String.eqb_neq in H7. rewrite H7.
  change (String.eqb "user_count" "__proto__") with false.
  change (String.eqb "country_count" "__proto__") with false.
  change (String.eqb "_countries" "__proto__") with false.
  change (String.eqb "segment_count" "__proto__") with false.
  change (String.eqb "_segments" "__proto__") with false. cbv iota.
  destruct (includes originalQuery "COUNT(user_id)" || includes originalQuery "COUNT(*)"),
           (includes originalQuery "COUNT(DISTINCT country)"),
           (includes originalQuery "COUNT(DISTINCT user_segment)");
    rewrite ?lookup_insert_ne by congruence; apply lookup_insert_eq.
Qed.

Lemma clean_row_other (o : obj) (k : string) :
  k <> "_countries" -> k <> "_segments" -> clean_row o !! k = o !! k.
Proof. intros H1 H2. unfold clean_row. now rewrite !lookup_delete_ne by congruence. Qed.

Lemma nodup_firstn {A : Type} (n : nat) (l : list A) :
  List.NoDup l -> List.NoDup (firstn n l).
Proof.
  revert n. induction l as [|x l IH]; intros [|n] H; cbn [firstn]; try constructor.
  - apply List.NoDup_cons_iff in H as [Hx H]. intros Hin. apply Hx.
    exact (in_firstn _ _ _ Hin).
  - apply List.NoDup_cons_iff in H as [Hx H]. now apply IH.
Qed.

Lemma nodup_map_inj {A T : Type} (f : A -> T) (l : list A) :
  (forall x y, f x = f y -> x = y) -> List.NoDup l -> List.NoDup (map f l).
Proof.
  intros Hf. induction l as [|x l IH]; intros H; cbn [map]; [constructor|].
  apply List.NoDup_cons_iff in H as [Hx H]. constructor; [|now apply IH].
  intros Hin. apply in_map_iff in Hin as (y & E & Hy). apply Hf in E as ->. exact (Hx Hy).
Qed.

(** The rows that the date-trunc path returns are some of the cleaned
    bucket rows, each once. *)
Lemma date_trunc_result_rows (h : host) (originalQuery : string) (l : list obj) :
  (forall o, In o (apply_limit originalQuery (apply_order_by h originalQuery l)) -> In o l) /\
  (forall (T : Type) (f : obj -> T),
     List.NoDup (map f l) ->
     List.NoDup (map f (apply_limit originalQuery (apply_order_by h originalQuery l)))).
Proof.
  unfold apply_limit. rewrite slice0_firstn.
  assert (Hp : Permutation (apply_order_by h originalQuery l) l).
  { unfold apply_order_by. destruct (search true re_order originalQuery); [|reflexivity].
    apply sort_perm. }
  split.
  - intros o Ho. apply in_firstn in Ho. exact (Permutation_in _ Hp Ho).
  - intros T f Hnd. rewrite <- firstn_map. apply nodup_firstn.
    apply (Permutation_NoDup (Permutation_sym (Permutation_map f Hp))). exact Hnd.
Qed.

Lemma processDateTruncQuery_inv (h : host) (originalQuery : string) (dm : match_result)
    (rows : list row) (result : list obj) :
  search true re_date_trunc originalQuery = Some dm ->
  processDateTruncQuery h (Some rows) originalQuery = Normal result ->
  exists buckets,
    date_trunc_buckets h originalQuery (group_text dm 1) (column_of dm) rows = Normal buckets /\
    result = apply_limit originalQuery
               (apply_order_by h originalQuery (map clean_row (SMap.values buckets))).
Proof.
  intros Hm. unfold processDateTruncQuery. rewrite Hm. cbv zeta.
  destruct rows as [|r rows].
  - intros [= <-]. exists []. split; [reflexivity|].
    cbn [SMap.values map]. now rewrite apply_order_by_nil, apply_limit_nil.
  - destruct (date_trunc_buckets h originalQuery _ _ (r :: rows)) as [buckets|e];
      cbn [bind]; [|discriminate].
    intros [= <-]. now exists buckets.
Qed.

(** The grouping of the date-trunc path where the query counts rows: a
    result row carries the label of its bucket under the alias, no two
    result rows carry the same label, and the [user_count] of a row is the
    number of input rows that pass the test of line 265 and truncate to
    its label. *)
Theorem date_trunc_bucket_counts (h : host) (originalQuery : string) (dm : match_result)
    (rows : list row) (result : list obj) :
  search true re_date_trunc originalQuery = Some dm ->
  includes originalQuery "COUNT(user_id)" || includes originalQuery "COUNT(*)" = true ->
  ~ In (alias_of originalQuery) reserved_names ->
  processDateTruncQuery h (Some rows) originalQuery = Normal result ->
  List.NoDup (map (fun o : obj => o !! alias_of originalQuery) result) /\
  forall o, In o result ->
    exists label,
      o !! alias_of originalQuery = Some (VPrim (PString label)) /\
      o !! "user_count"
        = Some (VPrim (PNumber (Num
            (rows_with_label h (group_text dm 1) (column_of dm) label rows)))) /\
      0 < rows_with_label h (group_text dm 1) (column_of dm) label rows.
Proof.
  intros Hm Hcount Hres Hrun.
  destruct (processDateTruncQuery_inv h originalQuery dm rows result Hm Hrun)
    as (buckets & Hb & ->).
  set (precision := group_text dm 1) in *. set (column := column_of dm) in *.
  set (alias := alias_of originalQuery) in *.
  pose proof (not_reserved _ Hres) as (N1 & N2 & N3 & N4 & N5 & N6 & N7).
  pose (B := fun (k : string) (o : obj) (P : list row) =>
    o !! alias = Some (VPrim (PString k)) /\
    o !! "user_count"
      = Some (VPrim (PNumber (Num (rows_with_label h precision column k P))))).
  assert (Hok : buckets_ok h precision column B buckets rows).
  { apply (date_trunc_buckets_ok h originalQuery precision column B); [| | |exact Hb].
    - intros k o P r Hno [H1 H2]. split; [exact H1|].
      rewrite rows_with_label_snoc, Hno, Z.add_0_r. exact H2.
    - intros k o o' P r Hyes [H1 H2] Hu. split.
      + rewrite (update_counts_other h r o o' alias); [exact H1| |exact Hu].
        simpl. intuition congruence.
      + rewrite rows_with_label_snoc, Hyes.
        exact (update_counts_user_count h r o o' _ H2 Hu).
    - intros k P Hz. split; [now apply new_date_trunc_row_alias|].
      rewrite Hz. now apply new_date_trunc_row_counted. }
  destruct Hok as (Hnd & _ & Hin).
  destruct (date_trunc_result_rows h originalQuery (map clean_row (SMap.values buckets)))
    as [Hsub Hdup].
  split.
  - apply Hdup. unfold SMap.values. rewrite !map_map.
    rewrite (map_ext_in _ (fun e => Some (VPrim (PString (fst e))))).
    + rewrite <- (map_map fst (fun k => Some (VPrim (PString k)))).
      apply nodup_map_inj; [|exact Hnd]. intros x y [= ->]. reflexivity.
    + intros [k o] Hk. cbn [fst snd]. rewrite clean_row_other by congruence.
      now destruct (Hin _ _ Hk) as [[H1 _] _].
  - intros o Ho. apply Hsub in Ho. unfold SMap.values in Ho. rewrite map_map in Ho.
    apply in_map_iff in Ho as ([k o0] & <- & Hk). cbn [snd].
    destruct (Hin _ _ Hk) as [[H1 H2] Hpos]. exists k.
    rewrite !clean_row_other by congruence. auto.
Qed.
Lemma date_trunc_bucket_counts_witness :
  includes "SELECT COUNT(*) AS n, DATE_TRUNC('day', d) AS day FROM t GROUP BY day"
    "COUNT(user_id)"
  || includes "SELECT COUNT(*) AS n, DATE_TRUNC('day', d) AS day FROM t GROUP BY day"
    "COUNT(*)" = true /\
  ~ In (alias_of "SELECT COUNT(*) AS n, DATE_TRUNC('day', d) AS day FROM t GROUP BY day")
       reserved_names /\
  processDateTruncQuery utc
    (Some [ {[ "d" := PString "2024-03-14T08:00:00Z" ]};
            {[ "d" := PString "2024-03-15T09:00:00Z" ]};
            {[ "d" := PString "2024-03-14T10:00:00Z" ]};
            {[ "d" := PNull ]} ])
    "SELECT COUNT(*) AS n, DATE_TRUNC('day', d) AS day FROM t GROUP BY day"
  = Normal [ {[ "day" := VPrim (PString "2024-03-14");
                "user_count" := VPrim (PNumber (Num 2)) ]};
             {[ "day" := VPrim (PString "2024-03-15");
                "user_count" := VPrim (PNumber (Num 1)) ]} ] /\
  forall o,
    In o [ ({[ "day" := VPrim (PString "2024-03-14");
               "user_count" := VPrim (PNumber (Num 2)) ]} : obj);
           {[ "day" := VPrim (PString "2024-03-15");
              "user_count" := VPrim (PNumber (Num 1)) ]} ] ->
    exists label,
      o !! "day" = Some (VPrim (PString label)) /\
      o !! "user_count"
        = Some (VPrim (PNumber (Num (rows_with_label utc "day" "d" label
            [ {[ "d" := PString "2024-03-14T08:00:00Z" ]};
              {[ "d" := PString "2024-03-15T09:00:00Z" ]};
              {[ "d" := PString "2024-03-14T10:00:00Z" ]};
              {[ "d" := PNull ]} ])))).
Proof.
  split; [vm_compute; reflexivity|].
  split; [vm_compute; intuition discriminate|].
  split; [vm_compute; reflexivity|].
  destruct (search true re_date_trunc
    "SELECT COUNT(*) AS n, DATE_TRUNC('day', d) AS day FROM t GROUP BY day")
    as [m|] eqn:E; [|vm_compute in E; discriminate E].
  pose proof (date_trunc_bucket_counts utc _ m
    [ {[ "d" := PString "2024-03-14T08:00:00Z" ]};
      {[ "d" := PString "2024-03-15T09:00:00Z" ]};
      {[ "d" := PString "2024-03-14T10:00:00Z" ]};
      {[ "d" := PNull ]} ]
    [ {[ "day" := VPrim (PString "2024-03-14");
         "user_count" := VPrim (PNumber (Num 2)) ]};
      {[ "day" := VPrim (PString "2024-03-15");
         "user_count" := VPrim (PNumber (Num 1)) ]} ] E) as H.
  vm_compute in E. injection E as <-.
  destruct H as [_ H]; [vm_compute; reflexivity|vm_compute; intuition discriminate
                       |vm_compute; reflexivity|].
  intros o Ho. destruct (H o Ho) as (label & H1 & H2 & _). exists label. split; assumption.
Defined.

(** [s.add(x)] on the elements of a [Set], in insertion order. *)
Lemma add_distinct_inv (set count : string) (x : prim) (o o' : obj) (elems : list prim) :
  set <> count ->
  o !! set = Some (VSet elems) ->
  add_distinct set count x o = Normal o' ->
  let elems' := if bool_decide (x ∈ elems) then elems else (elems ++ [x])%list in
  o' !! set = Some (VSet elems') /\
  (count <> "__proto__" ->
   o' !! count = Some (VPrim (PNumber (Num (Z.of_nat (length elems')))))).
Proof.
  intros Hne Hs. unfold add_distinct. rewrite Hs. cbv zeta. intros [= <-].
  unfold Val.set. destruct (String.eqb_spec count "__proto__") as [->|Hp].
  - split; [apply lookup_insert_eq|congruence].
  - split; [|intros _; apply lookup_insert_eq].
    rewrite lookup_insert_ne by congruence. apply lookup_insert_eq.
Qed.

Lemma increment_other (h : host) (name k : string) (o : obj) :
  k <> name -> increment h name o !! k = o !! k.
Proof.
  intros Hk. unfold increment, Val.set. destruct (String.eqb name "__proto__"); [reflexivity|].
  now rewrite lookup_insert_ne by congruence.
Qed.

(** The effect of the updates of lines 325-335 on the accumulator of the
    countries. *)
Lemma update_counts_countries (h : host) (r : row) (o o' : obj) (cs : list prim) :
  o !! "_countries" = Some (VSet cs) ->
  o !! "country_count" = Some (VPrim (PNumber (Num (Z.of_nat (length cs))))) ->
  update_counts h r o = Normal o' ->
  let x := Val.get r "country" in
  let cs' :=
    if Val.truthy x then (if bool_decide (x ∈ cs) then cs else (cs ++ [x])%list) else cs in
  o' !! "_countries" = Some (VSet cs') /\
  o' !! "country_count" = Some (VPrim (PNumber (Num (Z.of_nat (length cs'))))).
Proof.
  intros Hs Hc. unfold update_counts.
  destruct (hasOwnProperty o "user_count") as [own1|]; [|discriminate]. cbn [bind].
  set (o1 := if own1 then increment h "user_count" o else o).
  assert (Hs1 : o1 !! "_countries" = Some (VSet cs)).
  { unfold o1. destruct own1; [|exact Hs]. now rewrite increment_other by discriminate. }
  assert (Hc1 : o1 !! "country_count" = Some (VPrim (PNumber (Num (Z.of_nat (length cs)))))).
  { unfold o1. destruct own1; [|exact Hc]. now rewrite increment_other by discriminate. }
  clearbody o1.
  destruct (hasOwnProperty o1 "country_count") as [own2|] eqn:E2; [|discriminate]. cbn [bind].
  apply hasOwnProperty_inv in E2. rewrite Hc1 in E2.
  rewrite bool_decide_eq_true_2 in E2 by eauto. subst own2. cbn [andb].
  destruct (Val.truthy (Val.get r "country")).
  - destruct (add_distinct "_countries" "country_count" _ o1) as [o2|] eqn:Ea; [|discriminate].
    cbn [bind].
    assert (Hne : "_countries" <> "country_count") by discriminate.
    destruct (add_distinct_inv _ _ _ _ _ cs Hne Hs1 Ea) as [Hs2 Hc2].
    assert (Hnp : "country_count" <> "__proto__") by discriminate.
    specialize (Hc2 Hnp).
    destruct (hasOwnProperty o2 "segment_count") as [own3|]; [|discriminate]. cbn [bind].
    destruct (own3 && Val.truthy (Val.get r "user_segment")).
    + intros E3. cbv zeta.
      rewrite !(add_distinct_other _ _ _ _ _ _ E3) by discriminate. now split.
    + intros [= <-]. now split.
  - cbn [bind].
    destruct (hasOwnProperty o1 "segment_count") as [own3|]; [|discriminate]. cbn [bind].
    destruct (own3 && Val.truthy (Val.get r "user_segment")).
    + intros E3. cbv zeta.
      rewrite !(add_distinct_other _ _ _ _ _ _ E3) by discriminate. now split.
    + intros [= <-]. now split.
Qed.

Lemma new_date_trunc_row_countries (originalQuery label : string) :
  includes originalQuery "COUNT(DISTINCT country)" = true ->
  new_date_trunc_row originalQuery label !! "_countries" = Some (VSet []) /\
  new_date_trunc_row originalQuery label !! "country_count" = Some (VPrim (PNumber (Num 0))).
Proof.
  intros H. unfold new_date_trunc_row, Val.set. cbv zeta. rewrite H.
  change (String.eqb "user_count" "__proto__") with false.
  change (String.eqb "country_count" "__proto__") with false.
  change (String.eqb "_countries" "__proto__") with false.
  change (String.eqb "segment_count" "__proto__") with false.
  change (String.eqb "_segments" "__proto__") with false. cbv iota.
  destruct (includes originalQuery "COUNT(DISTINCT user_segment)");
    rewrite ?(lookup_insert_ne _ "_segments"), ?(lookup_insert_ne _ "segment_count")
      by discriminate;
    (split; [apply lookup_insert_eq|]);
    rewrite lookup_insert_ne by discriminate; apply lookup_insert_eq.
Qed.

(** The distinct count of the date-trunc path: where the query contains
    [COUNT(DISTINCT country)], the [country_count] of a result row is the
    number of distinct values that pass for true among the [country]
    fields of the rows of its label. *)
Theorem date_trunc_distinct_countries (h : host) (originalQuery : string)
    (dm : match_result) (rows : list row) (result : list obj) :
  search true re_date_trunc originalQuery = Some dm ->
  includes originalQuery "COUNT(DISTINCT country)" = true ->
  ~ In (alias_of originalQuery) reserved_names ->
  processDateTruncQuery h (Some rows) originalQuery = Normal result ->
  forall o, In o result ->
    exists (label : string) (countries : list prim),
      o !! alias_of originalQuery = Some (VPrim (PString label)) /\
      o !! "country_count"
        = Some (VPrim (PNumber (Num (Z.of_nat (length countries))))) /\
      List.NoDup countries /\
      forall x, In x countries <->
        exists r, In r rows /\
          has_label h (group_text dm 1) (column_of dm) label r = true /\
          Val.truthy (Val.get r "country") = true /\ Val.get r "country" = x.
Proof.
  intros Hm Hflag Hres Hrun.
  destruct (processDateTruncQuery_inv h originalQuery dm rows result Hm Hrun)
    as (buckets & Hb & ->).
  set (precision := group_text dm 1) in *. set (column := column_of dm) in *.
  set (alias := alias_of originalQuery) in *.
  pose proof (not_reserved _ Hres) as (N1 & N2 & N3 & N4 & N5 & N6 & N7).
  pose (B := fun (k : string) (o : obj) (P : list row) =>
    o !! alias = Some (VPrim (PString k)) /\
    exists cs,
      o !! "_countries" = Some (VSet cs) /\
      o !! "country_count" = Some (VPrim (PNumber (Num (Z.of_nat (length cs))))) /\
      List.NoDup cs /\
      forall x, In x cs <->
        exists r, In r P /\ has_label h precision column k r = true /\
          Val.truthy (Val.get r "country") = true /\ Val.get r "country" = x).
  assert (Hok : buckets_ok h precision column B buckets rows).
  { apply (date_trunc_buckets_ok h originalQuery precision column B); [| | |exact Hb].
    - intros k o P r Hno [H1 (cs & H2 & H3 & H4 & H5)]. split; [exact H1|].
      exists cs. repeat split; try assumption.
      + intros Hx. apply H5 in Hx as (r' & Hr' & Hx). exists r'.
        split; [apply in_app_iff; now left|exact Hx].
      + intros (r' & Hr' & Hl & Hx). apply H5. exists r'. split; [|now split].
        apply in_app_iff in Hr' as [Hr'|[<-|[]]]; [exact Hr'|congruence].
    - intros k o o' P r Hyes [H1 (cs & H2 & H3 & H4 & H5)] Hu. split.
      + rewrite (update_counts_other h r o o' alias); [exact H1| |exact Hu].
        simpl. intuition congruence.
      + destruct (update_counts_countries h r o o' cs H2 H3 Hu) as [H2' H3'].
        cbv zeta in H2', H3'.
        destruct (Val.truthy (Val.get r "country")) eqn:Et.
        * destruct (bool_decide (Val.get r "country" ∈ cs)) eqn:Ein.
          -- apply bool_decide_eq_true_1, list_elem_of_In in Ein.
             exists cs. repeat split; try assumption.
             ++ intros Hx. apply H5 in Hx as (r' & Hr' & Hx). exists r'.
                split; [apply in_app_iff; now left|exact Hx].
             ++ intros (r' & Hr' & Hl & Ht & Hx).
                apply in_app_iff in Hr' as [Hr'|[<-|[]]];
                  [apply H5; exists r'; now repeat split|].
                now rewrite <- Hx.
          -- apply bool_decide_eq_false_1 in Ein. rewrite list_elem_of_In in Ein.
             exists (cs ++ [Val.get r "country"])%list. repeat split; try assumption.
             ++ now apply nodup_snoc.
             ++ intros Hx. apply in_app_iff in Hx as [Hx|[<-|[]]].
                ** apply H5 in Hx as (r' & Hr' & Hx). exists r'.
                   split; [apply in_app_iff; now left|exact Hx].
                ** exists r. split; [apply in_app_iff; right; now left|now repeat split].
             ++ intros (r' & Hr' & Hl & Ht & Hx). apply in_app_iff.
                apply in_app_iff in Hr' as [Hr'|[<-|[]]].
                ** left. apply H5. exists r'. now repeat split.
                ** right. now left.
        * exists cs. repeat split; try assumption.
          -- intros Hx. apply H5 in Hx as (r' & Hr' & Hx). exists r'.
             split; [apply in_app_iff; now left|exact Hx].
          -- intros (r' & Hr' & Hl & Ht & Hx). apply H5. exists r'.
             apply in_app_iff in Hr' as [Hr'|[<-|[]]]; [now repeat split|congruence].
    - intros k P Hz. split; [now apply new_date_trunc_row_alias|].
      destruct (new_date_trunc_row_countries originalQuery k Hflag) as [H2 H3].
      exists []. repeat split; try assumption; [constructor|intros []|].
      intros (r & Hr & Hl & _). exfalso. unfold rows_with_label in Hz.
      assert (Hin : In r (List.filter (has_label h precision column k) P))
        by (apply filter_In; now split).
      destruct (List.filter (has_label h precision column k) P); [exact Hin|].
      cbn [length] in Hz. lia. }
  destruct Hok as (_ & _ & Hin).
  destruct (date_trunc_result_rows h originalQuery (map clean_row (SMap.values buckets)))
    as [Hsub _].
  intros o Ho. apply Hsub in Ho. unfold SMap.values in Ho. rewrite map_map in Ho.
  apply in_map_iff in Ho as ([k o0] & <- & Hk). cbn [snd].
  destruct (Hin _ _ Hk) as [[H1 (cs & H2 & H3 & H4 & H5)] _]. exists k, cs.
  rewrite !clean_row_other by congruence. auto.
Qed.
Lemma date_trunc_distinct_countries_witness :
  includes
    "SELECT COUNT(DISTINCT country) AS c, DATE_TRUNC('day', d) AS day FROM t GROUP BY day"
    "COUNT(DISTINCT country)" = true /\
  ~ In (alias_of
     "SELECT COUNT(DISTINCT country) AS c, DATE_TRUNC('day', d) AS day FROM t GROUP BY day")
       reserved_names /\
  processDateTruncQuery utc
    (Some [ {[ "d" := PString "2024-03-14T08:00:00Z"; "country" := PString "FR" ]};
            {[ "d" := PString "2024-03-14T09:00:00Z"; "country" := PString "DE" ]};
            {[ "d" := PString "2024-03-14T10:00:00Z"; "country" := PString "FR" ]};
            {[ "d" := PString "2024-03-14T11:00:00Z"; "country" := PString "" ]} ])
    "SELECT COUNT(DISTINCT country) AS c, DATE_TRUNC('day', d) AS day FROM t GROUP BY day"
  = Normal [ {[ "day" := VPrim (PString "2024-03-14");
                "country_count" := VPrim (PNumber (Num 2)) ]} ] /\
  forall o,
    In o [ ({[ "day" := VPrim (PString "2024-03-14");
               "country_count" := VPrim (PNumber (Num 2)) ]} : obj) ] ->
    exists (label : string) (countries : list prim),
      o !! "day" = Some (VPrim (PString label)) /\
      o !! "country_count" = Some (VPrim (PNumber (Num (Z.of_nat (length countries))))) /\
      List.NoDup countries.
Proof.
  split; [vm_compute; reflexivity|].
  split; [vm_compute; intuition discriminate|].
  split; [vm_compute; reflexivity|].
  destruct (search true re_date_trunc
    "SELECT COUNT(DISTINCT country) AS c, DATE_TRUNC('day', d) AS day FROM t GROUP BY day")
    as [m|] eqn:E; [|vm_compute in E; discriminate E].
  pose proof (date_trunc_distinct_countries utc _ m
    [ {[ "d" := PString "2024-03-14T08:00:00Z"; "country" := PString "FR" ]};
      {[ "d" := PString "2024-03-14T09:00:00Z"; "country" := PString "DE" ]};
      {[ "d" := PString "2024-03-14T10:00:00Z"; "country" := PString "FR" ]};
      {[ "d" := PString "2024-03-14T11:00:00Z"; "country" := PString "" ]} ]
    [ {[ "day" := VPrim (PString "2024-03-14");
         "country_count" := VPrim (PNumber (Num 2)) ]} ] E) as H.
  vm_compute in E. injection E as <-.
  specialize (H ltac:(vm_compute; reflexivity) ltac:(vm_compute; intuition discriminate)
                ltac:(vm_compute; reflexivity)).
  intros o Ho. destruct (H o Ho) as (label & cs & H1 & H2 & H3 & _).
  exists label, cs. repeat split; assumption.
Defined.

(** The handler reaches the database only for a request with a query
    that, trimmed, without its final semicolon and in lower case, begins
    with [select], on a server with the environment variable set and a
    client. *)
Theorem POST_database_only_for_select (h : host) (srv : server) (req : request_body) :
  fst (POST h srv req) <> [] ->
  exists sqlQuery url supabase,
    req = JsonValue (PString sqlQuery) /\
    startsWith (toLowerCase (cleanedQuery_of sqlQuery)) "select" = true /\
    env_url srv = Some url /\ url <> "" /\
    createServerClient srv = Normal supabase.
Proof.
  unfold POST. destruct req as [| |[| | | |sqlQuery|]]; cbn [fst]; try congruence.
  destruct (String.eqb sqlQuery "" || String.eqb (trim sqlQuery) ""); cbn [fst];
    [congruence|].
  destruct (startsWith (toLowerCase (cleanedQuery_of sqlQuery)) "select") eqn:Es;
    cbn [negb fst]; [|congruence].
  destruct (env_url srv) as [[|a url]|] eqn:Eu; cbn [fst]; try congruence.
  destruct (createServerClient srv) as [supabase|e] eqn:Ec; cbn [fst]; [|congruence].
  intros _. exists sqlQuery, (String a url), supabase. repeat split; congruence.
Qed.

Lemma failure_response_error (e : exn) : error_response (failure_response e).
Proof.
  unfold failure_response, error_response. cbv zeta.
  repeat match goal with |- context [if ?b then _ else _] => destruct b end;
    cbn [status body]; (split; [tauto|eauto]).
Qed.

(** The response of the handler is the rows with status 200 or a message
    with status 400 or 500. *)
Theorem POST_response_shape (h : host) (srv : server) (req : request_body) :
  data_response (snd (POST h srv req)) \/ error_response (snd (POST h srv req)).
Proof.
  assert (E400 : forall m rest,
            error_response {| status := 400; body := ("error", JString m) :: rest |}).
  { intros m rest. split; [now left|]. cbn [body]. eauto. }
  assert (E500 : forall m rest,
            error_response {| status := 500; body := ("error", JString m) :: rest |}).
  { intros m rest. split; [now right|]. cbn [body]. eauto. }
  assert (D200 : forall d rest,
            data_response {| status := 200; body := ("data", d) :: rest |}).
  { intros d rest. split; [reflexivity|]. cbn [body]. eauto. }
  unfold POST. destruct req as [| |[| | | |sqlQuery|]]; cbn [snd];
    try (right; apply E400); try (right; apply failure_response_error).
  destruct (String.eqb sqlQuery "" || String.eqb (trim sqlQuery) ""); cbn [snd];
    [right; apply E400|].
  destruct (negb (startsWith (toLowerCase (cleanedQuery_of sqlQuery)) "select")); cbn [snd];
    [right; apply E400|].
  destruct (env_url srv) as [[|a url]|]; cbn [snd]; try (right; apply E500).
  destruct (createServerClient srv) as [supabase|e]; cbn [snd];
    [|right; apply failure_response_error].
  destruct (raw_sql_strategy h supabase (cleanedQuery_of sqlQuery)) as [calls [r|]] eqn:E1;
    cbn [snd].
  - left. unfold raw_sql_strategy in E1.
    destruct (needsRawSQL (cleanedQuery_of sqlQuery)); [|discriminate E1].
    cbv zeta in E1.
    destruct (negb (String.eqb _ _)).
    + destruct (executeConvertedQuery h (fetch_client supabase) _) as [tables [rows|e]].
      * injection E1 as _ <-. apply D200.
      * destruct (rpc supabase _ _) as [rr|e']; [|discriminate E1].
        destruct (error_of rr); [discriminate E1|].
        destruct (rows_of rr); [|discriminate E1]. injection E1 as _ <-. apply D200.
    + destruct (rpc supabase _ _) as [rr|e']; [|discriminate E1].
      destruct (error_of rr); [discriminate E1|].
      destruct (rows_of rr); [|discriminate E1]. injection E1 as _ <-. apply D200.
  - unfold query_builder_strategy. cbv zeta.
    destruct (search true re_from _ ≫= _) as [[|c0 t]|]; cbn [snd];
      try (right; apply E400).
    destruct (select supabase _) as [r|e]; cbn [bind];
      [|right; apply failure_response_error].
    destruct (error_of r); [right; apply E400|left; apply D200].
Qed.
Lemma lower_case_cons (c : ascii) (s : string) :
  lower_case (String c s) <-> lower_char c = c /\ lower_case s.
Proof.
  unfold lower_case. cbn [toLowerCase]. split.
  - intros [= H1 H2]. now split.
  - intros [-> ->]. reflexivity.
Qed.

Lemma lower_case_take (n : nat) (s : string) : lower_case s -> lower_case (take n s).
Proof.
  revert s. induction n as [|n IH]; intros [|c s] H; try reflexivity.
  apply lower_case_cons in H as [H1 H2]. cbn [take]. apply lower_case_cons.
  split; [exact H1|now apply IH].
Qed.

Lemma lower_case_drop (n : nat) (s : string) : lower_case s -> lower_case (drop n s).
Proof.
  revert s. induction n as [|n IH]; intros [|c s] H; try assumption.
  apply lower_case_cons in H as [H1 H2]. cbn [drop]. now apply IH.
Qed.

Lemma lower_case_trim (s : string) : lower_case s -> lower_case (trim s).
Proof.
  intros H. unfold trim.
  assert (H1 : lower_case (trimStart s)).
  { induction s as [|c s IH]; [reflexivity|]. cbn [trimStart].
    destruct (is_space c); [|exact H]. apply IH. now apply lower_case_cons in H. }
  revert H1. generalize (trimStart s). clear. intros s H.
  induction s as [|c s IH]; [reflexivity|]. apply lower_case_cons in H as [H1 H2].
  cbn [trimEnd]. specialize (IH H2). destruct (trimEnd s) as [|d t].
  - destruct (is_space c); [reflexivity|]. now apply lower_case_cons.
  - now apply lower_case_cons.
Qed.

Lemma lower_case_suffix (a b : string) : lower_case (a ++ b) -> lower_case b.
Proof. unfold lower_case. intros H. exact (proj2 (toLowerCase_split _ _ _ H)). Qed.
Lemma lower_case_group (at_ : nat) (s : string) (len : nat) (c : caps) (n : nat) :
  lower_case s -> lower_case (group_text (mk_result at_ s len c) n).
Proof.
  intros H. unfold group_text, mk_result, group.
  destruct (cap_lookup n c) as [[b e]|]; [|reflexivity].
  unfold slice. now apply lower_case_take, lower_case_drop.
Qed.

Lemma search_lower_case (r : regex) (s : string) (m : match_result) (n : nat) :
  lower_case s -> search true r s = Some m -> lower_case (group_text m n).
Proof.
  intros H E. apply search_from_inv in E as (pre & rest & len & c & -> & _ & ->).
  apply lower_case_group. exact (lower_case_suffix _ _ H).
Qed.

Lemma search_pattern_from_inv (ic : bool) (p : pattern) (at_ : nat) (s : string)
    (m : match_result) :
  search_pattern_from ic p at_ s = Some m ->
  exists pre rest len c,
    s = pre ++ rest /\ exec_pattern ic p rest = Some (len, c) /\
    m = mk_result (at_ + String.length pre) rest len c.
Proof.
  revert at_. induction s as [|x s IH]; intros at_ H; cbn [search_pattern_from] in H.
  - destruct (exec_pattern ic p "") as [[len c]|] eqn:E; [|discriminate].
    injection H as <-. exists "", "", len, c. cbn [String.length].
    now rewrite Nat.add_0_r.
  - destruct (exec_pattern ic p (String x s)) as [[len c]|] eqn:E.
    + injection H as <-. exists "", (String x s), len, c. cbn [String.length].
      now rewrite Nat.add_0_r.
    + apply IH in H as (pre & rest & len & c & -> & Hexec & ->).
      exists (String x pre), rest, len, c. rewrite append_cons. cbn [String.length].
      repeat split; [exact Hexec|]. f_equal. lia.
Qed.

Lemma search_pattern_lower_case (p : pattern) (s : string) (m : match_result) (n : nat) :
  lower_case s -> search_pattern true p s = Some m -> lower_case (group_text m n).
Proof.
  intros H E. apply search_pattern_from_inv in E as (pre & rest & len & c & -> & _ & ->).
  apply lower_case_group. exact (lower_case_suffix _ _ H).
Qed.

Lemma build_query_lower_case (lowerQuery tableName : string) :
  lower_case lowerQuery -> lower_case tableName ->
  lower_case_query (build_query lowerQuery tableName).
Proof.
  intros Hq Ht. unfold build_query. cbv zeta.
  assert (Hsel : lower_case
    match search_pattern true pat_select lowerQuery with
    | Some m =>
        if negb (String.eqb (group_text m 1) "")
        then if String.eqb (trim (group_text m 1)) "*" then "*" else trim (group_text m 1)
        else "*"
    | None => "*"
    end).
  { destruct (search_pattern true pat_select lowerQuery) as [m|] eqn:E; [|reflexivity].
    destruct (negb _); [|reflexivity]. destruct (String.eqb _ "*"); [reflexivity|].
    apply lower_case_trim. exact (search_pattern_lower_case _ _ _ _ Hq E). }
  assert (Hwhere : forall m, search_pattern true pat_where lowerQuery = Some m ->
            lower_case (trim (group_text m 1))).
  { intros m E. apply lower_case_trim. exact (search_pattern_lower_case _ _ _ _ Hq E). }
  assert (Hord : forall m, search true re_order_by lowerQuery = Some m ->
            lower_case (group_text m 1)).
  { intros m E. exact (search_lower_case _ _ _ _ Hq E). }
  destruct (search_pattern true pat_where lowerQuery) as [wm|].
  - specialize (Hwhere wm eq_refl). destruct (negb (String.eqb (group_text wm 1) "")).
    + unfold lower_case_query. cbn [q_from q_select q_eq q_like q_order].
      split; [exact Ht|]. split; [exact Hsel|]. split; [|split].
      * intros c v. destruct (search true re_equals _) as [em|] eqn:Ee; [|discriminate].
        intros [= <- <-]. split; exact (search_lower_case _ _ _ _ Hwhere Ee).
      * intros c v. destruct (search true re_like _) as [km|] eqn:Ek; [|discriminate].
        intros [= <- <-]. split; exact (search_lower_case _ _ _ _ Hwhere Ek).
      * intros c a. destruct (search true re_order_by lowerQuery) as [om|]; [|discriminate].
        destruct (negb _); [|discriminate]. intros [= <- _]. now apply Hord.
    + unfold lower_case_query. cbn [q_from q_select q_eq q_like q_order].
      split; [exact Ht|]. split; [exact Hsel|]. split; [discriminate|]. split; [discriminate|].
      intros c a. destruct (search true re_order_by lowerQuery) as [om|]; [|discriminate].
      destruct (negb _); [|discriminate]. intros [= <- _]. now apply Hord.
  - unfold lower_case_query. cbn [q_from q_select q_eq q_like q_order].
    split; [exact Ht|]. split; [exact Hsel|]. split; [discriminate|]. split; [discriminate|].
    intros c a. destruct (search true re_order_by lowerQuery) as [om|]; [|discriminate].
    destruct (negb _); [|discriminate]. intros [= <- _]. now apply Hord.
Qed.

Lemma all_rows_lower_case (t : string) (n : N) :
  lower_case t -> lower_case_query (all_rows t n).
Proof.
  intros Ht. unfold lower_case_query, all_rows. cbn.
  split; [exact Ht|]. split; [reflexivity|]. repeat split; discriminate.
Qed.

Lemma table_lower_case (lowerQuery t : string) :
  lower_case lowerQuery ->
  search true re_from lowerQuery ≫= (fun fromMatch => group fromMatch 1) = Some t ->
  lower_case t.
Proof.
  intros Hq H. destruct (search true re_from lowerQuery) as [m|] eqn:E; [|discriminate H].
  cbn in H. pose proof (search_lower_case _ _ _ 1 Hq E) as Hl.
  unfold group_text in Hl. now rewrite H in Hl.
Qed.

(** Whatever the letter case of the query, every name and every literal
    that the handler hands to the database in a built query is in lower
    case: the table, the columns, the column and the value of an equality
    and of a [like] filter, and the column of the ordering. *)
Theorem POST_queries_in_lower_case (h : host) (srv : server) (req : request_body)
    (q : built_query) :
  In (Select q) (fst (POST h srv req)) -> lower_case_query q.
Proof.
  unfold POST. destruct req as [| |[| | | |sqlQuery|]]; cbn [fst In]; try tauto.
  destruct (String.eqb sqlQuery "" || String.eqb (trim sqlQuery) ""); cbn [fst In];
    [tauto|].
  destruct (negb (startsWith (toLowerCase (cleanedQuery_of sqlQuery)) "select"));
    cbn [fst In]; [tauto|].
  destruct (env_url srv) as [[|a url]|]; cbn [fst In]; try tauto.
  destruct (createServerClient srv) as [supabase|e]; cbn [fst In]; [|tauto].
  set (cleanedQuery := cleanedQuery_of sqlQuery).
  assert (H1 : In (Select q) (fst (raw_sql_strategy h supabase cleanedQuery)) ->
               lower_case_query q).
  { unfold raw_sql_strategy. destruct (needsRawSQL cleanedQuery); [|intros []].
    cbv zeta.
    assert (Hconv : forall tables,
              tables = fst (executeConvertedQuery h (fetch_client supabase)
                              (convertPostgreSQLFunctions cleanedQuery)) ->
              In (Select q) (map (fun t => Select (all_rows t 10000)) tables) ->
              lower_case_query q).
    { intros tables -> Hin. apply in_map_iff in Hin as (t & [= <-] & Ht).
      apply all_rows_lower_case. unfold executeConvertedQuery in Ht.
      destruct (canProcess _); [|destruct Ht].
      destruct (table_name _) as [[|c0 t0]|] eqn:Et; cbn [fst In] in Ht; try tauto.
      destruct Ht as [<-|[]]. unfold table_name in Et.
      exact (table_lower_case _ _ (toLowerCase_idem _) Et). }
    destruct (negb (String.eqb _ _)).
    - destruct (executeConvertedQuery h (fetch_client supabase) _) as [tables result] eqn:Ex.
      assert (Htab : tables = fst (executeConvertedQuery h (fetch_client supabase)
                                      (convertPostgreSQLFunctions cleanedQuery)))
        by now rewrite Ex.
      destruct result as [rows|e].
      + cbn [fst]. now apply Hconv.
      + destruct (rpc supabase _ _) as [rr|e'];
          [destruct (error_of rr); [|destruct (rows_of rr)]|];
          cbn [fst]; intros Hin; apply in_app_iff in Hin as [Hin|[Hin|[]]];
          try discriminate Hin; now apply (Hconv tables).
    - destruct (rpc supabase _ _) as [rr|e'];
        [destruct (error_of rr); [|destruct (rows_of rr)]|];
        cbn [fst app In]; intros [Hin|[]]; discriminate Hin. }
  assert (H2 : In (Select q) (fst (query_builder_strategy supabase cleanedQuery)) ->
               lower_case_query q).
  { unfold query_builder_strategy. cbv zeta.
    destruct (search true re_from _ ≫= _) as [[|c0 t]|] eqn:Et; cbn [fst In]; try tauto.
    intros [[= <-]|[]]. apply build_query_lower_case; [apply toLowerCase_idem|].
    exact (table_lower_case _ _ (toLowerCase_idem _) Et). }
  destruct (raw_sql_strategy h supabase cleanedQuery) as [calls [r|]]; cbn [fst] in *;
    [exact H1|].
  destruct (query_builder_strategy supabase cleanedQuery) as [calls2 r2]; cbn [fst] in *.
  intros Hin. apply in_app_iff in Hin as [Hin|Hin]; auto.
Qed.
Lemma POST_database_only_for_select_witness :
  fst (POST utc (users_server [])
         (JsonValue (PString " SELECT name FROM Users WHERE name = 'Alice' LIMIT 5;")))
  = [Select {| q_from := "users"; q_select := "name"; q_eq := Some ("name", "alice");
               q_like := None; q_order := None; q_limit := 5 |}] /\
  exists sqlQuery url supabase,
    JsonValue (PString " SELECT name FROM Users WHERE name = 'Alice' LIMIT 5;")
      = JsonValue (PString sqlQuery) /\
    startsWith (toLowerCase (cleanedQuery_of sqlQuery)) "select" = true /\
    env_url (users_server []) = Some url /\ url <> "" /\
    createServerClient (users_server []) = Normal supabase.
Proof.
  split; [vm_compute; reflexivity|].
  apply (POST_database_only_for_select utc (users_server [])
           (JsonValue (PString " SELECT name FROM Users WHERE name = 'Alice' LIMIT 5;"))).
  vm_compute. discriminate.
Defined.

Lemma POST_queries_in_lower_case_witness :
  In (Select {| q_from := "users"; q_select := "name"; q_eq := Some ("name", "alice");
                q_like := None; q_order := None; q_limit := 5 |})
     (fst (POST utc (users_server [])
             (JsonValue (PString " SELECT name FROM Users WHERE name = 'Alice' LIMIT 5;")))) /\
  lower_case_query
    {| q_from := "users"; q_select := "name"; q_eq := Some ("name", "alice");
       q_like := None; q_order := None; q_limit := 5 |}.
Proof.
  split; [vm_compute; tauto|].
  apply (POST_queries_in_lower_case utc (users_server [])
           (JsonValue (PString " SELECT name FROM Users WHERE name = 'Alice' LIMIT 5;"))).
  vm_compute. tauto.
Defined.

(** The function for raw SQL is called at most once, under its name, for
    a query that matches one of the patterns of lines 432-448, and with
    the query as the request has it, trimmed and without its final
    semicolon: not with the converted query. The handler makes three calls
    at most. *)
Theorem POST_raw_sql_call (h : host) (srv : server) (req : request_body) :
  (length (fst (POST h srv req)) <= 3)%nat /\
  forall name query, In (Rpc name query) (fst (POST h srv req)) ->
    name = "execute_raw_sql" /\ needsRawSQL query = true /\
    exists sqlQuery,
      req = JsonValue (PString sqlQuery) /\ query = cleanedQuery_of sqlQuery.
Proof.
  unfold POST. destruct req as [| |[| | | |sqlQuery|]]; cbn [fst In length];
    try (split; [lia|tauto]).
  destruct (String.eqb sqlQuery "" || String.eqb (trim sqlQuery) ""); cbn [fst In length];
    [split; [lia|tauto]|].
  destruct (negb (startsWith (toLowerCase (cleanedQuery_of sqlQuery)) "select"));
    cbn [fst In length]; [split; [lia|tauto]|].
  destruct (env_url srv) as [[|a url]|]; cbn [fst In length]; try (split; [lia|tauto]).
  destruct (createServerClient srv) as [supabase|e]; cbn [fst In length];
    [|split; [lia|tauto]].
  set (cleanedQuery := cleanedQuery_of sqlQuery).
  assert (Htab : forall query, (length (fst (executeConvertedQuery h (fetch_client supabase)
                                  query)) <= 1)%nat).
  { intros query. unfold executeConvertedQuery. destruct (canProcess query); [|simpl; lia].
    destruct (table_name query) as [[|c0 t0]|]; simpl; lia. }
  assert (H1 : (length (fst (raw_sql_strategy h supabase cleanedQuery)) <= 2)%nat /\
               forall name query,
                 In (Rpc name query) (fst (raw_sql_strategy h supabase cleanedQuery)) ->
                 name = "execute_raw_sql" /\ needsRawSQL query = true /\ query = cleanedQuery).
  { unfold raw_sql_strategy. destruct (needsRawSQL cleanedQuery) eqn:En;
      [|split; [simpl; lia|intros ? ? []]].
    cbv zeta. destruct (negb (String.eqb _ _)).
    - specialize (Htab (convertPostgreSQLFunctions cleanedQuery)).
      destruct (executeConvertedQuery h (fetch_client supabase) _) as [tables result].
      cbn [fst] in Htab.
      assert (Hno : forall name query,
                ~ In (Rpc name query) (map (fun t => Select (all_rows t 10000)) tables)).
      { intros name query Hin. apply in_map_iff in Hin as (t & Ht & _). discriminate Ht. }
      destruct result as [rows|e].
      + cbn [fst]. rewrite length_map. split; [lia|]. intros name query Hin.
        now apply Hno in Hin.
      + destruct (rpc supabase _ _) as [rr|e'];
          [destruct (error_of rr); [|destruct (rows_of rr)]|];
          cbn [fst]; rewrite length_app, length_map; cbn [length]; (split; [lia|]);
          intros name query Hin; apply in_app_iff in Hin as [Hin|[[= <- <-]|[]]];
          try (now apply Hno in Hin); auto.
    - destruct (rpc supabase _ _) as [rr|e'];
        [destruct (error_of rr); [|destruct (rows_of rr)]|];
        cbn [fst app length In]; (split; [lia|]);
        intros name query [[= <- <-]|[]]; auto. }
  assert (H2 : (length (fst (query_builder_strategy supabase cleanedQuery)) <= 1)%nat /\
               forall name query,
                 ~ In (Rpc name query) (fst (query_builder_strategy supabase cleanedQuery))).
  { unfold query_builder_strategy. cbv zeta.
    destruct (search true re_from _ ≫= _) as [[|c0 t]|]; cbn [fst length In];
      (split; [lia|]); try tauto.
    intros name query [Hin|[]]. discriminate Hin. }
  destruct H1 as [L1 R1], H2 as [L2 R2].
  destruct (raw_sql_strategy h supabase cleanedQuery) as [calls [r|]]; cbn [fst] in *.
  - split; [lia|]. intros name query Hin. destruct (R1 _ _ Hin) as (-> & Hn & ->).
    repeat split; [exact Hn|]. now exists sqlQuery.
  - destruct (query_builder_strategy supabase cleanedQuery) as [calls2 r2]; cbn [fst] in *.
    rewrite length_app. split; [lia|]. intros name query Hin.
    apply in_app_iff in Hin as [Hin|Hin]; [|now apply R2 in Hin].
    destruct (R1 _ _ Hin) as (-> & Hn & ->). repeat split; [exact Hn|]. now exists sqlQuery.
Qed.

Lemma analyze_type_known (errorMessage query : string) :
  In (type (analyzeQueryError errorMessage query)) error_types.
Proof. rewrite <- list_elem_of_In. by_probes. Qed.

Lemma analyze_suggests (errorMessage query : string) :
  suggestions (analyzeQueryError errorMessage query) <> [].
Proof. by_probes. Qed.

(** A response that names an error type is the answer to a failed query
    of the builder: its status is 400, the type is one of six, and it
    carries at least one suggestion. *)
Theorem POST_error_analysis (h : host) (srv : server) (req : request_body) (t : string) :
  In ("error_type", JString t) (body (snd (POST h srv req))) ->
  status (snd (POST h srv req)) = 400 /\
  In t error_types /\
  exists l, In ("suggestions", JStrings l) (body (snd (POST h srv req))) /\ l <> [].
Proof.
  assert (F : forall e, ~ In ("error_type", JString t) (body (failure_response e))).
  { intros e. unfold failure_response. cbv zeta.
    repeat match goal with |- context [if ?b then _ else _] => destruct b end;
      cbn [body In]; intuition discriminate. }
  unfold POST. destruct req as [| |[| | | |sqlQuery|]]; cbn [snd];
    try (cbn [body In]; intuition discriminate); try (intros H; now apply F in H).
  destruct (String.eqb sqlQuery "" || String.eqb (trim sqlQuery) ""); cbn [snd];
    [cbn [body In]; intuition discriminate|].
  destruct (negb (startsWith (toLowerCase (cleanedQuery_of sqlQuery)) "select")); cbn [snd];
    [cbn [body In]; intuition discriminate|].
  destruct (env_url srv) as [[|a url]|]; cbn [snd];
    try (cbn [body In]; intuition discriminate).
  destruct (createServerClient srv) as [supabase|e]; cbn [snd];
    [|intros H; now apply F in H].
  destruct (raw_sql_strategy h supabase (cleanedQuery_of sqlQuery)) as [calls [r|]] eqn:E1;
    cbn [snd].
  - unfold raw_sql_strategy in E1.
    destruct (needsRawSQL (cleanedQuery_of sqlQuery)); [|discriminate E1].
    cbv zeta in E1.
    destruct (negb (String.eqb _ _)).
    + destruct (executeConvertedQuery h (fetch_client supabase) _) as [tables [rows|e]].
      * injection E1 as _ <-. cbn [body In]. intuition discriminate.
      * destruct (rpc supabase _ _) as [rr|e']; [|discriminate E1].
        destruct (error_of rr); [discriminate E1|].
        destruct (rows_of rr); [|discriminate E1]. injection E1 as _ <-.
        cbn [body In]. intuition discriminate.
    + destruct (rpc supabase _ _) as [rr|e']; [|discriminate E1].
      destruct (error_of rr); [discriminate E1|].
      destruct (rows_of rr); [|discriminate E1]. injection E1 as _ <-.
      cbn [body In]. intuition discriminate.
  - unfold query_builder_strategy. cbv zeta.
    destruct (search true re_from _ ≫= _) as [[|c0 t0]|]; cbn [snd];
      try (cbn [body In]; intuition discriminate).
    destruct (select supabase _) as [r|e]; cbn [bind]; [|intros H; now apply F in H].
    destruct (error_of r) as [err|]; [|cbn [body In]; intuition discriminate].
    cbn [body status In]. intros H.
    assert (Ht : t = type (analyzeQueryError (message err) (cleanedQuery_of sqlQuery))).
    { destruct H as [H|[H|[H|[H|[H|[H|[H|[]]]]]]]]; try discriminate H. now injection H. }
    subst t. split; [reflexivity|]. split; [apply analyze_type_known|].
    eexists. split; [do 4 right; left; reflexivity|apply analyze_suggests].
Qed.

Lemma POST_error_analysis_witness :
  In ("error_type", JString "table_not_found")
     (body (snd (POST utc (users_server []) (JsonValue (PString "select * from orders"))))) /\
  status (snd (POST utc (users_server []) (JsonValue (PString "select * from orders")))) = 400.
Proof.
  split; [vm_compute; tauto|].
  apply (POST_error_analysis utc (users_server [])
           (JsonValue (PString "select * from orders")) "table_not_found").
  vm_compute. tauto.
Defined.

(** Where the query matches a pattern of lines 432-448, the normaliser
    changes it and the aggregator returns, the handler answers with the
    rows of the aggregator, an empty list included, and does not call the
    function for raw SQL. *)
Theorem POST_converted_query_answered (h : host) (srv : server) (sqlQuery url : string)
    (supabase : supabase_client) (rows : list obj) :
  String.eqb sqlQuery "" || String.eqb (trim sqlQuery) "" = false ->
  startsWith (toLowerCase (cleanedQuery_of sqlQuery)) "select" = true ->
  env_url srv = Some url -> url <> "" ->
  createServerClient srv = Normal supabase ->
  needsRawSQL (cleanedQuery_of sqlQuery) = true ->
  convertPostgreSQLFunctions (cleanedQuery_of sqlQuery) <> cleanedQuery_of sqlQuery ->
  snd (executeConvertedQuery h (fetch_client supabase)
         (convertPostgreSQLFunctions (cleanedQuery_of sqlQuery))) = Normal rows ->
  snd (POST h srv (JsonValue (PString sqlQuery)))
  = {| status := 200;
       body := [("data", JObjects rows);
                ("execution_method", JString "converted_postgresql");
                ("query", JString (cleanedQuery_of sqlQuery));
                ("converted_query",
                 JString (convertPostgreSQLFunctions (cleanedQuery_of sqlQuery)));
                ("row_count", JNumber (Z.of_nat (length rows)));
                ("note", JString "Query was automatically converted from PostgreSQL syntax")] |} /\
  forall name query, ~ In (Rpc name query) (fst (POST h srv (JsonValue (PString sqlQuery)))).
Proof.
  intros Hq Hs Hu Hu' Hc Hn Hconv Hrun. unfold POST. rewrite Hq, Hs, Hu, Hc. cbn [negb].
  destruct url as [|a url]; [congruence|].
  unfold raw_sql_strategy. rewrite Hn. cbv zeta.
  apply String.eqb_neq in Hconv. rewrite Hconv. cbn [negb].
  destruct (executeConvertedQuery h (fetch_client supabase) _) as [tables result].
  cbn [snd] in Hrun. subst result. cbn [fst snd]. split; [reflexivity|].
  intros name query Hin. apply in_map_iff in Hin as (t & Ht & _). discriminate Ht.
Qed.

Lemma POST_converted_query_answered_witness :
  snd (POST utc (users_server [])
         (JsonValue (PString "SELECT DATE_TRUNC('week', signup_date::date) AS week FROM users")))
  = {| status := 200;
       body := [("data", JObjects []);
                ("execution_method", JString "converted_postgresql");
                ("query", JString
                   "SELECT DATE_TRUNC('week', signup_date::date) AS week FROM users");
                ("converted_query", JString
                   "SELECT DATE_TRUNC('week', signup_date) AS week FROM users");
                ("row_count", JNumber 0);
                ("note", JString "Query was automatically converted from PostgreSQL syntax")] |}.
Proof.
  refine (eq_trans (proj1 (POST_converted_query_answered utc (users_server [])
    "SELECT DATE_TRUNC('week', signup_date::date) AS week FROM users"
    "https://project.supabase.co" (users_only []) [] _ _ _ _ _ _ _ _)) _);
    try (vm_compute; reflexivity); try (vm_compute; discriminate).
Defined.

Lemma trimEnd_last (a : string) (c : ascii) :
  is_space c = false -> trimEnd (a ++ String c "") = a ++ String c "".
Proof.
  intros Hc. induction a as [|x a IH].
  - rewrite append_empty_l. cbn [trimEnd]. now rewrite Hc.
  - rewrite append_cons. cbn [trimEnd]. rewrite IH.
    destruct a as [|y a]; [rewrite append_empty_l|rewrite append_cons]; reflexivity.
Qed.

Lemma trimStart_id (s : string) : first_char is_space s = false -> trimStart s = s.
Proof. destruct s as [|c s]; [reflexivity|]. cbn [first_char trimStart]. now intros ->. Qed.

Lemma final_semicolon_nowhere_before (s : string) :
  nowhere_before (matches_at false re_final_semicolon) s ";" = true.
Proof.
  induction s as [|c s IH]; [reflexivity|]. cbn [nowhere_before]. rewrite IH, andb_true_r.
  unfold matches_at, exec, re_final_semicolon. rewrite append_cons. cbn [run seq].
  destruct (chr_match false ";" c); [|reflexivity].
  destruct s as [|d s]; [rewrite append_empty_l|rewrite append_cons]; reflexivity.
Qed.

(** The handler removes one semicolon at the end of the query, and one
    only. *)
Theorem cleanedQuery_of_semicolon (s : string) :
  first_char is_space s = false ->
  cleanedQuery_of (s ++ ";") = s /\ cleanedQuery_of (s ++ ";;") = s ++ ";".
Proof.
  assert (H : forall t, first_char is_space t = false -> cleanedQuery_of (t ++ ";") = t).
  { intros t Ht. unfold cleanedQuery_of, trim.
    rewrite trimStart_id.
    2:{ destruct t as [|c t]; [reflexivity|]. rewrite append_cons. exact Ht. }
    rewrite trimEnd_last by reflexivity.
    unfold replace_first, search.
    rewrite (search_from_at false re_final_semicolon 0 t ";" 1 []
               (final_semicolon_nowhere_before t) eq_refl).
    cbn [index whole mk_result take String.length Nat.add].
    rewrite take_length. rewrite append_empty_l.
    replace (String.length t + 1)%nat with (String.length (t ++ ";"))
      by (rewrite length_append; reflexivity).
    rewrite <- (append_empty_r (t ++ ";")) at 2. rewrite drop_length.
    apply append_empty_r. }
  intros Hs. split; [now apply H|].
  replace (s ++ ";;") with ((s ++ ";") ++ ";") by (now rewrite append_assoc).
  apply H. destruct s as [|c s]; [reflexivity|]. rewrite append_cons. exact Hs.
Qed.

Lemma cleanedQuery_of_semicolon_witness :
  first_char is_space "select 1" = false /\
  cleanedQuery_of ("select 1" ++ ";") = "select 1".
Proof.
  split; [reflexivity|].
  apply (cleanedQuery_of_semicolon "select 1"). reflexivity.
Defined.

(** The effect of the updates of lines 325-335 on the accumulator of the
    segments. *)
Lemma update_counts_segments (h : host) (r : row) (o o' : obj) (ss : list prim) :
  o !! "_segments" = Some (VSet ss) ->
  o !! "segment_count" = Some (VPrim (PNumber (Num (Z.of_nat (length ss))))) ->
  update_counts h r o = Normal o' ->
  let x := Val.get r "user_segment" in
  let ss' :=
    if Val.truthy x then (if bool_decide (x ∈ ss) then ss else (ss ++ [x])%list) else ss in
  o' !! "_segments" = Some (VSet ss') /\
  o' !! "segment_count" = Some (VPrim (PNumber (Num (Z.of_nat (length ss'))))).
Proof.
  intros Hs Hc. unfold update_counts.
  destruct (hasOwnProperty o "user_count") as [own1|]; [|discriminate]. cbn [bind].
  set (o1 := if own1 then increment h "user_count" o else o).
  assert (Hs1 : o1 !! "_segments" = Some (VSet ss)).
  { unfold o1. destruct own1; [|exact Hs]. now rewrite increment_other by discriminate. }
  assert (Hc1 : o1 !! "segment_count" = Some (VPrim (PNumber (Num (Z.of_nat (length ss)))))).
  { unfold o1. destruct own1; [|exact Hc]. now rewrite increment_other by discriminate. }
  clearbody o1.
  destruct (hasOwnProperty o1 "country_count") as [own2|]; [|discriminate]. cbn [bind].
  assert (Hne : "_segments" <> "segment_count") by discriminate.
  assert (Hnp : "segment_count" <> "__proto__") by discriminate.
  assert (Hlast : forall o2,
    o2 !! "_segments" = Some (VSet ss) ->
    o2 !! "segment_count" = Some (VPrim (PNumber (Num (Z.of_nat (length ss))))) ->
    (let* own := hasOwnProperty o2 "segment_count" in
     if own && Val.truthy (Val.get r "user_segment")
     then add_distinct "_segments" "segment_count" (Val.get r "user_segment") o2
     else Normal o2) = Normal o' ->
    o' !! "_segments"
      = Some (VSet (if Val.truthy (Val.get r "user_segment")
                    then (if bool_decide (Val.get r "user_segment" ∈ ss) then ss
                          else (ss ++ [Val.get r "user_segment"])%list)
                    else ss)) /\
    o' !! "segment_count"
      = Some (VPrim (PNumber (Num (Z.of_nat (length
          (if Val.truthy (Val.get r "user_segment")
           then (if bool_decide (Val.get r "user_segment" ∈ ss) then ss
                 else (ss ++ [Val.get r "user_segment"])%list)
           else ss))))))).
  { intros o2 Hs2 Hc2.
    destruct (hasOwnProperty o2 "segment_count") as [own3|] eqn:E3; [|discriminate].
    cbn [bind]. apply hasOwnProperty_inv in E3. rewrite Hc2 in E3.
    rewrite bool_decide_eq_true_2 in E3 by eauto. subst own3. cbn [andb].
    destruct (Val.truthy (Val.get r "user_segment")).
    - intros Ea. destruct (add_distinct_inv _ _ _ _ _ ss Hne Hs2 Ea) as [H1 H2].
      split; [exact H1|exact (H2 Hnp)].
    - intros [= <-]. now split. }
  destruct (own2 && Val.truthy (Val.get r "country")).
  - destruct (add_distinct "_countries" "country_count" _ o1) as [o2|] eqn:Ea; [|discriminate].
    cbn [bind]. intros Hrest. cbv zeta. apply (Hlast o2); [| |exact Hrest].
    + now rewrite (add_distinct_other _ _ _ _ _ _ Ea) by discriminate.
    + now rewrite (add_distinct_other _ _ _ _ _ _ Ea) by discriminate.
  - cbn [bind]. intros Hrest. cbv zeta. now apply (Hlast o1).
Qed.

Lemma new_date_trunc_row_segments (originalQuery label : string) :
  includes originalQuery "COUNT(DISTINCT user_segment)" = true ->
  new_date_trunc_row originalQuery label !! "_segments" = Some (VSet []) /\
  new_date_trunc_row originalQuery label !! "segment_count" = Some (VPrim (PNumber (Num 0))).
Proof.
  intros H. unfold new_date_trunc_row, Val.set. cbv zeta. rewrite H.
  change (String.eqb "segment_count" "__proto__") with false.
  change (String.eqb "_segments" "__proto__") with false. cbv iota.
  split; [apply lookup_insert_eq|].
  rewrite lookup_insert_ne by discriminate. apply lookup_insert_eq.
Qed.

(** The second distinct count of the date-trunc path: where the query
    contains [COUNT(DISTINCT user_segment)], the [segment_count] of a
    result row is the number of distinct values that pass for true among
    the [user_segment] fields of the rows of its label. *)
Theorem date_trunc_distinct_segments (h : host) (originalQuery : string)
    (dm : match_result) (rows : list row) (result : list obj) :
  search true re_date_trunc originalQuery = Some dm ->
  includes originalQuery "COUNT(DISTINCT user_segment)" = true ->
  ~ In (alias_of originalQuery) reserved_names ->
  processDateTruncQuery h (Some rows) originalQuery = Normal result ->
  forall o, In o result ->
    exists (label : string) (segments : list prim),
      o !! alias_of originalQuery = Some (VPrim (PString label)) /\
      o !! "segment_count"
        = Some (VPrim (PNumber (Num (Z.of_nat (length segments))))) /\
      List.NoDup segments /\
      forall x, In x segments <->
        exists r, In r rows /\
          has_label h (group_text dm 1) (column_of dm) label r = true /\
          Val.truthy (Val.get r "user_segment") = true /\ Val.get r "user_segment" = x.
Proof.
  intros Hm Hflag Hres Hrun.
  destruct (processDateTruncQuery_inv h originalQuery dm rows result Hm Hrun)
    as (buckets & Hb & ->).
  set (precision := group_text dm 1) in *. set (column := column_of dm) in *.
  set (alias := alias_of originalQuery) in *.
  pose proof (not_reserved _ Hres) as (N1 & N2 & N3 & N4 & N5 & N6 & N7).
  pose (B := fun (k : string) (o : obj) (P : list row) =>
    o !! alias = Some (VPrim (PString k)) /\
    exists ss,
      o !! "_segments" = Some (VSet ss) /\
      o !! "segment_count" = Some (VPrim (PNumber (Num (Z.of_nat (length ss))))) /\
      List.NoDup ss /\
      forall x, In x ss <->
        exists r, In r P /\ has_label h precision column k r = true /\
          Val.truthy (Val.get r "user_segment") = true /\ Val.get r "user_segment" = x).
  assert (Hok : buckets_ok h precision column B buckets rows).
  { apply (date_trunc_buckets_ok h originalQuery precision column B); [| | |exact Hb].
    - intros k o P r Hno [H1 (ss & H2 & H3 & H4 & H5)]. split; [exact H1|].
      exists ss. repeat split; try assumption.
      + intros Hx. apply H5 in Hx as (r' & Hr' & Hx). exists r'.
        split; [apply in_app_iff; now left|exact Hx].
      + intros (r' & Hr' & Hl & Hx). apply H5. exists r'. split; [|now split].
        apply in_app_iff in Hr' as [Hr'|[<-|[]]]; [exact Hr'|congruence].
    - intros k o o' P r Hyes [H1 (ss & H2 & H3 & H4 & H5)] Hu. split.
      + rewrite (update_counts_other h r o o' alias); [exact H1| |exact Hu].
        simpl. intuition congruence.
      + destruct (update_counts_segments h r o o' ss H2 H3 Hu) as [H2' H3'].
        cbv zeta in H2', H3'.
        destruct (Val.truthy (Val.get r "user_segment")) eqn:Et.
        * destruct (bool_decide (Val.get r "user_segment" ∈ ss)) eqn:Ein.
          -- apply bool_decide_eq_true_1, list_elem_of_In in Ein.
             exists ss. repeat split; try assumption.
             ++ intros Hx. apply H5 in Hx as (r' & Hr' & Hx). exists r'.
                split; [apply in_app_iff; now left|exact Hx].
             ++ intros (r' & Hr' & Hl & Ht & Hx).
                apply in_app_iff in Hr' as [Hr'|[<-|[]]];
                  [apply H5; exists r'; now repeat split|].
                now rewrite <- Hx.
          -- apply bool_decide_eq_false_1 in Ein. rewrite list_elem_of_In in Ein.
             exists (ss ++ [Val.get r "user_segment"])%list. repeat split; try assumption.
             ++ now apply nodup_snoc.
             ++ intros Hx. apply in_app_iff in Hx as [Hx|[<-|[]]].
                ** apply H5 in Hx as (r' & Hr' & Hx). exists r'.
                   split; [apply in_app_iff; now left|exact Hx].
                ** exists r. split; [apply in_app_iff; right; now left|now repeat split].
             ++ intros (r' & Hr' & Hl & Ht & Hx). apply in_app_iff.
                apply in_app_iff in Hr' as [Hr'|[<-|[]]].
                ** left. apply H5. exists r'. now repeat split.
                ** right. now left.
        * exists ss. repeat split; try assumption.
          -- intros Hx. apply H5 in Hx as (r' & Hr' & Hx). exists r'.
             split; [apply in_app_iff; now left|exact Hx].
          -- intros (r' & Hr' & Hl & Ht & Hx). apply H5. exists r'.
             apply in_app_iff in Hr' as [Hr'|[<-|[]]]; [now repeat split|congruence].
    - intros k P Hz. split; [now apply new_date_trunc_row_alias|].
      destruct (new_date_trunc_row_segments originalQuery k Hflag) as [H2 H3].
      exists []. repeat split; try assumption; [constructor|intros []|].
      intros (r & Hr & Hl & _). exfalso. unfold rows_with_label in Hz.
      assert (Hin : In r (List.filter (has_label h precision column k) P))
        by (apply filter_In; now split).
      destruct (List.filter (has_label h precision column k) P); [exact Hin|].
      cbn [length] in Hz. lia. }
  destruct Hok as (_ & _ & Hin).
  destruct (date_trunc_result_rows h originalQuery (map clean_row (SMap.values buckets)))
    as [Hsub _].
  intros o Ho. apply Hsub in Ho. unfold SMap.values in Ho. rewrite map_map in Ho.
  apply in_map_iff in Ho as ([k o0] & <- & Hk). cbn [snd].
  destruct (Hin _ _ Hk) as [[H1 (ss & H2 & H3 & H4 & H5)] _]. exists k, ss.
  rewrite !clean_row_other by congruence. auto.
Qed.

Lemma date_trunc_distinct_segments_witness :
  includes
    "SELECT COUNT(DISTINCT user_segment) AS s, DATE_TRUNC('day', d) AS day FROM t GROUP BY day"
    "COUNT(DISTINCT user_segment)" = true /\
  processDateTruncQuery utc
    (Some [ {[ "d" := PString "2024-03-14T08:00:00Z"; "user_segment" := PString "pro" ]};
            {[ "d" := PString "2024-03-14T09:00:00Z"; "user_segment" := PString "free" ]};
            {[ "d" := PString "2024-03-14T10:00:00Z"; "user_segment" := PString "pro" ]};
            {[ "d" := PString "2024-03-14T11:00:00Z"; "user_segment" := PNull ]} ])
    "SELECT COUNT(DISTINCT user_segment) AS s, DATE_TRUNC('day', d) AS day FROM t GROUP BY day"
  = Normal [ {[ "day" := VPrim (PString "2024-03-14");
                "segment_count" := VPrim (PNumber (Num 2)) ]} ] /\
  forall o,
    In o [ ({[ "day" := VPrim (PString "2024-03-14");
               "segment_count" := VPrim (PNumber (Num 2)) ]} : obj) ] ->
    exists (label : string) (segments : list prim),
      o !! "day" = Some (VPrim (PString label)) /\
      o !! "segment_count" = Some (VPrim (PNumber (Num (Z.of_nat (length segments))))) /\
      List.NoDup segments.
Proof.
  split; [vm_compute; reflexivity|].
  split; [vm_compute; reflexivity|].
  destruct (search true re_date_trunc
    "SELECT COUNT(DISTINCT user_segment) AS s, DATE_TRUNC('day', d) AS day FROM t GROUP BY day")
    as [m|] eqn:E; [|vm_compute in E; discriminate E].
  pose proof (date_trunc_distinct_segments utc _ m
    [ {[ "d" := PString "2024-03-14T08:00:00Z"; "user_segment" := PString "pro" ]};
      {[ "d" := PString "2024-03-14T09:00:00Z"; "user_segment" := PString "free" ]};
      {[ "d" := PString "2024-03-14T10:00:00Z"; "user_segment" := PString "pro" ]};
      {[ "d" := PString "2024-03-14T11:00:00Z"; "user_segment" := PNull ]} ]
    [ {[ "day" := VPrim (PString "2024-03-14");
         "segment_count" := VPrim (PNumber (Num 2)) ]} ] E) as H.
  vm_compute in E. injection E as <-.
  specialize (H ltac:(vm_compute; reflexivity) ltac:(vm_compute; intuition discriminate)
                ltac:(vm_compute; reflexivity)).
  intros o Ho. destruct (H o Ho) as (label & ss & H1 & H2 & H3 & _).
  exists label, ss. repeat split; assumption.
Defined.

(* ===================================================================== *)
(** ** The two passes of the normaliser                                  *)
(* ===================================================================== *)

Lemma greedy_inv_all (p : ascii -> bool) (k : string -> nat -> outcome)
    (s : string) (i : nat) (x : nat * caps) :
  greedy p k s i = Some x ->
  exists t s', s = t ++ s' /\ all_chars p t = true /\ k s' (i + String.length t)%nat = Some x.
Proof.
  revert i. induction s as [|a s IH]; intros i H; simpl in H.
  - exists "", "". split; [reflexivity|]. split; [reflexivity|]. simpl. now rewrite Nat.add_0_r.
  - destruct (p a) eqn:Ea.
    + destruct (greedy p k s (S i)) eqn:E.
      * injection H as ->.
        destruct (IH _ E) as (t & s' & -> & Ht & Hk).
        exists (String a t), s'. split; [reflexivity|].
        split; [cbn [all_chars]; now rewrite Ea|].
        simpl. rewrite Nat.add_succ_r. exact Hk.
      * exists "", (String a s). split; [reflexivity|]. split; [reflexivity|].
        simpl. now rewrite Nat.add_0_r.
    + exists "", (String a s). split; [reflexivity|]. split; [reflexivity|].
      simpl. now rewrite Nat.add_0_r.
Qed.

Lemma space_not_word (a : ascii) : cls_match true ws a = true -> cls_match true word a = false.
Proof. intros H. each_ascii a; vm_compute in H; try discriminate H; reflexivity. Qed.

Lemma word_not_space (a : ascii) : cls_match true word a = true -> cls_match true ws a = false.
Proof. intros H. each_ascii a; vm_compute in H; try discriminate H; reflexivity. Qed.

Lemma space_not_paren (a : ascii) :
  cls_match true ws a = true -> chr_match true "(" a = false.
Proof. intros H. each_ascii a; vm_compute in H; try discriminate H; reflexivity. Qed.

Lemma space_not_f (a : ascii) :
  cls_match true ws a = true -> chr_match true "F" a = false.
Proof. intros H. each_ascii a; vm_compute in H; try discriminate H; reflexivity. Qed.

Lemma not_paren_not_close (a : ascii) :
  cls_match true (not_chr ")") a = true -> chr_match true ")" a = false.
Proof. intros H. each_ascii a; vm_compute in H; try discriminate H; reflexivity. Qed.

Lemma chr_match_close (a : ascii) : chr_match true ")" a = true -> a = ")"%char.
Proof. intros H. each_ascii a; vm_compute in H; try discriminate H; reflexivity. Qed.

Lemma chr_match_open (a : ascii) : chr_match true "(" a = true -> a = "("%char.
Proof. intros H. each_ascii a; vm_compute in H; try discriminate H; reflexivity. Qed.

Lemma chr_match_from (p a : ascii) :
  In p ["F"; "R"; "O"; "M"]%char -> chr_match true p a = true -> is_space a = false.
Proof.
  intros Hp H. simpl in Hp. destruct Hp as [<-|[<-|[<-|[<-|[]]]]];
    each_ascii a; vm_compute in H; try discriminate H; reflexivity.
Qed.

(** The piece of a text between two offsets. *)
Lemma slice_at (a x b : string) (i j : nat) :
  i = String.length a -> j = (i + String.length x)%nat -> slice i j (a ++ x ++ b) = x.
Proof.
  intros -> ->. unfold slice.
  replace (String.length a + String.length x - String.length a)%nat
    with (String.length x) by lia.
  now rewrite drop_length, take_length.
Qed.

Lemma take_span_drop (p : ascii -> bool) (s : string) (a : ascii) (s' : string) :
  drop (span_len p s) s = String a s' -> s = take (span_len p s) s ++ String a s'.
Proof. intros H. now rewrite <- H, take_drop. Qed.

(** A successful attempt of the call pattern, read off the text: the
    keyword and the parenthesis, the field, white space with [FROM], the
    source up to the first closing parenthesis. *)
Lemma exec_extract_inv (t : string) (len : nat) (c : caps) :
  exec true re_extract t = Some (len, c) ->
  exists head f mid src rest,
    t = head ++ f ++ mid ++ src ++ ")" ++ rest /\
    len = String.length (head ++ f ++ mid ++ src ++ ")") /\
    (8 <= String.length head)%nat /\ (6 <= String.length mid)%nat /\
    f <> "" /\ all_chars (cls_match true word) f = true /\
    first_char (cls_match true ws) mid = true /\
    src <> "" /\ all_chars (cls_match true (not_chr ")")) src = true /\
    group_text (mk_result 0 t len c) 1 = f /\
    group_text (mk_result 0 t len c) 2 = src.
Proof.
  unfold exec, re_extract. cbn [run seq lit].
  destruct t as [|a1 [|a2 [|a3 [|a4 [|a5 [|a6 [|a7 s]]]]]]];
    try discriminate;
    try (repeat match goal with
         | |- context [chr_match true ?p ?a] => destruct (chr_match true p a)
         end; discriminate).
  destruct (chr_match true "E" a1) eqn:K1; [|discriminate].
  destruct (chr_match true "X" a2) eqn:K2; [|discriminate].
  destruct (chr_match true "T" a3) eqn:K3; [|discriminate].
  destruct (chr_match true "R" a4) eqn:K4; [|discriminate].
  destruct (chr_match true "A" a5) eqn:K5; [|discriminate].
  destruct (chr_match true "C" a6) eqn:K6; [|discriminate].
  destruct (chr_match true "T" a7) eqn:K7; [|discriminate].
  rewrite greedy_span.
  2:{ intros a s' i' Ha. cbn [run]. now rewrite (space_not_paren _ Ha). }
  cbn [run].
  set (n0 := span_len (cls_match true ws) s).
  destruct (drop n0 s) as [|p s1] eqn:E0; [discriminate|].
  destruct (chr_match true "(" p) eqn:Ep; [|discriminate].
  rewrite greedy_span.
  2:{ intros a s' i' Ha. cbn [run]. now rewrite (space_not_word _ Ha). }
  cbn [run].
  set (n1 := span_len (cls_match true ws) s1).
  destruct (drop n1 s1) as [|f1 s2] eqn:E1; [discriminate|].
  destruct (cls_match true word f1) eqn:Ef1; [|discriminate].
  rewrite greedy_span.
  2:{ intros a s' i' Ha. cbn [run]. now rewrite (word_not_space _ Ha). }
  cbn [run].
  set (n2 := span_len (cls_match true word) s2).
  destruct (drop n2 s2) as [|b2 s3] eqn:E2; [discriminate|].
  destruct (cls_match true ws b2) eqn:Eb2; [|discriminate].
  rewrite greedy_span.
  2:{ intros a s' i' Ha. cbn [run]. now rewrite (space_not_f _ Ha). }
  cbn [run].
  set (n3 := span_len (cls_match true ws) s3).
  destruct (drop n3 s3) as [|r1 [|r2 [|r3 [|r4 [|b4 s5]]]]] eqn:E3;
    try discriminate;
    try (repeat match goal with
         | |- context [chr_match true ?p ?a] => destruct (chr_match true p a)
         end; discriminate).
  destruct (chr_match true "F" r1) eqn:F1; [|discriminate].
  destruct (chr_match true "R" r2) eqn:F2; [|discriminate].
  destruct (chr_match true "O" r3) eqn:F3; [|discriminate].
  destruct (chr_match true "M" r4) eqn:F4; [|discriminate].
  destruct (cls_match true ws b4) eqn:Eb4; [|discriminate].
  intros H. apply greedy_inv_all in H as (tsp & s6 & -> & Htsp & H).
  destruct s6 as [|g1 s7]; [discriminate|].
  destruct (cls_match true (not_chr ")") g1) eqn:Eg1; [|discriminate].
  rewrite greedy_span in H.
  2:{ intros a s' i' Ha. now rewrite (not_paren_not_close _ Ha). }
  set (n5 := span_len (cls_match true (not_chr ")")) s7) in *.
  destruct (drop n5 s7) as [|q rest] eqn:E5; [discriminate|].
  destruct (chr_match true ")" q) eqn:Eq; [|discriminate].
  apply chr_match_close in Eq as ->. apply chr_match_open in Ep as ->.
  injection H as <- <-.
  pose proof (take_span_drop _ _ _ _ E0) as D0.
  pose proof (take_span_drop _ _ _ _ E1) as D1.
  pose proof (take_span_drop _ _ _ _ E2) as D2.
  pose proof (take_span_drop _ _ _ _ E3) as D3.
  pose proof (take_span_drop _ _ _ _ E5) as D5.
  fold n0 in D0. fold n1 in D1. fold n2 in D2. fold n3 in D3. fold n5 in D5.
  pose proof (span_len_le (cls_match true ws) s) as L0.
  pose proof (span_len_le (cls_match true ws) s1) as L1.
  pose proof (span_len_le (cls_match true word) s2) as L2.
  pose proof (span_len_le (cls_match true ws) s3) as L3.
  pose proof (span_len_le (cls_match true (not_chr ")")) s7) as L5.
  fold n0 in L0. fold n1 in L1. fold n2 in L2. fold n3 in L3. fold n5 in L5.
  set (head := String a1 (String a2 (String a3 (String a4 (String a5 (String a6 (String a7
                 (take n0 s ++ String "(" (take n1 s1))))))))).
  set (f := String f1 (take n2 s2)).
  set (mid := String b2 (take n3 s3 ++
                String r1 (String r2 (String r3 (String r4 (String b4 tsp)))))).
  set (src := String g1 (take n5 s7)).
  assert (Hdec : String a1 (String a2 (String a3 (String a4 (String a5 (String a6 (String a7 s))))))
                 = head ++ f ++ mid ++ src ++ ")" ++ rest).
  { unfold head, f, mid, src.
    repeat (rewrite append_assoc || rewrite append_cons || rewrite append_empty_l).
    now rewrite <- D5, <- D3, <- D2, <- D1, <- D0. }
  assert (Lhead : String.length head = (8 + n0 + n1)%nat).
  { unfold head. cbn [String.length]. rewrite length_append. cbn [String.length].
    rewrite !length_take by assumption. lia. }
  assert (Lf : String.length f = (1 + n2)%nat).
  { unfold f. cbn [String.length]. rewrite length_take by assumption. lia. }
  assert (Lmid : String.length mid = (6 + n3 + String.length tsp)%nat).
  { unfold mid. cbn [String.length]. rewrite length_append. cbn [String.length].
    rewrite length_take by assumption. lia. }
  assert (Lsrc : String.length src = (1 + n5)%nat).
  { unfold src. cbn [String.length]. rewrite length_take by assumption. lia. }
  exists head, f, mid, src, rest.
  split; [exact Hdec|].
  split.
  { rewrite !length_append, Lhead, Lf, Lmid, Lsrc. cbn [String.length]. lia. }
  split; [lia|]. split; [lia|].
  split; [discriminate|].
  split; [unfold f; cbn [all_chars]; rewrite Ef1; apply all_chars_take_span|].
  split; [exact Eb2|].
  split; [discriminate|].
  split; [unfold src; cbn [all_chars]; rewrite Eg1; apply all_chars_take_span|].
  unfold group_text, mk_result, group. cbn [cap_lookup Nat.eqb]. rewrite Hdec.
  split.
  - apply slice_at; [rewrite Lhead; lia|rewrite Lf; lia].
  - rewrite <- (append_assoc f mid), <- (append_assoc head (f ++ mid)).
    apply slice_at.
    + rewrite !length_append, Lhead, Lf, Lmid. lia.
    + rewrite Lsrc. lia.
Qed.

Lemma rewrite_extracts_none (a : ascii) (s : string) :
  exec true re_extract (String a s) = None ->
  rewrite_extracts (String a s) = String a (rewrite_extracts s).
Proof. intros H. unfold rewrite_extracts, replace_all. cbn [replace_go]. now rewrite H. Qed.

(** The first pass at a call: the call is rewritten from its two groups
    and the pass goes on behind its closing parenthesis. *)
Lemma rewrite_extracts_call (t : string) (len : nat) (c : caps) :
  exec true re_extract t = Some (len, c) ->
  exists head f mid src rest,
    t = head ++ f ++ mid ++ src ++ ")" ++ rest /\
    take len t = head ++ f ++ mid ++ src ++ ")" /\ drop len t = rest /\
    (8 <= String.length head)%nat /\ (6 <= String.length mid)%nat /\
    f <> "" /\ all_chars (cls_match true word) f = true /\
    first_char (cls_match true ws) mid = true /\
    src <> "" /\ all_chars (cls_match true (not_chr ")")) src = true /\
    rewrite_extracts t
      = "DATE_PART('" ++ f ++ "', " ++ src ++ ")" ++ rewrite_extracts rest.
Proof.
  intros Hexec.
  destruct (exec_extract_inv _ _ _ Hexec)
    as (head & f & mid & src & rest & Ht & Hlen & Hh & Hm & Hf1 & Hf2 & Hmid & Hs1 & Hs2 & G1 & G2).
  exists head, f, mid, src, rest.
  assert (Ht' : t = (head ++ f ++ mid ++ src ++ ")") ++ rest).
  { rewrite Ht. now repeat (rewrite append_assoc || rewrite append_cons || rewrite append_empty_l). }
  assert (Hd : drop len t = rest) by (rewrite Ht' at 1; rewrite Hlen; apply drop_length).
  split; [exact Ht|].
  split; [rewrite Ht' at 1; rewrite Hlen; apply take_length|].
  split; [exact Hd|].
  do 7 (split; [assumption|]).
  destruct t as [|a t']; [destruct head; simpl in Hh; [lia|discriminate Ht]|].
  destruct len as [|n].
  { rewrite !length_append in Hlen. lia. }
  unfold rewrite_extracts, replace_all.
  rewrite (replace_go_match _ _ _ _ _ _ _ Hexec).
  fold (group_text (mk_result 0 (String a t') (S n) c) 1).
  rewrite G1, G2.
  pose proof (exec_length _ _ _ _ _ Hexec) as Hl. cbn [String.length] in Hl.
  rewrite replace_go_drop by lia.
  change (drop n t') with (drop (S n) (String a t')). rewrite Hd.
  now repeat (rewrite append_assoc || rewrite append_cons || rewrite append_empty_l).
Qed.

(** Up to its first rewritten call, the output of the first pass is the
    input. *)
Lemma rewrite_extracts_agree (s : string) :
  rewrite_extracts s = s \/
  exists x m y, s = x ++ m /\ rewrite_extracts s = x ++ "DATE_PART('" ++ y.
Proof.
  induction s as [|a s IH]; [now left|].
  destruct (exec true re_extract (String a s)) as [[len c]|] eqn:E.
  - right. destruct (rewrite_extracts_call _ _ _ E)
      as (head & f & mid & src & rest & _ & _ & _ & _ & _ & _ & _ & _ & _ & _ & Hr).
    exists "", (String a s), (f ++ "', " ++ src ++ ")" ++ rewrite_extracts rest).
    split; [reflexivity|]. now rewrite Hr.
  - rewrite (rewrite_extracts_none _ _ E). destruct IH as [->|(x & m & y & Hs & Hr)].
    + now left.
    + right. exists (String a x), m, y. rewrite Hs at 1. rewrite Hr. now rewrite !append_cons.
Qed.

Lemma nowhere_before_app (P : string -> bool) (a b c : string) :
  nowhere_before P (a ++ b) c = nowhere_before P a (b ++ c) && nowhere_before P b c.
Proof.
  induction a as [|x a IH]; [reflexivity|].
  rewrite append_cons. cbn [nowhere_before]. rewrite IH, !append_cons, append_assoc.
  now rewrite andb_assoc.
Qed.

Lemma nowhere_before_drop (P : string -> bool) (n : nat) (a b : string) :
  nowhere_before P a b = true -> nowhere_before P (drop n a) b = true.
Proof.
  revert a. induction n as [|n IH]; intros a H; [exact H|].
  destruct a as [|x a]; [exact H|]. cbn [drop]. apply IH.
  cbn [nowhere_before] in H. now apply andb_true_iff in H as [_ H].
Qed.

(** From one predicate before one text to another predicate before
    another text, along a run of characters of a class. *)
Lemma nowhere_before_tail_all (P Q : string -> bool) (p : ascii -> bool) (a b b' : string) :
  all_chars p a = true ->
  (forall u, u <> "" -> all_chars p u = true -> P (u ++ b) = false -> Q (u ++ b') = false) ->
  nowhere_before P a b = true -> nowhere_before Q a b' = true.
Proof.
  intros Ha HP. induction a as [|x a IH]; [reflexivity|].
  cbn [nowhere_before]. intros H. apply andb_true_iff in H as [H1 H2].
  pose proof Ha as Ha'. cbn [all_chars] in Ha'. apply andb_true_iff in Ha' as [_ Ha'].
  apply andb_true_iff. split; [|now apply IH].
  apply negb_true_iff. apply HP; [discriminate|exact Ha|]. now apply negb_true_iff.
Qed.

Section FirstPass.
Variable H : string -> bool.
(** [H] holds at no start position in the name and the field of a
    rewritten call, reads no further than a closing parenthesis or the
    name of a rewritten call, and cannot tell the quote behind the field
    of a rewritten call from the white space behind the field of the
    call. *)
Hypothesis H_name : forall z, nowhere_before H "DATE_PART('" z = true.
Hypothesis H_sep : forall z, nowhere_before H "', " z = true.
Hypothesis H_field : forall fs y z,
  all_chars (cls_match true word) fs = true ->
  first_char (cls_match true ws) z = true ->
  H (fs ++ "'" ++ y) = true -> H (fs ++ z) = true.
Hypothesis H_stop_name : forall x y z, H (x ++ "DATE_PART('" ++ y) = true -> H (x ++ z) = true.
Hypothesis H_stop_paren : forall x y z, H (x ++ ")" ++ y) = true -> H (x ++ ")" ++ z) = true.

Lemma rewrite_extracts_first (a : ascii) (s : string) :
  H (String a s) = false -> H (String a (rewrite_extracts s)) = false.
Proof.
  intros Hs. destruct (rewrite_extracts_agree s) as [->|(x & m & y & E & ->)]; [exact Hs|].
  destruct (H (String a (x ++ "DATE_PART('" ++ y))) eqn:E'; [|reflexivity].
  rewrite <- append_cons in E'. apply (H_stop_name _ _ m) in E'.
  rewrite append_cons, <- E in E'. congruence.
Qed.

(** The first pass leaves [H] at no start position, where it held in the
    input at the first character of rewritten calls only. *)
Lemma rewrite_extracts_nowhere (t : string) :
  nowhere (fun u => H u && negb (matches_at true re_extract u)) t = true ->
  nowhere (inside_call H) t = true ->
  nowhere H (rewrite_extracts t) = true.
Proof.
  assert (Hnil : nowhere (fun u => H u && negb (matches_at true re_extract u)) "" = true ->
                 nowhere H (rewrite_extracts "") = true).
  { change (rewrite_extracts "") with "". cbn [nowhere].
    change (matches_at true re_extract "") with false. cbn [negb].
    now rewrite !andb_true_r. }
  remember (String.length t) as n eqn:En.
  assert (Hn : (String.length t <= n)%nat) by lia. clear En.
  revert t Hn. induction n as [|n IH]; intros t Hn H1 H2.
  { destruct t; [|simpl in Hn; lia]. exact (Hnil H1). }
  destruct t as [|a t']; [exact (Hnil H1)|].
  destruct (exec true re_extract (String a t')) as [[len c]|] eqn:E.
  - destruct (rewrite_extracts_call _ _ _ E)
      as (head & f & mid & src & rest & Ht & Htake & Hdrop & Hh & Hm & Hf1 & Hf2 & Hmid
          & Hs1 & Hs2 & Hr).
    rewrite Hr.
    pose proof H2 as H2'. rewrite nowhere_cons in H2'.
    apply andb_true_iff in H2' as [Hin _]. apply negb_true_iff in Hin.
    unfold inside_call in Hin. rewrite E, Htake, Hdrop in Hin.
    apply negb_false_iff in Hin.
    assert (Hin' : nowhere_before H (f ++ mid ++ src ++ ")") rest = true).
    { destruct head as [|e head']; [simpl in Hh; lia|].
      rewrite append_cons in Hin. cbn [drop] in Hin.
      rewrite nowhere_before_app in Hin. now apply andb_true_iff in Hin as [_ Hin]. }
    rewrite nowhere_before_app in Hin'. apply andb_true_iff in Hin' as [Hf Hin'].
    rewrite nowhere_before_app in Hin'. apply andb_true_iff in Hin' as [_ Hin'].
    rewrite nowhere_before_app in Hin'. apply andb_true_iff in Hin' as [Hsrc Hclose].
    cbn [nowhere_before] in Hclose. rewrite andb_true_r in Hclose.
    apply negb_true_iff in Hclose.
    assert (HR : nowhere H (rewrite_extracts rest) = true).
    { apply IH.
      - rewrite <- Hdrop, length_drop. pose proof (exec_length _ _ _ _ _ E) as Hl.
        rewrite Ht, !length_append in Hl. cbn [String.length] in Hn.
        assert (8 <= len)%nat.
        { rewrite <- (length_take len (String a t')) by exact (exec_length _ _ _ _ _ E).
          rewrite Htake, length_append. lia. }
        cbn [String.length]. lia.
      - rewrite <- Hdrop. now apply nowhere_drop.
      - rewrite <- Hdrop. now apply nowhere_drop. }
    rewrite nowhere_append, H_name, andb_true_l.
    rewrite nowhere_append. apply andb_true_iff. split.
    { apply (nowhere_before_tail_all H H (cls_match true word) f
               ((mid ++ src ++ ")") ++ rest)); [exact Hf2| |exact Hf].
      intros u Hu Hu' Hno. destruct (H (u ++ "', " ++ src ++ ")" ++ rewrite_extracts rest)) eqn:E';
        [|reflexivity].
      change ("', " ++ src ++ ")" ++ rewrite_extracts rest)
        with ("'" ++ ", " ++ src ++ ")" ++ rewrite_extracts rest) in E'.
      apply (H_field u _ ((mid ++ src ++ ")") ++ rest) Hu') in E'; [congruence|].
      destruct mid as [|b mid']; [discriminate Hmid|]. rewrite !append_cons. exact Hmid. }
    rewrite nowhere_append, H_sep, andb_true_l.
    rewrite nowhere_append. apply andb_true_iff. split.
    { apply (nowhere_before_tail H src (")" ++ rest)); [|exact Hsrc].
      intros u Hu Hno. destruct (H (u ++ ")" ++ rewrite_extracts rest)) eqn:E'; [|reflexivity].
      apply (H_stop_paren _ _ rest) in E'. congruence. }
    change (")" ++ rewrite_extracts rest) with (String ")" (rewrite_extracts rest)).
    rewrite nowhere_cons, HR, andb_true_r. apply negb_true_iff.
    destruct (H (String ")" (rewrite_extracts rest))) eqn:E'; [|reflexivity].
    apply (H_stop_paren "" _ rest) in E'. rewrite append_empty_l in E'.
    change (")" ++ rest) with (String ")" rest) in *. congruence.
  - rewrite (rewrite_extracts_none _ _ E).
    rewrite nowhere_cons in H1, H2 |- *.
    apply andb_true_iff in H1 as [H1 H1']. apply andb_true_iff in H2 as [_ H2'].
    apply negb_true_iff, andb_false_iff in H1 as [H1|H1].
    2:{ unfold matches_at in H1. rewrite E in H1. discriminate H1. }
    rewrite (rewrite_extracts_first _ _ H1). cbn [negb andb].
    apply IH; [simpl in Hn; lia|assumption|assumption].
Qed.

End FirstPass.

(** A prefix test does not depend on what follows a character that is not
    in the pattern. *)
Lemma startsWith_stop (pat : string) (c : ascii) (x y z : string) :
  all_chars (fun a => negb (Ascii.eqb a c)) pat = true ->
  startsWith (x ++ String c y) pat = true -> startsWith (x ++ z) pat = true.
Proof.
  revert x. induction pat as [|p pat IH]; intros x Hp H; [reflexivity|].
  cbn [all_chars] in Hp. apply andb_true_iff in Hp as [Hp1 Hp2].
  destruct x as [|a x].
  - rewrite append_empty_l in H. cbn [startsWith] in H.
    apply andb_true_iff in H as [H _]. now rewrite H in Hp1.
  - rewrite append_cons in *. cbn [startsWith] in *.
    apply andb_true_iff in H as [H1 H2]. rewrite H1. cbn [andb]. now apply IH.
Qed.

Lemma startsWith_all_chars (p : ascii -> bool) (w pat : string) :
  all_chars p w = true -> startsWith w pat = true -> all_chars p pat = true.
Proof.
  revert w. induction pat as [|x pat IH]; intros w Hw H; [reflexivity|].
  destruct w as [|a w]; [discriminate H|]. cbn [startsWith all_chars] in *.
  apply andb_true_iff in H as [H1 H2]. apply andb_true_iff in Hw as [Hw1 Hw2].
  apply Ascii.eqb_eq in H1 as ->. rewrite Hw1. cbn [andb]. now apply (IH w).
Qed.

(** Where [P] holds nowhere, nor does a predicate that asks for [P]
    somewhere in the text. *)
Lemma nowhere_suffixes (P Q : string -> bool) (s : string) :
  (forall u, nowhere P u = true -> Q u = false) ->
  nowhere P s = true -> nowhere Q s = true.
Proof.
  intros HQ. induction s as [|a s IH]; intros Hs.
  - cbn [nowhere]. now rewrite (HQ "" Hs).
  - rewrite nowhere_cons. rewrite (HQ _ Hs). cbn [negb andb]. apply IH.
    rewrite nowhere_cons in Hs. now apply andb_true_iff in Hs as [_ Hs].
Qed.

Lemma nowhere_unmatched (P : string -> bool) (s : string) :
  nowhere P s = true ->
  nowhere (fun u => P u && negb (matches_at true re_extract u)) s = true.
Proof.
  apply nowhere_impl. intros t Ht. now apply andb_true_iff in Ht as [Ht _].
Qed.

Lemma nowhere_inside_call (P : string -> bool) (s : string) :
  nowhere P s = true -> nowhere (inside_call P) s = true.
Proof.
  apply nowhere_suffixes. intros u Hu. unfold inside_call.
  destruct (exec true re_extract u) as [[len c]|]; [|reflexivity].
  apply negb_false_iff. apply nowhere_before_drop.
  rewrite <- (take_drop len u) in Hu at 1. rewrite nowhere_append in Hu.
  now apply andb_true_iff in Hu as [Hu _].
Qed.

(** The first pass and a literal text that has a character that is not a
    word character, and none of the characters that a rewritten call
    brings. *)
Lemma rewrite_extracts_literal (pat t : string) :
  all_chars (fun a => negb (Ascii.eqb a "D")) pat = true ->
  all_chars (fun a => negb (Ascii.eqb a ")")) pat = true ->
  all_chars (fun a => negb (Ascii.eqb a "'")) pat = true ->
  all_chars (cls_match true word) pat = false ->
  (forall z, nowhere_before (fun u => startsWith u pat) "DATE_PART('" z = true) ->
  (forall z, nowhere_before (fun u => startsWith u pat) "', " z = true) ->
  nowhere (fun u => startsWith u pat && negb (matches_at true re_extract u)) t = true ->
  nowhere (inside_call (fun u => startsWith u pat)) t = true ->
  nowhere (fun u => startsWith u pat) (rewrite_extracts t) = true.
Proof.
  intros HD Hp Hq Hw Hname Hsep.
  apply (rewrite_extracts_nowhere (fun u => startsWith u pat)); try assumption.
  - intros fs y z Hfs _ H. exfalso.
    change ("'" ++ y) with (String "'" y) in H.
    apply (startsWith_stop pat "'" fs y "" Hq) in H. rewrite append_empty_r in H.
    rewrite (startsWith_all_chars _ _ _ Hfs H) in Hw. discriminate Hw.
  - intros x y z H. change ("DATE_PART('" ++ y) with (String "D" ("ATE_PART('" ++ y)) in H.
    exact (startsWith_stop pat "D" x _ z HD H).
  - intros x y z H. change (")" ++ y) with (String ")" y) in H.
    exact (startsWith_stop pat ")" x _ _ Hp H).
Qed.

Lemma rewrite_extracts_call_at (t : string) :
  nowhere (fun u => call_at u && negb (matches_at true re_extract u)) t = true ->
  nowhere (inside_call call_at) t = true ->
  nowhere call_at (rewrite_extracts t) = true.
Proof.
  apply (rewrite_extracts_literal "EXTRACT("); try reflexivity; intros z; reflexivity.
Qed.

Lemma rewrite_extracts_keyword_cast_at (t : string) :
  nowhere keyword_cast_at t = true ->
  nowhere keyword_cast_at (rewrite_extracts t) = true.
Proof.
  intros Ht.
  apply (rewrite_extracts_literal "EXTRACT::"); try reflexivity; try (intros z; reflexivity).
  - now apply (nowhere_unmatched keyword_cast_at).
  - now apply (nowhere_inside_call keyword_cast_at).
Qed.

(** A text that consists of characters of a class up to one character
    outside it, found behind a run of characters of the class: the run is
    the text up to that character. *)
Lemma startsWith_word_end (p : ascii -> bool) (w : string) (c : ascii) (u X : string) :
  all_chars p w = true -> p c = false ->
  all_chars p u = true -> first_char p X = false ->
  startsWith (u ++ X) (w ++ String c "") = true ->
  u = w /\ startsWith X (String c "") = true.
Proof.
  revert u. induction w as [|x w IH]; intros u Hw Hc Hu HX H.
  - rewrite append_empty_l in H. destruct u as [|a u].
    + rewrite append_empty_l in H. now split.
    + rewrite append_cons in H. cbn [startsWith] in H. apply andb_true_iff in H as [H _].
      apply Ascii.eqb_eq in H as <-. cbn [all_chars] in Hu. rewrite Hc in Hu. discriminate.
  - rewrite append_cons in H. cbn [all_chars] in Hw. apply andb_true_iff in Hw as [Hx Hw].
    destruct u as [|a u].
    + rewrite append_empty_l in H. destruct X as [|b X]; [discriminate H|].
      cbn [startsWith] in H. apply andb_true_iff in H as [H _]. apply Ascii.eqb_eq in H as <-.
      cbn [first_char] in HX. congruence.
    + rewrite append_cons in H. cbn [startsWith] in H. apply andb_true_iff in H as [H1 H2].
      apply Ascii.eqb_eq in H1 as <-. cbn [all_chars] in Hu. apply andb_true_iff in Hu as [_ Hu].
      destruct (IH u Hw Hc Hu HX H2) as [-> H3]. now split.
Qed.

Lemma cast_length_colons (s : string) (len : nat) :
  cast_length s = Some len -> startsWith (drop (span_len word_chr s) s) "::" = true.
Proof.
  unfold cast_length. destruct (span_len word_chr s) as [|n]; [discriminate|].
  destruct (drop (S n) s) as [|c1 [|c2 [|b s3]]]; try discriminate.
  destruct (Ascii.eqb c1 ":") eqn:E1; [|discriminate].
  destruct (Ascii.eqb c2 ":") eqn:E2; [|discriminate].
  intros _. apply Ascii.eqb_eq in E1 as ->. apply Ascii.eqb_eq in E2 as ->. reflexivity.
Qed.

(** The pass copies a character that is not a word character. *)
Lemma strip_casts_first (s : string) (c : ascii) :
  starts_with_word s = false ->
  startsWith (strip_casts s) (String c "") = startsWith s (String c "").
Proof.
  destruct s as [|a s]; [reflexivity|]. intros H.
  now rewrite (strip_casts_no_match _ _ (cast_length_no_word _ H)).
Qed.

(** The cast pass brings [EXTRACT(] about only from a keyword with a cast:
    a text that has neither has no [EXTRACT(] after the pass. *)
Lemma strip_casts_call_at (s : string) :
  nowhere call_at s = true -> nowhere keyword_cast_at s = true ->
  nowhere call_at (strip_casts s) = true.
Proof.
  remember (String.length s) as n eqn:En.
  assert (Hn : (String.length s <= n)%nat) by lia. clear En.
  revert s Hn. induction n as [|n IH]; intros s Hn H H'.
  { destruct s; [reflexivity|simpl in Hn; lia]. }
  destruct s as [|a s']; [reflexivity|].
  destruct (word_chr a) eqn:Ea.
  - set (s := String a s') in *.
    set (w := take (span_len word_chr s) s).
    set (Y := drop (span_len word_chr s) s).
    assert (Hs : s = w ++ Y) by (unfold w, Y; now rewrite take_drop).
    assert (Hw : all_chars word_chr w = true) by apply all_chars_take_span.
    assert (HY : starts_with_word Y = false).
    { unfold Y. pose proof (span_len_stop word_chr s) as Hstop.
      destruct (drop _ s); [reflexivity|exact Hstop]. }
    assert (Hb : nowhere_before (fun t => call_at t || keyword_cast_at t) w Y = true).
    { rewrite Hs in H, H'. rewrite nowhere_append in H, H'.
      apply andb_true_iff in H as [H _]. apply andb_true_iff in H' as [H' _].
      clear - H H'. induction w as [|x w IHw]; [reflexivity|].
      cbn [nowhere_before] in *. apply andb_true_iff in H as [H1 H2].
      apply andb_true_iff in H' as [H1' H2']. apply negb_true_iff in H1, H1'.
      rewrite H1, H1'. cbn [orb negb andb]. now apply IHw. }
    assert (Hkey : forall X, starts_with_word X = false ->
              (startsWith Y "::" = true \/ startsWith X "(" = startsWith Y "(") ->
              nowhere_before call_at w X = true).
    { intros X HX HXY.
      apply (nowhere_before_tail_all (fun t => call_at t || keyword_cast_at t) call_at
               word_chr w Y X Hw); [|exact Hb].
      intros u Hu Hu' Hno. apply orb_false_iff in Hno as [Hno1 Hno2].
      destruct (call_at (u ++ X)) eqn:E'; [|reflexivity].
      destruct (startsWith_word_end word_chr "EXTRACT" "(" u X eq_refl eq_refl Hu' HX E')
        as [-> HX'].
      destruct HXY as [HXY|HXY].
      - unfold keyword_cast_at in Hno2.
        change (startsWith ("EXTRACT" ++ Y) "EXTRACT::") with (startsWith Y "::") in Hno2.
        congruence.
      - unfold call_at in Hno1.
        change (startsWith ("EXTRACT" ++ Y) "EXTRACT(") with (startsWith Y "(") in Hno1.
        congruence. }
    destruct (cast_length s) as [len|] eqn:E.
    + destruct (cast_length_bounds _ _ E) as (B0 & B1 & B2 & B3).
      rewrite (strip_casts_match _ _ E). fold w.
      rewrite nowhere_append. apply andb_true_iff. split.
      * apply Hkey; [now apply strip_casts_no_word|]. left. exact (cast_length_colons _ _ E).
      * apply IH; [|now apply nowhere_drop|now apply nowhere_drop].
        rewrite length_drop. unfold s in *. cbn [String.length] in *. lia.
    + rewrite (strip_casts_run _ E). fold w. fold Y.
      rewrite nowhere_append. apply andb_true_iff. split.
      * apply Hkey; [now apply strip_casts_no_word|]. right. now apply strip_casts_first.
      * apply IH; [|now apply nowhere_drop|now apply nowhere_drop].
        unfold Y. rewrite length_drop. unfold s in *. cbn [String.length span_len] in *.
        rewrite Ea. lia.
  - rewrite (strip_casts_no_match a s') by (apply cast_length_no_word; exact Ea).
    rewrite nowhere_cons in H, H' |- *.
    apply andb_true_iff in H as [_ H]. apply andb_true_iff in H' as [_ H'].
    rewrite (IH s'); [|simpl in Hn; lia|assumption|assumption].
    rewrite andb_true_r. apply negb_true_iff. unfold call_at. cbn [startsWith].
    destruct (Ascii.eqb_spec "E"%char a) as [<-|]; [discriminate Ea|reflexivity].
Qed.

Lemma cast_pending_drop (n : nat) (a : string) :
  cast_pending a = false -> cast_pending (drop n a) = false.
Proof.
  revert a. induction n as [|n IH]; intros a H; [exact H|].
  destruct a as [|x a]; [exact H|]. cbn [drop]. apply IH.
  cbn [cast_pending] in H. now apply orb_false_iff in H as [_ H].
Qed.

Lemma all_chars_close (y g : string) : all_chars cast_chr (y ++ ")" ++ g) = false.
Proof. rewrite all_chars_append. apply andb_false_r. Qed.

(** Whether a text ends in an unfinished cast is decided behind its last
    closing parenthesis. *)
Lemma cast_pending_close (x g : string) : cast_pending (x ++ ")" ++ g) = cast_pending g.
Proof.
  induction x as [|a x IH]; [reflexivity|].
  rewrite append_cons. cbn [cast_pending]. rewrite IH, <- andb_assoc.
  replace (startsWith (x ++ ")" ++ g) "::" && all_chars cast_chr (drop 2 (x ++ ")" ++ g)))
    with false; [now rewrite andb_false_r|].
  destruct x as [|c1 [|c2 x]].
  - reflexivity.
  - change (startsWith (String c1 "" ++ ")" ++ g) "::")
      with (Ascii.eqb ":" c1 && false). now rewrite andb_false_r.
  - change (drop 2 (String c1 (String c2 x) ++ ")" ++ g)) with (x ++ ")" ++ g).
    now rewrite all_chars_close, andb_false_r.
Qed.

Lemma cast_pending_intro (x : string) (c : ascii) (t : string) :
  word_chr c = true -> all_chars cast_chr t = true ->
  cast_pending (x ++ String c ("::" ++ t)) = true.
Proof.
  intros Hc Ht. induction x as [|a x IH].
  - rewrite append_empty_l. cbn [cast_pending]. rewrite Hc.
    change (startsWith ("::" ++ t) "::") with true.
    change (drop 2 ("::" ++ t)) with t. now rewrite Ht.
  - rewrite append_cons. cbn [cast_pending]. rewrite IH. apply orb_true_r.
Qed.

(** The last character of a run. *)
Lemma span_len_last (p : ascii -> bool) (a : string) (m : nat) :
  span_len p a = S m ->
  exists x, a = take m a ++ String x (drop (S m) a) /\ p x = true.
Proof.
  revert a. induction m as [|m IH]; intros [|x a] H; try discriminate H;
    cbn [span_len] in H; destruct (p x) eqn:Ex; try discriminate H.
  - exists x. now split.
  - injection H as H. destruct (IH a H) as (y & Ha & Hy).
    exists y. split; [|exact Hy]. cbn [take drop]. rewrite append_cons. now f_equal.
Qed.

Lemma span_len_full (p : ascii -> bool) (a : string) :
  span_len p a = String.length a -> all_chars p a = true.
Proof.
  induction a as [|x a IH]; [reflexivity|]. cbn [span_len String.length all_chars].
  destruct (p x); [|discriminate]. intros [= H]. now rewrite IH.
Qed.

Lemma drop_all (a : string) : drop (String.length a) a = "".
Proof. induction a as [|x a IH]; [reflexivity|exact IH]. Qed.

Lemma word_chr_not_colon_eqb (a : ascii) : word_chr a = true -> Ascii.eqb a ":" = false.
Proof. intros H. rewrite <- chr_match_colon_eqb. now apply word_chr_not_colon. Qed.

(** Behind a text that does not end in an unfinished cast, a word and a
    character that no cast contains do not change the attempt at its
    start, which ends inside the text if it succeeds. *)
Lemma cast_length_behind (a w R : string) :
  cast_pending a = false -> a <> "" ->
  all_chars word_chr w = true ->
  first_char (fun c => cast_chr c || Ascii.eqb c ":") R = false ->
  cast_length (a ++ w ++ R) = cast_length a /\
  forall len, cast_length a = Some len -> (len < String.length a)%nat.
Proof.
  intros Ha Hne Hw HR.
  assert (F1 : first_char word_chr R = false).
  { destruct R as [|c R]; [reflexivity|]. cbn [first_char] in *.
    apply orb_false_iff in HR as [HR _].
    destruct (word_chr c) eqn:E; [|reflexivity]. apply word_chr_cast_chr in E. congruence. }
  assert (F2 : forall c b', w ++ R = String c b' -> Ascii.eqb c ":" = false).
  { intros c b' E. destruct w as [|x w].
    - rewrite append_empty_l in E. subst R. cbn [first_char] in HR.
      now apply orb_false_iff in HR as [_ HR].
    - rewrite append_cons in E. injection E as <- _. cbn [all_chars] in Hw.
      apply andb_true_iff in Hw as [Hx _]. now apply word_chr_not_colon_eqb. }
  pose proof (span_len_le word_chr a) as Hle.
  destruct (Nat.eq_dec (span_len word_chr a) (String.length a)) as [Hfull|Hpart].
  - (* the text is one word *)
    assert (Hnone : cast_length a = None).
    { unfold cast_length. rewrite Hfull. destruct a as [|x a]; [congruence|].
      cbn [String.length].
      change (drop (S (String.length a)) (String x a)) with (drop (String.length a) a).
      now rewrite drop_all. }
    rewrite Hnone. split; [|discriminate].
    unfold cast_length. rewrite <- append_assoc.
    rewrite span_len_all;
      [|rewrite all_chars_append, (span_len_full _ _ Hfull), Hw; reflexivity|exact F1].
    destruct (String.length (a ++ w)) as [|k] eqn:Ek.
    { rewrite length_append in Ek. destruct a; [congruence|simpl in Ek; lia]. }
    rewrite <- Ek, drop_length.
    destruct R as [|c1 [|c2 [|b s3]]]; try reflexivity.
    cbn [first_char] in HR. apply orb_false_iff in HR as [_ HR]. now rewrite HR.
  - assert (Hlt : (span_len word_chr a < String.length a)%nat) by lia.
    unfold cast_length. rewrite (span_len_append _ _ (w ++ R) Hlt).
    destruct (span_len word_chr a) as [|m] eqn:Em; [split; [reflexivity|discriminate]|].
    rewrite drop_append by lia.
    destruct (span_len_last _ _ _ Em) as (x & Hax & Hx).
    pose proof (length_drop (S m) a) as Hd.
    destruct (drop (S m) a) as [|c1 [|c2 [|c3 d3]]] eqn:Ed.
    + simpl in Hd. lia.
    + split; [|discriminate].
      rewrite append_cons, append_empty_l.
      destruct (w ++ R) as [|c2 [|c3 b']] eqn:Eb; try reflexivity.
      now rewrite (F2 _ _ eq_refl), andb_false_r.
    + split; [|discriminate].
      rewrite !append_cons, append_empty_l.
      destruct (w ++ R) as [|c3 b'] eqn:Eb; [reflexivity|].
      destruct (Ascii.eqb_spec c1 ":") as [->|]; [|reflexivity].
      destruct (Ascii.eqb_spec c2 ":") as [->|]; [|reflexivity].
      exfalso. rewrite Hax in Ha.
      change (String ":" (String ":" "")) with ("::" ++ "") in Ha.
      now rewrite (cast_pending_intro _ _ "" Hx eq_refl) in Ha.
    + rewrite !append_cons.
      destruct (Ascii.eqb c1 ":" && Ascii.eqb c2 ":" && cast_chr c3) eqn:EC;
        [|split; [reflexivity|discriminate]].
      apply andb_true_iff in EC as [EC EC3]. apply andb_true_iff in EC as [EC1 EC2].
      apply Ascii.eqb_eq in EC1 as ->. apply Ascii.eqb_eq in EC2 as ->.
      pose proof (span_len_le cast_chr d3) as Hle3.
      assert (Hlt3 : (span_len cast_chr d3 < String.length d3)%nat).
      { destruct (Nat.eq_dec (span_len cast_chr d3) (String.length d3)) as [Hf|]; [|lia].
        exfalso. rewrite Hax in Ha.
        change (String ":" (String ":" (String c3 d3))) with ("::" ++ String c3 d3) in Ha.
        rewrite (cast_pending_intro (take m a) x (String c3 d3) Hx) in Ha; [discriminate|].
        cbn [all_chars]. now rewrite EC3, (span_len_full _ _ Hf). }
      rewrite (span_len_append _ _ (w ++ R) Hlt3).
      split; [reflexivity|]. intros len [= <-].
      cbn [String.length] in Hd. lia.
Qed.

(** The cast pass works on the two sides separately where the first does
    not end in an unfinished cast and the second begins with a word and a
    character that no cast contains. *)
Lemma strip_casts_behind (a w R : string) :
  cast_pending a = false -> all_chars word_chr w = true ->
  first_char (fun c => cast_chr c || Ascii.eqb c ":") R = false ->
  strip_casts (a ++ w ++ R) = strip_casts a ++ strip_casts (w ++ R).
Proof.
  intros Ha Hw HR.
  remember (String.length a) as n eqn:En.
  assert (Hn : (String.length a <= n)%nat) by lia. clear En.
  revert a Hn Ha. induction n as [|n IH]; intros a Hn Ha.
  { destruct a; [reflexivity|simpl in Hn; lia]. }
  destruct a as [|x a]; [reflexivity|].
  destruct (cast_length_behind (String x a) w R Ha ltac:(discriminate) Hw HR) as [Hc Hlen].
  destruct (cast_length (String x a)) as [len|] eqn:E.
  - specialize (Hlen len eq_refl).
    destruct (cast_length_bounds _ _ E) as (B0 & B1 & B2 & _).
    rewrite (strip_casts_match _ _ Hc), (strip_casts_match _ _ E).
    rewrite (span_len_append _ _ (w ++ R)) by lia.
    rewrite take_append by lia. rewrite drop_append by exact B2.
    rewrite IH; [now rewrite append_assoc| |now apply cast_pending_drop].
    rewrite length_drop. simpl in Hn. simpl. lia.
  - rewrite append_cons in Hc |- *.
    rewrite (strip_casts_no_match _ _ Hc), (strip_casts_no_match _ _ E).
    rewrite append_cons. f_equal. apply IH; [simpl in Hn; lia|].
    cbn [cast_pending] in Ha. now apply orb_false_iff in Ha as [_ Ha].
Qed.

Lemma take_app_ge (n : nat) (a b : string) :
  (String.length a <= n)%nat -> take n (a ++ b) = a ++ take (n - String.length a) b.
Proof.
  revert n. induction a as [|x a IH]; intros n H.
  - now rewrite !append_empty_l, Nat.sub_0_r.
  - destruct n as [|n]; [simpl in H; lia|]. rewrite !append_cons. cbn [take String.length].
    rewrite IH by (simpl in H; lia). reflexivity.
Qed.

Lemma drop_app_ge (n : nat) (a b : string) :
  (String.length a <= n)%nat -> drop n (a ++ b) = drop (n - String.length a) b.
Proof.
  revert n. induction a as [|x a IH]; intros n H.
  - now rewrite !append_empty_l, Nat.sub_0_r.
  - destruct n as [|n]; [simpl in H; lia|]. rewrite !append_cons. cbn [drop String.length].
    apply IH. simpl in H. lia.
Qed.

Lemma rewrite_extracts_hour (post : string) :
  rewrite_extracts ("EXTRACT(HOUR FROM ts)" ++ post)
  = "DATE_PART('HOUR', ts)" ++ rewrite_extracts post.
Proof.
  unfold rewrite_extracts, replace_all.
  etransitivity.
  { exact (replace_go_match true re_extract _ "E" ("XTRACT(HOUR FROM ts)" ++ post)
             20 [(2, (18, 20)); (1, (8, 12))]%nat (exec_extract_hour post)). }
  apply (f_equal2 append); [reflexivity|].
  exact (replace_go_skip true re_extract _ "XTRACT(HOUR FROM ts)" post).
Qed.

(** The first pass reaches an occurrence of [EXTRACT(HOUR FROM ts)] that
    no call encloses, and rewrites it; what it has written before is the
    text before the occurrence from its last closing parenthesis on. *)
Lemma rewrite_extracts_at_hour (pre post : string) :
  nowhere (inside_call call_at) (pre ++ "EXTRACT(HOUR FROM ts)" ++ post) = true ->
  exists A,
    rewrite_extracts (pre ++ "EXTRACT(HOUR FROM ts)" ++ post)
      = A ++ "DATE_PART('HOUR', ts)" ++ rewrite_extracts post /\
    (A = pre \/ exists A0 p0 g, A = A0 ++ ")" ++ g /\ pre = p0 ++ ")" ++ g).
Proof.
  remember (String.length pre) as n eqn:En.
  assert (Hn : (String.length pre <= n)%nat) by lia. clear En.
  revert pre Hn. induction n as [|n IH]; intros pre Hn H.
  { destruct pre; [|simpl in Hn; lia]. exists "". rewrite !append_empty_l.
    split; [apply rewrite_extracts_hour|now left]. }
  destruct pre as [|a pre'].
  { exists "". rewrite !append_empty_l. split; [apply rewrite_extracts_hour|now left]. }
  set (Z := "EXTRACT(HOUR FROM ts)" ++ post) in *.
  destruct (exec true re_extract (String a pre' ++ Z)) as [[len c]|] eqn:E.
  - destruct (rewrite_extracts_call _ _ _ E)
      as (head & f & mid & src & rest & Ht & Htake & Hdrop & Hh & Hm & Hf1 & Hf2 & Hmid
          & Hs1 & Hs2 & Hr).
    pose proof H as Hin. rewrite append_cons, nowhere_cons in Hin.
    apply andb_true_iff in Hin as [Hin _]. apply negb_true_iff in Hin.
    unfold inside_call in Hin. rewrite <- append_cons, E in Hin.
    apply negb_false_iff in Hin.
    assert (Hlen8 : (8 <= len)%nat).
    { rewrite <- (length_take len (String a pre' ++ Z)) by exact (exec_length _ _ _ _ _ E).
      rewrite Htake, length_append. lia. }
    destruct (le_lt_dec len (String.length (String a pre'))) as [Hle|Hgt].
    + rewrite drop_append in Hdrop by exact Hle.
      rewrite take_append in Htake by exact Hle.
      destruct (IH (drop len (String a pre'))) as (A & HA & Hrel).
      * rewrite length_drop. cbn [String.length] in *. lia.
      * fold Z. rewrite <- (drop_append len (String a pre') Z Hle). now apply nowhere_drop.
      * fold Z in HA. rewrite Hdrop in HA.
        exists (("DATE_PART('" ++ f ++ "', " ++ src) ++ ")" ++ A). split.
        { rewrite Hr, HA.
          now repeat (rewrite append_assoc || rewrite append_cons || rewrite append_empty_l). }
        right.
        assert (Hpre : String a pre' = (head ++ f ++ mid ++ src) ++ ")" ++ drop len (String a pre')).
        { rewrite <- (take_drop len (String a pre')) at 1. rewrite Htake.
          now repeat (rewrite append_assoc || rewrite append_cons || rewrite append_empty_l). }
        destruct Hrel as [->|(A0 & p0 & g & -> & Hg)].
        { exists ("DATE_PART('" ++ f ++ "', " ++ src), (head ++ f ++ mid ++ src),
            (drop len (String a pre')). now split. }
        exists ((("DATE_PART('" ++ f ++ "', " ++ src) ++ ")") ++ A0),
          (((head ++ f ++ mid ++ src) ++ ")") ++ p0), g.
        split; [now rewrite !append_assoc|].
        rewrite Hpre at 1. rewrite Hg. now rewrite !append_assoc.
    + exfalso.
      rewrite (take_app_ge len (String a pre') Z), (drop_app_ge len (String a pre') Z)
        in Hin by lia.
      rewrite append_cons in Hin. cbn [drop] in Hin.
      set (k := (len - String.length (String a pre'))%nat) in *.
      assert (Hk : take k Z <> "").
      { assert (Hk' : exists k', k = S k') by (exists (pred k); unfold k; lia).
        destruct Hk' as [k' ->]. unfold Z. discriminate. }
      pose proof (nowhere_before_suffix _ _ _ _ Hin Hk) as Hno.
      rewrite take_drop in Hno. discriminate Hno.
  - rewrite append_cons in E |- *. rewrite (rewrite_extracts_none _ _ E).
    destruct (IH pre') as (A & HA & Hrel).
    + simpl in Hn. lia.
    + rewrite append_cons, nowhere_cons in H. now apply andb_true_iff in H as [_ H].
    + exists (String a A). fold Z in HA. rewrite HA. split; [now rewrite append_cons|].
      destruct Hrel as [->|(A0 & p0 & g & -> & ->)]; [now left|].
      right. exists (String a A0), (String a p0), g. now rewrite !append_cons.
Qed.

(** The cast pass can bring [EXTRACT(] about: a cast on the keyword keeps
    the pattern from matching the call, and stripping it leaves the
    call. *)
Example extract_keyword_cast :
  convertPostgreSQLFunctions "SELECT EXTRACT::text(DOW FROM ts), EXTRACT(HOUR FROM ts) FROM t"
    = "SELECT EXTRACT(DOW FROM ts), DATE_PART('HOUR', ts) FROM t".
Proof. vm_compute; reflexivity. Qed.

(** C8, amended: the normaliser rewrites an occurrence of
    [EXTRACT(HOUR FROM ts)] and leaves no [EXTRACT(] in a query in which
    every [EXTRACT(] begins a call that the pattern matches, no call that
    the pattern matches (in any letter case) has [EXTRACT(] inside it,
    [EXTRACT::] does not occur, and the text before the occurrence does
    not end in an unfinished cast. *)
Theorem C8_extract_hour_rewritten (pre post : string) :
  nowhere (fun t => call_at t && negb (matches_at true re_extract t))
    (pre ++ "EXTRACT(HOUR FROM ts)" ++ post) = true ->
  nowhere (inside_call call_at) (pre ++ "EXTRACT(HOUR FROM ts)" ++ post) = true ->
  includes (pre ++ "EXTRACT(HOUR FROM ts)" ++ post) "EXTRACT::" = false ->
  cast_pending pre = false ->
  includes (convertPostgreSQLFunctions (pre ++ "EXTRACT(HOUR FROM ts)" ++ post))
    "DATE_PART('HOUR', ts)" = true /\
  includes (convertPostgreSQLFunctions (pre ++ "EXTRACT(HOUR FROM ts)" ++ post))
    "EXTRACT(" = false.
Proof.
  intros H1 H2 H3 H4.
  change (convertPostgreSQLFunctions (pre ++ "EXTRACT(HOUR FROM ts)" ++ post))
    with (strip_casts (rewrite_extracts (pre ++ "EXTRACT(HOUR FROM ts)" ++ post))).
  split.
  - destruct (rewrite_extracts_at_hour pre post H2) as (A & -> & Hrel).
    assert (HA : cast_pending A = false).
    { destruct Hrel as [->|(A0 & p0 & g & -> & ->)]; [exact H4|].
      rewrite cast_pending_close in *. exact H4. }
    change ("DATE_PART('HOUR', ts)" ++ rewrite_extracts post)
      with ("DATE_PART" ++ "('HOUR', ts)" ++ rewrite_extracts post).
    rewrite (strip_casts_behind A "DATE_PART" ("('HOUR', ts)" ++ rewrite_extracts post)
               HA eq_refl eq_refl).
    change ("DATE_PART" ++ "('HOUR', ts)" ++ rewrite_extracts post)
      with ("DATE_PART('HOUR', ts)" ++ rewrite_extracts post).
    rewrite (strip_casts_append "DATE_PART('HOUR', ts)" _ eq_refl).
    change (strip_casts "DATE_PART('HOUR', ts)") with "DATE_PART('HOUR', ts)".
    apply includes_middle.
  - apply includes_false_nowhere.
    apply strip_casts_call_at.
    + now apply rewrite_extracts_call_at.
    + apply rewrite_extracts_keyword_cast_at. now apply includes_false_nowhere.
Qed.

Lemma C8_witness :
  convertPostgreSQLFunctions
    ("SELECT " ++ "EXTRACT(HOUR FROM ts)"
       ++ " AS signup_hour, EXTRACT(DOW FROM ts) AS signup_day_of_week, extracted_at::date FROM events e")
  = "SELECT DATE_PART('HOUR', ts) AS signup_hour, DATE_PART('DOW', ts) AS signup_day_of_week, extracted_at FROM events e" /\
  includes (convertPostgreSQLFunctions
    ("SELECT " ++ "EXTRACT(HOUR FROM ts)"
       ++ " AS signup_hour, EXTRACT(DOW FROM ts) AS signup_day_of_week, extracted_at::date FROM events e"))
    "DATE_PART('HOUR', ts)" = true /\
  includes (convertPostgreSQLFunctions
    ("SELECT " ++ "EXTRACT(HOUR FROM ts)"
       ++ " AS signup_hour, EXTRACT(DOW FROM ts) AS signup_day_of_week, extracted_at::date FROM events e"))
    "EXTRACT(" = false.
Proof.
  split; [vm_compute; reflexivity|].
  apply (C8_extract_hour_rewritten "SELECT "
    " AS signup_hour, EXTRACT(DOW FROM ts) AS signup_day_of_week, extracted_at::date FROM events e");
    vm_compute; reflexivity.
Defined.

Lemma span_len_app_all (p : ascii -> bool) (a b : string) :
  all_chars p a = true -> span_len p (a ++ b) = (String.length a + span_len p b)%nat.
Proof.
  induction a as [|x a IH]; intros H; [reflexivity|].
  rewrite append_cons. cbn [all_chars span_len String.length] in *.
  apply andb_true_iff in H as [H1 H2]. rewrite H1. now rewrite IH.
Qed.

Lemma span_len_cases (p : ascii -> bool) (a : string) :
  (span_len p a < String.length a)%nat \/ all_chars p a = true.
Proof.
  pose proof (span_len_le p a).
  destruct (Nat.eq_dec (span_len p a) (String.length a)) as [E|E];
    [right; now apply span_len_full|left; lia].
Qed.

Lemma startsWith_colons (s : string) :
  startsWith s "::" = true <-> exists r, s = String ":" (String ":" r).
Proof.
  split.
  - destruct s as [|c1 [|c2 r]]; cbn [startsWith]; rewrite ?andb_false_r; try discriminate.
    intros H. apply andb_true_iff in H as [H1 H2]. apply andb_true_iff in H2 as [H2 _].
    apply Ascii.eqb_eq in H1 as <-. apply Ascii.eqb_eq in H2 as <-. now exists r.
  - intros [r ->]. reflexivity.
Qed.

(** The shape of a cast with another behind it. *)
Lemma chained_cast_at_inv (t : string) :
  chained_cast_at t = true ->
  exists a R r,
    t = String a (String ":" (String ":" R)) /\ word_chr a = true /\
    span_len cast_chr R <> 0%nat /\
    drop (span_len cast_chr R) R = String ":" (String ":" r).
Proof.
  unfold chained_cast_at. intros H.
  apply andb_true_iff in H as [H H4]. apply andb_true_iff in H as [H H3].
  apply andb_true_iff in H as [H1 H2].
  destruct t as [|a t]; [discriminate H1|]. cbn [first_char] in H1. cbn [drop] in H2.
  apply startsWith_colons in H2 as [R ->]. cbn [drop] in H3, H4.
  apply startsWith_colons in H4 as [r Hr]. apply negb_true_iff, Nat.eqb_neq in H3.
  now exists a, R, r.
Qed.

Lemma chained_cast_at_intro (a : ascii) (R r : string) :
  word_chr a = true -> span_len cast_chr R <> 0%nat ->
  drop (span_len cast_chr R) R = String ":" (String ":" r) ->
  chained_cast_at (String a (String ":" (String ":" R))) = true.
Proof.
  intros Ha Hn Hd. unfold chained_cast_at. cbn [first_char drop]. rewrite Ha, Hd.
  apply Nat.eqb_neq in Hn. rewrite Hn. reflexivity.
Qed.

(** The test reads no further than a text that does not begin with a
    colon and whose type characters do not end at [::]. *)
Lemma chained_cast_at_stop (T x z : string) :
  startsWith T ":" = false ->
  startsWith (drop (span_len cast_chr T) T) "::" = false ->
  chained_cast_at (x ++ T) = true -> chained_cast_at (x ++ z) = true.
Proof.
  intros H1 H2 H. apply chained_cast_at_inv in H as (a & R & r & Et & Ha & Hn & Hd).
  destruct x as [|x0 [|x1 [|x2 x]]].
  - rewrite append_empty_l in Et. subst T. exfalso. cbn [span_len] in H2.
    rewrite (word_chr_cast_chr _ Ha) in H2. change (cast_chr ":") with false in H2.
    discriminate H2.
  - rewrite !append_cons, append_empty_l in Et. injection Et as _ ->. discriminate H1.
  - rewrite !append_cons, append_empty_l in Et. injection Et as _ _ ->. discriminate H1.
  - rewrite !append_cons in Et. injection Et as -> -> -> <-. rewrite !append_cons.
    destruct (span_len_cases cast_chr x) as [Hlt|Hall].
    + rewrite span_len_append in Hn, Hd by exact Hlt. rewrite drop_append in Hd by lia.
      destruct (drop (span_len cast_chr x) x) as [|d1 [|d2 d]] eqn:Ed.
      * exfalso. pose proof (length_drop (span_len cast_chr x) x) as Hl.
        rewrite Ed in Hl. simpl in Hl. lia.
      * rewrite append_cons, append_empty_l in Hd. injection Hd as -> ->. discriminate H1.
      * rewrite !append_cons in Hd. injection Hd as -> -> _.
        apply (chained_cast_at_intro a (x ++ z) (d ++ z)); [exact Ha| |].
        -- now rewrite span_len_append by exact Hlt.
        -- rewrite span_len_append by exact Hlt. rewrite drop_append by lia.
           now rewrite Ed.
    + exfalso. rewrite (span_len_app_all _ _ _ Hall) in Hd.
      rewrite drop_length_append in Hd. rewrite Hd in H2. discriminate H2.
Qed.

(** The first pass leaves no cast with another behind it, where the input
    has none. *)
Lemma rewrite_extracts_chained (t : string) :
  nowhere chained_cast_at t = true ->
  nowhere chained_cast_at (rewrite_extracts t) = true.
Proof.
  intros Ht. apply (rewrite_extracts_nowhere chained_cast_at).
  - intros z. reflexivity.
  - intros z. reflexivity.
  - intros fs y z _ _. now apply chained_cast_at_stop.
  - intros x y z. now apply chained_cast_at_stop.
  - intros x y z. now apply chained_cast_at_stop.
  - now apply (nowhere_unmatched chained_cast_at).
  - now apply (nowhere_inside_call chained_cast_at).
Qed.

Lemma all_chars_drop (p : ascii -> bool) (n : nat) (u : string) :
  all_chars p u = true -> all_chars p (drop n u) = true.
Proof.
  revert u. induction n as [|n IH]; intros u H; [exact H|].
  destruct u as [|a u]; [exact H|]. cbn [drop]. apply IH.
  cbn [all_chars] in H. now apply andb_true_iff in H as [_ H].
Qed.

Lemma matches_at_cast_length (u : string) :
  matches_at true re_cast u = match cast_length u with Some _ => true | None => false end.
Proof. unfold matches_at. rewrite exec_cast. now destruct (cast_length u). Qed.

(** The shape of the text where the cast pattern matches. *)
Lemma cast_length_inv (t : string) (len : nat) :
  cast_length t = Some len ->
  exists b s3,
    drop (span_len word_chr t) t = String ":" (String ":" (String b s3)) /\
    cast_chr b = true /\
    len = (span_len word_chr t + 3 + span_len cast_chr s3)%nat.
Proof.
  unfold cast_length. destruct (span_len word_chr t) as [|n]; [discriminate|].
  destruct (drop (S n) t) as [|c1 [|c2 [|b s3]]]; try discriminate.
  destruct (Ascii.eqb c1 ":") eqn:E1; [|discriminate].
  destruct (Ascii.eqb c2 ":") eqn:E2; [|discriminate].
  destruct (cast_chr b) eqn:E3; [|discriminate].
  intros [= <-]. apply Ascii.eqb_eq in E1 as ->. apply Ascii.eqb_eq in E2 as ->.
  now exists b, s3.
Qed.

Lemma cast_length_intro (t : string) (b : ascii) (s3 : string) :
  (0 < span_len word_chr t)%nat ->
  drop (span_len word_chr t) t = String ":" (String ":" (String b s3)) ->
  cast_chr b = true -> cast_length t <> None.
Proof.
  intros Hn Hd Hb. unfold cast_length.
  destruct (span_len word_chr t) as [|n]; [lia|]. rewrite Hd, Hb. discriminate.
Qed.

(** The last character of a run. *)
Lemma span_len_drop_pred (p : ascii -> bool) (s : string) (k : nat) :
  span_len p s = S k -> exists c, drop k s = String c (drop (S k) s) /\ p c = true.
Proof.
  revert s. induction k as [|k IH]; intros [|a s]; cbn [span_len]; try discriminate.
  - destruct (p a) eqn:Ea; [|discriminate]. intros _. now exists a.
  - destruct (p a) eqn:Ea; [|discriminate]. intros [= H]. exact (IH _ H).
Qed.

(** The cast pass copies the first character. *)
Lemma strip_casts_head (y : ascii) (Y : string) :
  exists r, strip_casts (String y Y) = String y r.
Proof.
  destruct (word_chr y) eqn:Ey.
  - destruct (strip_casts_step (String y Y)) as (m & Hs & _). rewrite Hs.
    cbn [span_len]. rewrite Ey. cbn [take]. rewrite append_cons. eauto.
  - rewrite (strip_casts_no_match y Y) by (apply cast_length_no_word; exact Ey). eauto.
Qed.

Lemma strip_casts_copy (y : ascii) (Y : string) :
  word_chr y = false -> strip_casts (String y Y) = String y (strip_casts Y).
Proof. intros Ey. apply strip_casts_no_match, cast_length_no_word. exact Ey. Qed.

(** Behind a run of word characters and a text that does not begin with
    one, the cast pattern matches at the run where the text begins with
    [::] and a type character. *)
Lemma cast_after_run (u X : string) (len : nat) :
  all_chars word_chr u = true -> starts_with_word X = false ->
  cast_length (u ++ X) = Some len ->
  exists b s3, X = String ":" (String ":" (String b s3)) /\ cast_chr b = true.
Proof.
  intros Hu HX H. destruct (cast_length_inv _ _ H) as (b & s3 & Hd & Hb & _).
  rewrite (span_len_all _ _ _ Hu HX) in Hd. rewrite drop_length in Hd. eauto.
Qed.

Lemma nowhere_head (P : string -> bool) (s : string) : nowhere P s = true -> P s = false.
Proof.
  intros H. destruct s; cbn [nowhere] in H; apply andb_true_iff in H as [H _];
    now apply negb_true_iff.
Qed.

Lemma nowhere_before_all (Q : string -> bool) (p : ascii -> bool) (a b : string) :
  all_chars p a = true ->
  (forall u, u <> "" -> all_chars p u = true -> Q (u ++ b) = false) ->
  nowhere_before Q a b = true.
Proof.
  intros Ha HQ. induction a as [|x a IH]; [reflexivity|].
  cbn [nowhere_before]. rewrite (HQ (String x a)); [|discriminate|exact Ha].
  cbn [negb andb]. apply IH. cbn [all_chars] in Ha. now apply andb_true_iff in Ha as [_ Ha].
Qed.

(** After the cast pass the cast pattern matches nowhere, where no cast of
    the input has another behind it. *)
Lemma strip_casts_settled (s : string) :
  nowhere chained_cast_at s = true ->
  nowhere (matches_at true re_cast) (strip_casts s) = true.
Proof.
  remember (String.length s) as n eqn:En.
  assert (Hn : (String.length s <= n)%nat) by lia. clear En.
  revert s Hn. induction n as [|n IH]; intros s Hn H.
  { destruct s; [reflexivity|simpl in Hn; lia]. }
  destruct s as [|a s']; [reflexivity|].
  destruct (word_chr a) eqn:Ea.
  - set (s := String a s') in *.
    set (w := take (span_len word_chr s) s).
    set (Y := drop (span_len word_chr s) s).
    assert (Hs : s = w ++ Y) by (unfold w, Y; now rewrite take_drop).
    assert (Hw : all_chars word_chr w = true) by apply all_chars_take_span.
    assert (Hpos : (0 < span_len word_chr s)%nat)
      by (unfold s; cbn [span_len]; rewrite Ea; lia).
    assert (Hrun : forall X, starts_with_word X = false ->
              (forall b s3, X = String ":" (String ":" (String b s3)) -> cast_chr b = false) ->
              nowhere_before (matches_at true re_cast) w X = true).
    { intros X HX Hno. apply (nowhere_before_all _ word_chr _ _ Hw). intros u2 _ Hu.
      rewrite matches_at_cast_length.
      destruct (cast_length (u2 ++ X)) as [len|] eqn:E; [|reflexivity]. exfalso.
      destruct (cast_after_run _ _ _ Hu HX E) as (b & s3 & EX & Hb).
      rewrite (Hno _ _ EX) in Hb. discriminate Hb. }
    destruct (cast_length s) as [len|] eqn:E.
    + destruct (cast_length_bounds _ _ E) as (B0 & B1 & B2 & B3).
      destruct (cast_length_inv _ _ E) as (b & s3 & Hd & Hb & Hlen).
      rewrite (strip_casts_match _ _ E). fold w.
      rewrite nowhere_append. apply andb_true_iff. split.
      * apply Hrun; [now apply strip_casts_no_word|]. intros b' s3' EX. exfalso.
        assert (HD : exists r, drop len s = String ":" (String ":" r)).
        { destruct (drop len s) as [|d1 D1] eqn:ED;
            [rewrite strip_casts_empty in EX; discriminate EX|].
          cbn [starts_with_word] in B3. rewrite (strip_casts_copy _ _ B3) in EX.
          injection EX as -> EX.
          destruct D1 as [|d2 D2]; [rewrite strip_casts_empty in EX; discriminate EX|].
          destruct (strip_casts_head d2 D2) as [r Hr]. rewrite Hr in EX.
          injection EX as -> _. now exists D2. }
        destruct HD as [r HD].
        destruct (span_len word_chr s) as [|k] eqn:Ek; [lia|].
        destruct (span_len_drop_pred _ _ _ Ek) as (c & Hc & Hcw).
        assert (Hch : chained_cast_at (drop k s) = true).
        { rewrite Hc, Hd. apply (chained_cast_at_intro c (String b s3) r); [exact Hcw| |].
          - cbn [span_len]. now rewrite Hb.
          - cbn [span_len]. rewrite Hb. cbn [drop]. rewrite <- HD, Hlen.
            replace (S k + 3 + span_len cast_chr s3)%nat
              with (S k + (3 + span_len cast_chr s3))%nat by lia.
            rewrite <- drop_drop. rewrite Hd. reflexivity. }
        rewrite (nowhere_head _ _ (nowhere_drop _ k _ H)) in Hch. discriminate Hch.
      * apply IH; [|now apply nowhere_drop].
        rewrite length_drop. unfold s in *. cbn [String.length] in *. lia.
    + rewrite (strip_casts_run _ E). fold w. fold Y.
      assert (HY : starts_with_word Y = false).
      { unfold Y. pose proof (span_len_stop word_chr s) as Hstop.
        destruct (drop (span_len word_chr s) s); [reflexivity|exact Hstop]. }
      rewrite nowhere_append. apply andb_true_iff. split.
      * apply Hrun; [now apply strip_casts_no_word|]. intros b' s3' EX.
        destruct (cast_chr b') eqn:Eb'; [|reflexivity]. exfalso.
        destruct Y as [|y1 Y1] eqn:EY; [rewrite strip_casts_empty in EX; discriminate EX|].
        cbn [starts_with_word] in HY. rewrite (strip_casts_copy _ _ HY) in EX.
        injection EX as -> EX.
        destruct Y1 as [|y2 Y2]; [rewrite strip_casts_empty in EX; discriminate EX|].
        destruct (strip_casts_head y2 Y2) as [r Hr]. pose proof EX as EX'.
        rewrite Hr in EX'. injection EX' as -> _.
        rewrite (strip_casts_copy ":" Y2 eq_refl) in EX. injection EX as EX.
        destruct Y2 as [|y3 Y3]; [rewrite strip_casts_empty in EX; discriminate EX|].
        destruct (strip_casts_head y3 Y3) as [r' Hr']. rewrite Hr' in EX.
        injection EX as -> _.
        exact (cast_length_intro s b' Y3 Hpos EY Eb' E).
      * apply IH; [|now apply nowhere_drop].
        unfold Y. rewrite length_drop. unfold s in *. cbn [String.length] in *. lia.
  - rewrite (strip_casts_copy _ _ Ea).
    rewrite nowhere_cons. apply andb_true_iff. split.
    + apply negb_true_iff. rewrite matches_at_cast_length.
      now rewrite cast_length_no_word.
    + rewrite nowhere_cons in H. apply andb_true_iff in H as [_ H].
      apply IH; [simpl in Hn; lia|exact H].
Qed.

Lemma convert_two_passes (q : string) :
  convertPostgreSQLFunctions q = strip_casts (rewrite_extracts q).
Proof. reflexivity. Qed.

(** Neither pass makes the text longer. *)
Lemma rewrite_extracts_length (x : string) :
  (String.length (rewrite_extracts x) <= String.length x)%nat.
Proof.
  remember (String.length x) as n eqn:En.
  assert (Hn : (String.length x <= n)%nat) by lia.
  rewrite En. clear En.
  revert x Hn. induction n as [|n IH]; intros x Hn.
  { destruct x; [simpl; lia|simpl in Hn; lia]. }
  destruct x as [|a x']; [simpl; lia|].
  destruct (exec true re_extract (String a x')) as [[len c]|] eqn:E.
  - destruct (rewrite_extracts_call _ _ _ E)
      as (head & f & mid & src & rest & Ht & _ & _ & Hh & Hm & _ & _ & _ & _ & _ & Hr).
    assert (Hrest : (String.length rest < String.length (String a x'))%nat).
    { rewrite Ht. rewrite !length_append. lia. }
    rewrite Hr. rewrite Ht. rewrite !length_append.
    assert (IH' := IH rest ltac:(lia)).
    change (String.length "DATE_PART('") with 11%nat.
    change (String.length "', ") with 3%nat.
    change (String.length ")") with 1%nat. lia.
  - rewrite (rewrite_extracts_none _ _ E). cbn [String.length].
    assert (IH' := IH x' ltac:(simpl in Hn; lia)). lia.
Qed.

Lemma strip_casts_length (y : string) :
  (String.length (strip_casts y) <= String.length y)%nat.
Proof.
  remember (String.length y) as n eqn:En.
  assert (Hn : (String.length y <= n)%nat) by lia.
  rewrite En. clear En.
  revert y Hn. induction n as [|n IH]; intros y Hn.
  { destruct y; [simpl; lia|simpl in Hn; lia]. }
  destruct y as [|a y']; [simpl; lia|].
  destruct (word_chr a) eqn:Ea.
  - destruct (strip_casts_step (String a y')) as (m & Hs & H1 & H2 & _).
    rewrite Hs, length_append, length_take by lia.
    assert (Hpos : (0 < span_len word_chr (String a y'))%nat)
      by (cbn [span_len]; rewrite Ea; lia).
    assert (IH' := IH (drop m (String a y')) ltac:(rewrite length_drop; lia)).
    rewrite length_drop in IH'. lia.
  - rewrite (strip_casts_copy _ _ Ea). cbn [String.length].
    assert (IH' := IH y' ltac:(simpl in Hn; lia)). lia.
Qed.

(** A text that the first pass leaves as it is has no call to rewrite. *)
Lemma rewrite_extracts_fixed (x : string) :
  rewrite_extracts x = x -> nowhere (matches_at true re_extract) x = true.
Proof.
  induction x as [|a x IH]; intros H; [reflexivity|].
  rewrite nowhere_cons.
  destruct (exec true re_extract (String a x)) as [[len c]|] eqn:E.
  - exfalso.
    assert (Hm : matches_at true re_extract (String a x) = true)
      by (unfold matches_at; now rewrite E).
    apply matches_at_extract in Hm.
    destruct (rewrite_extracts_call _ _ _ E)
      as (head & f & mid & src & rest & _ & _ & _ & _ & _ & _ & _ & _ & _ & _ & Hr).
    rewrite Hr in H. change ("DATE_PART('" ++ ?z) with (String "D" ("ATE_PART('" ++ z)) in H.
    injection H as <- _. discriminate Hm.
  - rewrite (rewrite_extracts_none _ _ E) in H. injection H as H.
    rewrite (IH H), andb_true_r. unfold matches_at. now rewrite E.
Qed.

(** A text that the cast pass leaves as it is has no cast to remove. *)
Lemma strip_casts_fixed (y : string) :
  strip_casts y = y -> nowhere (matches_at true re_cast) y = true.
Proof.
  remember (String.length y) as n eqn:En.
  assert (Hn : (String.length y <= n)%nat) by lia. clear En.
  revert y Hn. induction n as [|n IH]; intros y Hn H.
  { destruct y; [reflexivity|simpl in Hn; lia]. }
  destruct y as [|a y']; [reflexivity|].
  destruct (word_chr a) eqn:Ea.
  - set (s := String a y') in *.
    assert (Hpos : (0 < span_len word_chr s)%nat)
      by (unfold s; cbn [span_len]; rewrite Ea; lia).
    pose proof (span_len_le word_chr s) as Hle.
    destruct (cast_length s) as [len|] eqn:E.
    + exfalso. destruct (cast_length_bounds _ _ E) as (B0 & B1 & B2 & B3).
      rewrite (strip_casts_match _ _ E) in H. apply (f_equal String.length) in H.
      rewrite length_append, length_take in H by lia.
      pose proof (strip_casts_length (drop len s)) as Hl. rewrite length_drop in Hl. lia.
    + rewrite (strip_casts_run _ E) in H.
      assert (H' : take (span_len word_chr s) s ++ strip_casts (drop (span_len word_chr s) s)
                   = take (span_len word_chr s) s ++ drop (span_len word_chr s) s)
        by (now rewrite take_drop).
      clear H. apply append_inj_length in H' as [_ H]; [|reflexivity].
      rewrite <- (take_drop (span_len word_chr s) s).
      rewrite nowhere_append. apply andb_true_iff. split.
      * apply (nowhere_before_all _ word_chr); [apply all_chars_take_span|].
        intros u _ Hu. rewrite matches_at_cast_length.
        destruct (cast_length (u ++ drop (span_len word_chr s) s)) as [len|] eqn:E';
          [|reflexivity].
        exfalso.
        assert (HY : starts_with_word (drop (span_len word_chr s) s) = false).
        { pose proof (span_len_stop word_chr s) as Hstop.
          destruct (drop (span_len word_chr s) s); [reflexivity|exact Hstop]. }
        destruct (cast_after_run _ _ _ Hu HY E') as (b & s3 & EX & Hb).
        exact (cast_length_intro s b s3 Hpos EX Hb E).
      * apply IH; [|exact H]. rewrite length_drop. unfold s in *.
        cbn [String.length] in *. lia.
  - rewrite (strip_casts_copy _ _ Ea) in H. injection H as H.
    rewrite nowhere_cons. apply andb_true_iff. split.
    + apply negb_true_iff. rewrite matches_at_cast_length. now rewrite cast_length_no_word.
    + apply IH; [simpl in Hn; lia|exact H].
Qed.

(** The cast pass leaves the text as it is or makes it shorter. *)
Lemma strip_casts_shorter (y : string) :
  strip_casts y = y \/ (String.length (strip_casts y) < String.length y)%nat.
Proof.
  remember (String.length y) as n eqn:En.
  assert (Hn : (String.length y <= n)%nat) by lia.
  rewrite En. clear En.
  revert y Hn. induction n as [|n IH]; intros y Hn.
  { destruct y; [now left|simpl in Hn; lia]. }
  destruct y as [|a y']; [now left|].
  destruct (word_chr a) eqn:Ea.
  - set (s := String a y') in *.
    assert (Hpos : (0 < span_len word_chr s)%nat)
      by (unfold s; cbn [span_len]; rewrite Ea; lia).
    pose proof (span_len_le word_chr s) as Hle.
    destruct (cast_length s) as [len|] eqn:E.
    + right. destruct (cast_length_bounds _ _ E) as (B0 & B1 & B2 & B3).
      rewrite (strip_casts_match _ _ E).
      rewrite length_append, length_take by lia.
      pose proof (strip_casts_length (drop len s)) as Hl. rewrite length_drop in Hl. lia.
    + rewrite (strip_casts_run _ E).
      destruct (IH (drop (span_len word_chr s) s)) as [E'|E'].
      * rewrite length_drop. unfold s in *. cbn [String.length] in *. lia.
      * left. rewrite E'. apply take_drop.
      * right. rewrite length_append, length_take by lia.
        rewrite length_drop in E'. lia.
  - rewrite (strip_casts_copy _ _ Ea). cbn [String.length].
    destruct (IH y') as [E'|E']; [simpl in Hn; lia|left; now rewrite E'|right; lia].
Qed.

(** The fixed points of the normaliser are the texts in which neither of
    its two patterns matches. *)
Lemma convert_fixed_point_iff (x : string) :
  convertPostgreSQLFunctions x = x <->
  nowhere (matches_at true re_extract) x = true /\
  nowhere (matches_at true re_cast) x = true.
Proof.
  rewrite convert_two_passes. split.
  - intros H.
    pose proof (rewrite_extracts_length x) as L1.
    destruct (strip_casts_shorter (rewrite_extracts x)) as [E|E];
      [|exfalso; rewrite H in E; lia].
    rewrite E in H. rewrite H in E.
    split; [now apply rewrite_extracts_fixed|now apply strip_casts_fixed].
  - intros [H1 H2]. unfold rewrite_extracts, strip_casts, replace_all.
    rewrite (replace_go_nowhere _ _ _ _ H1). now apply replace_go_nowhere.
Qed.

Lemma first_char_append (p : ascii -> bool) (a b : string) :
  a <> "" -> first_char p (a ++ b) = first_char p a.
Proof. destruct a; [congruence|reflexivity]. Qed.

Lemma opens_call_append (x t : string) :
  (span_len (cls_match true ws) x < String.length x)%nat ->
  opens_call (x ++ t) = opens_call x.
Proof.
  intros H. unfold opens_call. rewrite span_len_append by exact H.
  rewrite drop_append by lia. apply first_char_append.
  intros E. pose proof (length_drop (span_len (cls_match true ws) x) x) as Hl.
  rewrite E in Hl. simpl in Hl. lia.
Qed.

Lemma opens_call_spaces (x t : string) :
  all_chars (cls_match true ws) x = true -> opens_call (x ++ t) = opens_call t.
Proof.
  intros H. unfold opens_call. rewrite (span_len_app_all _ _ _ H).
  now rewrite drop_length_append.
Qed.

Lemma opens_call_cons (c : ascii) (t : string) :
  opens_call (String c t) =
  if cls_match true ws c then opens_call t else Ascii.eqb c "(" || Ascii.eqb c ":".
Proof. unfold opens_call. cbn [span_len]. now destruct (cls_match true ws c). Qed.

Lemma startsWith_length (s pat : string) :
  startsWith s pat = true -> (String.length pat <= String.length s)%nat.
Proof.
  revert s. induction pat as [|p pat IH]; intros s H; [simpl; lia|].
  destruct s as [|a s]; [discriminate H|]. cbn [startsWith] in H.
  apply andb_true_iff in H as [_ H]. apply IH in H. simpl. lia.
Qed.

Lemma extract_at_append (x t : string) : extract_at x = true -> extract_at (x ++ t) = true.
Proof.
  unfold extract_at. intros H. rewrite toLowerCase_append. now apply startsWith_prefix.
Qed.

Lemma extract_at_stop (c : ascii) (x y : string) :
  all_chars (fun a => negb (Ascii.eqb a (lower_char c))) "extract" = true ->
  extract_at (x ++ String c y) = true ->
  extract_at x = true /\ (7 <= String.length x)%nat.
Proof.
  intros Hc H. unfold extract_at in H. rewrite toLowerCase_append in H.
  cbn [toLowerCase] in H.
  apply (startsWith_stop "extract" _ _ _ "" Hc) in H. rewrite append_empty_r in H.
  split; [exact H|]. pose proof (startsWith_length _ _ H) as Hl.
  now rewrite toLowerCase_length in Hl.
Qed.

(** The test reads no further than a character that is none of the
    letters of the keyword, no white space, no parenthesis and no colon. *)
Lemma call_open_at_stop (c : ascii) (x y z : string) :
  all_chars (fun a => negb (Ascii.eqb a (lower_char c))) "extract" = true ->
  cls_match true ws c = false ->
  Ascii.eqb c "(" || Ascii.eqb c ":" = false ->
  call_open_at (x ++ String c y) = true -> call_open_at (x ++ z) = true.
Proof.
  intros Hc Hs Ho H. unfold call_open_at in *. apply andb_true_iff in H as [H1 H2].
  destruct (extract_at_stop _ _ _ Hc H1) as [He Hl].
  rewrite (extract_at_append _ _ He). cbn [andb].
  rewrite drop_append in H2 |- * by exact Hl.
  destruct (span_len_cases (cls_match true ws) (drop 7 x)) as [Hlt|Hall].
  - rewrite opens_call_append in H2 |- * by exact Hlt. exact H2.
  - rewrite (opens_call_spaces _ _ Hall), opens_call_cons, Hs in H2. congruence.
Qed.

(** The first pass leaves the beginning of a call nowhere, where the
    input has it at the calls that are rewritten only, and not inside
    them. *)
Lemma rewrite_extracts_call_open (t : string) :
  nowhere (fun u => call_open_at u && negb (matches_at true re_extract u)) t = true ->
  nowhere (inside_call call_open_at) t = true ->
  nowhere call_open_at (rewrite_extracts t) = true.
Proof.
  apply (rewrite_extracts_nowhere call_open_at).
  - intros z. reflexivity.
  - intros z. reflexivity.
  - intros fs y z _ _. change ("'" ++ y) with (String "'" y).
    now apply call_open_at_stop.
  - intros x y z. change ("DATE_PART('" ++ y) with (String "D" ("ATE_PART('" ++ y)).
    now apply call_open_at_stop.
  - intros x y z. change (")" ++ y) with (String ")" y).
    now apply call_open_at_stop.
Qed.

(** Where the call pattern matches, a call begins. *)
Lemma matches_at_call_open (s : string) :
  matches_at true re_extract s = true -> call_open_at s = true.
Proof.
  intros H. unfold call_open_at. pose proof (matches_at_extract _ H) as He.
  unfold extract_at. rewrite He. cbn [andb].
  unfold matches_at in H. destruct (exec true re_extract s) as [[len c]|] eqn:E; [|discriminate].
  clear H He. revert E. unfold exec, re_extract. cbn [run seq lit].
  destruct s as [|a1 [|a2 [|a3 [|a4 [|a5 [|a6 [|a7 s]]]]]]];
    try discriminate;
    try (repeat match goal with
         | |- context [chr_match true ?p ?a] => destruct (chr_match true p a)
         end; discriminate).
  destruct (chr_match true "E" a1); [|discriminate].
  destruct (chr_match true "X" a2); [|discriminate].
  destruct (chr_match true "T" a3); [|discriminate].
  destruct (chr_match true "R" a4); [|discriminate].
  destruct (chr_match true "A" a5); [|discriminate].
  destruct (chr_match true "C" a6); [|discriminate].
  destruct (chr_match true "T" a7); [|discriminate].
  rewrite greedy_span.
  2:{ intros a s' i' Ha. cbn [run]. now rewrite (space_not_paren _ Ha). }
  cbn [run drop]. unfold opens_call.
  destruct (drop (span_len (cls_match true ws) s) s) as [|p s1]; [discriminate|].
  destruct (chr_match true "(" p) eqn:Ep; [|discriminate].
  apply chr_match_open in Ep as ->. reflexivity.
Qed.

Lemma extract_letters_no_word (c : ascii) :
  word_chr c = false ->
  all_chars (fun a => negb (Ascii.eqb a (lower_char c))) "extract" = true.
Proof. unfold word_chr. each_ascii c; vm_compute; congruence. Qed.

Lemma word_chr_opens_no_call (b : ascii) (t : string) :
  word_chr b = true -> opens_call (String b t) = false.
Proof.
  intros H. rewrite opens_call_cons. unfold word_chr in H.
  each_ascii b; vm_compute in H; try discriminate H; reflexivity.
Qed.

(** Behind a run of word characters and before a text that does not
    begin with one, a call begins where the run is the keyword and the
    text opens the call. *)
Lemma call_open_at_run (u Z : string) :
  all_chars word_chr u = true -> starts_with_word Z = false ->
  call_open_at (u ++ Z) = true ->
  extract_at u = true /\ String.length u = 7%nat /\ opens_call Z = true.
Proof.
  intros Hu HZ H. unfold call_open_at in H. apply andb_true_iff in H as [H1 H2].
  assert (He : extract_at u = true /\ (7 <= String.length u)%nat).
  { destruct Z as [|c y].
    - rewrite append_empty_r in H1. split; [exact H1|].
      pose proof (startsWith_length _ _ H1) as Hl. now rewrite toLowerCase_length in Hl.
    - cbn [starts_with_word] in HZ.
      exact (extract_at_stop c u y (extract_letters_no_word _ HZ) H1). }
  destruct He as [He Hl]. split; [exact He|].
  rewrite drop_append in H2 by exact Hl.
  destruct (drop 7 u) as [|b r] eqn:Ed.
  - split; [|exact H2]. pose proof (length_drop 7 u) as Hd. rewrite Ed in Hd.
    simpl in Hd. lia.
  - exfalso. rewrite append_cons in H2.
    assert (Hb : word_chr b = true).
    { pose proof (all_chars_drop word_chr 7 u Hu) as Hw. rewrite Ed in Hw.
      cbn [all_chars] in Hw. now apply andb_true_iff in Hw as [Hw _]. }
    rewrite (word_chr_opens_no_call _ _ Hb) in H2. discriminate H2.
Qed.

Lemma call_open_at_run_intro (u Z : string) :
  extract_at u = true -> String.length u = 7%nat -> opens_call Z = true ->
  call_open_at (u ++ Z) = true.
Proof.
  intros He Hl HZ. unfold call_open_at. rewrite (extract_at_append _ _ He).
  rewrite <- Hl. now rewrite drop_length.
Qed.

(** The cast pass copies the white space and the character behind it. *)
Lemma opens_call_strip_casts (Y : string) : opens_call (strip_casts Y) = opens_call Y.
Proof.
  induction Y as [|a Y IH]; [reflexivity|].
  destruct (cls_match true ws a) eqn:Ea.
  - rewrite (strip_casts_copy _ _ (space_not_word _ Ea)).
    rewrite !opens_call_cons, Ea. exact IH.
  - destruct (strip_casts_head a Y) as [r ->]. now rewrite !opens_call_cons, Ea.
Qed.

(** The cast pass brings the beginning of a call about nowhere. *)
Lemma strip_casts_call_open (s : string) :
  nowhere call_open_at s = true -> nowhere call_open_at (strip_casts s) = true.
Proof.
  remember (String.length s) as n eqn:En.
  assert (Hn : (String.length s <= n)%nat) by lia. clear En.
  revert s Hn. induction n as [|n IH]; intros s Hn H.
  { destruct s; [reflexivity|simpl in Hn; lia]. }
  destruct s as [|a s']; [reflexivity|].
  destruct (word_chr a) eqn:Ea.
  - set (s := String a s') in *.
    set (w := take (span_len word_chr s) s).
    set (Y := drop (span_len word_chr s) s).
    assert (Hs : s = w ++ Y) by (unfold w, Y; now rewrite take_drop).
    assert (Hw : all_chars word_chr w = true) by apply all_chars_take_span.
    assert (HY : starts_with_word Y = false).
    { unfold Y. pose proof (span_len_stop word_chr s) as Hstop.
      destruct (drop (span_len word_chr s) s); [reflexivity|exact Hstop]. }
    assert (Hb : nowhere_before call_open_at w Y = true).
    { rewrite Hs in H. rewrite nowhere_append in H. now apply andb_true_iff in H as [H _]. }
    assert (Hkey : forall X, starts_with_word X = false ->
              (opens_call X = true -> opens_call Y = true) ->
              nowhere_before call_open_at w X = true).
    { intros X HX HXY.
      apply (nowhere_before_tail_all call_open_at call_open_at word_chr w Y X Hw);
        [|exact Hb].
      intros u _ Hu Hno. destruct (call_open_at (u ++ X)) eqn:E; [|reflexivity].
      destruct (call_open_at_run u X Hu HX E) as (He & Hl & Ho).
      rewrite (call_open_at_run_intro u Y He Hl (HXY Ho)) in Hno. discriminate Hno. }
    destruct (cast_length s) as [len|] eqn:E.
    + destruct (cast_length_bounds _ _ E) as (B0 & B1 & B2 & B3).
      rewrite (strip_casts_match _ _ E). fold w.
      rewrite nowhere_append. apply andb_true_iff. split.
      * apply Hkey; [now apply strip_casts_no_word|]. intros _.
        pose proof (cast_length_colons _ _ E) as Hc. fold Y in Hc.
        apply startsWith_colons in Hc as [r ->]. reflexivity.
      * apply IH; [|now apply nowhere_drop].
        rewrite length_drop. unfold s in *. cbn [String.length] in *. lia.
    + rewrite (strip_casts_run _ E). fold w. fold Y.
      rewrite nowhere_append. apply andb_true_iff. split.
      * apply Hkey; [now apply strip_casts_no_word|].
        now rewrite opens_call_strip_casts.
      * apply IH; [|now apply nowhere_drop].
        unfold Y. rewrite length_drop. unfold s in *. cbn [String.length span_len] in *.
        rewrite Ea. lia.
  - rewrite (strip_casts_copy _ _ Ea).
    cbn [nowhere] in *. apply andb_true_iff in H as [_ H].
    unfold call_open_at at 1. rewrite (extract_at_word _ _ Ea). cbn [negb andb].
    apply IH; [simpl in Hn; lia|exact H].
Qed.

(** C2, amended: a second pass changes nothing exactly when neither
    pattern of the normaliser matches in the output of the first. This is
    so for every query in which the word [extract] (in any letter case)
    goes on with a parenthesis or a colon only where it begins a call that
    the first rule rewrites, not inside such a call, and in which no cast
    has [::] behind it. *)
Theorem C2_normalize_idempotence (q : string) :
  (convertPostgreSQLFunctions (convertPostgreSQLFunctions q) = convertPostgreSQLFunctions q <->
   nowhere (matches_at true re_extract) (convertPostgreSQLFunctions q) = true /\
   nowhere (matches_at true re_cast) (convertPostgreSQLFunctions q) = true) /\
  (nowhere (fun u => call_open_at u && negb (matches_at true re_extract u)) q = true ->
   nowhere (inside_call call_open_at) q = true ->
   nowhere chained_cast_at q = true ->
   convertPostgreSQLFunctions (convertPostgreSQLFunctions q) = convertPostgreSQLFunctions q).
Proof.
  split; [apply convert_fixed_point_iff|].
  intros H1 H2 H3. apply convert_fixed_point_iff. rewrite convert_two_passes. split.
  - apply (nowhere_impl call_open_at); [apply matches_at_call_open|].
    apply strip_casts_call_open. now apply rewrite_extracts_call_open.
  - apply strip_casts_settled. now apply rewrite_extracts_chained.
Qed.

Lemma C2_witness :
  convertPostgreSQLFunctions
    "SELECT ROUND(COUNT(e.engagement_id)::numeric / COUNT(p.post_id), 2) AS per_post, EXTRACT(DOW FROM u.created_at) AS d, u.signup_date::date AS day, '2024-01-01'::date AS since, x :: int, extract_date FROM users u WHERE note LIKE '%extract%'"
    = "SELECT ROUND(COUNT(e.engagement_id)::numeric / COUNT(p.post_id), 2) AS per_post, DATE_PART('DOW', u.created_at) AS d, u.signup_date AS day, '2024-01-01'::date AS since, x :: int, extract_date FROM users u WHERE note LIKE '%extract%'" /\
  convertPostgreSQLFunctions (convertPostgreSQLFunctions
    "SELECT ROUND(COUNT(e.engagement_id)::numeric / COUNT(p.post_id), 2) AS per_post, EXTRACT(DOW FROM u.created_at) AS d, u.signup_date::date AS day, '2024-01-01'::date AS since, x :: int, extract_date FROM users u WHERE note LIKE '%extract%'")
    = convertPostgreSQLFunctions
    "SELECT ROUND(COUNT(e.engagement_id)::numeric / COUNT(p.post_id), 2) AS per_post, EXTRACT(DOW FROM u.created_at) AS d, u.signup_date::date AS day, '2024-01-01'::date AS since, x :: int, extract_date FROM users u WHERE note LIKE '%extract%'".
Proof.
  split.
  - vm_compute; reflexivity.
  - apply C2_normalize_idempotence; vm_compute; reflexivity.
Defined.

(** The first pass can leave a call for a second one: a cast inside the
    call keeps the pattern from matching until the cast pass has removed
    it, and a call inside another is not reached by the scan. *)
Example second_pass_rewrites :
  convertPostgreSQLFunctions "SELECT EXTRACT(DOW::text FROM ts) FROM t"
    = "SELECT EXTRACT(DOW FROM ts) FROM t" /\
  convertPostgreSQLFunctions (convertPostgreSQLFunctions "SELECT EXTRACT(DOW::text FROM ts) FROM t")
    = "SELECT DATE_PART('DOW', ts) FROM t" /\
  convertPostgreSQLFunctions
    (convertPostgreSQLFunctions "SELECT EXTRACT(EPOCH FROM (EXTRACT(HOUR FROM ts) * 3600)) FROM t")
    = "SELECT DATE_PART('EPOCH', (DATE_PART('HOUR', ts) * 3600)) FROM t".
Proof. repeat split; vm_compute; reflexivity. Qed.
